(** * The entity-component runtime: pools, component base, library components

    A shallow embedding of
    - [include/entity/component.h]            (the [Component<T>] adapter),
    - [include/entity/component_interface.h]  (the type-erased interface),
    - [component_library/src/physics.cpp], [rendermesh.cpp], [graph.cpp]
      (three concrete components),
    together with a model of the slot pool and of the entity index table
    they are written against. *)

From Stdlib Require Import ZArith Lia Floats.SpecFloat.
From stdpp Require Import base option functions list strings.

Open Scope nat_scope.

(** ** Pool-backed storage *)

(** Where a fresh element is spliced into the iteration order
    ([AllocationLocation], the second argument of [Component::AddEntity]). *)
Inductive AllocationLocation := kAddToFront | kAddToBack.

Section VectorPool.
Context {T : Type}.

(** Modelled from the spec: the slot of a [VectorPool<T>]
    ([entity/vector_pool.h] is not among the sources).  A slot is either
    free, linked into the free list, or occupied, holding one payload and
    the backward and forward links of the iteration order.  A link [None]
    stands for the end of a list. *)
Inductive Slot :=
| FreeSlot (next_free : option nat)
| UsedSlot (payload : T) (prev next : option nat).

(** Modelled from the spec: [VectorPool<T>], a growable array of slots
    addressed by index, the two ends of the doubly-linked list of occupied
    slots and the head of the free list. *)
Record VectorPool := mkPool {
  elements : list Slot;
  first_used : option nat;
  last_used : option nat;
  first_free : option nat
}.

Definition empty_pool : VectorPool := mkPool [] None None None.

Definition set_next (n : option nat) (s : Slot) : Slot :=
  match s with
  | UsedSlot d pr _ => UsedSlot d pr n
  | FreeSlot f => FreeSlot f
  end.

Definition set_prev (pr : option nat) (s : Slot) : Slot :=
  match s with
  | UsedSlot d _ n => UsedSlot d pr n
  | FreeSlot f => FreeSlot f
  end.

Definition set_payload (d : T) (s : Slot) : Slot :=
  match s with
  | UsedSlot _ pr n => UsedSlot d pr n
  | FreeSlot f => FreeSlot f
  end.

(** [link_next p i n]: make [n] the successor of [i]; the successor of
    "no element" is the front of the list. *)
Definition link_next (p : VectorPool) (i n : option nat) : VectorPool :=
  match i with
  | None => mkPool (elements p) n (last_used p) (first_free p)
  | Some i =>
      mkPool (alter (set_next n) i (elements p))
             (first_used p) (last_used p) (first_free p)
  end.

(** [link_prev p i pr]: make [pr] the predecessor of [i]; the predecessor
    of "no element" is the back of the list. *)
Definition link_prev (p : VectorPool) (i pr : option nat) : VectorPool :=
  match i with
  | None => mkPool (elements p) (first_used p) pr (first_free p)
  | Some i =>
      mkPool (alter (set_prev pr) i (elements p))
             (first_used p) (last_used p) (first_free p)
  end.

(** Modelled from the spec: [GetElementData], the spec's [get(handle)]:
    the payload, or null when the slot is free or out of range. *)
Definition GetElementData (p : VectorPool) (index : nat) : option T :=
  match elements p !! index with
  | Some (UsedSlot d _ _) => Some d
  | _ => None
  end.

(** Writing through the pointer returned by [GetElementData]. *)
Definition SetElementData (p : VectorPool) (index : nat) (d : T)
  : VectorPool :=
  mkPool (alter (set_payload d) index (elements p))
         (first_used p) (last_used p) (first_free p).

(** Modelled from the spec: the slot a new element goes to: the head of
    the free list when there is one, the end of the grown array
    otherwise.  Returns the index and the pool with the slot taken. *)
Definition take_slot (p : VectorPool) : nat * VectorPool :=
  match first_free p with
  | Some i =>
      match elements p !! i with
      | Some (FreeSlot nf) =>
          (i, mkPool (elements p) (first_used p) (last_used p) nf)
      | _ =>
          (length (elements p),
           mkPool (elements p ++ [FreeSlot None])
                  (first_used p) (last_used p) (first_free p))
      end
  | None =>
      (length (elements p),
       mkPool (elements p ++ [FreeSlot None])
              (first_used p) (last_used p) (first_free p))
  end.

(** Modelled from the spec: [GetNewElement(alloc_location)], the spec's
    [allocate(placement)]: always succeeds, the new element holds a
    default-constructed payload [init] and is spliced in at the chosen
    end of the iteration order. *)
Definition GetNewElement (init : T) (loc : AllocationLocation)
    (p : VectorPool) : nat * VectorPool :=
  let '(index, p1) := take_slot p in
  match loc with
  | kAddToFront =>
      let old := first_used p1 in
      let p2 := mkPool (<[index := UsedSlot init None old]> (elements p1))
                       (first_used p1) (last_used p1) (first_free p1) in
      let p3 := link_prev p2 old (Some index) in
      (index, mkPool (elements p3) (Some index) (last_used p3)
                     (first_free p3))
  | kAddToBack =>
      let old := last_used p1 in
      let p2 := mkPool (<[index := UsedSlot init old None]> (elements p1))
                       (first_used p1) (last_used p1) (first_free p1) in
      let p3 := link_next p2 old (Some index) in
      (index, mkPool (elements p3) (first_used p3) (Some index)
                     (first_free p3))
  end.

(** Modelled from the spec: [FreeElement(index)], the spec's
    [free(handle)]: unlinks the slot from the iteration order and pushes
    it onto the free list; a no-op when the slot is already free or out
    of range. *)
Definition FreeElement (p : VectorPool) (index : nat) : VectorPool :=
  match elements p !! index with
  | Some (UsedSlot _ pr nx) =>
      let p1 := link_prev (link_next p pr nx) nx pr in
      mkPool (<[index := FreeSlot (first_free p1)]> (elements p1))
             (first_used p1) (last_used p1) (Some index)
  | _ => p
  end.

(** Iterators: the index of the current slot, [None] for [end()]. *)
Definition Iterator := option nat.

Definition pool_begin (p : VectorPool) : Iterator := first_used p.
Definition pool_end : Iterator := None.

(** [++iter]. *)
Definition iter_next (p : VectorPool) (it : Iterator) : Iterator :=
  match it with
  | Some i =>
      match elements p !! i with
      | Some (UsedSlot _ _ nx) => nx
      | _ => None
      end
  | None => None
  end.

(** Modelled from the spec: [FreeElement(iter)]: frees the element under
    the iterator and returns the iterator to the element after it. *)
Definition FreeElementIter (p : VectorPool) (it : Iterator)
  : VectorPool * Iterator :=
  match it with
  | Some i => (FreeElement p i, iter_next p it)
  | None => (p, None)
  end.

(** The iteration order: the indices met from [begin()] by [++]. *)
Fixpoint order_from (fuel : nat) (slots : list Slot) (it : Iterator)
  : list nat :=
  match fuel, it with
  | S fuel, Some i =>
      match slots !! i with
      | Some (UsedSlot _ _ nx) => i :: order_from fuel slots nx
      | _ => []
      end
  | _, _ => []
  end.

Definition order (p : VectorPool) : list nat :=
  order_from (length (elements p)) (elements p) (first_used p).

(** Modelled from the spec: [Size()].  [Component::GetComponentData]
    range-checks a slot index against it, so it is the extent of the
    backing array, free slots included. *)
Definition Size (p : VectorPool) : nat := length (elements p).

(** Modelled from the spec: the spec's [size()], the count of occupied
    slots. *)
Definition active_count (p : VectorPool) : nat := length (order p).

End VectorPool.

Arguments Slot : clear implicits.
Arguments VectorPool : clear implicits.

(** The links of a slot, its payload forgotten. *)
Definition slot_shape {T} (s : Slot T) : Slot unit :=
  match s with
  | FreeSlot nf => FreeSlot nf
  | UsedSlot _ pr nx => UsedSlot tt pr nx
  end.

(** The linked structure of a pool: which slots are occupied and how they
    are chained, whatever they hold. *)
Definition pool_shape {T} (p : VectorPool T) : VectorPool unit :=
  mkPool (slot_shape <$> elements p) (first_used p) (last_used p) (first_free p).

(** Representation invariant of a pool: [xs] is the iteration order and
    [fs] the free list. *)
Section Representation.
Context {T : Type}.
Implicit Types (slots : list (Slot T)) (xs fs : list nat).

Definition hd_or (qn : option nat) xs : option nat :=
  match xs with [] => qn | x :: _ => Some x end.

Definition last_or (pp : option nat) xs : option nat :=
  match list.last xs with Some x => Some x | None => pp end.

(** [dseg slots pp xs qn]: the slots [xs] are occupied and doubly linked
    in this order, the first one back to [pp], the last one on to [qn]. *)
Fixpoint dseg slots (pp : option nat) xs (qn : option nat) : Prop :=
  match xs with
  | [] => True
  | x :: xs' =>
      (∃ d, slots !! x = Some (UsedSlot d pp (hd_or qn xs')))
      ∧ dseg slots (Some x) xs' qn
  end.

(** [fseg slots fs]: the slots [fs] are free and chained in this order. *)
Fixpoint fseg slots fs : Prop :=
  match fs with
  | [] => True
  | f :: fs' => slots !! f = Some (FreeSlot (head fs')) ∧ fseg slots fs'
  end.

Record represents (p : VectorPool T) xs fs : Prop := mkRep {
  rep_first : first_used p = head xs;
  rep_last : last_used p = list.last xs;
  rep_used : dseg (elements p) None xs None;
  rep_nodup : NoDup xs;
  rep_cover : ∀ i d pr nx,
      elements p !! i = Some (UsedSlot d pr nx) → i ∈ xs;
  rep_free_head : first_free p = head fs;
  rep_free : fseg (elements p) fs;
  rep_free_nodup : NoDup fs
}.

(** A pool is well formed when its links spell out some iteration order
    and some free list. *)
Definition pool_wf (p : VectorPool T) : Prop := ∃ xs fs, represents p xs fs.
End Representation.

(** ** Entities and the component base *)

Definition ComponentId := nat.
Definition ComponentIndex := nat.

(** An entity handle: the index of the entity's slot in the entity pool. *)
Definition EntityRef := nat.

(** Modelled from the spec: [Entity] ([entity/entity.h] is not among the
    sources): for every component type id, the unused marker or the slot
    index of the entity's data in that component's pool. *)
Definition Entity := ComponentId → ComponentIndex.

(** Ghost state: the calls [Component<T>] makes, in the order it makes
    them. *)
Inductive Event :=
| EvGetNewElement (c : ComponentId) (index : nat)
| EvSetComponentDataIndex (e : EntityRef) (c : ComponentId) (v : ComponentIndex)
| EvInitEntity (c : ComponentId) (e : EntityRef)
| EvCleanupEntity (c : ComponentId) (e : EntityRef)
| EvFreeElement (c : ComponentId) (index : nat).

(** What stops a call short of returning. *)
Inductive Fault :=
| NullPointer       (* a null pointer or a freed slot is dereferenced *)
| AssertionFailed   (* an [assert] does not hold *)
| OutOfBounds       (* an array is indexed outside its bounds *)
| OutOfFuel.        (* the bound on nested calls or loop rounds is reached *)

(** What the body of a loop over a pool does at the element it visits. *)
Inductive Step :=
| Advance
| RemoveCurrent
| RemoveOther (victim : nat).

Inductive Result (W A : Type) :=
| Ok (a : A) (w : W)
| Err (f : Fault).
Arguments Ok {W A} a w.
Arguments Err {W A} f.

Section Framework.
Context {T Aux : Type}.

(** [kUnusedComponentIndex] of [entity/entity_common.h], which is not
    among the sources. *)
Variable kUnusedComponentIndex : ComponentIndex.

(** Modelled from the spec: the three accessors of [Entity]. *)
Definition IsRegisteredForComponent (ent : Entity) (c : ComponentId) : bool :=
  bool_decide (ent c ≠ kUnusedComponentIndex).

(** [Component<T>::ComponentData]: the payload and the handle of the
    entity that owns it; [None] is the default-constructed handle. *)
Record ComponentData := mkComponentData {
  entity : option EntityRef;
  data : T
}.

(** The entity manager's world: the entities, the pool of every component
    instance, whatever else the concrete components keep, and the ghost
    log. *)
Record World := mkWorld {
  entities : EntityRef → Entity;
  pools : ComponentId → VectorPool ComponentData;
  aux : Aux;
  trace : list Event
}.

(** Code runs on the world and returns a value or stops at a fault. *)
Definition M (A : Type) : Type := World → Result World A.

#[global] Instance M_ret : MRet M := λ A a w, Ok a w.
#[global] Instance M_bind : MBind M := λ A B k m w,
  match m w with
  | Ok a w' => k a w'
  | Err f => Err f
  end.

Definition fail {A} (f : Fault) : M A := λ _, Err f.
Definition get_world : M World := λ w, Ok w w.

Definition log (ev : Event) : M unit := λ w,
  Ok tt (mkWorld (entities w) (pools w) (aux w) (trace w ++ [ev])).

Definition set_pool (c : ComponentId) (p : VectorPool ComponentData)
  : M unit := λ w,
  Ok tt (mkWorld (entities w) (<[c := p]> (pools w)) (aux w) (trace w)).

(** [entity->SetComponentDataIndex(c, v)]. *)
Definition SetComponentDataIndex (e : EntityRef) (c : ComponentId)
    (v : ComponentIndex) : M unit := λ w,
  Ok tt (mkWorld (<[e := <[c := v]> (entities w e)]> (entities w))
                 (pools w) (aux w)
                 (trace w ++ [EvSetComponentDataIndex e c v])).

(** What [Component<T>] does with no more than its type id
    ([GetComponentId()] is static). *)
Section Storage.
Variable c : ComponentId.

Definition component_data_ (w : World) : VectorPool ComponentData :=
  pools w c.

Definition GetComponentDataIndex (e : EntityRef) (w : World)
  : ComponentIndex :=
  entities w e c.

(** A [T*] into the pool is the index of the slot it points into;
    [None] is [nullptr]. *)
Definition GetComponentDataAt (data_index : nat) (w : World)
  : option nat :=
  if decide (data_index = kUnusedComponentIndex) then None
  else match GetElementData (component_data_ w) data_index with
       | Some _ => Some data_index
       | None => None
       end.

Definition GetComponentData (e : EntityRef) (w : World) : option nat :=
  let data_index := GetComponentDataIndex e w in
  if decide (Size (component_data_ w) ≤ data_index) then None
  else GetComponentDataAt data_index w.

(** Reading and writing through a [T*]. *)
Definition read (ptr : option nat) (w : World) : option T :=
  i ← ptr; data <$> GetElementData (component_data_ w) i.

Definition write (ptr : option nat) (f : T → T) : M unit := λ w,
  match ptr with
  | Some i =>
      match GetElementData (component_data_ w) i with
      | Some cd =>
          set_pool c
            (SetElementData (component_data_ w) i
               (mkComponentData (entity cd) (f (data cd)))) w
      | None => Err NullPointer
      end
  | None => Err NullPointer
  end.

(** [component_data_.GetElementData(index)->entity = entity]. *)
Definition write_entity (index : nat) (e : EntityRef) : M unit := λ w,
  match GetElementData (component_data_ w) index with
  | Some cd =>
      set_pool c
        (SetElementData (component_data_ w) index
           (mkComponentData (Some e) (data cd))) w
  | None => Err NullPointer
  end.

(** The entity [e] is registered and its index entry leads to a live
    record of the pool that points back to it. *)
Definition registered_at (e : EntityRef) (i : nat) (w : World) : Prop :=
  GetComponentDataIndex e w = i ∧ i ≠ kUnusedComponentIndex
  ∧ entity <$> GetElementData (component_data_ w) i = Some (Some e).

(** Every live record of the pool belongs to an entity whose index
    entry leads back to it. *)
Definition owners_consistent (w : World) : Prop :=
  ∀ i cd, GetElementData (component_data_ w) i = Some cd →
          ∃ e, entity cd = Some e ∧ registered_at e i w.

(** What a hook leaves alone in its own component: the linked
    structure of the pool, the owners of the records and the index
    entries of this type; it may change payloads and anything else,
    and only adds to the log. *)
Definition preserves_registrations (w w' : World) : Prop :=
  pool_shape (component_data_ w') = pool_shape (component_data_ w)
  ∧ (∀ i, entity <$> GetElementData (component_data_ w') i
          = entity <$> GetElementData (component_data_ w) i)
  ∧ (∀ e, GetComponentDataIndex e w' = GetComponentDataIndex e w)
  ∧ ∃ t, trace w' = trace w ++ t.


(** [e] can be registered afresh: it is not registered, and the pool
    is well formed and has room below the unused marker. *)
Definition fresh_for (e : EntityRef) (w : World) : Prop :=
  pool_wf (component_data_ w)
  ∧ Size (component_data_ w) < kUnusedComponentIndex
  ∧ IsRegisteredForComponent (entities w e) c = false.

(** [AddEntity] has what it needs for [e]: either [e] is registered,
    or it is not and the pool is well formed with room for another
    record. *)
Definition addable (e : EntityRef) (w : World) : Prop :=
  (∃ i, registered_at e i w) ∨ fresh_for e w.

(** The state of a component instance is sound: its pool is well
    formed and agrees with the index tables of the entities. *)
Definition component_ok (w : World) : Prop :=
  pool_wf (component_data_ w) ∧ owners_consistent w.
End Storage.

(** A concrete component: its type id, a default-constructed [T], and
    the two per-entity hooks it may override. *)
Record Component := mkComponent {
  GetComponentId : ComponentId;
  new_data : T;
  InitEntity : EntityRef → M unit;
  CleanupEntity : EntityRef → M unit
}.

Coercion GetComponentId : Component >-> ComponentId.

(** A component that overrides neither hook:
    [virtual void InitEntity(EntityRef&) {}] and
    [virtual void CleanupEntity(EntityRef&) {}]. *)
Definition BaseComponent (c : ComponentId) (d : T) : Component :=
  mkComponent c d (λ _, mret tt) (λ _, mret tt).

(** From [w] to [w'] nothing has happened to any entity but [e]: the
    index tables of the others are the same, and so is every record
    that was live. *)
Definition only_touches (e : EntityRef) (w w' : World) : Prop :=
  (∀ e' c, e' ≠ e → entities w' e' c = entities w e' c)
  ∧ (∀ c i cd, GetElementData (pools w c) i = Some cd →
               entity cd ≠ Some e →
               GetElementData (pools w' c) i = Some cd).

(** Every pool that was well formed still is. *)
Definition pools_wf_kept (w w' : World) : Prop :=
  ∀ c, pool_wf (pools w c) → pool_wf (pools w' c).

(** The world a call leaves behind (the one it started from, when it
    stops at a fault). *)
Definition run_world {A} (m : M A) (w : World) : World :=
  match m w with
  | Ok _ w' => w'
  | Err _ => w
  end.

Section Methods.
Variable C : Component.

Definition AddEntity (e : EntityRef) (alloc_location : AllocationLocation)
  : M (option nat) := λ w,
  if IsRegisteredForComponent (entities w e) C
  then Ok (GetComponentData C e w) w
  else
    let '(index, pool) :=
      GetNewElement (mkComponentData None (new_data C)) alloc_location
                    (component_data_ C w) in
    (set_pool C pool;;
     log (EvGetNewElement C index);;
     SetComponentDataIndex e C index;;
     write_entity C index e;;
     log (EvInitEntity C e);;
     InitEntity C e;;
     mret (Some index)) w.

Definition AddEntityGenerically (e : EntityRef) : M unit :=
  AddEntity e kAddToBack;; mret tt.

Definition RemoveEntityInternal (e : EntityRef) : M unit :=
  log (EvCleanupEntity C e);;
  CleanupEntity C e.

Definition RemoveEntity (e : EntityRef) : M unit :=
  RemoveEntityInternal e;;
  w ← get_world;
  let index := GetComponentDataIndex C e w in
  set_pool C (FreeElement (component_data_ C w) index);;
  log (EvFreeElement C index);;
  SetComponentDataIndex e C kUnusedComponentIndex.

(** The iterator variant.  Reading [iter->entity] off [end()] or off a
    freed slot, or using a default-constructed handle as an entity, is
    a fault. *)
Definition RemoveEntityIter (iter : Iterator) : M Iterator :=
  match iter with
  | Some i =>
      w ← get_world;
      match entity <$> GetElementData (component_data_ C w) i with
      | Some (Some e) =>
          RemoveEntityInternal e;;
          w ← get_world;
          let '(pool, new_iter) :=
            FreeElementIter (component_data_ C w) iter in
          set_pool C pool;;
          log (EvFreeElement C i);;
          SetComponentDataIndex e C
                                kUnusedComponentIndex;;
          mret new_iter
      | _ => fail NullPointer
      end
  | None => fail NullPointer
  end.

(** The loop of [ClearComponentData], at most [fuel] rounds of it. *)
Fixpoint ClearLoop (fuel : nat) (iter : Iterator) : M unit :=
  match iter with
  | None => mret tt
  | Some _ =>
      match fuel with
      | 0 => fail OutOfFuel
      | S fuel => new_iter ← RemoveEntityIter iter; ClearLoop fuel new_iter
      end
  end.

Definition ClearComponentData (fuel : nat) : M unit :=
  w ← get_world; ClearLoop fuel (pool_begin (component_data_ C w)).

(** Modelled on the spec's words for [ClearComponentData]: "repeatedly
    calling the iterator-based removal until empty": the element at
    [begin()] is removed as long as there is one, the iterator that
    the removal returns is not used. *)
Fixpoint RemoveUntilEmpty (fuel : nat) : M unit :=
  w ← get_world;
  match pool_begin (component_data_ C w) with
  | None => mret tt
  | Some i =>
      match fuel with
      | 0 => fail OutOfFuel
      | S fuel => RemoveEntityIter (Some i);; RemoveUntilEmpty fuel
      end
  end.

(** A loop over the entities of the component,
    [for (iter = begin(); iter != end(); ) { ... }], whose body either
    leaves the pool alone and steps on with [++iter], or removes the
    element under the iterator and goes on from the iterator that
    [RemoveEntity] returns, or removes another element and steps on
    with [++iter].  [script] is the body's choice at each element;
    the result is the list of the elements visited. *)
Fixpoint Traverse (script : nat → World → Step) (fuel : nat)
    (iter : Iterator) : M (list nat) :=
  match iter with
  | None => mret []
  | Some x =>
      match fuel with
      | 0 => fail OutOfFuel
      | S fuel =>
          w ← get_world;
          new_iter ←
            match script x w with
            | Advance =>
                mret (iter_next (component_data_ C w) iter)
            | RemoveCurrent => RemoveEntityIter iter
            | RemoveOther y =>
                RemoveEntityIter (Some y);;
                w ← get_world;
                mret (iter_next (component_data_ C w) iter)
            end;
          visited ← Traverse script fuel new_iter;
          mret (x :: visited)
      end
  end.

(** The world [RemoveEntity] hands to the cleanup hook. *)
Definition entering_cleanup (e : EntityRef) (w : World) : World :=
  mkWorld (entities w) (pools w) (aux w)
          (trace w ++ [EvCleanupEntity C e]).

(** What [RemoveEntity] makes of the world the hook returns. *)
Definition unregistered (e : EntityRef) (i : nat) (w : World) : World :=
  mkWorld (<[e := <[GetComponentId C := kUnusedComponentIndex]>
                    (entities w e)]> (entities w))
          (<[GetComponentId C := FreeElement (component_data_ C w) i]>
             (pools w))
          (aux w)
          (trace w ++ [EvFreeElement C i;
                       EvSetComponentDataIndex e C
                         kUnusedComponentIndex]).

(** By default, components do not support export. *)
Definition ExportRawData {RawData : Type} (e : EntityRef) (w : World)
  : option RawData := None.

(** The cleanup hook is well behaved on the worlds of [Inv]: called
    for a registered entity it returns, leaves the registrations of
    its component alone and keeps [Inv]; and [Inv] does not depend on
    what [RemoveEntity] itself changes around the call. *)
Record cleanup_ok (Inv : World → Prop) : Prop := mkCleanupOk {
  cleanup_entering : ∀ e w, Inv w → Inv (entering_cleanup e w);
  cleanup_returns : ∀ e i w,
      Inv w → registered_at C e i w →
      ∃ w', CleanupEntity C e w = Ok tt w'
            ∧ preserves_registrations C w w' ∧ Inv w';
  cleanup_leaving : ∀ e i w, Inv w → Inv (unregistered e i w)
}.

(** The body of a traversal only ever removes, besides the element it
    is at, an element that is live and is another one. *)
Definition script_ok (script : nat → World → Step) : Prop :=
  ∀ x w y, script x w = RemoveOther y →
           y ≠ x ∧ is_Some (GetElementData (component_data_ C w) y).
End Methods.

Definition for_each {A} (l : list A) (f : A → M unit) : M unit :=
  foldr (λ a k, f a;; k) (mret tt) l.

(** Components that depend on each other.  [InitEntity] of component [c]
    registers the entity with every component of [requires c], the way
    [PhysicsComponent::InitEntity] and [RenderMeshComponent::InitEntity]
    call [AddEntityToComponent<TransformComponent>], a thin dispatch to
    that component's [AddEntity].  Nothing is asked of [requires]: a
    component may require itself, or one that requires it.  [depth]
    bounds how deep registrations nest. *)
Section Dependencies.
Variable fresh : ComponentId → T.
Variable requires : ComponentId → list ComponentId.

Fixpoint Dependent (depth : nat) (c : ComponentId) : Component :=
  mkComponent c (fresh c)
    (λ e, for_each (requires c) (λ d,
            match depth with
            | 0 => fail OutOfFuel
            | S depth =>
                AddEntity (Dependent depth d) e kAddToBack;; mret tt
            end))
    (λ _, mret tt).

(** Every pool of [ids] is well formed, and those that [e] is not yet
    in have room for one more slot below the unused marker. *)
Definition deps_inv (ids : list ComponentId) (e : EntityRef)
    (w : World) : Prop :=
  ∀ d, d ∈ ids →
       pool_wf (pools w d)
       ∧ (IsRegisteredForComponent (entities w e) d = false →
          Size (pools w d) < kUnusedComponentIndex).

(** From [w] to [w']: the registrations of [e] are kept, and a pool
    changes only when [e] has been registered with it, and then it
    holds exactly one record more. *)
Definition deps_step (e : EntityRef) (w w' : World) : Prop :=
  ∀ d, (IsRegisteredForComponent (entities w e) d = true →
        IsRegisteredForComponent (entities w' e) d = true)
       ∧ (IsRegisteredForComponent (entities w' e) d
          = IsRegisteredForComponent (entities w e) d →
          pools w' d = pools w d)
       ∧ (IsRegisteredForComponent (entities w e) d = false →
          IsRegisteredForComponent (entities w' e) d = true →
          active_count (pools w' d) = S (active_count (pools w d))).

(** The component types, out of [ids], that [e] is not registered
    with. *)
Definition unregistered_count (ids : list ComponentId) (e : EntityRef)
    (w : World) : nat :=
  length (filter (λ d, IsRegisteredForComponent (entities w e) d = false)
                 ids).
End Dependencies.
End Framework.

(** ** The component library *)

(** *** Payloads *)

(** [kMaxPhysicsBodies] of [component_library/physics.h]. *)
Definition kMaxPhysicsBodies : Z := 5.

(** Floating-point values are those of IEEE 754 binary32, the [float] of
    the sources, with the arithmetic the sources themselves do on them. *)
Definition float : Type := spec_float.

Definition float_zero : float := S754_zero false.
Definition float_one : float := S754_finite false 8388608 (-23).
Definition float_two : float := S754_finite false 8388608 (-22).
Definition float_add (a b : float) : float := SFadd 24 128 a b.
Definition float_sub (a b : float) : float := SFsub 24 128 a b.
Definition float_mul (a b : float) : float := SFmul 24 128 a b.
Definition float_div (a b : float) : float := SFdiv 24 128 a b.

(** [a ? ... : ...] on a float: [a != 0]. *)
Definition float_nonzero (a : float) : bool := negb (SFeqb a float_zero).

(** [std::max(a, b)], which is [(a < b) ? b : a]. *)
Definition float_max (a b : float) : float := if SFltb a b then b else a.

(** Three floats: [mathfu::vec3], [btVector3] and the [Vec3] of the
    schema, which the sources convert into one another component by
    component. *)
Record Vec3 := mkVec3 { vec_x : float; vec_y : float; vec_z : float }.

Definition kZeros3f : Vec3 := mkVec3 float_zero float_zero float_zero.
Definition kOnes3f : Vec3 := mkVec3 float_one float_one float_one.

Definition vec_map2 (f : float → float → float) (a b : Vec3) : Vec3 :=
  mkVec3 (f (vec_x a) (vec_x b)) (f (vec_y a) (vec_y b))
         (f (vec_z a) (vec_z b)).

(** [(a + b)], [(a - b)], [vec3::Max(a, b)] and [a / s]. *)
Definition vec_add : Vec3 → Vec3 → Vec3 := vec_map2 float_add.
Definition vec_sub : Vec3 → Vec3 → Vec3 := vec_map2 float_sub.
Definition vec_max : Vec3 → Vec3 → Vec3 := vec_map2 float_max.
Definition vec_div (a : Vec3) (s : float) : Vec3 :=
  mkVec3 (float_div (vec_x a) s) (float_div (vec_y a) s)
         (float_div (vec_z a) s).

(** The shape union of the physics schema and the shape types of Bullet
    that [PhysicsComponent] makes of them. *)
Inductive BulletShapeUnion :=
| BulletShapeUnion_NONE
| BulletShapeUnion_BulletSphereDef
| BulletShapeUnion_BulletBoxDef
| BulletShapeUnion_BulletCylinderDef
| BulletShapeUnion_BulletCapsuleDef
| BulletShapeUnion_BulletConeDef
| BulletShapeUnion_BulletStaticPlaneDef
| BulletShapeUnion_BulletNoShapeDef.

Inductive ShapeType :=
| SPHERE_SHAPE_PROXYTYPE
| BOX_SHAPE_PROXYTYPE
| CYLINDER_SHAPE_PROXYTYPE
| CAPSULE_SHAPE_PROXYTYPE
| CONE_SHAPE_PROXYTYPE
| STATIC_PLANE_PROXYTYPE
| EMPTY_SHAPE_PROXYTYPE.

(** The collision shapes of Bullet that the component constructs, each as
    the constructor call that made it. *)
Inductive btCollisionShape :=
| btSphereShape (radius : float)
| btBoxShape (boxHalfExtents : Vec3)
| btCylinderShape (halfExtents : Vec3)
| btCapsuleShape (radius height : float)
| btConeShape (radius height : float)
| btStaticPlaneShape (planeNormal : Vec3) (planeConstant : float)
| btEmptyShape.

Definition getShapeType (s : btCollisionShape) : ShapeType :=
  match s with
  | btSphereShape _ => SPHERE_SHAPE_PROXYTYPE
  | btBoxShape _ => BOX_SHAPE_PROXYTYPE
  | btCylinderShape _ => CYLINDER_SHAPE_PROXYTYPE
  | btCapsuleShape _ _ => CAPSULE_SHAPE_PROXYTYPE
  | btConeShape _ _ => CONE_SHAPE_PROXYTYPE
  | btStaticPlaneShape _ _ => STATIC_PLANE_PROXYTYPE
  | btEmptyShape => EMPTY_SHAPE_PROXYTYPE
  end.

(** A [btRigidBody]: the mass and the restitution of the construction
    info it was built from ([None] for a restitution that was not set) and
    its [CF_KINEMATIC_OBJECT] flag.  Its motion state and its world
    transform are left out. *)
Record btRigidBody := mkbtRigidBody {
  rb_mass : float;
  m_restitution : option float;
  isKinematicObject : bool
}.

(** What Bullet computes ([btBulletDynamicsCommon.h] is not among the
    sources): the accessors that [ExportRawData] calls. *)
Record Bullet := mkBullet {
  getRadius : btCollisionShape → float;
  getHalfExtentsWithMargin : btCollisionShape → Vec3;
  getHalfHeight : btCollisionShape → float;
  getHeight : btCollisionShape → float;
  getPlaneNormal : btCollisionShape → Vec3;
  getPlaneConstant : btCollisionShape → float;
  getInvMass : btRigidBody → float;
  getRestitution : btRigidBody → float
}.

(** [RigidBodyData]; [shape] and [rigid_body] are [None] for a null
    [unique_ptr]. *)
Record RigidBodyData := mkRigidBodyData {
  offset : Vec3;
  collision_type : Z;
  collides_with : Z;
  shape : option btCollisionShape;
  rigid_body : option btRigidBody;
  should_export : bool;
  user_tag : string
}.

(** [PhysicsData]; [rigid_bodies] is the array of [kMaxPhysicsBodies]
    bodies. *)
Record PhysicsData := mkPhysicsData {
  rigid_bodies : list RigidBodyData;
  body_count : Z;
  enabled : bool
}.

Definition RigidBodyData_new : RigidBodyData :=
  mkRigidBodyData kZeros3f 0 0 None None false EmptyString.

(** [PhysicsData() : body_count(0), enabled(false)]. *)
Definition PhysicsData_new : PhysicsData :=
  mkPhysicsData (replicate (Z.to_nat kMaxPhysicsBodies) RigidBodyData_new)
                0 false.

(** The tables of the shape union. *)
Record BulletSphereDef := mkBulletSphereDef { sphere_radius : float }.

Record BulletBoxDef := mkBulletBoxDef { box_half_extents : option Vec3 }.

Record BulletCylinderDef := mkBulletCylinderDef {
  cylinder_half_extents : option Vec3
}.

Record BulletCapsuleDef := mkBulletCapsuleDef {
  capsule_radius : float;
  capsule_height : float
}.

Record BulletConeDef := mkBulletConeDef {
  cone_radius : float;
  cone_height : float
}.

Record BulletStaticPlaneDef := mkBulletStaticPlaneDef {
  plane_normal : option Vec3;
  plane_constant : float
}.

(** [data_type()] with [data()]: the table of the type that [data_type()]
    names, [None] for a null pointer.  A table of another type than
    [data_type()] names is not expressed. *)
Inductive ShapeData :=
| Data_NONE
| Data_Sphere (data : option BulletSphereDef)
| Data_Box (data : option BulletBoxDef)
| Data_Cylinder (data : option BulletCylinderDef)
| Data_Capsule (data : option BulletCapsuleDef)
| Data_Cone (data : option BulletConeDef)
| Data_StaticPlane (data : option BulletStaticPlaneDef)
| Data_NoShape (data : option unit).

Definition data_type_of (data : ShapeData) : BulletShapeUnion :=
  match data with
  | Data_NONE => BulletShapeUnion_NONE
  | Data_Sphere _ => BulletShapeUnion_BulletSphereDef
  | Data_Box _ => BulletShapeUnion_BulletBoxDef
  | Data_Cylinder _ => BulletShapeUnion_BulletCylinderDef
  | Data_Capsule _ => BulletShapeUnion_BulletCapsuleDef
  | Data_Cone _ => BulletShapeUnion_BulletConeDef
  | Data_StaticPlane _ => BulletShapeUnion_BulletStaticPlaneDef
  | Data_NoShape _ => BulletShapeUnion_BulletNoShapeDef
  end.

(** The tables read by [PhysicsComponent::AddFromRawData]; a field that
    is a pointer is [None] when it is absent from the blob. *)
Record BulletShapeDef := mkBulletShapeDef {
  def_data : ShapeData;
  def_mass : float;
  def_restitution : float;
  def_offset : option Vec3;
  def_collision_type : Z;
  def_collides_with : option (list Z);
  def_user_tag : option string
}.

Definition data_type (shape_def : BulletShapeDef) : BulletShapeUnion :=
  data_type_of (def_data shape_def).

Record PhysicsDef := mkPhysicsDef {
  def_kinematic : bool;
  def_shapes : option (list BulletShapeDef)
}.

(** Modelled from the spec: [RenderMeshData]
    ([component_library/rendermesh.h] is not among the sources): the
    fields [rendermesh.cpp] reads and writes, floats left out; a
    default-constructed record has empty file names and no mesh. *)
Record RenderMeshData := mkRenderMeshData {
  mesh : option string;
  shader : option string;
  mesh_filename : string;
  shader_filename : string;
  pass_mask : Z;
  ignore_culling : bool;
  currently_hidden : bool;
  default_hidden : bool
}.

Definition RenderMeshData_new : RenderMeshData :=
  mkRenderMeshData None None EmptyString EmptyString 0 false false false.

Record RenderMeshDef := mkRenderMeshDef {
  def_source_file : option string;
  def_shader : option string;
  def_render_pass : option (list nat);
  def_ignore_culling : bool;
  def_hidden : bool
}.

(** [SerializableGraphState] and [GraphData] as [graph.cpp] uses them;
    [graph_state] tells whether the state has been initialized with a
    loaded graph. *)
Record SerializableGraphState := mkSerializableGraphState {
  filename : string;
  graph_state : bool
}.

Record GraphData := mkGraphData {
  graphs : list SerializableGraphState
}.

Definition GraphData_new : GraphData := mkGraphData [].

Record GraphDef := mkGraphDef {
  filename_list : option (list string)
}.

(** The data of the components of the library, as the pools hold it. *)
Inductive Payload :=
| TransformPayload
| PhysicsPayload (d : PhysicsData)
| RenderMeshPayload (d : RenderMeshData)
| GraphPayload (d : GraphData).

(** What the components keep besides their pools:
    [RenderMeshComponent::asset_manager_], null until [Init()]; loading a
    file gives the loaded asset or null. *)
Record AssetManager := mkAssetManager {
  LoadMesh : string → option string;
  LoadShader : string → option string
}.

Definition LibraryState := option AssetManager.

(** *** Pure parts of the physics component *)

(** [static_cast<short>]. *)
Definition to_short (z : Z) : Z := ((z + 32768) mod 65536 - 32768)%Z.

(** The [switch] of [AddFromRawData]: the shape that is constructed,
    [None] when a null pointer is dereferenced on the way. *)
Definition shape_of_def (data : ShapeData) : option btCollisionShape :=
  match data with
  | Data_Sphere data =>
      sphere_data ← data;
      Some (btSphereShape (sphere_radius sphere_data))
  | Data_Box data =>
      box_data ← data;
      half_extents ← box_half_extents box_data;
      Some (btBoxShape half_extents)
  | Data_Cylinder data =>
      cylinder_data ← data;
      half_extents ← cylinder_half_extents cylinder_data;
      Some (btCylinderShape half_extents)
  | Data_Capsule data =>
      capsule_data ← data;
      Some (btCapsuleShape (capsule_radius capsule_data)
              (capsule_height capsule_data))
  | Data_Cone data =>
      cone_data ← data;
      Some (btConeShape (cone_radius cone_data) (cone_height cone_data))
  | Data_StaticPlane data =>
      plane_data ← data;
      normal ← plane_normal plane_data;
      Some (btStaticPlaneShape normal (plane_constant plane_data))
  | Data_NoShape _ | Data_NONE => Some btEmptyShape
  end.

(** One round of the loop of [AddFromRawData]: the body at [index] is
    rebuilt from [shape_def]; [None] when a null pointer is
    dereferenced. *)
Definition load_shape (kinematic : bool) (index : nat)
    (shape_def : BulletShapeDef) (rb : RigidBodyData)
  : option RigidBodyData :=
  s ← shape_of_def (def_data shape_def);
  Some (mkRigidBodyData
          (match def_offset shape_def with
           | Some v => v
           | None => kZeros3f
           end)
          (to_short (def_collision_type shape_def))
          (match def_collides_with shape_def with
           | Some l => foldl (λ acc x, Z.lor acc (to_short x)) 0%Z l
           | None => 0%Z
           end)
          (Some s)
          (Some (mkbtRigidBody (def_mass shape_def)
                   (Some (def_restitution shape_def))
                   (bool_decide (0 < index) || kinematic)))
          true
          (match def_user_tag shape_def with
           | Some tag => tag
           | None => user_tag rb
           end)).

(** How a pure part of a call ends: with a value or at a fault. *)
Inductive Outcome (A : Type) :=
| Done (a : A)
| Stop (f : Fault).

Arguments Done {A} a.
Arguments Stop {A} f.

(** The loop itself. *)
Fixpoint load_shapes (kinematic : bool) (index : nat)
    (defs : list BulletShapeDef) (bodies : list RigidBodyData)
  : Outcome (list RigidBodyData) :=
  match defs with
  | [] => Done bodies
  | shape_def :: defs =>
      match bodies !! index with
      | None => Stop OutOfBounds
      | Some rb =>
          match load_shape kinematic index shape_def rb with
          | None => Stop NullPointer
          | Some rb' =>
              load_shapes kinematic (S index) defs (<[index := rb']> bodies)
          end
      end
  end.

(** What [AddFromRawData] writes through [physics_data]. *)
Definition PhysicsData_from_def (physics_def : PhysicsDef) (d : PhysicsData)
  : Outcome PhysicsData :=
  match
    match def_shapes physics_def with
    | Some l =>
        if bool_decide (0 < length l) then
          let shape_count :=
            if bool_decide (kMaxPhysicsBodies < Z.of_nat (length l))%Z
            then kMaxPhysicsBodies else Z.of_nat (length l) in
          match load_shapes (def_kinematic physics_def) 0
                  (take (Z.to_nat shape_count) l) (rigid_bodies d) with
          | Done bodies => Done (mkPhysicsData bodies shape_count (enabled d))
          | Stop f => Stop f
          end
        else Done d
    | None => Done d
    end
  with
  | Done d1 => Done (mkPhysicsData (rigid_bodies d1) (body_count d1) true)
  | Stop f => Stop f
  end.

(** The bodies [rigid_bodies[0 .. body_count)], [None] when that range
    leaves the array. *)
Definition live_bodies (d : PhysicsData) : option (list RigidBodyData) :=
  if bool_decide (body_count d ≤ Z.of_nat (length (rigid_bodies d)))%Z
  then Some (take (Z.to_nat (body_count d)) (rigid_bodies d))
  else None.

(** *** The components *)

Section Library.
(** [kUnusedComponentIndex] of [entity/entity_common.h]; the component
    ids that [ComponentIdLookup<T>::kComponentId] hands out at startup;
    constants of the generated schema headers.  None of these files is
    among the sources. *)
Variable kUnusedComponentIndex : ComponentIndex.
Variables kTransformId kPhysicsId kRenderMeshId kGraphId : ComponentId.
Variables BulletCollisionType_Raycast BulletCollisionType_End : Z.
Variables RenderPass_kCount RenderPass_kOpaque : nat.

Abbreviation LibM := (@M Payload LibraryState).
Abbreviation LibWorld := (@World Payload LibraryState).
Abbreviation LibComponent := (@Component Payload LibraryState).

(** Whether the library is compiled with [NDEBUG], which turns every
    [assert] into nothing. *)
Variable NDEBUG : bool.

(** The Bullet library. *)
Variable bullet : Bullet.

(** [GetMaxMinPositionsForEntity] of [component_library/component_utils.h],
    not among the sources: the corners [(max, min)] it finds for the
    entity, [None] when it returns [false]. *)
Variable GetMaxMinPositionsForEntity :
  EntityRef → LibWorld → option (Vec3 * Vec3).

Definition assert (b : bool) : LibM unit :=
  if NDEBUG then mret tt
  else if b then mret tt else fail AssertionFailed.

(** [p->...] for a pointer [p] of a blob or of the component. *)
Definition deref {A} (p : option A) : LibM A :=
  match p with
  | Some a => mret a
  | None => fail NullPointer
  end.

(** [Data<T>(entity)], that is
    [entity_manager_->GetComponentData<T>(entity)]: the lookup of
    [Component<T>::GetComponentData] in the instance of that type. *)
Definition Data (c : ComponentId) (e : EntityRef) (w : LibWorld)
  : option nat :=
  GetComponentData kUnusedComponentIndex c e w.

(** Modelled from the spec: [TransformComponent]
    ([component_library/transform.h] and [transform.cpp] are not among
    the sources), the component other components require; its data is
    opaque and it keeps the hooks of the base class. *)
Definition TransformComponent : LibComponent :=
  mkComponent kTransformId TransformPayload (λ _, mret tt) (λ _, mret tt).

(** **** PhysicsComponent *)

Definition as_physics (p : Payload) : option PhysicsData :=
  match p with PhysicsPayload d => Some d | _ => None end.

(** [*physics_data]; a null pointer is a fault. *)
Definition deref_physics (physics_data : option nat) : LibM PhysicsData :=
  λ w, match read kPhysicsId physics_data w ≫= as_physics with
       | Some d => Ok d w
       | None => Err NullPointer
       end.

Definition store_physics (physics_data : option nat) (d : PhysicsData)
  : LibM unit :=
  write kPhysicsId physics_data (λ _, PhysicsPayload d).

(** The loops [for (i = 0; i < body_count; i++)] over [rigid_bodies]
    that hand each [rigid_body] to Bullet. *)
Definition touch_bodies (d : PhysicsData) : LibM unit :=
  match live_bodies d with
  | None => fail OutOfBounds
  | Some bodies =>
      if forallb (λ rb, bool_decide (is_Some (rigid_body rb))) bodies
      then mret tt else fail NullPointer
  end.

Definition EnablePhysics (e : EntityRef) : LibM unit :=
  w ← get_world;
  let physics_data := Data kPhysicsId e w in
  d ← deref_physics physics_data;
  if enabled d then mret tt
  else
    store_physics physics_data
      (mkPhysicsData (rigid_bodies d) (body_count d) true);;
    touch_bodies d.

Definition DisablePhysics (e : EntityRef) : LibM unit :=
  w ← get_world;
  let physics_data := Data kPhysicsId e w in
  d ← deref_physics physics_data;
  if enabled d then
    store_physics physics_data
      (mkPhysicsData (rigid_bodies d) (body_count d) false);;
    touch_bodies d
  else mret tt.

(** Physics component requires that you have a transform component. *)
Definition PhysicsComponent : LibComponent :=
  mkComponent kPhysicsId (PhysicsPayload PhysicsData_new)
    (λ e, AddEntity kUnusedComponentIndex TransformComponent e kAddToBack;;
          mret tt)
    DisablePhysics.

(** Only the world transforms of the bodies change, which are left out;
    what remains is what is dereferenced on the way. *)
Definition UpdatePhysicsObjectsTransform (e : EntityRef)
    (kinematic_only : bool) : LibM unit :=
  w ← get_world;
  match Data kPhysicsId e w with
  | None => mret tt
  | Some _ =>
      d ← deref_physics (Data kPhysicsId e w);
      match Data kTransformId e w with
      | None => fail NullPointer
      | Some _ => touch_bodies d
      end
  end.

Definition UpdatePhysicsFromTransform (e : EntityRef) : LibM unit :=
  UpdatePhysicsObjectsTransform e false.

Definition PhysicsComponent_AddFromRawData (e : EntityRef)
    (physics_def : PhysicsDef) : LibM unit :=
  physics_data ←
    AddEntity kUnusedComponentIndex PhysicsComponent e kAddToBack;
  d ← deref_physics physics_data;
  match PhysicsData_from_def physics_def d with
  | Done d' => store_physics physics_data d'
  | Stop f => fail f
  end;;
  UpdatePhysicsFromTransform e.

(** The first loop of [GenerateRaycastShape]: is there a body among
    [rigid_bodies[0 .. body_count)] that collides with the raycast
    layer? *)
Definition raycastable (d : PhysicsData) : option bool :=
  bodies ← live_bodies d;
  Some (existsb
          (λ rb, negb (Z.land (collides_with rb)
                              BulletCollisionType_Raycast =? 0)%Z)
          bodies).

(** The box about the entity that [GenerateRaycastShape] adds: its
    extents, at least one unit in each direction, and its offset. *)
Definition raycast_corners (e : EntityRef) (w : LibWorld) : Vec3 * Vec3 :=
  match GetMaxMinPositionsForEntity e w with
  | Some (max, min) => (max, min)
  | None => (kZeros3f, kZeros3f)
  end.

Definition raycast_extents (e : EntityRef) (w : LibWorld) : Vec3 :=
  let '(max, min) := raycast_corners e w in
  vec_max (vec_sub max min) kOnes3f.

Definition raycast_offset (e : EntityRef) (w : LibWorld) : Vec3 :=
  let '(max, min) := raycast_corners e w in
  vec_div (vec_add max min) float_two.

Definition GenerateRaycastShape (e : EntityRef) (result_exportable : bool)
  : LibM unit :=
  w ← get_world;
  let data := GetComponentData kUnusedComponentIndex kPhysicsId e w in
  d ← deref_physics data;
  if bool_decide (body_count d = kMaxPhysicsBodies) then mret tt
  else
    match raycastable d with
    | None => fail OutOfBounds
    | Some true => mret tt
    | Some false =>
        if bool_decide (0 ≤ body_count d)%Z then
          match rigid_bodies d !! Z.to_nat (body_count d) with
          | None => fail OutOfBounds
          | Some rb =>
              match Data kTransformId e w with
              | None => fail NullPointer
              | Some _ =>
                  store_physics data
                    (mkPhysicsData
                       (<[Z.to_nat (body_count d) :=
                            mkRigidBodyData
                              (raycast_offset e w)
                              BulletCollisionType_Raycast
                              BulletCollisionType_Raycast
                              (Some (btBoxShape
                                       (vec_div (raycast_extents e w)
                                          float_two)))
                              (Some (mkbtRigidBody float_zero None true))
                              result_exportable
                              (user_tag rb)]> (rigid_bodies d))
                       (body_count d + 1)
                       true)
              end
          end
        else fail OutOfBounds
    end.

(** The loop [for (layer = 1; layer < End; layer = layer << 1)] over the
    layers of a [signed short] mask; [None] when it has not ended after
    [fuel] rounds. *)
Fixpoint collision_layers (fuel : nat) (layer mask : Z)
  : option (list Z) :=
  match fuel with
  | 0 => None
  | S fuel =>
      if (layer <? to_short BulletCollisionType_End)%Z then
        rest ← collision_layers fuel (to_short (Z.shiftl layer 1)) mask;
        Some ((if (Z.land mask layer =? 0)%Z then [] else [layer]) ++ rest)
      else Some []
  end.

(** The [switch] of [ExportRawData] on [body.shape->getShapeType()].
    Its [default] branch, [assert(0)], is for shape types that the
    component never constructs. *)
Definition data_of_shape (s : btCollisionShape) : ShapeData :=
  match getShapeType s with
  | SPHERE_SHAPE_PROXYTYPE =>
      Data_Sphere (Some (mkBulletSphereDef (getRadius bullet s)))
  | BOX_SHAPE_PROXYTYPE =>
      Data_Box
        (Some (mkBulletBoxDef (Some (getHalfExtentsWithMargin bullet s))))
  | CYLINDER_SHAPE_PROXYTYPE =>
      Data_Cylinder
        (Some (mkBulletCylinderDef
                 (Some (getHalfExtentsWithMargin bullet s))))
  | CAPSULE_SHAPE_PROXYTYPE =>
      Data_Capsule
        (Some (mkBulletCapsuleDef (getRadius bullet s)
                 (float_mul float_two (getHalfHeight bullet s))))
  | CONE_SHAPE_PROXYTYPE =>
      Data_Cone
        (Some (mkBulletConeDef (getRadius bullet s) (getHeight bullet s)))
  | STATIC_PLANE_PROXYTYPE =>
      Data_StaticPlane
        (Some (mkBulletStaticPlaneDef (Some (getPlaneNormal bullet s))
                 (getPlaneConstant bullet s)))
  | EMPTY_SHAPE_PROXYTYPE => Data_NoShape (Some tt)
  end.

(** [invMass ? 1.0f / invMass : 0.0f]. *)
Definition exported_mass (rigid_body : btRigidBody) : float :=
  let invMass := getInvMass bullet rigid_body in
  if float_nonzero invMass then float_div float_one invMass
  else float_zero.

(** One round of the loop of [ExportRawData] for a body that is
    exported. *)
Definition export_body (body : RigidBodyData) : LibM BulletShapeDef :=
  match shape body with
  | None => fail NullPointer
  | Some s =>
      match collision_layers 16 1 (collides_with body) with
      | None => fail OutOfFuel
      | Some collides =>
          match rigid_body body with
          | None => fail NullPointer
          | Some rigid_body =>
              mret (mkBulletShapeDef (data_of_shape s)
                      (exported_mass rigid_body)
                      (getRestitution bullet rigid_body)
                      (Some (offset body))
                      (collision_type body) (Some collides)
                      (Some (user_tag body)))
          end
      end
  end.

Fixpoint export_bodies (bodies : list RigidBodyData)
  : LibM (list BulletShapeDef) :=
  match bodies with
  | [] => mret []
  | body :: bodies =>
      if should_export body then
        shape_def ← export_body body;
        rest ← export_bodies bodies;
        mret (shape_def :: rest)
      else export_bodies bodies
  end.

Definition PhysicsComponent_ExportRawData (e : EntityRef)
  : LibM (option PhysicsDef) :=
  w ← get_world;
  match GetComponentData kUnusedComponentIndex kPhysicsId e w with
  | None => mret None
  | Some i =>
      d ← deref_physics (Some i);
      if bool_decide (0 < body_count d)%Z then
        match live_bodies d with
        | None => fail OutOfBounds
        | Some bodies =>
            match head bodies ≫= rigid_body with
            | None => fail NullPointer
            | Some rigid_body =>
                let kinematic := isKinematicObject rigid_body in
                shape_vector ← export_bodies bodies;
                if bool_decide (shape_vector = []) then mret None
                else mret (Some (mkPhysicsDef kinematic
                                   (Some shape_vector)))
            end
        end
      else mret None
  end.

(** **** RenderMeshComponent *)

Definition as_rendermesh (p : Payload) : option RenderMeshData :=
  match p with RenderMeshPayload d => Some d | _ => None end.

Definition deref_rendermesh (rendermesh_data : option nat)
  : LibM RenderMeshData :=
  λ w, match read kRenderMeshId rendermesh_data w ≫= as_rendermesh with
       | Some d => Ok d w
       | None => Err NullPointer
       end.

(** Rendermesh depends on transform. *)
Definition RenderMeshComponent : LibComponent :=
  mkComponent kRenderMeshId (RenderMeshPayload RenderMeshData_new)
    (λ e, AddEntity kUnusedComponentIndex TransformComponent e kAddToBack;;
          mret tt)
    (λ _, mret tt).

(** The loop over [render_pass()], with its [assert]. *)
Fixpoint load_pass_mask (passes : list nat) (mask : Z) : LibM Z :=
  match passes with
  | [] => mret mask
  | render_pass :: passes =>
      assert (bool_decide (render_pass < RenderPass_kCount));;
      load_pass_mask passes
        (Z.lor mask (Z.shiftl 1 (Z.of_nat render_pass)))
  end.

Definition RenderMeshComponent_AddFromRawData (e : EntityRef)
    (rendermesh_def : RenderMeshDef) : LibM unit :=
  w ← get_world;
  let asset_manager_ := aux w in
  assert (bool_decide (is_Some asset_manager_));;
  assert (bool_decide (is_Some (def_source_file rendermesh_def)));;
  assert (bool_decide (is_Some (def_shader rendermesh_def)));;
  rendermesh_data ←
    AddEntity kUnusedComponentIndex RenderMeshComponent e kAddToBack;
  d ← deref_rendermesh rendermesh_data;
  source_file ← deref (def_source_file rendermesh_def);
  shader_file ← deref (def_shader rendermesh_def);
  asset_manager ← deref asset_manager_;
  let mesh := LoadMesh asset_manager source_file in
  assert (bool_decide (is_Some mesh));;
  let shader := LoadShader asset_manager shader_file in
  assert (bool_decide (is_Some shader));;
  mask ← match def_render_pass rendermesh_def with
         | Some passes => load_pass_mask passes 0%Z
         | None => mret (Z.shiftl 1 (Z.of_nat RenderPass_kOpaque))
         end;
  write kRenderMeshId rendermesh_data
    (λ _, RenderMeshPayload
            (mkRenderMeshData mesh shader source_file shader_file mask
               (def_ignore_culling rendermesh_def)
               (def_hidden rendermesh_def)
               (def_hidden rendermesh_def))).

Definition RenderMeshComponent_ExportRawData (e : EntityRef) (w : LibWorld)
  : option RenderMeshDef :=
  match read kRenderMeshId
          (GetComponentData kUnusedComponentIndex kRenderMeshId e w) w
        ≫= as_rendermesh
  with
  | None => None
  | Some d =>
      if bool_decide (mesh_filename d = EmptyString)
         || bool_decide (shader_filename d = EmptyString)
      then None
      else
        Some (mkRenderMeshDef
                (Some (mesh_filename d)) (Some (shader_filename d))
                (Some (filter
                         (λ i, Z.land (pass_mask d)
                                      (Z.shiftl 1 (Z.of_nat i)) ≠ 0%Z)
                         (seq 0 RenderPass_kCount)))
                (ignore_culling d)
                false)
  end.

(** **** GraphComponent *)

Definition as_graph (p : Payload) : option GraphData :=
  match p with GraphPayload d => Some d | _ => None end.

Definition GraphComponent : LibComponent :=
  mkComponent kGraphId (GraphPayload GraphData_new)
    (λ _, mret tt) (λ _, mret tt).

Definition GraphComponent_AddFromRawData (e : EntityRef)
    (graph_def : GraphDef) : LibM unit :=
  graph_data ← AddEntity kUnusedComponentIndex GraphComponent e kAddToBack;
  match graph_data with
  | None => fail NullPointer
  | Some _ =>
      write kGraphId graph_data
        (λ _, GraphPayload
                (mkGraphData
                   (match filename_list graph_def with
                    | Some l =>
                        (λ name, mkSerializableGraphState name false) <$> l
                    | None => []
                    end)))
  end.

Definition GraphComponent_ExportRawData (e : EntityRef) (w : LibWorld)
  : option GraphDef :=
  match read kGraphId
          (GetComponentData kUnusedComponentIndex kGraphId e w) w
        ≫= as_graph
  with
  | None => None
  | Some d =>
      Some (mkGraphDef
              (if bool_decide (0 < length (graphs d))
               then Some (filename <$> graphs d) else None))
  end.

(** **** Sequences of calls on the physics component *)

Inductive PhysicsOp :=
| OpAddEntity (e : EntityRef) (loc : AllocationLocation)
| OpAddFromRawData (e : EntityRef) (physics_def : PhysicsDef)
| OpGenerateRaycastShape (e : EntityRef) (result_exportable : bool)
| OpEnablePhysics (e : EntityRef)
| OpDisablePhysics (e : EntityRef)
| OpUpdatePhysicsFromTransform (e : EntityRef)
| OpRemoveEntity (e : EntityRef)
| OpClearComponentData (fuel : nat).

Definition run_op (op : PhysicsOp) : LibM unit :=
  match op with
  | OpAddEntity e loc =>
      AddEntity kUnusedComponentIndex PhysicsComponent e loc;; mret tt
  | OpAddFromRawData e physics_def =>
      PhysicsComponent_AddFromRawData e physics_def
  | OpGenerateRaycastShape e result_exportable =>
      GenerateRaycastShape e result_exportable
  | OpEnablePhysics e => EnablePhysics e
  | OpDisablePhysics e => DisablePhysics e
  | OpUpdatePhysicsFromTransform e => UpdatePhysicsFromTransform e
  | OpRemoveEntity e =>
      RemoveEntity kUnusedComponentIndex PhysicsComponent e
  | OpClearComponentData fuel =>
      ClearComponentData kUnusedComponentIndex PhysicsComponent fuel
  end.

Definition run_ops (ops : list PhysicsOp) : LibM unit :=
  for_each ops run_op.

End Library.

(** [body_count] is within the array of [kMaxPhysicsBodies] bodies. *)
Definition in_bounds (d : PhysicsData) : Prop :=
  (0 ≤ body_count d ≤ kMaxPhysicsBodies)%Z
  ∧ length (rigid_bodies d) = Z.to_nat kMaxPhysicsBodies.

Definition payload_in_bounds (p : Payload) : Prop :=
  ∀ d, p = PhysicsPayload d → in_bounds d.

Definition pool_in_bounds (p : VectorPool (@ComponentData Payload)) : Prop :=
  ∀ i cd, GetElementData p i = Some cd → payload_in_bounds (data cd).

(** Every [PhysicsData] record of the world is. *)
Definition bodies_in_bounds (w : @World Payload LibraryState) : Prop :=
  ∀ c, pool_in_bounds (pools w c).

(** Started from a world whose records are within bounds, the call [m]
    leaves such a world, with a result that satisfies [Q], or stops at a
    fault that is not an access outside an array. *)
Definition keeps_bounds {A} (m : @M Payload LibraryState A) (Q : A → Prop)
  : Prop :=
  ∀ w, bodies_in_bounds w →
       match m w with
       | Ok a w' => bodies_in_bounds w' ∧ Q a
       | Err f => f ≠ OutOfBounds
       end.

(** The world before any entity is registered. *)
Definition empty_world {T Aux} (kUnusedComponentIndex : ComponentIndex)
    (a : Aux) : @World T Aux :=
  mkWorld (λ _ _, kUnusedComponentIndex) (λ _, empty_pool) a [].

(** *** More of the graph component *)

(** [GraphComponent::graph_factory_], null until [Init()], and
    [GraphComponent::graph_entity_].  Loading a graph gives the graph or
    null. *)
Record GraphFactory := mkGraphFactory {
  LoadGraph : string → option string
}.

Record GraphMembers := mkGraphMembers {
  graph_factory_ : option GraphFactory;
  graph_entity_ : option EntityRef
}.

(** The loop of [EntityPostLoadFixup] over the graphs of an entity: a
    graph that loads initializes its state; [None] when [graph_factory_]
    is null and dereferenced. *)
Fixpoint fixup_graphs (graph_factory : option GraphFactory)
    (graphs : list SerializableGraphState)
  : option (list SerializableGraphState) :=
  match graphs with
  | [] => Some []
  | graph_iter :: graphs =>
      factory ← graph_factory;
      let fixed :=
        match LoadGraph factory (filename graph_iter) with
        | Some _ => mkSerializableGraphState (filename graph_iter) true
        | None => graph_iter
        end in
      rest ← fixup_graphs graph_factory graphs;
      Some (fixed :: rest)
  end.

Section GraphLoading.
Variable kUnusedComponentIndex : ComponentIndex.
Variable kGraphId : ComponentId.

(** The broadcaster lives in the graph data; what is returned points
    into the record. *)
Definition GetCreateBroadcaster (e : EntityRef)
  : @M Payload LibraryState (option nat) :=
  w ← get_world;
  match Data kUnusedComponentIndex kGraphId e w with
  | Some graph_data => mret (Some graph_data)
  | None =>
      AddEntity kUnusedComponentIndex (GraphComponent kGraphId) e kAddToBack
  end.

Definition EntityPostLoadFixup (members : GraphMembers) (e : EntityRef)
  : @M Payload LibraryState GraphMembers :=
  let members' := mkGraphMembers (graph_factory_ members) (Some e) in
  w ← get_world;
  match Data kUnusedComponentIndex kGraphId e w with
  | None => mret members'
  | Some graph_data =>
      match read kGraphId (Some graph_data) w ≫= as_graph with
      | None => fail NullPointer
      | Some d =>
          match fixup_graphs (graph_factory_ members) (graphs d) with
          | None => fail NullPointer
          | Some graphs' =>
              write kGraphId (Some graph_data)
                (λ _, GraphPayload (mkGraphData graphs'));;
              mret members'
          end
      end
  end.

(** The loop of [PostLoadFixup], at most [fuel] rounds of it. *)
Fixpoint PostLoadLoop (fuel : nat) (iter : Iterator)
    (members : GraphMembers) : @M Payload LibraryState GraphMembers :=
  match iter with
  | None => mret members
  | Some i =>
      match fuel with
      | 0 => fail OutOfFuel
      | S fuel =>
          w ← get_world;
          match entity <$> GetElementData (component_data_ kGraphId w) i
          with
          | Some (Some e) =>
              members' ← EntityPostLoadFixup members e;
              w' ← get_world;
              PostLoadLoop fuel
                (iter_next (component_data_ kGraphId w') iter) members'
          | _ => fail NullPointer
          end
      end
  end.

Definition PostLoadFixup (fuel : nat) (members : GraphMembers)
  : @M Payload LibraryState GraphMembers :=
  w ← get_world;
  PostLoadLoop fuel (pool_begin (component_data_ kGraphId w)) members.
End GraphLoading.

(** * Properties *)

(** ** The pool *)

Section VectorPoolFacts.
Context {T : Type}.
Implicit Types (p : VectorPool T) (slots : list (Slot T)).
Implicit Types (xs ys fs : list nat) (pp qn : option nat).

Lemma hd_or_app qn xs ys : hd_or qn (xs ++ ys) = hd_or (hd_or qn ys) xs.
Proof. by destruct xs. Qed.

Lemma last_or_app pp xs ys : last_or pp (xs ++ ys) = last_or (last_or pp xs) ys.
Proof.
  unfold last_or. rewrite last_app. by destruct (list.last ys).
Qed.

Lemma last_or_cons pp x xs : last_or pp (x :: xs) = last_or (Some x) xs.
Proof. apply (last_or_app pp [x] xs). Qed.

Lemma last_or_snoc pp xs x : last_or pp (xs ++ [x]) = Some x.
Proof. unfold last_or. by rewrite last_snoc. Qed.

Lemma hd_or_None xs : hd_or None xs = head xs.
Proof. by destruct xs. Qed.

Lemma last_or_None xs : last_or None xs = list.last xs.
Proof. unfold last_or. by destruct (list.last xs). Qed.

Lemma dseg_frame slots slots' pp xs qn :
  (∀ x, x ∈ xs → slots' !! x = slots !! x) →
  dseg slots pp xs qn → dseg slots' pp xs qn.
Proof.
  revert pp. induction xs as [|x xs IH]; intros pp Hag; simpl; [done|].
  intros [[d Hx] Hrest]. split.
  - exists d. rewrite Hag; [done | left].
  - apply IH; [|done]. intros y Hy. apply Hag. by right.
Qed.

Lemma dseg_app slots pp xs ys qn :
  dseg slots pp (xs ++ ys) qn ↔
  dseg slots pp xs (hd_or qn ys) ∧ dseg slots (last_or pp xs) ys qn.
Proof.
  revert pp. induction xs as [|x xs IH]; intros pp; simpl.
  - unfold last_or; simpl. tauto.
  - rewrite IH, hd_or_app, last_or_cons. tauto.
Qed.

Lemma dseg_used slots pp xs qn x :
  dseg slots pp xs qn → x ∈ xs →
  ∃ d pr nx, slots !! x = Some (UsedSlot d pr nx).
Proof.
  revert pp. induction xs as [|y xs IH]; intros pp; simpl.
  - intros _ Hx. by apply elem_of_nil in Hx.
  - intros [[d Hy] Hrest] Hx. apply elem_of_cons in Hx as [->|Hx]; eauto.
Qed.

Lemma dseg_middle slots pp xs x ys qn :
  dseg slots pp (xs ++ x :: ys) qn →
  ∃ d, slots !! x = Some (UsedSlot d (last_or pp xs) (hd_or qn ys)).
Proof. rewrite dseg_app. simpl. intros [_ [[d Hd] _]]. eauto. Qed.

Lemma fseg_frame slots slots' fs :
  (∀ x, x ∈ fs → slots' !! x = slots !! x) →
  fseg slots fs → fseg slots' fs.
Proof.
  induction fs as [|f fs IH]; intros Hag; simpl; [done|].
  intros [Hf Hrest]. split.
  - rewrite Hag; [done | left].
  - apply IH; [|done]. intros y Hy. apply Hag. by right.
Qed.

Lemma fseg_free slots fs f :
  fseg slots fs → f ∈ fs → ∃ nf, slots !! f = Some (FreeSlot nf).
Proof.
  induction fs as [|y fs IH]; simpl.
  - intros _ Hx. by apply elem_of_nil in Hx.
  - intros [Hy Hrest] Hx. apply elem_of_cons in Hx as [->|Hx]; eauto.
Qed.

Lemma NoDup_bounded_length xs n :
  NoDup xs → (∀ x, x ∈ xs → x < n) → length xs ≤ n.
Proof.
  intros Hnd Hlt.
  assert (xs ⊆+ seq 0 n) as Hsub.
  { apply NoDup_submseteq; [done|].
    intros x Hx. apply elem_of_seq. specialize (Hlt x Hx). lia. }
  apply submseteq_length in Hsub. by rewrite length_seq in Hsub.
Qed.

Lemma order_from_dseg fuel slots pp xs :
  dseg slots pp xs None → length xs ≤ fuel →
  order_from fuel slots (hd_or None xs) = xs.
Proof.
  revert fuel pp. induction xs as [|x xs IH]; intros fuel pp; simpl.
  - by destruct fuel.
  - intros [[d Hx] Hrest] Hlen. destruct fuel as [|fuel]; [lia|].
    simpl. rewrite Hx. f_equal. eapply IH; [done | lia].
Qed.

Lemma represents_order p xs fs : represents p xs fs → order p = xs.
Proof.
  intros H. unfold order. rewrite (rep_first _ _ _ H), <- hd_or_None.
  eapply order_from_dseg; [apply H|].
  apply NoDup_bounded_length; [apply H|].
  intros x Hx.
  destruct (dseg_used _ _ _ _ _ (rep_used _ _ _ H) Hx) as (d & pr & nx & Hl).
  by apply lookup_lt_Some in Hl.
Qed.

Lemma represents_empty : represents (@empty_pool T) [] [].
Proof.
  split; simpl; try done; try apply NoDup_nil_2.
Qed.

Lemma pool_wf_empty : pool_wf (@empty_pool T).
Proof. exists [], []. apply represents_empty. Qed.
End VectorPoolFacts.

Section VectorPoolFacts.
Context {T : Type}.
Implicit Types (p : VectorPool T) (slots : list (Slot T)).
Implicit Types (xs ys fs : list nat) (pp qn : option nat).

Lemma shape_set_next n (s : Slot T) : slot_shape (set_next n s) = set_next n (slot_shape s).
Proof. by destruct s. Qed.
Lemma shape_set_prev n (s : Slot T) : slot_shape (set_prev n s) = set_prev n (slot_shape s).
Proof. by destruct s. Qed.
Lemma shape_set_payload d (s : Slot T) : slot_shape (set_payload d s) = slot_shape s.
Proof. by destruct s. Qed.

Lemma shape_used_inv (o : option (Slot T)) pr nx :
  slot_shape <$> o = Some (UsedSlot tt pr nx) → ∃ d, o = Some (UsedSlot d pr nx).
Proof. destruct o as [[|d ? ?]|]; intros; simplify_eq/=; eauto. Qed.

Lemma shape_free_inv (o : option (Slot T)) nf :
  slot_shape <$> o = Some (FreeSlot nf) → o = Some (FreeSlot nf).
Proof. destruct o as [[|d ? ?]|]; intros; simplify_eq/=; eauto. Qed.

Lemma dseg_shape slots slots' pp xs qn :
  (∀ x, x ∈ xs → slot_shape <$> slots' !! x = slot_shape <$> slots !! x) →
  dseg slots pp xs qn → dseg slots' pp xs qn.
Proof.
  revert pp. induction xs as [|x xs IH]; intros pp Hag; simpl; [done|].
  intros [[d Hx] Hrest]. split.
  - apply shape_used_inv. rewrite Hag, Hx; [done | left].
  - apply IH; [|done]. intros y Hy. apply Hag. by right.
Qed.

Lemma fseg_shape slots slots' fs :
  (∀ x, x ∈ fs → slot_shape <$> slots' !! x = slot_shape <$> slots !! x) →
  fseg slots fs → fseg slots' fs.
Proof.
  induction fs as [|f fs IH]; intros Hag; simpl; [done|].
  intros [Hf Hrest]. split.
  - apply shape_free_inv. rewrite Hag, Hf; [done | left].
  - apply IH; [|done]. intros y Hy. apply Hag. by right.
Qed.

Lemma dseg_relink_next slots slots' pp xs qn qn' :
  NoDup xs → dseg slots pp xs qn →
  (∀ x, x ∈ xs →
     slot_shape <$> slots' !! x =
     (if decide (list.last xs = Some x) then set_next qn' else id)
       <$> (slot_shape <$> slots !! x)) →
  dseg slots' pp xs qn'.
Proof.
  revert pp. induction xs as [|x xs IH]; intros pp Hnd; simpl; [done|].
  intros [[d Hx] Hrest] Hag.
  apply NoDup_cons in Hnd as [Hx_notin Hnd].
  destruct xs as [|y xs].
  - split; [|done]. apply shape_used_inv.
    rewrite Hag by left. rewrite Hx. simpl. by rewrite decide_True.
  - split.
    + apply shape_used_inv. rewrite Hag by left. rewrite Hx.
      rewrite decide_False; [done|].
      rewrite last_cons_cons. intros Hl. apply Hx_notin.
      by apply last_Some_elem_of.
    + apply IH; [done..|]. intros z Hz. rewrite Hag by (by right).
      by rewrite last_cons_cons.
Qed.

Lemma dseg_relink_prev slots slots' pp pp' xs qn :
  NoDup xs → dseg slots pp xs qn →
  (∀ x, x ∈ xs →
     slot_shape <$> slots' !! x =
     (if decide (head xs = Some x) then set_prev pp' else id)
       <$> (slot_shape <$> slots !! x)) →
  dseg slots' pp' xs qn.
Proof.
  destruct xs as [|x xs]; intros Hnd; simpl; [done|].
  intros [[d Hx] Hrest] Hag.
  apply NoDup_cons in Hnd as [Hx_notin Hnd]. split.
  - apply shape_used_inv. rewrite Hag by left. rewrite Hx. simpl.
    by rewrite decide_True.
  - eapply dseg_shape; [|done]. intros z Hz. rewrite Hag by (by right).
    rewrite decide_False; [by destruct (slots !! z)|].
    simpl. intros [= ->]. done.
Qed.

Lemma lookup_link_next p i n j :
  elements (link_next p i n) !! j =
  (if decide (i = Some j) then set_next n else id) <$> elements p !! j.
Proof.
  destruct i as [i|]; simpl.
  - rewrite list_lookup_alter. destruct (decide (i = j)) as [->|Hne].
    + by rewrite decide_True.
    + rewrite decide_False by congruence. by destruct (elements p !! j).
  - by destruct (elements p !! j).
Qed.

Lemma lookup_link_prev p i n j :
  elements (link_prev p i n) !! j =
  (if decide (i = Some j) then set_prev n else id) <$> elements p !! j.
Proof.
  destruct i as [i|]; simpl.
  - rewrite list_lookup_alter. destruct (decide (i = j)) as [->|Hne].
    + by rewrite decide_True.
    + rewrite decide_False by congruence. by destruct (elements p !! j).
  - by destruct (elements p !! j).
Qed.

Lemma represents_shape p p' xs fs :
  pool_shape p = pool_shape p' → represents p xs fs → represents p' xs fs.
Proof.
  unfold pool_shape. intros [= Hel Hfu Hlu Hff] [H1 H2 H3 H4 H5 H6 H7 H8].
  assert (∀ x, slot_shape <$> elements p' !! x = slot_shape <$> elements p !! x) as Hag.
  { intros x. by rewrite <- !list_lookup_fmap, Hel. }
  split; try congruence.
  - eapply dseg_shape; [|done]. auto.
  - intros i d pr nx Hi.
    destruct (shape_used_inv (elements p !! i) pr nx) as [d' Hd'].
    { by rewrite <- Hag, Hi. }
    eauto.
  - eapply fseg_shape; [|done]. auto.
Qed.

Lemma pool_shape_SetElementData p i d :
  pool_shape (SetElementData p i d) = pool_shape p.
Proof.
  unfold pool_shape, SetElementData; simpl. f_equal.
  apply list_eq. intros j. rewrite !list_lookup_fmap, list_lookup_alter.
  case_decide; subst; [|done].
  destruct (elements p !! j) as [s|]; simpl; [|done].
  by rewrite shape_set_payload.
Qed.

Lemma GetElementData_SetElementData p i d j :
  GetElementData (SetElementData p i d) j =
  if decide (i = j) then (λ _, d) <$> GetElementData p i
  else GetElementData p j.
Proof.
  unfold GetElementData, SetElementData; simpl. rewrite list_lookup_alter.
  case_decide; subst; [|done].
  by destruct (elements p !! j) as [[|]|].
Qed.

Lemma represents_used p xs fs i :
  represents p xs fs → (i ∈ xs ↔ is_Some (GetElementData p i)).
Proof.
  intros H. unfold GetElementData. split.
  - intros Hi.
    destruct (dseg_used _ _ _ _ _ (rep_used _ _ _ H) Hi) as (d & pr & nx & ->).
    eauto.
  - destruct (elements p !! i) as [[|d pr nx]|] eqn:Hi; intros [? ?]; try done.
    eapply rep_cover; eauto.
Qed.

Lemma represents_free_notin p xs fs i :
  represents p xs fs → i ∈ fs → i ∉ xs.
Proof.
  intros H Hf Hx.
  destruct (fseg_free _ _ _ (rep_free _ _ _ H) Hf) as [nf Hnf].
  destruct (dseg_used _ _ _ _ _ (rep_used _ _ _ H) Hx) as (d & pr & nx & Hu).
  congruence.
Qed.

Lemma take_slot_spec p xs fs i p1 :
  represents p xs fs → take_slot p = (i, p1) →
  ∃ nf, i = from_option id (length (elements p)) (head fs)
     ∧ represents p1 xs (tail fs)
     ∧ (i ∉ xs) ∧ (i ∉ tail fs)
     ∧ elements p1 !! i = Some (FreeSlot nf)
     ∧ ∀ j, j ≠ i → elements p1 !! j = elements p !! j.
Proof.
  intros H. pose proof H as [H1 H2 H3 H4 H5 H6 H7 H8].
  unfold take_slot. rewrite H6.
  destruct fs as [|f fs]; simpl.
  - intros [= <- <-]. exists None. split; [done|].
    assert (length (elements p) ∉ xs) as Hnotin.
    { intros Hx. destruct (dseg_used _ _ _ _ _ H3 Hx) as (d & pr & nx & Hl).
      apply lookup_lt_Some in Hl. lia. }
    split; [|split; [done|split; [apply not_elem_of_nil|split]]].
    + split; simpl; try done.
      * eapply dseg_frame; [|done]. intros x Hx. apply lookup_app_l.
        destruct (dseg_used _ _ _ _ _ H3 Hx) as (d & pr & nx & Hl).
        by apply lookup_lt_Some in Hl.
      * intros i d pr nx Hi. apply lookup_app_Some in Hi as [Hi|[_ Hi]].
        { eauto. }
        { destruct (i - length (elements p)); simplify_eq/=. }
    + simpl. by rewrite list_lookup_middle.
    + intros j Hj. simpl. destruct (decide (j < length (elements p))).
      * by apply lookup_app_l.
      * rewrite !lookup_ge_None_2; [done|lia|rewrite length_app; simpl; lia].
  - destruct H7 as [Hf Hfs]. rewrite Hf. simpl. intros [= <- <-].
    exists (head fs).
    apply list.NoDup_cons in H8 as [Hf_notin Hnd].
    split; [done|].
    split; [|split; [|done]].
    + split; simpl; done.
    + eapply represents_free_notin; [done | left].
Qed.

Lemma last_None_nil xs : list.last xs = None → xs = [].
Proof.
  destruct xs as [|x xs] using rev_ind; [done|]. by rewrite last_snoc.
Qed.

Lemma GetNewElement_represents init loc p xs fs i p' :
  represents p xs fs → GetNewElement init loc p = (i, p') →
  i = from_option id (length (elements p)) (head fs)
  ∧ (i ∉ xs)
  ∧ represents p' (match loc with
                   | kAddToFront => i :: xs
                   | kAddToBack => xs ++ [i]
                   end) (tail fs)
  ∧ elements p' !! i =
      Some (match loc with
            | kAddToFront => UsedSlot init None (head xs)
            | kAddToBack => UsedSlot init (list.last xs) None
            end)
  ∧ ∀ j, j ≠ i → GetElementData p' j = GetElementData p j.
Proof.
  intros H. unfold GetNewElement.
  destruct (take_slot p) as [k p1] eqn:Htake.
  destruct (take_slot_spec _ _ _ _ _ H Htake)
    as (nf & Hk & Hrep & Hk_xs & Hk_fs & Hk_free & Hother).
  pose proof Hrep as [H1 H2 H3 H4 H5 H6 H7 H8].
  assert (k < length (elements p1)) as Hk_lt by by eapply lookup_lt_Some.
  destruct loc; intros [= <- <-].
  - (* front *)
    split; [done|]. split; [done|].
    set (els := elements (link_prev
             (mkPool (<[k:=UsedSlot init None (first_used p1)]> (elements p1))
                (first_used p1) (last_used p1) (first_free p1))
             (first_used p1) (Some k))).
    assert (∀ j, els !! j =
              (if decide (first_used p1 = Some j) then set_prev (Some k) else id)
              <$> (if decide (k = j)
                   then Some (UsedSlot init None (first_used p1))
                   else elements p1 !! j)) as Hels.
    { intros j. unfold els. rewrite lookup_link_prev. simpl.
      f_equal. destruct (decide (k = j)) as [->|Hne].
      - by apply list_lookup_insert_eq.
      - by apply list_lookup_insert_ne. }
    assert (first_used p1 ≠ Some k) as Hfk.
    { rewrite H1. intros Hh. apply Hk_xs. by apply head_Some_elem_of. }
    assert (els !! k = Some (UsedSlot init None (head xs))) as Hk_used.
    { rewrite Hels, decide_False, decide_True by done. simpl. by rewrite H1. }
    split; [|split].
    + split; simpl.
      * done.
      * destruct (first_used p1) as [f|] eqn:Hf; simpl.
        { rewrite H2. symmetry in H1. apply head_Some in H1 as [xs' ->].
          by rewrite last_cons_cons. }
        { symmetry in H1. destruct xs; [done|]. simplify_eq/=. }
      * split; [exists init; by rewrite Hk_used, hd_or_None|].
        eapply dseg_relink_prev; [done|done|].
        intros x Hx. rewrite Hels.
        rewrite (decide_False (P := k = x)) by (intros ->; done).
        rewrite H1. by destruct (decide (head xs = Some x)), (elements p1 !! x) as [[|]|].
      * apply list.NoDup_cons. done.
      * intros j d pr nx Hj. destruct (decide (k = j)) as [->|Hne]; [left|].
        right. rewrite Hels in Hj. rewrite (decide_False (P := k = j)) in Hj by done.
        destruct (elements p1 !! j) as [[|d' pr' nx']|] eqn:Hj'.
        { by destruct (decide (first_used p1 = Some j)). }
        { eauto. }
        { by destruct (decide (first_used p1 = Some j)). }
      * destruct (first_used p1); done.
      * eapply fseg_shape; [|done]. intros x Hx.
        assert (x ∉ xs) as Hx_xs by by eapply represents_free_notin.
        rewrite Hels. rewrite (decide_False (P := k = x)) by (intros ->; done).
        rewrite decide_False; [by destruct (elements p1 !! x) as [[|]|]|].
        rewrite H1. intros Hh. apply Hx_xs. by apply head_Some_elem_of.
      * done.
    + done.
    + intros j Hj. unfold GetElementData. simpl. fold els.
      rewrite Hels. rewrite (decide_False (P := k = j)) by done.
      rewrite <- Hother by done.
      by destruct (decide (first_used p1 = Some j)),
                  (elements p1 !! j) as [[|]|].
  - (* back *)
    split; [done|]. split; [done|].
    set (els := elements (link_next
             (mkPool (<[k:=UsedSlot init (last_used p1) None]> (elements p1))
                (first_used p1) (last_used p1) (first_free p1))
             (last_used p1) (Some k))).
    assert (∀ j, els !! j =
              (if decide (last_used p1 = Some j) then set_next (Some k) else id)
              <$> (if decide (k = j)
                   then Some (UsedSlot init (last_used p1) None)
                   else elements p1 !! j)) as Hels.
    { intros j. unfold els. rewrite lookup_link_next. simpl.
      f_equal. destruct (decide (k = j)) as [->|Hne].
      - by apply list_lookup_insert_eq.
      - by apply list_lookup_insert_ne. }
    assert (last_used p1 ≠ Some k) as Hlk.
    { rewrite H2. intros Hh. apply Hk_xs. by apply last_Some_elem_of. }
    assert (els !! k = Some (UsedSlot init (list.last xs) None)) as Hk_used.
    { rewrite Hels, decide_False, decide_True by done. simpl. by rewrite H2. }
    split; [|split].
    + split; simpl.
      * destruct (last_used p1) as [l|] eqn:Hl; simpl.
        { rewrite H1. symmetry in H2. apply last_Some in H2 as [xs' ->].
          by destruct xs'. }
        { symmetry in H2. apply last_None_nil in H2 as ->. done. }
      * by rewrite last_snoc.
      * apply dseg_app. split.
        { eapply dseg_relink_next; [done|done|].
          intros x Hx. rewrite Hels.
          rewrite (decide_False (P := k = x)) by (intros ->; done).
          rewrite H2.
          by destruct (decide (list.last xs = Some x)), (elements p1 !! x) as [[|]|]. }
        { simpl. split; [|done]. exists init.
          by rewrite Hk_used, last_or_None. }
      * apply list.NoDup_app. split; [done|]. split; [|apply NoDup_singleton].
        intros x Hx Hxk. apply list_elem_of_singleton in Hxk as ->. done.
      * intros j d pr nx Hj. apply elem_of_app.
        destruct (decide (k = j)) as [->|Hne]; [right; by left|].
        left. rewrite Hels in Hj. rewrite (decide_False (P := k = j)) in Hj by done.
        destruct (elements p1 !! j) as [[|d' pr' nx']|] eqn:Hj'.
        { by destruct (decide (last_used p1 = Some j)). }
        { eauto. }
        { by destruct (decide (last_used p1 = Some j)). }
      * destruct (last_used p1); done.
      * eapply fseg_shape; [|done]. intros x Hx.
        assert (x ∉ xs) as Hx_xs by by eapply represents_free_notin.
        rewrite Hels. rewrite (decide_False (P := k = x)) by (intros ->; done).
        rewrite decide_False; [by destruct (elements p1 !! x) as [[|]|]|].
        rewrite H2. intros Hh. apply Hx_xs. by apply last_Some_elem_of.
      * done.
    + done.
    + intros j Hj. unfold GetElementData. simpl. fold els.
      rewrite Hels. rewrite (decide_False (P := k = j)) by done.
      rewrite <- Hother by done.
      by destruct (decide (last_used p1 = Some j)),
                  (elements p1 !! j) as [[|]|].
Qed.

Lemma FreeElement_not_used p i :
  GetElementData p i = None → FreeElement p i = p.
Proof.
  unfold GetElementData, FreeElement.
  by destruct (elements p !! i) as [[|]|].
Qed.

Lemma iter_next_represents p xs1 x xs2 fs :
  represents p (xs1 ++ x :: xs2) fs → iter_next p (Some x) = head xs2.
Proof.
  intros H. destruct (dseg_middle _ _ _ _ _ _ (rep_used _ _ _ H)) as [d Hx].
  simpl. by rewrite Hx, hd_or_None.
Qed.

Lemma FreeElement_represents p xs1 x xs2 fs :
  represents p (xs1 ++ x :: xs2) fs →
  represents (FreeElement p x) (xs1 ++ xs2) (x :: fs)
  ∧ GetElementData (FreeElement p x) x = None
  ∧ ∀ j, j ≠ x → GetElementData (FreeElement p x) j = GetElementData p j.
Proof.
  intros H. pose proof H as [H1 H2 H3 H4 H5 H6 H7 H8].
  destruct (dseg_middle _ _ _ _ _ _ H3) as [d Hx].
  rewrite last_or_None, hd_or_None in Hx.
  apply dseg_app in H3 as [Hseg1 [_ Hseg2]]. simpl in Hseg1, Hseg2.
  apply list.NoDup_app in H4 as (Hnd1 & Hdisj & [Hx2 Hnd2]%list.NoDup_cons).
  assert (x ∉ xs1) as Hx1.
  { intros Hin. apply (Hdisj _ Hin). left. }
  assert (x < length (elements p)) as Hx_lt by by eapply lookup_lt_Some.
  unfold FreeElement. rewrite Hx.
  set (pr := list.last xs1) in *. set (nx := head xs2) in *.
  set (p1 := link_prev (link_next p pr nx) nx pr).
  assert (∀ j, <[x:=FreeSlot (first_free p1)]> (elements p1) !! j =
            if decide (x = j) then Some (FreeSlot (first_free p))
            else (if decide (nx = Some j) then set_prev pr else id)
                   <$> ((if decide (pr = Some j) then set_next nx else id)
                          <$> elements p !! j)) as Hels.
  { intros j. destruct (decide (x = j)) as [->|Hne].
    - rewrite list_lookup_insert_eq.
      + unfold p1. by destruct nx, pr.
      + unfold p1. destruct nx, pr; simpl; by rewrite ?length_alter.
    - rewrite list_lookup_insert_ne by done.
      unfold p1. by rewrite lookup_link_prev, lookup_link_next. }
  assert (pr ≠ Some x) as Hpr.
  { intros Hl. apply Hx1. by apply last_Some_elem_of. }
  assert (nx ≠ Some x) as Hnx.
  { intros Hl. apply Hx2. by apply head_Some_elem_of. }
  split; [|split].
  - split; simpl.
    + subst p1 pr nx. clear Hels Hpr Hnx.
      destruct xs1 as [|y xs1 _] using rev_ind.
      * simpl. by destruct (head xs2).
      * rewrite last_snoc. simpl.
        transitivity (first_used p); [by destruct (head xs2)|].
        rewrite H1. rewrite <- !app_assoc. by rewrite !head_app.
    + subst p1 pr nx. clear Hels Hpr Hnx.
      destruct xs2 as [|y xs2].
      * simpl. rewrite app_nil_r. by destruct (list.last xs1).
      * simpl. transitivity (last_used p); [by destruct (list.last xs1)|].
        rewrite H2, !last_app. done.
    + apply dseg_app. split.
      * eapply dseg_relink_next; [done|done|].
        intros j Hj. rewrite Hels, hd_or_None.
        rewrite (decide_False (P := x = j)) by (intros ->; done).
        rewrite (decide_False (P := nx = Some j)).
        2:{ intros Hh. apply head_Some_elem_of in Hh.
            apply (Hdisj _ Hj). by right. }
        fold pr.
        by destruct (decide (pr = Some j)), (elements p !! j) as [[|]|].
      * eapply dseg_relink_prev; [done|done|].
        intros j Hj. rewrite Hels, last_or_None.
        rewrite (decide_False (P := x = j)) by (intros ->; done).
        rewrite (decide_False (P := pr = Some j)).
        2:{ intros Hh. apply last_Some_elem_of in Hh.
            apply (Hdisj _ Hh). by right. }
        fold nx. fold pr.
        by destruct (decide (nx = Some j)), (elements p !! j) as [[|]|].
    + apply list.NoDup_app. split; [done|]. split; [|done].
      intros y Hy1 Hy2. apply (Hdisj _ Hy1). by right.
    + intros j d' pr' nx' Hj. rewrite Hels in Hj.
      destruct (decide (x = j)) as [->|Hne]; [done|].
      assert (j ∈ xs1 ++ x :: xs2) as Hin.
      { destruct (elements p !! j) as [[|d'' pr'' nx'']|] eqn:Hj'.
        - by destruct (decide (nx = Some j)), (decide (pr = Some j)).
        - eauto.
        - by destruct (decide (nx = Some j)), (decide (pr = Some j)). }
      apply elem_of_app in Hin as [Hin|Hin]; apply elem_of_app; [by left|].
      apply elem_of_cons in Hin as [->|Hin]; [done | by right].
    + done.
    + split.
      * rewrite Hels, decide_True by done. by rewrite H6.
      * eapply fseg_shape; [|done]. intros f Hf. rewrite Hels.
        destruct (fseg_free _ _ _ H7 Hf) as [nf Hnf].
        rewrite decide_False by congruence. rewrite Hnf.
        by destruct (decide (nx = Some f)), (decide (pr = Some f)).
    + apply list.NoDup_cons. split; [|done].
      intros Hf. destruct (fseg_free _ _ _ H7 Hf) as [nf Hnf]. congruence.
  - unfold GetElementData. simpl. by rewrite Hels, decide_True.
  - intros j Hj. unfold GetElementData. simpl. rewrite Hels.
    rewrite decide_False by done.
    by destruct (decide (nx = Some j)), (decide (pr = Some j)),
                (elements p !! j) as [[|]|].
Qed.
End VectorPoolFacts.

Section FrameworkFacts.
Context {T Aux : Type}.
Variable kUnused : ComponentIndex.
Variable C : @Component T Aux.
Abbreviation c := (GetComponentId C).
Implicit Types (w : @World T Aux) (e : EntityRef).

Lemma registered_at_IsRegistered e i w :
  registered_at kUnused C e i w →
  IsRegisteredForComponent kUnused (entities w e) c = true.
Proof.
  intros (Hi & Hne & _). unfold IsRegisteredForComponent.
  apply bool_decide_eq_true. unfold GetComponentDataIndex in Hi. congruence.
Qed.

Lemma registered_at_GetComponentData e i w :
  registered_at kUnused C e i w → GetComponentData kUnused C e w = Some i.
Proof.
  intros (Hi & Hne & Hcd). unfold GetComponentData, GetComponentDataAt.
  rewrite Hi.
  destruct (GetElementData (component_data_ C w) i) as [cd|] eqn:Hget;
    [|done].
  rewrite decide_False, decide_False; [done..|].
  unfold GetElementData in Hget. unfold Size.
  destruct (elements (component_data_ C w) !! i) eqn:Hl; [|done].
  apply lookup_lt_Some in Hl. lia.
Qed.

Lemma AddEntity_registered e i loc w :
  registered_at kUnused C e i w →
  AddEntity kUnused C e loc w = Ok (Some i) w.
Proof.
  intros H. unfold AddEntity.
  by rewrite (registered_at_IsRegistered _ _ _ H),
             (registered_at_GetComponentData _ _ _ H).
Qed.

Lemma AddEntity_fresh e loc w xs fs :
  represents (component_data_ C w) xs fs →
  IsRegisteredForComponent kUnused (entities w e) c = false →
  Size (component_data_ C w) < kUnused →
  ∃ i w3,
    AddEntity kUnused C e loc w = (InitEntity C e;; mret (Some i)) w3
    ∧ i = default (Size (component_data_ C w)) (head fs)
    ∧ (i ∉ xs)
    ∧ registered_at kUnused C e i w3
    ∧ represents (component_data_ C w3)
        (match loc with kAddToFront => i :: xs | kAddToBack => xs ++ [i] end)
        (tail fs)
    ∧ GetElementData (component_data_ C w3) i
      = Some (mkComponentData (Some e) (new_data C))
    ∧ (∀ j, j ≠ i → GetElementData (component_data_ C w3) j
                    = GetElementData (component_data_ C w) j)
    ∧ (∀ c', c' ≠ c → pools w3 c' = pools w c')
    ∧ (∀ e' c', (e', c') ≠ (e, c) → entities w3 e' c' = entities w e' c')
    ∧ aux w3 = aux w
    ∧ trace w3 = trace w ++ [EvGetNewElement c i;
                             EvSetComponentDataIndex e c i;
                             EvInitEntity c e].
Proof.
  intros Hrep Hunreg Hsize. unfold AddEntity. rewrite Hunreg.
  destruct (GetNewElement _ loc (component_data_ C w)) as [i pool] eqn:Hnew.
  destruct (GetNewElement_represents _ _ _ _ _ _ _ Hrep Hnew)
    as (Hi & Hi_xs & Hrep' & Hslot & Hother).
  assert (GetElementData pool i = Some (mkComponentData None (new_data C)))
    as Hget.
  { unfold GetElementData. rewrite Hslot. by destruct loc. }
  assert (i ≠ kUnused) as Hne.
  { rewrite Hi. unfold Size in Hsize. destruct fs as [|f fs]; simpl; [lia|].
    destruct (rep_free _ _ _ Hrep) as [Hf _].
    apply lookup_lt_Some in Hf. lia. }
  set (pool' := SetElementData pool i (mkComponentData (Some e) (new_data C))).
  exists i.
  exists (mkWorld (<[e := <[c := i]> (entities w e)]> (entities w))
                  (<[c := pool']> (<[c := pool]> (pools w))) (aux w)
                  ((trace w ++ [EvGetNewElement c i] ++
                      [EvSetComponentDataIndex e c i]) ++ [EvInitEntity c e])).
  split.
  { unfold mbind, M_bind, set_pool, log, SetComponentDataIndex, write_entity,
      component_data_; simpl.
    rewrite fn_lookup_insert. rewrite Hget. simpl.
    by rewrite <- !app_assoc. }
  unfold component_data_, registered_at, GetComponentDataIndex; simpl.
  rewrite !fn_lookup_insert.
  assert (GetElementData pool' i
          = Some (mkComponentData (Some e) (new_data C))) as Hget'.
  { unfold pool'. rewrite GetElementData_SetElementData, decide_True by done.
    by rewrite Hget. }
  split; [exact Hi|]. split; [exact Hi_xs|].
  split.
  { split; [apply fn_lookup_insert|]. split; [done|by rewrite Hget']. }
  split.
  { eapply represents_shape; [|done]. unfold pool'.
    symmetry. apply pool_shape_SetElementData. }
  split; [done|]. split.
  { intros j Hj. unfold pool'.
    rewrite GetElementData_SetElementData, decide_False by done. auto. }
  split.
  { intros c' Hc'. by rewrite !fn_lookup_insert_ne. }
  split.
  { intros e' c' Hne'. unfold insert, fn_insert.
    repeat case_decide; subst; done. }
  split; [done|]. by rewrite <- !app_assoc.
Qed.

Lemma registered_at_preserved e i w w' :
  preserves_registrations C w w' →
  registered_at kUnused C e i w → registered_at kUnused C e i w'.
Proof.
  intros (_ & Hown & Hidx & _) (Hi & Hne & Hcd).
  split; [by rewrite Hidx|]. split; [done|]. by rewrite Hown.
Qed.

Lemma represents_preserved w w' xs fs :
  preserves_registrations C w w' →
  represents (component_data_ C w) xs fs →
  represents (component_data_ C w') xs fs.
Proof. intros (Hshape & _). by apply represents_shape. Qed.

Lemma owners_consistent_preserved w w' :
  preserves_registrations C w w' →
  owners_consistent kUnused C w → owners_consistent kUnused C w'.
Proof.
  intros Hpres Hown i cd Hcd.
  pose proof Hpres as (_ & Hent & _).
  specialize (Hent i). rewrite Hcd in Hent. simpl in Hent.
  destruct (GetElementData (component_data_ C w) i) as [cd'|] eqn:Hcd';
    [|done].
  destruct (Hown i cd' Hcd') as (e & He & Hreg).
  exists e. split; [simpl in Hent; congruence|].
  by eapply registered_at_preserved.
Qed.

Lemma RemoveEntity_unfold e w w1 :
  CleanupEntity C e (entering_cleanup C e w) = Ok tt w1 →
  RemoveEntity kUnused C e w
  = Ok tt (unregistered kUnused C e (GetComponentDataIndex C e w1) w1).
Proof.
  intros Hhook.
  unfold RemoveEntity, RemoveEntityInternal, mbind, M_bind, log; simpl.
  fold (entering_cleanup C e w). rewrite Hhook. simpl.
  unfold unregistered, SetComponentDataIndex; simpl.
  by rewrite <- !app_assoc.
Qed.

Lemma RemoveEntityIter_unfold e i w w1 :
  entity <$> GetElementData (component_data_ C w) i = Some (Some e) →
  CleanupEntity C e (entering_cleanup C e w) = Ok tt w1 →
  RemoveEntityIter kUnused C (Some i) w
  = Ok (iter_next (component_data_ C w1) (Some i)) (unregistered kUnused C e i w1).
Proof.
  intros Hent Hhook.
  unfold RemoveEntityIter, RemoveEntityInternal, mbind, M_bind, log,
    get_world; simpl.
  rewrite Hent. fold (entering_cleanup C e w). rewrite Hhook. simpl.
  unfold unregistered, SetComponentDataIndex; simpl.
  by rewrite <- !app_assoc.
Qed.

Lemma registered_at_entering e e' i w :
  registered_at kUnused C e i w →
  registered_at kUnused C e i (entering_cleanup C e' w).
Proof. done. Qed.

Lemma registered_in_order e i w xs fs :
  represents (component_data_ C w) xs fs →
  registered_at kUnused C e i w → i ∈ xs.
Proof.
  intros Hrep (_ & _ & Hcd). eapply represents_used; [done|].
  by destruct (GetElementData (component_data_ C w) i).
Qed.

Lemma unregistered_spec e xs1 x xs2 fs w1 :
  represents (component_data_ C w1) (xs1 ++ x :: xs2) fs →
  owners_consistent kUnused C w1 →
  registered_at kUnused C e x w1 →
  let w2 := unregistered kUnused C e x w1 in
  represents (component_data_ C w2) (xs1 ++ xs2) (x :: fs)
  ∧ owners_consistent kUnused C w2
  ∧ GetElementData (component_data_ C w2) x = None
  ∧ (∀ j, j ≠ x → GetElementData (component_data_ C w2) j
                  = GetElementData (component_data_ C w1) j)
  ∧ GetComponentDataIndex C e w2 = kUnused
  ∧ (∀ e', e' ≠ e →
           GetComponentDataIndex C e' w2 = GetComponentDataIndex C e' w1).
Proof.
  intros Hrep Hown Hreg w2.
  destruct (FreeElement_represents _ _ _ _ _ Hrep) as (Hrep' & Hx & Hother).
  assert (component_data_ C w2 = FreeElement (component_data_ C w1) x) as Hpool.
  { unfold component_data_, w2, unregistered; simpl.
    apply fn_lookup_insert. }
  assert (∀ e', GetComponentDataIndex C e' w2 =
                if decide (e = e') then kUnused
                else GetComponentDataIndex C e' w1) as Hidx.
  { intros e'. unfold GetComponentDataIndex, w2, unregistered; simpl.
    unfold insert, fn_insert. by repeat case_decide; subst. }
  rewrite Hpool. split; [done|]. split; [|split; [done|split; [done|split]]].
  - intros j cd Hj. rewrite Hpool in Hj.
    destruct (decide (j = x)) as [->|Hne]; [congruence|].
    rewrite Hother in Hj by done.
    destruct (Hown j cd Hj) as (e' & He' & Hreg').
    exists e'. split; [done|].
    destruct Hreg' as (Hi' & Hne' & Hcd').
    destruct Hreg as (Hi & _ & _).
    assert (e ≠ e') by congruence.
    split; [|split; [done|]].
    + by rewrite Hidx, decide_False.
    + rewrite Hpool, Hother; done.
  - by rewrite Hidx, decide_True.
  - intros e' He'. by rewrite Hidx, decide_False.
Qed.

Lemma owner_of_live w xs fs x :
  represents (component_data_ C w) xs fs →
  owners_consistent kUnused C w → x ∈ xs →
  ∃ e, registered_at kUnused C e x w.
Proof.
  intros Hrep Hown Hx.
  apply (represents_used _ _ _ _ Hrep) in Hx as [cd Hcd].
  destruct (Hown x cd Hcd) as (e & _ & Hreg). eauto.
Qed.

Lemma RemoveEntityIter_spec Inv xs1 x xs2 fs w :
  cleanup_ok kUnused C Inv → Inv w →
  represents (component_data_ C w) (xs1 ++ x :: xs2) fs →
  owners_consistent kUnused C w →
  ∃ e w2 t,
    Inv w2
    ∧ registered_at kUnused C e x w
    ∧ RemoveEntityIter kUnused C (Some x) w = Ok (head xs2) w2
    ∧ represents (component_data_ C w2) (xs1 ++ xs2) (x :: fs)
    ∧ owners_consistent kUnused C w2
    ∧ GetComponentDataIndex C e w2 = kUnused
    ∧ (∀ e', e' ≠ e →
             GetComponentDataIndex C e' w2 = GetComponentDataIndex C e' w)
    ∧ (∀ e' j, j ≠ x → registered_at kUnused C e' j w →
               registered_at kUnused C e' j w2)
    ∧ trace w2 = trace w ++ [EvCleanupEntity c e] ++ t
                   ++ [EvFreeElement c x;
                       EvSetComponentDataIndex e c kUnused].
Proof.
  intros Hhook Hinv Hrep Hown.
  destruct (owner_of_live w _ _ x Hrep Hown) as [e Hreg].
  { apply elem_of_app. right. left. }
  destruct (cleanup_returns _ _ _ Hhook e x (entering_cleanup C e w))
    as (w1 & Hrun & Hpres & Hinv1);
    [by apply (cleanup_entering _ _ _ Hhook) | done |].
  pose proof Hpres as (_ & _ & Hidx & t & Htrace).
  assert (represents (component_data_ C w1) (xs1 ++ x :: xs2) fs) as Hrep1.
  { by eapply represents_preserved. }
  assert (owners_consistent kUnused C w1) as Hown1.
  { eapply owners_consistent_preserved; [done|]. exact Hown. }
  assert (registered_at kUnused C e x w1) as Hreg1.
  { eapply registered_at_preserved; [done|]. exact Hreg. }
  destruct (unregistered_spec e _ _ _ _ _ Hrep1 Hown1 Hreg1)
    as (Hrep2 & Hown2 & _ & Hrecs & Hunreg & Hothers).
  exists e, (unregistered kUnused C e x w1), t.
  split; [by apply (cleanup_leaving _ _ _ Hhook)|].
  split; [done|]. split.
  { rewrite (RemoveEntityIter_unfold e x w w1); [|apply Hreg|done].
    by rewrite (iter_next_represents _ _ _ _ _ Hrep1). }
  split; [done|]. split; [done|]. split; [done|]. split.
  { intros e' He'. rewrite Hothers by done. apply Hidx. }
  split.
  { intros e' j Hj Hreg'.
    assert (registered_at kUnused C e' j w1) as (Hi' & Hne' & Hcd').
    { eapply registered_at_preserved; [done|]. exact Hreg'. }
    assert (e' ≠ e).
    { intros ->. destruct Hreg1 as (Hi1 & _). congruence. }
    split; [|split; [done|]].
    - by rewrite Hothers.
    - by rewrite Hrecs. }
  simpl. rewrite Htrace. simpl. by rewrite <- !app_assoc.
Qed.

Lemma registered_at_owner e e' i w :
  registered_at kUnused C e i w → registered_at kUnused C e' i w → e = e'.
Proof. intros (_ & _ & H1) (_ & _ & H2). congruence. Qed.

Lemma RemoveUntilEmpty_nil fuel w :
  pool_begin (component_data_ C w) = None →
  RemoveUntilEmpty kUnused C fuel w = Ok tt w.
Proof.
  intros H.
  destruct fuel; cbn [RemoveUntilEmpty]; unfold mbind, M_bind, get_world;
    by rewrite H.
Qed.

Lemma RemoveUntilEmpty_cons fuel i w :
  pool_begin (component_data_ C w) = Some i →
  RemoveUntilEmpty kUnused C (S fuel) w
  = (RemoveEntityIter kUnused C (Some i);;
     RemoveUntilEmpty kUnused C fuel) w.
Proof.
  intros H. cbn [RemoveUntilEmpty]. unfold mbind, M_bind, get_world.
  by rewrite H.
Qed.

Lemma ClearLoop_spec Inv xs : ∀ fs fuel w,
  cleanup_ok kUnused C Inv → Inv w →
  represents (component_data_ C w) xs fs →
  owners_consistent kUnused C w →
  length xs ≤ fuel →
  ∃ w' t,
    Inv w'
    ∧ ClearLoop kUnused C fuel (head xs) w = Ok tt w'
    ∧ RemoveUntilEmpty kUnused C fuel w = Ok tt w'
    ∧ represents (component_data_ C w') [] (reverse xs ++ fs)
    ∧ owners_consistent kUnused C w'
    ∧ trace w' = trace w ++ t
    ∧ (∀ e i, registered_at kUnused C e i w →
              GetComponentDataIndex C e w' = kUnused
              ∧ EvCleanupEntity c e ∈ t)
    ∧ (∀ e, GetComponentDataIndex C e w' = kUnused
            ∨ GetComponentDataIndex C e w' = GetComponentDataIndex C e w).
Proof.
  induction xs as [|x xs IH]; intros fs fuel w Hhook Hinv Hrep Hown Hfuel.
  - exists w, []. simpl. split; [done|].
    split; [by destruct fuel|]. split.
    { apply RemoveUntilEmpty_nil. apply (rep_first _ _ _ Hrep). }
    split; [done|]. split; [done|]. split; [by rewrite app_nil_r|].
    split; [|by right].
    intros e i Hreg.
    by apply (registered_in_order _ _ _ _ _ Hrep), elem_of_nil in Hreg.
  - destruct fuel as [|fuel]; [simpl in Hfuel; lia|].
    destruct (RemoveEntityIter_spec Inv [] x xs fs w Hhook Hinv Hrep Hown)
      as (e & w2 & t & Hinv2 & Hreg & Hrun & Hrep2 & Hown2 & Hunreg
          & Hothers & Hkeep & Htrace).
    destruct (IH (x :: fs) fuel w2 Hhook Hinv2 Hrep2 Hown2)
      as (w' & t' & Hinv' & Hloop & Hspec & Hrep' & Hown' & Htrace'
          & HA & HB).
    { simpl in Hfuel. lia. }
    exists w', ([EvCleanupEntity c e] ++ t
                ++ [EvFreeElement c x; EvSetComponentDataIndex e c kUnused]
                ++ t').
    split; [done|]. split.
    { cbn [ClearLoop head]. unfold mbind, M_bind. by rewrite Hrun. }
    split.
    { rewrite (RemoveUntilEmpty_cons fuel x)
        by apply (rep_first _ _ _ Hrep).
      unfold mbind, M_bind. by rewrite Hrun. }
    split.
    { rewrite reverse_cons, <- app_assoc. done. }
    split; [done|]. split.
    { rewrite Htrace', Htrace. by rewrite <- !app_assoc. }
    split.
    + intros e0 i0 Hreg0. destruct (decide (i0 = x)) as [->|Hne].
      * assert (e0 = e) as -> by by eapply registered_at_owner.
        split; [|left].
        destruct (HB e) as [Hk|Hk]; [done | by rewrite Hk].
      * destruct (HA e0 i0 (Hkeep e0 i0 Hne Hreg0)) as [Hk Hin].
        split; [done|]. rewrite !elem_of_app. right. right. by right.
    + intros e0. destruct (HB e0) as [Hk|Hk]; [by left|].
      rewrite Hk. destruct (decide (e0 = e)) as [->|Hne]; [by left|].
      right. by apply Hothers.
Qed.

Lemma Traverse_spec Inv script :
  cleanup_ok kUnused C Inv → script_ok C script →
  ∀ fuel todo done fs w,
    Inv w →
    represents (component_data_ C w) (done ++ todo) fs →
    owners_consistent kUnused C w →
    length todo ≤ fuel →
    ∃ vs w' live fs',
      Traverse kUnused C script fuel (head todo) w = Ok vs w'
      ∧ Inv w'
      ∧ vs `sublist_of` todo
      ∧ represents (component_data_ C w') live fs'
      ∧ owners_consistent kUnused C w'
      ∧ live `sublist_of` (done ++ vs)
      ∧ ((∀ x w y, script x w ≠ RemoveOther y) → vs = todo).
Proof.
  intros Hhook Hscript.
  induction fuel as [|fuel IH]; intros todo done fs w Hinv Hrep Hown Hfuel.
  { destruct todo; [|simpl in Hfuel; lia].
    exists [], w, (done ++ []), fs.
    split; [done|]. split; [done|]. split; [done|]. split; [done|].
    by split. }
  destruct todo as [|x todo].
  { exists [], w, (done ++ []), fs.
    split; [done|]. split; [done|]. split; [done|]. split; [done|].
    by split. }
  simpl in Hfuel.
  cbn [Traverse head]. unfold mbind, M_bind, get_world.
  destruct (script x w) as [| |y] eqn:Hstep.
  - (* ++iter *)
    unfold mret, M_ret.
    rewrite (iter_next_represents _ _ _ _ _ Hrep).
    destruct (IH todo (done ++ [x]) fs w) as
      (vs & w' & live & fs' & Hrun & Hinv' & Hsub & Hrep' & Hown' & Hlive
         & Hall);
      [done | by rewrite <- app_assoc | done | lia |].
    exists (x :: vs), w', live, fs'. rewrite Hrun.
    split; [done|]. split; [done|]. split; [by apply sublist_skip|].
    split; [done|]. split; [done|]. split.
    + by rewrite <- app_assoc in Hlive.
    + intros Hno. by rewrite Hall.
  - (* iter = RemoveEntity(iter) *)
    destruct (RemoveEntityIter_spec Inv done x todo fs w Hhook Hinv Hrep
                Hown)
      as (e & w2 & t & Hinv2 & _ & Hrem & Hrep2 & Hown2 & _).
    rewrite Hrem.
    destruct (IH todo done (x :: fs) w2) as
      (vs & w' & live & fs' & Hrun & Hinv' & Hsub & Hrep' & Hown' & Hlive
         & Hall);
      [done | done | done | lia |].
    exists (x :: vs), w', live, fs'. rewrite Hrun.
    split; [done|]. split; [done|]. split; [by apply sublist_skip|].
    split; [done|]. split; [done|]. split.
    + etrans; [exact Hlive|]. apply sublist_app; [done|].
      by apply sublist_cons.
    + intros Hno. by rewrite Hall.
  - (* another element is removed *)
    destruct (Hscript _ _ _ Hstep) as [Hyx Hy].
    apply (represents_used _ _ _ _ Hrep) in Hy.
    apply elem_of_app in Hy as [Hy|Hy].
    + apply list_elem_of_split in Hy as (d1 & d2 & ->).
      rewrite <- app_assoc in Hrep. simpl in Hrep.
      destruct (RemoveEntityIter_spec Inv d1 y (d2 ++ x :: todo) fs w
                  Hhook Hinv Hrep Hown)
        as (e & w2 & t & Hinv2 & _ & Hrem & Hrep2 & Hown2 & _).
      rewrite Hrem. unfold mret, M_ret.
      rewrite app_assoc in Hrep2.
      rewrite (iter_next_represents _ _ _ _ _ Hrep2).
      destruct (IH todo ((d1 ++ d2) ++ [x]) (y :: fs) w2) as
        (vs & w' & live & fs' & Hrun & Hinv' & Hsub & Hrep' & Hown' & Hlive
         & Hall);
        [done | by rewrite <- app_assoc | done | lia |].
      exists (x :: vs), w', live, fs'. rewrite Hrun.
      split; [done|]. split; [done|]. split; [by apply sublist_skip|].
      split; [done|]. split; [done|]. split.
      * etrans; [exact Hlive|]. rewrite <- !app_assoc. simpl.
        apply sublist_app; [done|]. by apply sublist_cons.
      * intros Hno. by destruct (Hno _ _ _ Hstep).
    + apply elem_of_cons in Hy as [->|Hy]; [done|].
      apply list_elem_of_split in Hy as (t1 & t2 & ->).
      replace (done ++ x :: t1 ++ y :: t2)
        with ((done ++ x :: t1) ++ y :: t2) in Hrep
        by (by rewrite <- app_assoc).
      destruct (RemoveEntityIter_spec Inv (done ++ x :: t1) y t2 fs w
                  Hhook Hinv Hrep Hown)
        as (e & w2 & t & Hinv2 & _ & Hrem & Hrep2 & Hown2 & _).
      rewrite Hrem. unfold mret, M_ret.
      rewrite <- app_assoc in Hrep2. simpl in Hrep2.
      rewrite (iter_next_represents _ _ _ _ _ Hrep2).
      destruct (IH (t1 ++ t2) (done ++ [x]) (y :: fs) w2) as
        (vs & w' & live & fs' & Hrun & Hinv' & Hsub & Hrep' & Hown' & Hlive
         & Hall).
      { done. }
      { by rewrite <- app_assoc. }
      { done. }
      { rewrite length_app in *. simpl in Hfuel. lia. }
      exists (x :: vs), w', live, fs'. rewrite Hrun.
      split; [done|]. split; [done|]. split.
      { apply sublist_skip. etrans; [exact Hsub|].
        apply sublist_app; [done|]. by apply sublist_cons. }
      split; [done|]. split; [done|]. split.
      * by rewrite <- app_assoc in Hlive.
      * intros Hno. by destruct (Hno _ _ _ Hstep).
Qed.

Lemma Traverse_removing Inv (P : nat → bool) :
  cleanup_ok kUnused C Inv →
  ∀ fuel todo done fs w,
    Inv w →
    represents (component_data_ C w) (done ++ todo) fs →
    owners_consistent kUnused C w →
    length todo ≤ fuel →
    ∃ w' fs',
      Traverse kUnused C (λ x _, if P x then RemoveCurrent else Advance)
               fuel (head todo) w = Ok todo w'
      ∧ Inv w'
      ∧ represents (component_data_ C w')
          (done ++ filter (λ x, P x = false) todo) fs'
      ∧ owners_consistent kUnused C w'.
Proof.
  intros Hhook.
  induction fuel as [|fuel IH]; intros todo done fs w Hinv Hrep Hown Hfuel.
  { destruct todo; [|simpl in Hfuel; lia]. by exists w, fs. }
  destruct todo as [|x todo]; [by exists w, fs|].
  simpl in Hfuel.
  cbn [Traverse head]. unfold mbind, M_bind, get_world.
  rewrite filter_cons. destruct (P x) eqn:HP.
  - destruct (RemoveEntityIter_spec Inv done x todo fs w Hhook Hinv Hrep
                Hown)
      as (e & w2 & t & Hinv2 & _ & Hrem & Hrep2 & Hown2 & _).
    rewrite Hrem.
    destruct (IH todo done (x :: fs) w2) as
      (w' & fs' & Hrun & Hinv' & Hrep' & Hown'); [done | done | done | lia |].
    exists w', fs'. rewrite Hrun. rewrite decide_False by done. done.
  - unfold mret, M_ret.
    rewrite (iter_next_represents _ _ _ _ _ Hrep).
    destruct (IH todo (done ++ [x]) fs w) as
      (w' & fs' & Hrun & Hinv' & Hrep' & Hown');
      [done | by rewrite <- app_assoc | done | lia |].
    exists w', fs'. rewrite Hrun. rewrite decide_True by done.
    rewrite <- app_assoc in Hrep'. done.
Qed.

Lemma GetElementData_FreeElement_same {A} (p : VectorPool A) i :
  GetElementData (FreeElement p i) i = None.
Proof.
  unfold FreeElement, GetElementData.
  destruct (elements p !! i) as [[nf|d pr nx]|] eqn:Hi; simpl;
    [by rewrite Hi | | by rewrite Hi].
  rewrite list_lookup_insert_eq; [done|].
  apply lookup_lt_Some in Hi.
  destruct nx, pr; simpl; by rewrite ?length_alter.
Qed.

Lemma represents_nil_empty {A} (p : VectorPool A) fs j :
  represents p [] fs → GetElementData p j = None.
Proof.
  intros Hrep. destruct (GetElementData p j) eqn:Hj; [|done].
  assert (j ∈ @nil nat) as Hin.
  { eapply (represents_used _ _ _ _ Hrep). by rewrite Hj. }
  by apply elem_of_nil in Hin.
Qed.
End FrameworkFacts.

Section BaseFacts.
Context {T Aux : Type}.
Variable kUnused : ComponentIndex.
Implicit Types (w : @World T Aux) (e : EntityRef) (c : ComponentId).

Lemma BaseComponent_cleanup_ok c (d : T) :
  cleanup_ok kUnused (@BaseComponent T Aux c d) (λ _, True).
Proof.
  split; [done| |done].
  intros e i w _ _. exists w. split; [done|]. split; [|done].
  split; [done|]. split; [done|]. split; [done|].
  exists []. by rewrite app_nil_r.
Qed.

Lemma component_ok_empty c (a : Aux) :
  component_ok kUnused c (@empty_world T Aux kUnused a).
Proof.
  split.
  - apply pool_wf_empty.
  - intros i cd Hi. by destruct i.
Qed.

Lemma component_ok_AddEntity c (d : T) e loc w :
  component_ok kUnused c w →
  Size (component_data_ c w) < kUnused →
  component_ok kUnused c
    (run_world (AddEntity kUnused (BaseComponent c d) e loc) w).
Proof.
  intros [(xs & fs & Hrep) Hown] Hsize. unfold run_world.
  destruct (IsRegisteredForComponent kUnused (entities w e) c) eqn:Hreg.
  { unfold AddEntity. simpl. rewrite Hreg. by split; [exists xs, fs|]. }
  destruct (AddEntity_fresh kUnused (BaseComponent c d) e loc w xs fs)
    as (i & w3 & Hadd & Hi & Hi_xs & Hreg3 & Hrep3 & Hget & Hother & Hpools
        & Hents & _); [done..|].
  rewrite Hadd. simpl. split; [by eexists _, _|].
  intros j cd Hj. destruct (decide (j = i)) as [->|Hne].
  - exists e. unfold component_data_ in Hget, Hj. simpl in Hget, Hj.
    rewrite Hget in Hj. injection Hj as <-. done.
  - simpl in Hother, Hj. rewrite Hother in Hj by done.
    destruct (Hown j cd Hj) as (e' & He' & Hidx & Hne' & Hcd).
    exists e'. split; [done|].
    assert (e' ≠ e).
    { intros ->. unfold IsRegisteredForComponent in Hreg.
      apply bool_decide_eq_false in Hreg. apply Hreg.
      unfold GetComponentDataIndex in Hidx. congruence. }
    split; [|split; [done|]].
    + unfold GetComponentDataIndex. simpl in Hents.
      rewrite Hents; [done | congruence].
    + simpl. by rewrite Hother.
Qed.
End BaseFacts.

Section DependencyFacts.
Context {T Aux : Type}.
Variable kUnused : ComponentIndex.
Variable fresh : ComponentId → T.
Variable requires : ComponentId → list ComponentId.
Variable ids : list ComponentId.
Variable e : EntityRef.
Implicit Types (w : @World T Aux) (c d : ComponentId).

Abbreviation IsReg w d := (IsRegisteredForComponent kUnused (entities w e) d).
Abbreviation Dep := (@Dependent T Aux kUnused fresh requires).

Abbreviation deps_inv := (@deps_inv T Aux kUnused ids e).
Abbreviation deps_step := (@deps_step T Aux kUnused e).

Lemma deps_step_refl w : deps_step w w.
Proof. intros d. split; [done|]. split; [done|]. congruence. Qed.

Lemma deps_step_trans w1 w2 w3 :
  deps_step w1 w2 → deps_step w2 w3 → deps_step w1 w3.
Proof.
  intros H12 H23 d.
  destruct (H12 d) as (Ha1 & Ha2 & Ha3), (H23 d) as (Hb1 & Hb2 & Hb3).
  destruct (IsReg w1 d) eqn:E1, (IsReg w2 d) eqn:E2, (IsReg w3 d) eqn:E3;
    try (specialize (Ha1 eq_refl)); try (specialize (Hb1 eq_refl));
    try discriminate.
  - split; [done|]. split; [|done]. intros _. by rewrite Hb2, Ha2.
  - split; [done|]. split; [done|]. intros _ _. by rewrite Hb2, Ha3.
  - split; [done|]. split; [done|]. intros _ _. by rewrite Hb3, Ha2.
  - split; [done|]. split; [|done]. intros _. by rewrite Hb2, Ha2.
Qed.

Lemma filter_length_mono (P Q : nat → Prop)
    `{!∀ x, Decision (P x)} `{!∀ x, Decision (Q x)} (l : list nat) :
  (∀ x, P x → Q x) → length (filter P l) ≤ length (filter Q l).
Proof.
  intros HPQ. induction l as [|x l IH]; [done|].
  rewrite !filter_cons.
  destruct (decide (P x)), (decide (Q x)); simpl; try lia.
  naive_solver.
Qed.

Lemma filter_length_lt (P Q : nat → Prop)
    `{!∀ x, Decision (P x)} `{!∀ x, Decision (Q x)} (l : list nat) y :
  (∀ x, P x → Q x) → y ∈ l → Q y → ¬ P y →
  length (filter P l) < length (filter Q l).
Proof.
  intros HPQ Hy HQ HP. induction l as [|x l IH].
  { by apply elem_of_nil in Hy. }
  rewrite !filter_cons.
  pose proof (filter_length_mono P Q l HPQ).
  apply elem_of_cons in Hy as [<-|Hy].
  - rewrite decide_False, decide_True by done. simpl. lia.
  - specialize (IH Hy).
    destruct (decide (P x)), (decide (Q x)); simpl; try lia.
    naive_solver.
Qed.

Lemma unregistered_count_mono w w' :
  deps_step w w' →
  unregistered_count kUnused ids e w' ≤ unregistered_count kUnused ids e w.
Proof.
  intros Hstep. apply filter_length_mono. intros d Hd.
  destruct (IsReg w d) eqn:E; [|done].
  destruct (Hstep d) as (H1 & _). rewrite H1 in Hd; done.
Qed.

Lemma unregistered_count_lt w w' c :
  deps_step w w' → c ∈ ids → IsReg w c = false → IsReg w' c = true →
  unregistered_count kUnused ids e w' < unregistered_count kUnused ids e w.
Proof.
  intros Hstep Hc Hw Hw'. eapply filter_length_lt; [|done|done|].
  - intros d Hd. destruct (IsReg w d) eqn:E; [|done].
    destruct (Hstep d) as (H1 & _). rewrite H1 in Hd; done.
  - by rewrite Hw'.
Qed.

Lemma unregistered_count_pos w c :
  c ∈ ids → IsReg w c = false → 0 < unregistered_count kUnused ids e w.
Proof.
  intros Hc Hw. unfold unregistered_count.
  assert (c ∈ filter (λ d, IsReg w d = false) ids) as Hin.
  { by apply list_elem_of_filter. }
  destruct (filter _ ids); [by apply elem_of_nil in Hin | simpl; lia].
Qed.

Lemma GetComponentId_Dependent depth c : GetComponentId (Dep depth c) = c.
Proof. by destruct depth. Qed.

Lemma for_each_deps (f : ComponentId → M unit) ds n :
  (∀ d w, d ∈ ids → deps_inv w → unregistered_count kUnused ids e w ≤ n →
          ∃ w', f d w = Ok tt w' ∧ deps_inv w' ∧ deps_step w w') →
  (∀ d, d ∈ ds → d ∈ ids) →
  ∀ w, deps_inv w → unregistered_count kUnused ids e w ≤ n →
       ∃ w', for_each ds f w = Ok tt w' ∧ deps_inv w' ∧ deps_step w w'.
Proof.
  intros Hf. induction ds as [|d ds IH]; intros Hds w Hinv Hn.
  - exists w. split; [done|]. split; [done|]. apply deps_step_refl.
  - destruct (Hf d w) as (w1 & Hrun & Hinv1 & Hstep1);
      [apply Hds; left | done | done |].
    destruct (IH (λ d' Hd', Hds d' (list_elem_of_further _ _ _ Hd')) w1)
      as (w2 & Hrun2 & Hinv2 & Hstep2); [done| |].
    { pose proof (unregistered_count_mono _ _ Hstep1). lia. }
    exists w2. split.
    + unfold for_each. simpl. unfold mbind, M_bind. by rewrite Hrun.
    + split; [done|]. by eapply deps_step_trans.
Qed.

Hypothesis ids_closed : ∀ c d, c ∈ ids → d ∈ requires c → d ∈ ids.

Lemma AddEntity_Dependent depth : ∀ c loc w,
  c ∈ ids → deps_inv w → unregistered_count kUnused ids e w ≤ depth →
  ∃ r w', AddEntity kUnused (Dep depth c) e loc w = Ok r w'
          ∧ deps_inv w' ∧ deps_step w w' ∧ IsReg w' c = true.
Proof.
  induction depth as [|depth IH]; intros c loc w Hc Hinv Hcount.
  - destruct (IsReg w c) eqn:Hreg.
    + exists (GetComponentData kUnused (Dep 0 c) e w), w.
      split; [|split; [done|split; [apply deps_step_refl|done]]].
      unfold AddEntity. simpl. by rewrite Hreg.
    + pose proof (unregistered_count_pos w c Hc Hreg). lia.
  - destruct (IsReg w c) eqn:Hreg.
    + exists (GetComponentData kUnused (Dep (S depth) c) e w), w.
      split; [|split; [done|split; [apply deps_step_refl|done]]].
      unfold AddEntity. simpl. by rewrite Hreg.
    + destruct (Hinv c Hc) as [(xs & fs & Hrep) Hsize].
      specialize (Hsize Hreg).
      destruct (AddEntity_fresh kUnused (Dep (S depth) c) e loc w xs fs)
        as (i & w3 & Hadd & _ & _ & Hreg3 & Hrep3 & _ & _ & Hpools
            & Hents & _); [done..|].
      simpl in Hrep3, Hpools, Hents.
      assert (IsReg w3 c = true) as Hreg3'.
      { exact (registered_at_IsRegistered _ _ _ _ _ Hreg3). }
      assert (∀ d, d ≠ c → IsReg w3 d = IsReg w d) as Hsame.
      { intros d Hd. unfold IsRegisteredForComponent.
        rewrite Hents; [done|]. congruence. }
      assert (deps_step w w3) as Hstep3.
      { intros d. destruct (decide (d = c)) as [->|Hd].
        - split; [done|]. split; [congruence|]. intros _ _.
          unfold active_count.
          rewrite (represents_order (pools w c) _ _ Hrep),
            (represents_order (pools w3 c) _ _ Hrep3).
          destruct loc; [done|]. rewrite length_app. simpl. lia.
        - rewrite (Hsame d Hd). split; [done|]. split; [|congruence].
          intros _. by apply Hpools. }
      assert (deps_inv w3) as Hinv3.
      { intros d Hd. destruct (decide (d = c)) as [->|Hne].
        - split; [by eexists _, _|]. congruence.
        - rewrite (Hsame d Hne), (Hpools d Hne). by apply Hinv. }
      destruct (for_each_deps
                  (λ d, AddEntity kUnused (Dep depth d) e kAddToBack;;
                        mret tt)
                  (requires c) depth) with (w := w3)
        as (w' & Hrun & Hinv' & Hstep').
      { intros d w0 Hd Hinv0 Hcount0.
        destruct (IH d kAddToBack w0 Hd Hinv0 Hcount0)
          as (r & w0' & Hrun0 & Hinv0' & Hstep0 & _).
        exists w0'. split; [|done].
        unfold mbind, M_bind. by rewrite Hrun0. }
      { intros d Hd. by eapply ids_closed. }
      { done. }
      { pose proof (unregistered_count_lt w w3 c Hstep3 Hc Hreg Hreg3').
        lia. }
      exists (Some i), w'. split.
      { rewrite Hadd. simpl. unfold mbind at 1. unfold M_bind at 1.
        by rewrite Hrun. }
      split; [done|]. split; [by eapply deps_step_trans|].
      by apply (Hstep' c).
Qed.
End DependencyFacts.

(** ** Payloads under the pool operations, whatever the links *)

Section Payloads.
Context {T : Type}.
Implicit Types (p : VectorPool T).

Lemma GetElementData_link_next p i n j :
  GetElementData (link_next p i n) j = GetElementData p j.
Proof.
  unfold GetElementData. rewrite lookup_link_next.
  by destruct (decide (i = Some j)), (elements p !! j) as [[|]|].
Qed.

Lemma GetElementData_link_prev p i n j :
  GetElementData (link_prev p i n) j = GetElementData p j.
Proof.
  unfold GetElementData. rewrite lookup_link_prev.
  by destruct (decide (i = Some j)), (elements p !! j) as [[|]|].
Qed.

Lemma GetElementData_take_slot p j :
  GetElementData (take_slot p).2 j = GetElementData p j.
Proof.
  assert (GetElementData
            (mkPool (elements p ++ [FreeSlot None]) (first_used p)
                    (last_used p) (first_free p)) j
          = GetElementData p j) as Hgrow.
  { unfold GetElementData. simpl.
    destruct (decide (j < length (elements p))).
    - by rewrite lookup_app_l.
    - rewrite (lookup_ge_None_2 (elements p)) by lia.
      destruct (decide (j = length (elements p))) as [->|].
      + by rewrite list_lookup_middle.
      + rewrite lookup_ge_None_2; [done|]. rewrite length_app. simpl. lia. }
  unfold take_slot.
  destruct (first_free p) as [i|]; [|done].
  by destruct (elements p !! i) as [[|]|].
Qed.

Lemma GetNewElement_payloads init loc p j d :
  GetElementData (GetNewElement init loc p).2 j = Some d →
  d = init ∨ GetElementData p j = Some d.
Proof.
  unfold GetNewElement.
  pose proof (GetElementData_take_slot p j) as Htake.
  destruct (take_slot p) as [index p1]. simpl in Htake.
  destruct loc; simpl.
  - unfold GetElementData at 1. simpl.
    rewrite lookup_link_prev. simpl. rewrite list_lookup_insert.
    rewrite <- Htake. unfold GetElementData.
    destruct (decide (first_used p1 = Some j)), (decide (index = j ∧ _));
      simpl; try (intros [= <-]; by left);
      destruct (elements p1 !! j) as [[|]|]; simpl; intros; simplify_eq;
      by right.
  - unfold GetElementData at 1. simpl.
    rewrite lookup_link_next. simpl. rewrite list_lookup_insert.
    rewrite <- Htake. unfold GetElementData.
    destruct (decide (last_used p1 = Some j)), (decide (index = j ∧ _));
      simpl; try (intros [= <-]; by left);
      destruct (elements p1 !! j) as [[|]|]; simpl; intros; simplify_eq;
      by right.
Qed.

Lemma FreeElement_payloads p i j d :
  GetElementData (FreeElement p i) j = Some d → GetElementData p j = Some d.
Proof.
  unfold FreeElement.
  destruct (elements p !! i) as [[nf|d' pr nx]|] eqn:Hi; [done| |done].
  unfold GetElementData at 1. simpl. rewrite list_lookup_insert.
  case_decide; [done|].
  fold (GetElementData (link_prev (link_next p pr nx) nx pr) j).
  by rewrite GetElementData_link_prev, GetElementData_link_next.
Qed.

Lemma SetElementData_payloads p i d' j d :
  GetElementData (SetElementData p i d') j = Some d →
  d = d' ∨ GetElementData p j = Some d.
Proof.
  rewrite GetElementData_SetElementData. case_decide; [|by right].
  destruct (GetElementData p i); simpl; [|done]. intros [= <-]. by left.
Qed.
End Payloads.

(** ** The physics component keeps [body_count] within bounds *)

Section Bounds.
Variable kUnused : ComponentIndex.
Implicit Types (w : @World Payload LibraryState).
Implicit Types (p : VectorPool (@ComponentData Payload)).

Lemma keeps_ret {A} (a : A) (Q : A → Prop) : Q a → keeps_bounds (mret a) Q.
Proof. by intros HQ w Hw. Qed.

Lemma keeps_fail {A} f (Q : A → Prop) :
  f ≠ OutOfBounds → keeps_bounds (fail f) Q.
Proof. by intros Hf w Hw. Qed.

Lemma keeps_bind {A B} (m : M A) (k : A → M B) Q R :
  keeps_bounds m Q → (∀ a, Q a → keeps_bounds (k a) R) →
  keeps_bounds (m ≫= k) R.
Proof.
  intros Hm Hk w Hw. specialize (Hm w Hw).
  unfold mbind, M_bind. destruct (m w) as [a w'|f]; [|done].
  destruct Hm as [Hw' HQ]. by apply Hk.
Qed.

Lemma keeps_weaken {A} (m : M A) (Q Q' : A → Prop) :
  keeps_bounds m Q → (∀ a, Q a → Q' a) → keeps_bounds m Q'.
Proof.
  intros Hm HQ w Hw. specialize (Hm w Hw).
  destruct (m w); [|done]. destruct Hm. auto.
Qed.

Lemma keeps_get_world : keeps_bounds get_world bodies_in_bounds.
Proof. by intros w Hw. Qed.

Lemma keeps_log ev : keeps_bounds (log ev) (λ _, True).
Proof. by intros w Hw. Qed.

Lemma keeps_SetComponentDataIndex e c v :
  keeps_bounds (SetComponentDataIndex e c v) (λ _, True).
Proof. by intros w Hw. Qed.

Lemma keeps_set_pool c p :
  pool_in_bounds p → keeps_bounds (set_pool c p) (λ _, True).
Proof.
  intros Hp w Hw. split; [|done]. intros c'. simpl.
  unfold insert, fn_insert. case_decide; [done | apply Hw].
Qed.

Lemma pool_in_bounds_GetNewElement init loc p :
  payload_in_bounds (data init) → pool_in_bounds p →
  pool_in_bounds (GetNewElement init loc p).2.
Proof.
  intros Hinit Hp i cd Hi.
  apply GetNewElement_payloads in Hi as [->|Hi]; [done|]. by eapply Hp.
Qed.

Lemma pool_in_bounds_SetElementData p i cd :
  payload_in_bounds (data cd) → pool_in_bounds p →
  pool_in_bounds (SetElementData p i cd).
Proof.
  intros Hcd Hp j cd' Hj.
  apply SetElementData_payloads in Hj as [->|Hj]; [done|]. by eapply Hp.
Qed.

Lemma pool_in_bounds_FreeElement p i :
  pool_in_bounds p → pool_in_bounds (FreeElement p i).
Proof. intros Hp j cd Hj. apply FreeElement_payloads in Hj. by eapply Hp. Qed.

Lemma keeps_write c ptr (f : Payload → Payload) :
  (∀ x, payload_in_bounds x → payload_in_bounds (f x)) →
  keeps_bounds (write c ptr f) (λ _, True).
Proof.
  intros Hf w Hw. unfold write.
  destruct ptr as [i|]; [|done].
  destruct (GetElementData (component_data_ c w) i) as [cd|] eqn:Hcd;
    [|done].
  apply keeps_set_pool; [|done].
  apply pool_in_bounds_SetElementData; [|apply Hw].
  simpl. apply Hf. by eapply (Hw c).
Qed.

Lemma keeps_write_entity c i e :
  keeps_bounds (write_entity c i e) (λ _, True).
Proof.
  intros w Hw. unfold write_entity.
  destruct (GetElementData (component_data_ c w) i) as [cd|] eqn:Hcd;
    [|done].
  apply keeps_set_pool; [|done].
  apply pool_in_bounds_SetElementData; [|apply Hw].
  simpl. by eapply (Hw c).
Qed.

Lemma keeps_AddEntity (C : @Component Payload LibraryState) e loc :
  payload_in_bounds (new_data C) →
  keeps_bounds (InitEntity C e) (λ _, True) →
  keeps_bounds (AddEntity kUnused C e loc) (λ _, True).
Proof.
  intros Hnew Hinit w Hw. unfold AddEntity.
  destruct (IsRegisteredForComponent _ _ _); [done|].
  pose proof (pool_in_bounds_GetNewElement
                (mkComponentData None (new_data C)) loc
                (component_data_ C w) Hnew (Hw C)) as Hpool.
  destruct (GetNewElement _ loc (component_data_ C w)) as [index pool].
  simpl in Hpool. revert w Hw.
  change (keeps_bounds
            (set_pool C pool;; log (EvGetNewElement C index);;
             SetComponentDataIndex e C index;; write_entity C index e;;
             log (EvInitEntity C e);; InitEntity C e;; mret (Some index))
            (λ _, True)).
  eapply keeps_bind; [by apply keeps_set_pool|intros _ _].
  eapply keeps_bind; [apply keeps_log|intros _ _].
  eapply keeps_bind; [apply keeps_SetComponentDataIndex|intros _ _].
  eapply keeps_bind; [apply keeps_write_entity|intros _ _].
  eapply keeps_bind; [apply keeps_log|intros _ _].
  eapply keeps_bind; [apply Hinit|intros _ _].
  by apply keeps_ret.
Qed.

Lemma keeps_RemoveEntity (C : @Component Payload LibraryState) e :
  keeps_bounds (CleanupEntity C e) (λ _, True) →
  keeps_bounds (RemoveEntity kUnused C e) (λ _, True).
Proof.
  intros Hclean. unfold RemoveEntity, RemoveEntityInternal.
  eapply keeps_bind.
  { eapply keeps_bind; [apply keeps_log|intros _ _; apply Hclean]. }
  intros _ _.
  eapply keeps_bind; [apply keeps_get_world|intros w Hw].
  eapply keeps_bind.
  { apply keeps_set_pool. apply pool_in_bounds_FreeElement, Hw. }
  intros _ _.
  eapply keeps_bind; [apply keeps_log|intros _ _].
  apply keeps_SetComponentDataIndex.
Qed.

Lemma keeps_RemoveEntityIter (C : @Component Payload LibraryState) iter :
  (∀ e, keeps_bounds (CleanupEntity C e) (λ _, True)) →
  keeps_bounds (RemoveEntityIter kUnused C iter) (λ _, True).
Proof.
  intros Hclean. unfold RemoveEntityIter, RemoveEntityInternal.
  destruct iter as [i|]; [|by apply keeps_fail].
  eapply keeps_bind; [apply keeps_get_world|intros w Hw].
  destruct (entity <$> GetElementData (component_data_ C w) i)
    as [[e|]|]; try by apply keeps_fail.
  eapply keeps_bind.
  { eapply keeps_bind; [apply keeps_log|intros _ _; apply Hclean]. }
  intros _ _.
  eapply keeps_bind; [apply keeps_get_world|intros w' Hw'].
  simpl.
  eapply keeps_bind.
  { apply keeps_set_pool. apply pool_in_bounds_FreeElement, Hw'. }
  intros _ _.
  eapply keeps_bind; [apply keeps_log|intros _ _].
  eapply keeps_bind; [apply keeps_SetComponentDataIndex|intros _ _].
  by apply keeps_ret.
Qed.

Lemma keeps_ClearLoop (C : @Component Payload LibraryState) fuel :
  (∀ e, keeps_bounds (CleanupEntity C e) (λ _, True)) →
  ∀ iter, keeps_bounds (ClearLoop kUnused C fuel iter) (λ _, True).
Proof.
  intros Hclean. induction fuel as [|fuel IH]; intros [i|];
    cbn [ClearLoop];
    try (by apply keeps_ret); try (by apply keeps_fail).
  eapply keeps_bind; [by apply keeps_RemoveEntityIter|].
  intros iter _. apply IH.
Qed.

Lemma keeps_for_each {A} (l : list A) (f : A → M unit) :
  (∀ a, keeps_bounds (f a) (λ _, True)) →
  keeps_bounds (for_each l f) (λ _, True).
Proof.
  intros Hf. induction l as [|a l IH]; simpl; [by apply keeps_ret|].
  eapply keeps_bind; [apply Hf | by intros _ _].
Qed.

Variables kTransformId kPhysicsId : ComponentId.
Variable BulletCollisionType_Raycast : Z.
Variable GetMaxMinPositionsForEntity :
  EntityRef → @World Payload LibraryState → option (Vec3 * Vec3).

Lemma keeps_deref_physics ptr :
  keeps_bounds (deref_physics kPhysicsId ptr) in_bounds.
Proof.
  intros w Hw. unfold deref_physics, read.
  destruct ptr as [i|]; simpl; [|done].
  destruct (GetElementData (component_data_ kPhysicsId w) i) as [cd|]
    eqn:Hcd; simpl; [|done].
  destruct (data cd) as [|d| |] eqn:Hd; simpl; try done.
  split; [done|]. by eapply (Hw kPhysicsId i cd).
Qed.

Lemma keeps_store_physics ptr d :
  in_bounds d → keeps_bounds (store_physics kPhysicsId ptr d) (λ _, True).
Proof.
  intros Hd. apply keeps_write. intros _ _ d' [= <-]. done.
Qed.

Lemma live_bodies_in_bounds d :
  in_bounds d → is_Some (live_bodies d).
Proof.
  intros [Hcount Hlen]. unfold live_bodies.
  rewrite bool_decide_eq_true_2; [done|].
  rewrite Hlen. unfold kMaxPhysicsBodies in *. lia.
Qed.

Lemma keeps_touch_bodies d :
  in_bounds d → keeps_bounds (touch_bodies d) (λ _, True).
Proof.
  intros Hd w Hw. unfold touch_bodies.
  destruct (live_bodies_in_bounds d Hd) as [bodies ->].
  by destruct (forallb _ bodies).
Qed.

Lemma load_shapes_length kinematic defs : ∀ index bodies,
  index + length defs ≤ length bodies →
  match load_shapes kinematic index defs bodies with
  | Done bodies' => length bodies' = length bodies
  | Stop f => f = NullPointer
  end.
Proof.
  induction defs as [|shape_def defs IH]; intros index bodies Hlen; simpl.
  { done. }
  simpl in Hlen.
  destruct (lookup_lt_is_Some_2 bodies index) as [rb Hrb]; [lia|].
  rewrite Hrb.
  destruct (load_shape kinematic index shape_def rb) as [rb'|]; [|done].
  specialize (IH (S index) (<[index:=rb']> bodies)).
  rewrite length_insert in IH. apply IH. lia.
Qed.

Lemma PhysicsData_from_def_in_bounds physics_def d :
  in_bounds d →
  match PhysicsData_from_def physics_def d with
  | Done d' =>
      in_bounds d'
      ∧ enabled d' = true
      ∧ body_count d'
        = match def_shapes physics_def with
          | Some l =>
              if bool_decide (0 < length l)
              then Z.min (Z.of_nat (length l)) kMaxPhysicsBodies
              else body_count d
          | None => body_count d
          end
  | Stop f => f = NullPointer
  end.
Proof.
  intros [Hcount Hlen]. unfold PhysicsData_from_def.
  destruct (def_shapes physics_def) as [l|]; simpl;
    [|by split; [split|]].
  case_bool_decide as Hl; simpl; [|by split; [split|]].
  set (shape_count :=
         if bool_decide (kMaxPhysicsBodies < Z.of_nat (length l))%Z
         then kMaxPhysicsBodies else Z.of_nat (length l)).
  assert (shape_count = Z.min (Z.of_nat (length l)) kMaxPhysicsBodies
          ∧ (0 ≤ shape_count ≤ kMaxPhysicsBodies)%Z) as [Hsc Hrange].
  { unfold shape_count, kMaxPhysicsBodies. case_bool_decide; lia. }
  pose proof (load_shapes_length (def_kinematic physics_def)
                (take (Z.to_nat shape_count) l) 0 (rigid_bodies d))
    as Hload.
  destruct (load_shapes _ _ _ _) as [bodies'|f].
  - simpl. split; [split; simpl; [done|]|by split].
    rewrite Hload; [done|].
    rewrite length_take, Hlen. unfold kMaxPhysicsBodies in *. lia.
  - apply Hload. rewrite length_take, Hlen.
    unfold kMaxPhysicsBodies in *. lia.
Qed.

Lemma keeps_DisablePhysics e :
  keeps_bounds (DisablePhysics kUnused kPhysicsId e) (λ _, True).
Proof.
  unfold DisablePhysics.
  eapply keeps_bind; [apply keeps_get_world|intros w _].
  eapply keeps_bind; [apply keeps_deref_physics|intros d Hd].
  destruct (enabled d); [|by apply keeps_ret].
  eapply keeps_bind; [by apply keeps_store_physics|intros _ _].
  by apply keeps_touch_bodies.
Qed.

Lemma keeps_EnablePhysics e :
  keeps_bounds (EnablePhysics kUnused kPhysicsId e) (λ _, True).
Proof.
  unfold EnablePhysics.
  eapply keeps_bind; [apply keeps_get_world|intros w _].
  eapply keeps_bind; [apply keeps_deref_physics|intros d Hd].
  destruct (enabled d); [by apply keeps_ret|].
  eapply keeps_bind; [by apply keeps_store_physics|intros _ _].
  by apply keeps_touch_bodies.
Qed.

Lemma keeps_UpdatePhysicsObjectsTransform e kinematic_only :
  keeps_bounds
    (UpdatePhysicsObjectsTransform kUnused kTransformId kPhysicsId e
       kinematic_only) (λ _, True).
Proof.
  unfold UpdatePhysicsObjectsTransform.
  eapply keeps_bind; [apply keeps_get_world|intros w _].
  destruct (Data kUnused kPhysicsId e w); [|by apply keeps_ret].
  eapply keeps_bind; [apply keeps_deref_physics|intros d Hd].
  destruct (Data kUnused kTransformId e w); [|by apply keeps_fail].
  by apply keeps_touch_bodies.
Qed.

Lemma keeps_TransformComponent_AddEntity e loc :
  keeps_bounds
    (AddEntity kUnused (TransformComponent kTransformId) e loc) (λ _, True).
Proof. apply keeps_AddEntity; [done | by apply keeps_ret]. Qed.

Lemma PhysicsData_new_in_bounds : in_bounds PhysicsData_new.
Proof. by split. Qed.

Lemma keeps_PhysicsComponent_AddEntity e loc :
  keeps_bounds
    (AddEntity kUnused (PhysicsComponent kUnused kTransformId kPhysicsId)
               e loc) (λ _, True).
Proof.
  apply keeps_AddEntity.
  - intros d [= <-]. apply PhysicsData_new_in_bounds.
  - simpl. eapply keeps_bind;
      [apply keeps_TransformComponent_AddEntity | by intros _ _].
Qed.

Lemma keeps_PhysicsComponent_AddFromRawData e physics_def :
  keeps_bounds
    (PhysicsComponent_AddFromRawData kUnused kTransformId kPhysicsId e
       physics_def) (λ _, True).
Proof.
  unfold PhysicsComponent_AddFromRawData.
  eapply keeps_bind;
    [apply keeps_PhysicsComponent_AddEntity|intros physics_data _].
  eapply keeps_bind; [apply keeps_deref_physics|intros d Hd].
  pose proof (PhysicsData_from_def_in_bounds physics_def d Hd) as Hload.
  destruct (PhysicsData_from_def physics_def d) as [d'|f].
  - destruct Hload as (Hd' & _).
    eapply keeps_bind; [by apply keeps_store_physics|intros _ _].
    apply keeps_UpdatePhysicsObjectsTransform.
  - subst f.
    eapply (keeps_bind _ _ (λ _, False));
      [by apply keeps_fail|by intros _ []].
Qed.

Lemma keeps_GenerateRaycastShape e result_exportable :
  keeps_bounds
    (GenerateRaycastShape kUnused kTransformId kPhysicsId
       BulletCollisionType_Raycast GetMaxMinPositionsForEntity e
       result_exportable) (λ _, True).
Proof.
  unfold GenerateRaycastShape.
  eapply keeps_bind; [apply keeps_get_world|intros w _].
  eapply keeps_bind; [apply keeps_deref_physics|intros d Hd].
  case_bool_decide as Hfull; [by apply keeps_ret|].
  unfold raycastable.
  destruct (live_bodies_in_bounds d Hd) as [bodies ->]. simpl.
  destruct (existsb _ bodies); [by apply keeps_ret|].
  destruct Hd as [Hcount Hlen].
  rewrite bool_decide_eq_true_2 by lia.
  destruct (lookup_lt_is_Some_2 (rigid_bodies d) (Z.to_nat (body_count d)))
    as [rb ->].
  { rewrite Hlen. unfold kMaxPhysicsBodies in *. lia. }
  destruct (Data kUnused kTransformId e w); [|by apply keeps_fail].
  apply keeps_store_physics. split; simpl.
  - unfold kMaxPhysicsBodies in *. lia.
  - by rewrite length_insert.
Qed.

Lemma keeps_run_op op :
  keeps_bounds
    (run_op kUnused kTransformId kPhysicsId BulletCollisionType_Raycast
       GetMaxMinPositionsForEntity op)
    (λ _, True).
Proof.
  destruct op; simpl.
  - eapply keeps_bind;
      [apply keeps_PhysicsComponent_AddEntity | by intros _ _].
  - apply keeps_PhysicsComponent_AddFromRawData.
  - apply keeps_GenerateRaycastShape.
  - apply keeps_EnablePhysics.
  - apply keeps_DisablePhysics.
  - apply keeps_UpdatePhysicsObjectsTransform.
  - apply keeps_RemoveEntity. apply keeps_DisablePhysics.
  - unfold ClearComponentData.
    eapply keeps_bind; [apply keeps_get_world|intros w _].
    apply keeps_ClearLoop. intros e'. apply keeps_DisablePhysics.
Qed.

Lemma bodies_in_bounds_empty a :
  bodies_in_bounds (empty_world kUnused a).
Proof. intros c i cd Hi. by destruct i. Qed.
End Bounds.

(** ** Registering a fresh entity with a component of the library *)

Section Registering.
Context {T Aux : Type}.
Variable kUnused : ComponentIndex.
Implicit Types (w : @World T Aux) (e : EntityRef) (c : ComponentId).

Lemma only_touches_refl e w : only_touches e w w.
Proof. by split. Qed.

Lemma only_touches_trans e w1 w2 w3 :
  only_touches e w1 w2 → only_touches e w2 w3 → only_touches e w1 w3.
Proof.
  intros [Ha1 Ha2] [Hb1 Hb2]. split.
  - intros e' c He'. by rewrite Hb1, Ha1.
  - intros c i cd Hcd He. apply Hb2; [|done]. by apply Ha2.
Qed.

Lemma pools_wf_kept_refl w : pools_wf_kept w w.
Proof. by intros c. Qed.

Lemma pools_wf_kept_trans w1 w2 w3 :
  pools_wf_kept w1 w2 → pools_wf_kept w2 w3 → pools_wf_kept w1 w3.
Proof. intros H12 H23 c Hc. by apply H23, H12. Qed.

(** What a write through a pointer into a live record does. *)
Lemma write_live c i (f : T → T) w cd :
  GetElementData (pools w c) i = Some cd →
  ∃ w', write c (Some i) f w = Ok tt w'
        ∧ GetElementData (pools w' c) i
          = Some (mkComponentData (entity cd) (f (data cd)))
        ∧ (∀ j, j ≠ i → GetElementData (pools w' c) j
                        = GetElementData (pools w c) j)
        ∧ pool_shape (pools w' c) = pool_shape (pools w c)
        ∧ (∀ c', c' ≠ c → pools w' c' = pools w c')
        ∧ entities w' = entities w ∧ aux w' = aux w ∧ trace w' = trace w.
Proof.
  intros Hcd. unfold write, component_data_. rewrite Hcd.
  eexists. split; [done|]. simpl. rewrite fn_lookup_insert.
  split.
  { rewrite GetElementData_SetElementData, decide_True by done.
    by rewrite Hcd. }
  split.
  { intros j Hj. by rewrite GetElementData_SetElementData, decide_False. }
  split; [apply pool_shape_SetElementData|].
  split; [|done]. intros c' Hc'. by rewrite fn_lookup_insert_ne.
Qed.

Lemma write_live_registered c i (f : T → T) w w' cd c' e' k :
  GetElementData (pools w c) i = Some cd →
  write c (Some i) f w = Ok tt w' →
  registered_at kUnused c' e' k w → registered_at kUnused c' e' k w'.
Proof.
  intros Hcd Hwrite (Hidx & Hne & Hown).
  destruct (write_live c i f w cd Hcd)
    as (w'' & Hw & Hi & Hother & _ & Hpools & Hents & _).
  rewrite Hwrite in Hw. injection Hw as <-.
  split; [|split; [done|]].
  - unfold GetComponentDataIndex. by rewrite Hents.
  - unfold component_data_ in *.
    destruct (decide (c' = c)) as [->|Hc]; [|by rewrite Hpools].
    destruct (decide (k = i)) as [->|Hk]; [|by rewrite Hother].
    rewrite Hi. rewrite Hcd in Hown. simpl in *. done.
Qed.

Lemma write_live_wf c i (f : T → T) w w' cd :
  GetElementData (pools w c) i = Some cd →
  write c (Some i) f w = Ok tt w' → pools_wf_kept w w'.
Proof.
  intros Hcd Hwrite.
  destruct (write_live c i f w cd Hcd)
    as (w'' & Hw & _ & _ & Hshape & Hpools & _).
  rewrite Hwrite in Hw. injection Hw as <-.
  intros c' (xs & fs & Hrep).
  destruct (decide (c' = c)) as [->|Hc]; [|rewrite Hpools by done; by eexists _, _].
  exists xs, fs. eapply represents_shape; [|done]. by symmetry.
Qed.

Lemma write_live_only_touches c i (f : T → T) w w' cd e :
  GetElementData (pools w c) i = Some cd → entity cd = Some e →
  write c (Some i) f w = Ok tt w' → only_touches e w w'.
Proof.
  intros Hcd He Hwrite.
  destruct (write_live c i f w cd Hcd)
    as (w'' & Hw & Hi & Hother & _ & Hpools & Hents & _).
  rewrite Hwrite in Hw. injection Hw as <-.
  split; [by rewrite Hents|].
  intros c' j cd' Hj Hne.
  destruct (decide (c' = c)) as [->|Hc]; [|by rewrite Hpools].
  destruct (decide (j = i)) as [->|Hk]; [|by rewrite Hother].
  congruence.
Qed.

Lemma AddEntity_fresh_base (C : @Component T Aux) e loc w :
  fresh_for kUnused C e w →
  ∃ i w3,
    AddEntity kUnused C e loc w = (InitEntity C e;; mret (Some i)) w3
    ∧ registered_at kUnused C e i w3
    ∧ pool_wf (pools w3 C)
    ∧ GetElementData (pools w3 C) i
      = Some (mkComponentData (Some e) (new_data C))
    ∧ GetElementData (pools w C) i = None
    ∧ (∀ j, j ≠ i → GetElementData (pools w3 C) j
                    = GetElementData (pools w C) j)
    ∧ (∀ c', c' ≠ C → pools w3 c' = pools w c')
    ∧ (∀ e' c', (e', c') ≠ (e, GetComponentId C) →
                entities w3 e' c' = entities w e' c')
    ∧ aux w3 = aux w
    ∧ only_touches e w w3
    ∧ pools_wf_kept w w3.
Proof.
  intros ((xs & fs & Hrep) & Hsize & Hunreg).
  destruct (AddEntity_fresh kUnused C e loc w xs fs Hrep Hunreg Hsize)
    as (i & w3 & Hadd & Hi & Hi_xs & Hreg3 & Hrep3 & Hget & Hother & Hpools
        & Hents & Haux & _).
  assert (GetElementData (pools w C) i = None) as Hnew.
  { destruct (GetElementData (pools w C) i) eqn:Hold; [|done].
    exfalso. apply Hi_xs. apply (represents_used _ _ _ _ Hrep).
    unfold component_data_. by rewrite Hold. }
  exists i, w3. split; [done|]. split; [done|].
  split; [by eexists _, _|].
  split; [done|]. split; [done|]. split; [done|]. split; [done|].
  split; [done|]. split; [done|].
  split; [split|].
  - intros e' c' He'. apply Hents. congruence.
  - intros c' j cd Hj _.
    destruct (decide (c' = C)) as [->|Hc]; [|by rewrite Hpools].
    destruct (decide (j = i)) as [->|Hk]; [congruence|].
    unfold component_data_ in Hother. by rewrite Hother.
  - intros c' Hc'.
    destruct (decide (c' = C)) as [->|Hc]; [by eexists _, _|].
    by rewrite Hpools.
Qed.
End Registering.

Section Lookups.
Context {T Aux : Type}.
Variable kUnused : ComponentIndex.
Implicit Types (w : @World T Aux) (e : EntityRef) (c : ComponentId).

(** [GetComponentData] finds the record that the index entry leads to,
    when there is one. *)
Lemma GetComponentData_alt c e w :
  GetComponentData kUnused c e w
  = if decide (entities w e c = kUnused) then None
    else (λ _, entities w e c) <$> GetElementData (pools w c) (entities w e c).
Proof.
  unfold GetComponentData, GetComponentDataAt, GetComponentDataIndex,
    component_data_, Size.
  destruct (decide (length (elements (pools w c)) ≤ entities w e c))
    as [Hge|Hlt].
  - unfold GetElementData. rewrite (lookup_ge_None_2 _ _ Hge).
    by destruct (decide (entities w e c = kUnused)).
  - destruct (decide (entities w e c = kUnused)).
    { by rewrite decide_True. }
    rewrite decide_False by done.
    by destruct (GetElementData (pools w c) (entities w e c)).
Qed.

Lemma GetComponentData_stable c e w w' :
  entities w' e c = entities w e c →
  (∀ cd, GetElementData (pools w c) (entities w e c) = Some cd →
         ∃ cd', GetElementData (pools w' c) (entities w e c) = Some cd') →
  is_Some (GetComponentData kUnused c e w) →
  GetComponentData kUnused c e w' = GetComponentData kUnused c e w.
Proof.
  rewrite !GetComponentData_alt. intros -> Hlive.
  case_decide; [done|].
  destruct (GetElementData (pools w c) (entities w e c)) as [cd|];
    simpl; [|by intros [? ?]].
  intros _. by destruct (Hlive cd eq_refl) as [cd' ->].
Qed.

Lemma registered_at_read c e i w :
  registered_at kUnused c e i w →
  GetComponentData kUnused c e w = Some i.
Proof.
  intros (Hidx & Hne & Hown). rewrite GetComponentData_alt.
  unfold GetComponentDataIndex in Hidx. rewrite Hidx.
  rewrite decide_False by done.
  unfold component_data_ in Hown.
  by destruct (GetElementData (pools w c) i).
Qed.


Lemma IsRegistered_registered_at c e i w :
  registered_at kUnused c e i w →
  IsRegisteredForComponent kUnused (entities w e) c = true.
Proof.
  intros (Hidx & Hne & _). unfold IsRegisteredForComponent.
  apply bool_decide_eq_true. unfold GetComponentDataIndex in Hidx.
  congruence.
Qed.

(** An entity that was fresh for a component is still fresh for it
    after a call that touched another entity only, if the pool has not
    reached the size of the sentinel. *)
Lemma fresh_for_kept c e1 e2 w w' :
  e2 ≠ e1 → only_touches e1 w w' → pools_wf_kept w w' →
  Size (pools w' c) < kUnused →
  fresh_for kUnused c e2 w → fresh_for kUnused c e2 w'.
Proof.
  intros Hne [Hents _] Hkept Hsize (Hwf & _ & Hunreg).
  split; [by apply Hkept|]. split; [done|].
  unfold IsRegisteredForComponent in *. by rewrite Hents.
Qed.
End Lookups.

Section LibraryFacts.
Variable kUnused : ComponentIndex.
Variables kTransformId kPhysicsId kRenderMeshId kGraphId : ComponentId.
Variables BulletCollisionType_Raycast BulletCollisionType_End : Z.
Variables RenderPass_kCount RenderPass_kOpaque : nat.
Implicit Types (w : @World Payload LibraryState) (e : EntityRef).

Abbreviation Transform := (TransformComponent kTransformId).

(** A component whose [InitEntity] registers the entity with the
    transform component, as those of the physics and of the render mesh
    component do. *)
Lemma AddEntity_requiring_transform c d0 cleanup e w :
  let C := mkComponent c d0
             (λ e, AddEntity kUnused Transform e kAddToBack;; mret tt)
             cleanup in
  c ≠ kTransformId →
  fresh_for kUnused c e w → addable kUnused kTransformId e w →
  ∃ i j w',
    AddEntity kUnused C e kAddToBack w = Ok (Some i) w'
    ∧ registered_at kUnused c e i w'
    ∧ registered_at kUnused kTransformId e j w'
    ∧ GetElementData (pools w' c) i = Some (mkComponentData (Some e) d0)
    ∧ aux w' = aux w
    ∧ only_touches e w w'
    ∧ pools_wf_kept w w'.
Proof.
  intros C Hc Hfresh HaddT.
  destruct (AddEntity_fresh_base kUnused C e kAddToBack w Hfresh)
    as (i & w3 & Hadd & Hreg3 & Hwf3 & Hget3 & Hnew3 & Hother3 & Hpools3
        & Hents3 & Haux3 & Htouch3 & Hkept3).
  simpl in *.
  destruct HaddT as [[j HregT]|HfreshT].
  { assert (registered_at kUnused kTransformId e j w3) as HregT3.
    { destruct HregT as (Hidx & Hne & Hown).
      unfold registered_at, GetComponentDataIndex, component_data_ in *.
      simpl in *. rewrite Hents3 by congruence.
      by rewrite Hpools3 by done. }
    exists i, j, w3. split.
    { rewrite Hadd. unfold mbind, M_bind. simpl.
      unfold mbind, M_bind.
      by rewrite (AddEntity_registered kUnused Transform e j kAddToBack
                    w3 HregT3). }
    done. }
  assert (fresh_for kUnused kTransformId e w3) as HfreshT3.
  { destruct HfreshT as (HwfT & HsizeT & HunregT).
    unfold fresh_for, component_data_ in *.
    rewrite Hpools3 by done. split; [done|]. split; [done|].
    unfold IsRegisteredForComponent in *.
    rewrite Hents3; [done|]. congruence. }
  destruct (AddEntity_fresh_base kUnused Transform e kAddToBack w3 HfreshT3)
    as (j & w4 & HaddT & Hreg4 & Hwf4 & Hget4 & Hnew4 & Hother4 & Hpools4
        & Hents4 & Haux4 & Htouch4 & Hkept4).
  simpl in *.
  exists i, j, w4. split.
  { rewrite Hadd. unfold mbind, M_bind. simpl.
    unfold mbind, M_bind. rewrite HaddT. done. }
  split.
  { destruct Hreg3 as (Hidx & Hne & Hown).
    unfold registered_at, GetComponentDataIndex, component_data_ in *.
    simpl in *. rewrite Hents4 by congruence. by rewrite Hpools4. }
  split; [done|].
  split; [by rewrite Hpools4|].
  split; [congruence|].
  split; [by eapply only_touches_trans|].
  by eapply pools_wf_kept_trans.
Qed.
End LibraryFacts.

(** ** Import and export of the graph component *)

Section GraphFacts.
Variable kUnused : ComponentIndex.
Variable kGraphId : ComponentId.
Implicit Types (w : @World Payload LibraryState) (e : EntityRef).

(** The graphs that [AddFromRawData] makes of a blob. *)
Definition graphs_of_def (graph_def : GraphDef) : GraphData :=
  mkGraphData
    (match filename_list graph_def with
     | Some l => (λ name, mkSerializableGraphState name false) <$> l
     | None => []
     end).

Lemma GraphComponent_AddEntity_fresh e w :
  fresh_for kUnused kGraphId e w →
  ∃ i w',
    AddEntity kUnused (GraphComponent kGraphId) e kAddToBack w
    = Ok (Some i) w'
    ∧ registered_at kUnused kGraphId e i w'
    ∧ GetElementData (pools w' kGraphId) i
      = Some (mkComponentData (Some e) (GraphPayload GraphData_new))
    ∧ only_touches e w w'
    ∧ pools_wf_kept w w'.
Proof.
  intros Hfresh.
  destruct (AddEntity_fresh_base kUnused (GraphComponent kGraphId) e
              kAddToBack w Hfresh)
    as (i & w3 & Hadd & Hreg3 & _ & Hget3 & _ & _ & _ & _ & _ & Htouch3
        & Hkept3).
  simpl in *. by exists i, w3.
Qed.

Lemma GraphComponent_AddFromRawData_fresh e graph_def w :
  fresh_for kUnused kGraphId e w →
  ∃ i w',
    GraphComponent_AddFromRawData kUnused kGraphId e graph_def w = Ok tt w'
    ∧ registered_at kUnused kGraphId e i w'
    ∧ GetElementData (pools w' kGraphId) i
      = Some (mkComponentData (Some e)
                (GraphPayload (graphs_of_def graph_def)))
    ∧ only_touches e w w'
    ∧ pools_wf_kept w w'.
Proof.
  intros Hfresh.
  destruct (GraphComponent_AddEntity_fresh e w Hfresh)
    as (i & w3 & Hadd & Hreg3 & Hget3 & Htouch3 & Hkept3).
  destruct (write_live kGraphId i
              (λ _, GraphPayload (graphs_of_def graph_def)) w3 _ Hget3)
    as (w4 & Hwrite & Hget4 & _).
  exists i, w4. split.
  { unfold GraphComponent_AddFromRawData, mbind, M_bind.
    rewrite Hadd. exact Hwrite. }
  split; [exact (write_live_registered kUnused _ _ _ _ _ _ _ _ _
                   Hget3 Hwrite Hreg3)|].
  split; [done|].
  split.
  - eapply only_touches_trans; [done|].
    exact (write_live_only_touches _ _ _ _ _ _ e Hget3 eq_refl Hwrite).
  - eapply pools_wf_kept_trans; [done|].
    exact (write_live_wf _ _ _ _ _ _ Hget3 Hwrite).
Qed.

Lemma GraphComponent_ExportRawData_registered e i cd d w :
  registered_at kUnused kGraphId e i w →
  GetElementData (pools w kGraphId) i = Some cd →
  data cd = GraphPayload d →
  GraphComponent_ExportRawData kUnused kGraphId e w
  = Some (mkGraphDef
            (if bool_decide (0 < length (graphs d))
             then Some (filename <$> graphs d) else None)).
Proof.
  intros Hreg Hcd Hd. unfold GraphComponent_ExportRawData.
  rewrite (registered_at_read kUnused _ _ _ _ Hreg).
  unfold read, component_data_. simpl. rewrite Hcd. simpl.
  by rewrite Hd.
Qed.

End GraphFacts.

(** ** Masks and the lists of their bits *)

Section Masks.
Lemma filter_ext_elem_of {A} (P Q : A → Prop)
    `{!∀ x, Decision (P x)} `{!∀ x, Decision (Q x)} (l : list A) :
  (∀ x, x ∈ l → P x ↔ Q x) → filter P l = filter Q l.
Proof.
  induction l as [|x l IH]; intros Hl; [done|].
  rewrite !filter_cons.
  assert (filter P l = filter Q l) as ->.
  { apply IH. intros y Hy. apply Hl. by apply elem_of_cons; right. }
  assert (P x ↔ Q x) as Hx by (apply Hl; apply elem_of_cons; by left).
  destruct (decide (P x)), (decide (Q x)); tauto.
Qed.

Lemma land_bit_nonzero (mask : Z) (i : nat) :
  Z.land mask (Z.shiftl 1 (Z.of_nat i)) ≠ 0%Z
  ↔ Z.testbit mask (Z.of_nat i) = true.
Proof.
  rewrite Z.shiftl_1_l. split.
  - intros Hne. destruct (Z.testbit mask (Z.of_nat i)) eqn:Hbit; [done|].
    exfalso. apply Hne. apply Z.bits_inj_0. intros k.
    rewrite Z.land_spec, Z.pow2_bits_eqb by lia.
    destruct (Z.eqb_spec (Z.of_nat i) k) as [<-|_];
      [by rewrite Hbit|by rewrite andb_false_r].
  - intros Hbit Hzero.
    assert (Z.testbit (Z.land mask (2 ^ Z.of_nat i)) (Z.of_nat i) = true)
      as Hset.
    { rewrite Z.land_spec, Z.pow2_bits_eqb, Z.eqb_refl, Hbit by lia.
      done. }
    rewrite Hzero in Hset. by rewrite Z.bits_0 in Hset.
Qed.

(** The mask with the bits of [l]. *)
Definition mask_of_bits (mask : Z) (l : list nat) : Z :=
  foldl (λ acc i, Z.lor acc (Z.shiftl 1 (Z.of_nat i))) mask l.

Lemma mask_of_bits_testbit mask l (j : nat) :
  Z.testbit (mask_of_bits mask l) (Z.of_nat j)
  = Z.testbit mask (Z.of_nat j) || bool_decide (j ∈ l).
Proof.
  revert mask. induction l as [|i l IH]; intros mask.
  { rewrite bool_decide_eq_false_2; [by rewrite orb_false_r|].
    by intros ?%elem_of_nil. }
  unfold mask_of_bits in *. cbn [foldl]. rewrite IH.
  rewrite Z.lor_spec, Z.shiftl_1_l, Z.pow2_bits_eqb by lia.
  destruct (decide (j = i)) as [->|Hji].
  - rewrite Z.eqb_refl, orb_true_r.
    rewrite (bool_decide_eq_true_2 (i ∈ i :: l));
      [|by apply elem_of_cons; left].
    by rewrite orb_true_r.
  - destruct (Z.eqb_spec (Z.of_nat i) (Z.of_nat j)) as [Heq|_]; [lia|].
    rewrite orb_false_r. f_equal.
    apply bool_decide_ext. rewrite elem_of_cons.
    split; [by right|by intros [?|?]].
Qed.

(** Listing the bits of a mask among [l], making a mask of them and
    listing its bits among [l] gives the same list. *)
Lemma bits_of_mask_of_bits_among (mask : Z) (l : list nat) :
  let bits m :=
    filter (λ i, Z.land m (Z.shiftl 1 (Z.of_nat i)) ≠ 0%Z) l in
  bits (mask_of_bits 0 (bits mask)) = bits mask.
Proof.
  intros bits. unfold bits at 1 3.
  apply filter_ext_elem_of. intros i Hi.
  rewrite !land_bit_nonzero, mask_of_bits_testbit, Z.bits_0. simpl.
  rewrite bool_decide_eq_true. unfold bits.
  rewrite list_elem_of_filter, land_bit_nonzero. tauto.
Qed.


End Masks.

(** ** Import and export of the render mesh component *)

(** The blob and the component have the pointers that [AddFromRawData]
    dereferences. *)
Definition blob_complete (w : @World Payload LibraryState)
    (rendermesh_def : RenderMeshDef) : Prop :=
  is_Some (aux w) ∧ is_Some (def_source_file rendermesh_def)
  ∧ is_Some (def_shader rendermesh_def).

(** Every [assert] of [AddFromRawData] holds. *)
Definition blob_loads (RenderPass_kCount : nat)
    (w : @World Payload LibraryState) (rendermesh_def : RenderMeshDef)
  : Prop :=
  ∃ asset_manager source_file shader_file,
    aux w = Some asset_manager
    ∧ def_source_file rendermesh_def = Some source_file
    ∧ def_shader rendermesh_def = Some shader_file
    ∧ is_Some (LoadMesh asset_manager source_file)
    ∧ is_Some (LoadShader asset_manager shader_file)
    ∧ Forall (λ render_pass, render_pass < RenderPass_kCount)
        (default [] (def_render_pass rendermesh_def)).

Section RenderMeshFacts.
Variable kUnused : ComponentIndex.
Variables kTransformId kRenderMeshId : ComponentId.
Variables RenderPass_kCount RenderPass_kOpaque : nat.
Variable NDEBUG : bool.
Implicit Types (w : @World Payload LibraryState) (e : EntityRef).

Abbreviation RenderMesh :=
  (RenderMeshComponent kUnused kTransformId kRenderMeshId).

Lemma assert_passes (b : bool) w :
  NDEBUG = true ∨ b = true → assert NDEBUG b w = Ok tt w.
Proof.
  intros [->| ->]; [done|]. unfold assert. by destruct NDEBUG.
Qed.

Lemma assert_fails w :
  NDEBUG = false → assert NDEBUG false w = Err AssertionFailed.
Proof. by intros ->. Qed.

Lemma load_pass_mask_ok passes mask w :
  NDEBUG = true
  ∨ Forall (λ render_pass, render_pass < RenderPass_kCount) passes →
  load_pass_mask RenderPass_kCount NDEBUG passes mask w
  = Ok (mask_of_bits mask passes) w.
Proof.
  intros Hpasses. revert mask.
  induction passes as [|render_pass passes IH]; intros mask; [done|].
  cbn [load_pass_mask]. unfold mbind, M_bind.
  rewrite assert_passes.
  - apply IH. destruct Hpasses as [?|Hall]; [by left|].
    right. by inversion Hall.
  - destruct Hpasses as [?|Hall]; [by left|]. right.
    apply bool_decide_eq_true_2. by inversion Hall.
Qed.

Lemma load_pass_mask_fails passes mask w :
  NDEBUG = false →
  ¬ Forall (λ render_pass, render_pass < RenderPass_kCount) passes →
  load_pass_mask RenderPass_kCount NDEBUG passes mask w
  = Err AssertionFailed.
Proof.
  intros Hdebug. revert mask. induction passes as [|render_pass passes IH];
    intros mask Hbad; [by destruct Hbad|].
  cbn [load_pass_mask]. unfold mbind, M_bind.
  destruct (decide (render_pass < RenderPass_kCount)) as [Hlt|Hge].
  - rewrite assert_passes
      by (right; by apply bool_decide_eq_true_2).
    apply IH. intros Hpasses. apply Hbad. by constructor.
  - rewrite bool_decide_eq_false_2 by done. by rewrite assert_fails.
Qed.

(** The record that [AddFromRawData] makes of a blob. *)
Definition rendermesh_of_def (asset_manager : AssetManager)
    (source_file shader_file : string) (rendermesh_def : RenderMeshDef)
  : RenderMeshData :=
  mkRenderMeshData
    (LoadMesh asset_manager source_file)
    (LoadShader asset_manager shader_file)
    source_file shader_file
    (match def_render_pass rendermesh_def with
     | Some passes => mask_of_bits 0 passes
     | None => Z.shiftl 1 (Z.of_nat RenderPass_kOpaque)
     end)
    (def_ignore_culling rendermesh_def)
    (def_hidden rendermesh_def)
    (def_hidden rendermesh_def).

(** The blob that [ExportRawData] makes of a record with file names. *)
Definition def_of_rendermesh (d : RenderMeshData) : RenderMeshDef :=
  mkRenderMeshDef
    (Some (mesh_filename d)) (Some (shader_filename d))
    (Some (filter
             (λ i, Z.land (pass_mask d) (Z.shiftl 1 (Z.of_nat i)) ≠ 0%Z)
             (seq 0 RenderPass_kCount)))
    (ignore_culling d)
    false.

Lemma RenderMeshComponent_AddEntity_fresh e w :
  kRenderMeshId ≠ kTransformId →
  fresh_for kUnused kRenderMeshId e w →
  addable kUnused kTransformId e w →
  ∃ i w',
    AddEntity kUnused RenderMesh e kAddToBack w = Ok (Some i) w'
    ∧ registered_at kUnused kRenderMeshId e i w'
    ∧ GetElementData (pools w' kRenderMeshId) i
      = Some (mkComponentData (Some e)
                (RenderMeshPayload RenderMeshData_new))
    ∧ aux w' = aux w
    ∧ only_touches e w w'
    ∧ pools_wf_kept w w'.
Proof.
  intros Hne Hfresh HaddT.
  destruct (AddEntity_requiring_transform kUnused kTransformId
              kRenderMeshId (RenderMeshPayload RenderMeshData_new)
              (λ _, mret tt) e w Hne Hfresh HaddT)
    as (i & j & w' & Hadd & Hreg & _ & Hget & Haux & Htouch & Hkept).
  by exists i, w'.
Qed.

(** The call up to the first [assert] after [AddEntity], for a blob
    and a component with all their pointers. *)
Lemma RenderMeshComponent_AddFromRawData_unfold e rendermesh_def w
    asset_manager source_file shader_file i w3 :
  aux w = Some asset_manager →
  def_source_file rendermesh_def = Some source_file →
  def_shader rendermesh_def = Some shader_file →
  AddEntity kUnused RenderMesh e kAddToBack w = Ok (Some i) w3 →
  GetElementData (pools w3 kRenderMeshId) i
  = Some (mkComponentData (Some e) (RenderMeshPayload RenderMeshData_new)) →
  RenderMeshComponent_AddFromRawData kUnused kTransformId kRenderMeshId
    RenderPass_kCount RenderPass_kOpaque NDEBUG e rendermesh_def w
  = (assert NDEBUG
       (bool_decide (is_Some (LoadMesh asset_manager source_file)));;
     assert NDEBUG
       (bool_decide (is_Some (LoadShader asset_manager shader_file)));;
     mask ← match def_render_pass rendermesh_def with
            | Some passes =>
                load_pass_mask RenderPass_kCount NDEBUG passes 0%Z
            | None => mret (Z.shiftl 1 (Z.of_nat RenderPass_kOpaque))
            end;
     write kRenderMeshId (Some i)
       (λ _, RenderMeshPayload
               (mkRenderMeshData (LoadMesh asset_manager source_file)
                  (LoadShader asset_manager shader_file)
                  source_file shader_file mask
                  (def_ignore_culling rendermesh_def)
                  (def_hidden rendermesh_def)
                  (def_hidden rendermesh_def)))) w3.
Proof.
  intros Haux Hsf Hsh Hadd Hget3.
  unfold RenderMeshComponent_AddFromRawData.
  unfold mbind at 1, M_bind at 1, get_world.
  unfold LibraryState in *. rewrite Haux, Hsf, Hsh.
  unfold mbind at 1, M_bind at 1.
  rewrite assert_passes by (right; apply bool_decide_eq_true_2; eauto).
  unfold mbind at 1, M_bind at 1.
  rewrite assert_passes by (right; apply bool_decide_eq_true_2; eauto).
  unfold mbind at 1, M_bind at 1.
  rewrite assert_passes by (right; apply bool_decide_eq_true_2; eauto).
  unfold mbind at 1, M_bind at 1. rewrite Hadd.
  unfold mbind at 1, M_bind at 1.
  unfold deref_rendermesh, read, component_data_. simpl.
  unfold LibraryState in *. rewrite Hget3. done.
Qed.

Lemma RenderMeshComponent_AddFromRawData_fresh e rendermesh_def w
    asset_manager source_file shader_file :
  kRenderMeshId ≠ kTransformId →
  fresh_for kUnused kRenderMeshId e w →
  addable kUnused kTransformId e w →
  aux w = Some asset_manager →
  def_source_file rendermesh_def = Some source_file →
  def_shader rendermesh_def = Some shader_file →
  NDEBUG = true
  ∨ (is_Some (LoadMesh asset_manager source_file)
     ∧ is_Some (LoadShader asset_manager shader_file)
     ∧ ∀ passes, def_render_pass rendermesh_def = Some passes →
                 Forall (λ render_pass, render_pass < RenderPass_kCount)
                   passes) →
  ∃ i w',
    RenderMeshComponent_AddFromRawData kUnused kTransformId kRenderMeshId
      RenderPass_kCount RenderPass_kOpaque NDEBUG e rendermesh_def w
    = Ok tt w'
    ∧ registered_at kUnused kRenderMeshId e i w'
    ∧ GetElementData (pools w' kRenderMeshId) i
      = Some (mkComponentData (Some e)
                (RenderMeshPayload
                   (rendermesh_of_def asset_manager source_file
                      shader_file rendermesh_def)))
    ∧ aux w' = aux w
    ∧ only_touches e w w'
    ∧ pools_wf_kept w w'.
Proof.
  intros Hne Hfresh HaddT Haux Hsf Hsh Hok.
  destruct (RenderMeshComponent_AddEntity_fresh e w Hne Hfresh HaddT)
    as (i & w3 & Hadd & Hreg3 & Hget3 & Haux3 & Htouch3 & Hkept3).
  destruct (write_live kRenderMeshId i
              (λ _, RenderMeshPayload
                      (rendermesh_of_def asset_manager source_file
                         shader_file rendermesh_def)) w3 _ Hget3)
    as (w4 & Hwrite & Hget4 & _ & _ & _ & _ & Haux4 & _).
  exists i, w4. split.
  { rewrite (RenderMeshComponent_AddFromRawData_unfold e rendermesh_def w
               asset_manager source_file shader_file i w3 Haux Hsf Hsh
               Hadd Hget3).
    unfold mbind, M_bind.
    rewrite assert_passes
      by (destruct Hok as [?|(? & _)];
          [by left|right; by apply bool_decide_eq_true_2]).
    rewrite assert_passes
      by (destruct Hok as [?|(_ & ? & _)];
          [by left|right; by apply bool_decide_eq_true_2]).
    destruct (def_render_pass rendermesh_def) as [passes|] eqn:Hrp.
    - rewrite load_pass_mask_ok
        by (destruct Hok as [?|(_ & _ & Hall)]; [by left|right; auto]).
      unfold rendermesh_of_def in Hwrite. by rewrite Hrp in Hwrite.
    - simpl. unfold rendermesh_of_def in Hwrite.
      by rewrite Hrp in Hwrite. }
  split; [exact (write_live_registered kUnused _ _ _ _ _ _ _ _ _
                   Hget3 Hwrite Hreg3)|].
  split; [done|]. split; [congruence|].
  split.
  - eapply only_touches_trans; [done|].
    exact (write_live_only_touches _ _ _ _ _ _ e Hget3 eq_refl Hwrite).
  - eapply pools_wf_kept_trans; [done|].
    exact (write_live_wf _ _ _ _ _ _ Hget3 Hwrite).
Qed.

(** A debug build stops at the first [assert] that does not hold. *)
Lemma RenderMeshComponent_AddFromRawData_asserts e rendermesh_def w :
  NDEBUG = false →
  kRenderMeshId ≠ kTransformId →
  fresh_for kUnused kRenderMeshId e w →
  addable kUnused kTransformId e w →
  ¬ blob_loads RenderPass_kCount w rendermesh_def →
  RenderMeshComponent_AddFromRawData kUnused kTransformId kRenderMeshId
    RenderPass_kCount RenderPass_kOpaque NDEBUG e rendermesh_def w
  = Err AssertionFailed.
Proof.
  intros Hdebug Hne Hfresh HaddT Hbad.
  destruct (aux w) as [asset_manager|] eqn:Haux,
    (def_source_file rendermesh_def) as [source_file|] eqn:Hsf,
    (def_shader rendermesh_def) as [shader_file|] eqn:Hsh.
  2-8: unfold RenderMeshComponent_AddFromRawData, mbind, M_bind,
         get_world; unfold LibraryState in *; rewrite ?Haux, ?Hsf, ?Hsh;
         rewrite ?assert_passes
           by (right; apply bool_decide_eq_true_2; eauto);
         rewrite bool_decide_eq_false_2 by (by intros [? ?]);
         by rewrite assert_fails.
  destruct (RenderMeshComponent_AddEntity_fresh e w Hne Hfresh HaddT)
    as (i & w3 & Hadd & Hreg3 & Hget3 & _).
  rewrite (RenderMeshComponent_AddFromRawData_unfold e rendermesh_def w
             asset_manager source_file shader_file i w3 Haux Hsf Hsh
             Hadd Hget3).
  unfold mbind, M_bind.
  destruct (decide (is_Some (LoadMesh asset_manager source_file)))
    as [Hmesh|Hmesh];
    [|rewrite bool_decide_eq_false_2 by done; by rewrite assert_fails].
  rewrite assert_passes by (right; by apply bool_decide_eq_true_2).
  destruct (decide (is_Some (LoadShader asset_manager shader_file)))
    as [Hshader|Hshader];
    [|rewrite bool_decide_eq_false_2 by done; by rewrite assert_fails].
  rewrite assert_passes by (right; by apply bool_decide_eq_true_2).
  destruct (def_render_pass rendermesh_def) as [passes|] eqn:Hrp.
  - rewrite load_pass_mask_fails; [done..|].
    intros Hpasses. apply Hbad.
    exists asset_manager, source_file, shader_file.
    rewrite Hrp. by repeat split.
  - exfalso. apply Hbad.
    exists asset_manager, source_file, shader_file.
    rewrite Hrp. by repeat split.
Qed.

(** A release build stops at the first null pointer it dereferences. *)
Lemma RenderMeshComponent_AddFromRawData_null e rendermesh_def w :
  NDEBUG = true →
  kRenderMeshId ≠ kTransformId →
  fresh_for kUnused kRenderMeshId e w →
  addable kUnused kTransformId e w →
  ¬ blob_complete w rendermesh_def →
  RenderMeshComponent_AddFromRawData kUnused kTransformId kRenderMeshId
    RenderPass_kCount RenderPass_kOpaque NDEBUG e rendermesh_def w
  = Err NullPointer.
Proof.
  intros Hrelease Hne Hfresh HaddT Hbad.
  destruct (RenderMeshComponent_AddEntity_fresh e w Hne Hfresh HaddT)
    as (i & w3 & Hadd & Hreg3 & Hget3 & _).
  unfold RenderMeshComponent_AddFromRawData, mbind, M_bind, get_world.
  unfold LibraryState in *.
  rewrite !assert_passes by (by left). rewrite Hadd.
  unfold deref_rendermesh, read, component_data_. simpl.
  unfold LibraryState in *. rewrite Hget3. simpl.
  destruct (def_source_file rendermesh_def) as [source_file|] eqn:Hsf;
    [|done].
  destruct (def_shader rendermesh_def) as [shader_file|] eqn:Hsh;
    [|done].
  destruct (aux w) as [asset_manager|] eqn:Haux; [|done].
  exfalso. apply Hbad. unfold blob_complete, LibraryState in *.
  rewrite Haux, Hsf, Hsh. by repeat split.
Qed.

(** For a fresh entity, [AddFromRawData] either registers it or stops:
    a debug build at an assertion, a release build at a null
    pointer. *)
Lemma RenderMeshComponent_AddFromRawData_total e rendermesh_def w :
  kRenderMeshId ≠ kTransformId →
  fresh_for kUnused kRenderMeshId e w →
  addable kUnused kTransformId e w →
  match RenderMeshComponent_AddFromRawData kUnused kTransformId
          kRenderMeshId RenderPass_kCount RenderPass_kOpaque NDEBUG
          e rendermesh_def w with
  | Ok _ w' =>
      IsRegisteredForComponent kUnused (entities w' e) kRenderMeshId = true
      ∧ only_touches e w w'
      ∧ blob_complete w rendermesh_def
      ∧ (NDEBUG = false → blob_loads RenderPass_kCount w rendermesh_def)
  | Err f =>
      (NDEBUG = true ∧ f = NullPointer
       ∧ ¬ blob_complete w rendermesh_def)
      ∨ (NDEBUG = false ∧ f = AssertionFailed
         ∧ ¬ blob_loads RenderPass_kCount w rendermesh_def)
  end.
Proof.
  intros Hne Hfresh HaddT.
  assert (Decision (blob_loads RenderPass_kCount w rendermesh_def))
    as Hdec.
  { unfold blob_loads, LibraryState in *.
    destruct (aux w) as [asset_manager|];
      [|right; by intros (? & ? & ? & ? & _)].
    destruct (def_source_file rendermesh_def) as [source_file|];
      [|right; by intros (? & ? & ? & ? & ? & _)].
    destruct (def_shader rendermesh_def) as [shader_file|];
      [|right; by intros (? & ? & ? & ? & ? & ? & _)].
    destruct (decide (is_Some (LoadMesh asset_manager source_file)
                      ∧ is_Some (LoadShader asset_manager shader_file)
                      ∧ Forall (λ render_pass,
                                  render_pass < RenderPass_kCount)
                          (default [] (def_render_pass rendermesh_def))))
      as [Hok|Hbad].
    - left. by exists asset_manager, source_file, shader_file.
    - right. intros (? & ? & ? & [= <-] & [= <-] & [= <-] & Hrest).
      by apply Hbad. }
  assert (Decision (blob_complete w rendermesh_def)) as Hdec'.
  { unfold blob_complete. apply _. }
  assert (blob_loads RenderPass_kCount w rendermesh_def →
          blob_complete w rendermesh_def) as Hloads.
  { intros (? & ? & ? & Haux & Hsf & Hsh & _).
    unfold blob_complete, LibraryState in *. rewrite Haux, Hsf, Hsh.
    by repeat split. }
  assert (∀ asset_manager source_file shader_file,
            aux w = Some asset_manager →
            def_source_file rendermesh_def = Some source_file →
            def_shader rendermesh_def = Some shader_file →
            NDEBUG = true
            ∨ (is_Some (LoadMesh asset_manager source_file)
               ∧ is_Some (LoadShader asset_manager shader_file)
               ∧ ∀ passes, def_render_pass rendermesh_def = Some passes →
                           Forall (λ render_pass,
                                     render_pass < RenderPass_kCount)
                             passes) →
            match RenderMeshComponent_AddFromRawData kUnused kTransformId
                    kRenderMeshId RenderPass_kCount RenderPass_kOpaque
                    NDEBUG e rendermesh_def w with
            | Ok _ w' =>
                IsRegisteredForComponent kUnused (entities w' e)
                  kRenderMeshId = true
                ∧ only_touches e w w'
            | Err f => False
            end) as Hgood.
  { intros asset_manager source_file shader_file Haux Hsf Hsh Hok.
    destruct (RenderMeshComponent_AddFromRawData_fresh e rendermesh_def w
                asset_manager source_file shader_file Hne Hfresh HaddT
                Haux Hsf Hsh Hok)
      as (i & w' & -> & Hreg & _ & _ & Htouch & _).
    split; [|done]. by eapply IsRegistered_registered_at. }
  assert (NDEBUG = true ∨ NDEBUG = false) as [Hbuild|Hbuild]
    by (destruct NDEBUG; auto).
  - destruct Hdec' as [Hcomplete|Hbad].
    + destruct Hcomplete as ([asset_manager Haux] & [source_file Hsf]
                             & [shader_file Hsh]).
      specialize (Hgood asset_manager source_file shader_file Haux Hsf
                    Hsh (or_introl Hbuild)).
      destruct (RenderMeshComponent_AddFromRawData _ _ _ _ _ _ _ _ _)
        as [[] w'|f]; [|done].
      destruct Hgood as [Hreg Htouch]. split; [done|]. split; [done|].
      split; [|by rewrite Hbuild]. unfold blob_complete, LibraryState in *.
      rewrite Haux, Hsf, Hsh. by repeat split.
    + rewrite RenderMeshComponent_AddFromRawData_null by done.
      by left.
  - destruct Hdec as [Hok|Hbad].
    + pose proof Hok as (asset_manager & source_file & shader_file
                         & Haux & Hsf & Hsh & Hmesh & Hshader & Hall).
      specialize (Hgood asset_manager source_file shader_file Haux Hsf
                    Hsh).
      destruct (RenderMeshComponent_AddFromRawData _ _ _ _ _ _ _ _ _)
        as [[] w'|f].
      * destruct Hgood as [Hreg Htouch].
        { right. split; [done|]. split; [done|].
          intros passes Hrp. by rewrite Hrp in Hall. }
        split; [done|]. split; [done|]. split; [by apply Hloads|done].
      * exfalso. apply Hgood. right. split; [done|]. split; [done|].
        intros passes Hrp. by rewrite Hrp in Hall.
    + rewrite RenderMeshComponent_AddFromRawData_asserts by done.
      by right.
Qed.

Lemma RenderMeshComponent_ExportRawData_registered e i cd d w :
  registered_at kUnused kRenderMeshId e i w →
  GetElementData (pools w kRenderMeshId) i = Some cd →
  data cd = RenderMeshPayload d →
  RenderMeshComponent_ExportRawData kUnused kRenderMeshId
    RenderPass_kCount e w
  = if bool_decide (mesh_filename d = EmptyString)
       || bool_decide (shader_filename d = EmptyString)
    then None else Some (def_of_rendermesh d).
Proof.
  intros Hreg Hcd Hd. unfold RenderMeshComponent_ExportRawData.
  rewrite (registered_at_read kUnused _ _ _ _ Hreg).
  unfold read, component_data_. simpl. rewrite Hcd. simpl.
  by rewrite Hd.
Qed.

End RenderMeshFacts.

(** ** The collision layers of a body *)

Section Layers.
Variable BulletCollisionType_End : Z.

(** The bits [j] whose layer [2 ^ j] lies below
    [BulletCollisionType_End]. *)
Definition layer_bits : list nat :=
  filter (λ j, (2 ^ Z.of_nat j < to_short BulletCollisionType_End)%Z)
    (seq 0 15).

Definition layers_of (mask : Z) : list Z :=
  (λ j, (2 ^ Z.of_nat j)%Z)
    <$> filter (λ j, Z.land mask (Z.shiftl 1 (Z.of_nat j)) ≠ 0%Z)
          layer_bits.

Lemma to_short_small (z : Z) :
  (-32768 ≤ z < 32768)%Z → to_short z = z.
Proof. intros Hz. unfold to_short. rewrite Z.mod_small; lia. Qed.

Lemma pow2_le_16384 (k : nat) : k ≤ 14 → (0 < 2 ^ Z.of_nat k ≤ 16384)%Z.
Proof.
  intros Hk. split; [apply Z.pow_pos_nonneg; lia|].
  change 16384%Z with (2 ^ 14)%Z. apply Z.pow_le_mono_r; lia.
Qed.

Lemma collision_layers_from (fuel k : nat) (mask : Z) :
  (to_short BulletCollisionType_End ≤ 16384)%Z →
  k ≤ 14 → 15 ≤ fuel + k →
  collision_layers BulletCollisionType_End fuel (2 ^ Z.of_nat k) mask
  = Some ((λ j, (2 ^ Z.of_nat j)%Z)
            <$> filter (λ j, Z.land mask (Z.shiftl 1 (Z.of_nat j)) ≠ 0%Z)
                  (filter
                     (λ j, (2 ^ Z.of_nat j
                            < to_short BulletCollisionType_End)%Z)
                     (seq k (15 - k)))).
Proof.
  intros HEnd. revert k.
  induction fuel as [|fuel IH]; intros k Hk Hfuel; [lia|].
  cbn [collision_layers].
  destruct (Z.ltb_spec (2 ^ Z.of_nat k) (to_short BulletCollisionType_End))
    as [Hlt|Hge].
  - assert (k ≠ 14) as Hk14.
    { intros ->. change (2 ^ Z.of_nat 14)%Z with 16384%Z in Hlt. lia. }
    assert (to_short (Z.shiftl (2 ^ Z.of_nat k) 1)
            = (2 ^ Z.of_nat (S k))%Z) as ->.
    { rewrite Z.shiftl_mul_pow2 by lia.
      replace (2 ^ Z.of_nat k * 2 ^ 1)%Z with (2 ^ Z.of_nat (S k))%Z.
      - apply to_short_small.
        pose proof (pow2_le_16384 (S k) ltac:(lia)). lia.
      - rewrite Nat2Z.inj_succ, Z.pow_succ_r by lia. lia. }
    rewrite IH by lia. simpl.
    replace (15 - k) with (S (15 - S k)) by lia. cbn [seq].
    rewrite filter_cons_True by done.
    rewrite filter_cons, Z.shiftl_1_l.
    destruct (Z.eqb_spec (Z.land mask (2 ^ Z.of_nat k)) 0) as [Hz|Hnz].
    + by rewrite decide_False by (intros Hne; by apply Hne).
    + by rewrite decide_True by done.
  - f_equal. symmetry.
    assert (filter
              (λ j, (2 ^ Z.of_nat j < to_short BulletCollisionType_End)%Z)
              (seq k (15 - k)) = []) as ->; [|done].
    apply elem_of_nil_inv. intros j [Hj Hin]%list_elem_of_filter.
    apply elem_of_seq in Hin.
    assert (2 ^ Z.of_nat k ≤ 2 ^ Z.of_nat j)%Z
      by (apply Z.pow_le_mono_r; lia).
    lia.
Qed.

Lemma collision_layers_layers_of (mask : Z) :
  (to_short BulletCollisionType_End ≤ 16384)%Z →
  collision_layers BulletCollisionType_End 16 1 mask
  = Some (layers_of mask).
Proof.
  intros HEnd.
  exact (collision_layers_from 16 0 mask HEnd ltac:(lia) ltac:(lia)).
Qed.

Lemma layer_bits_small : Forall (λ j, j ≤ 14) layer_bits.
Proof.
  apply Forall_forall. intros j [_ Hin]%list_elem_of_filter.
  apply elem_of_seq in Hin. lia.
Qed.

(** The loop of [AddFromRawData] over [collides_with()]. *)
Lemma collides_with_of_layers (acc : Z) (l : list nat) :
  Forall (λ j, j ≤ 14) l →
  foldl (λ acc x, Z.lor acc (to_short x)) acc
        ((λ j, (2 ^ Z.of_nat j)%Z) <$> l)
  = mask_of_bits acc l.
Proof.
  intros Hl. revert acc.
  induction Hl as [|j l Hj _ IH]; intros acc; [done|].
  unfold mask_of_bits in *. cbn [fmap list_fmap foldl].
  rewrite IH, Z.shiftl_1_l. do 2 f_equal.
  apply to_short_small. pose proof (pow2_le_16384 j Hj). lia.
Qed.

Lemma layers_of_import (mask : Z) :
  layers_of (foldl (λ acc x, Z.lor acc (to_short x)) 0%Z (layers_of mask))
  = layers_of mask.
Proof.
  unfold layers_of at 2. rewrite collides_with_of_layers.
  - unfold layers_of. f_equal.
    apply (bits_of_mask_of_bits_among mask layer_bits).
  - eapply Forall_impl; [|by intros j Hj; exact Hj].
    apply Forall_forall. intros j [_ Hin]%list_elem_of_filter.
    by apply (proj1 (Forall_forall _ _) layer_bits_small).
Qed.
Lemma pow2_inj (j k : nat) : (2 ^ Z.of_nat j = 2 ^ Z.of_nat k)%Z → j = k.
Proof.
  intros Heq. apply Z.pow_inj_r in Heq; lia.
Qed.

Lemma layer_bits_spec (j : nat) :
  (to_short BulletCollisionType_End ≤ 16384)%Z →
  j ∈ layer_bits ↔ (2 ^ Z.of_nat j < to_short BulletCollisionType_End)%Z.
Proof.
  intros HEnd.
  unfold layer_bits. rewrite list_elem_of_filter, elem_of_seq.
  split; [by intros [? _]|]. intros Hlt. split; [done|].
  split; [lia|]. simpl.
  destruct (decide (j < 15)) as [|Hbig]; [done|].
  assert (2 ^ 15 ≤ 2 ^ Z.of_nat j)%Z by (apply Z.pow_le_mono_r; lia).
  change (2 ^ 15)%Z with 32768%Z in *. lia.
Qed.

(** The bits of the mask that [AddFromRawData] makes of the layers
    that [ExportRawData] lists for [mask]. *)
Lemma layers_of_testbit (mask : Z) (j : nat) :
  (to_short BulletCollisionType_End ≤ 16384)%Z →
  Z.testbit (foldl (λ acc x, Z.lor acc (to_short x)) 0%Z (layers_of mask))
    (Z.of_nat j)
  = Z.testbit mask (Z.of_nat j)
    && bool_decide (2 ^ Z.of_nat j < to_short BulletCollisionType_End)%Z.
Proof.
  intros HEnd. unfold layers_of.
  rewrite collides_with_of_layers.
  2:{ apply Forall_forall. intros k [_ Hk]%list_elem_of_filter.
      by apply (proj1 (Forall_forall _ _) layer_bits_small). }
  rewrite mask_of_bits_testbit, Z.bits_0. simpl.
  destruct (Z.testbit mask (Z.of_nat j)) eqn:Hbit; simpl.
  - apply bool_decide_ext. rewrite list_elem_of_filter, layer_bits_spec
      by done.
    rewrite land_bit_nonzero. tauto.
  - apply bool_decide_eq_false. intros [Hset _]%list_elem_of_filter.
    apply land_bit_nonzero in Hset. congruence.
Qed.
End Layers.

(** ** Import and export of the physics component *)

(** The bodies [rigid_bodies[0 .. body_count)] of a record. *)
Definition bodies_of (d : PhysicsData) : list RigidBodyData :=
  take (Z.to_nat (body_count d)) (rigid_bodies d).

(** The blob has the tables and the vectors that the [switch] of
    [AddFromRawData] dereferences for its shape type. *)
Definition has_shape_data (data : ShapeData) : Prop :=
  match data with
  | Data_Sphere data => is_Some data
  | Data_Box data => ∃ box_data, data = Some box_data
                                 ∧ is_Some (box_half_extents box_data)
  | Data_Cylinder data =>
      ∃ cylinder_data, data = Some cylinder_data
                       ∧ is_Some (cylinder_half_extents cylinder_data)
  | Data_Capsule data => is_Some data
  | Data_Cone data => is_Some data
  | Data_StaticPlane data =>
      ∃ plane_data, data = Some plane_data
                    ∧ is_Some (plane_normal plane_data)
  | Data_NoShape _ | Data_NONE => True
  end.

Definition loadable (shape_def : BulletShapeDef) : Prop :=
  has_shape_data (def_data shape_def).

(** Every shape that [AddFromRawData] loads, which are the first
    [kMaxPhysicsBodies] ones, has its data. *)
Definition shapes_loadable (physics_def : PhysicsDef) : Prop :=
  Forall loadable
    (take (Z.to_nat kMaxPhysicsBodies)
       (default [] (def_shapes physics_def))).

(** The body [rb] is what one round of the loop of [AddFromRawData]
    makes of [shape_def] at [index], in the place of the body [old]. *)
Definition loaded_from (kinematic : bool) (index : nat)
    (shape_def : BulletShapeDef) (old rb : RigidBodyData) : Prop :=
  offset rb = default kZeros3f (def_offset shape_def)
  ∧ collision_type rb = to_short (def_collision_type shape_def)
  ∧ collides_with rb
    = foldl (λ acc x, Z.lor acc (to_short x)) 0%Z
        (default [] (def_collides_with shape_def))
  ∧ is_Some (shape rb)
  ∧ shape rb = shape_of_def (def_data shape_def)
  ∧ rigid_body rb
    = Some (mkbtRigidBody (def_mass shape_def)
              (Some (def_restitution shape_def))
              (if decide (index = 0) then kinematic else true))
  ∧ should_export rb = true
  ∧ user_tag rb = default (user_tag old) (def_user_tag shape_def).

(** The bodies that the loop of [AddFromRawData] makes of the shapes
    [defs], from the body at [index] on. *)
Fixpoint loaded (kinematic : bool) (index : nat) (defs : list BulletShapeDef)
    (old : list RigidBodyData) : list RigidBodyData :=
  match defs, old with
  | shape_def :: defs, rb :: old =>
      default rb (load_shape kinematic index shape_def rb)
      :: loaded kinematic (S index) defs old
  | _, _ => []
  end.


(** The blob of one body, as the loop of [ExportRawData] writes it. *)
Definition shape_def_of (bullet : Bullet) (BulletCollisionType_End : Z)
    (body : RigidBodyData) : BulletShapeDef :=
  mkBulletShapeDef
    (data_of_shape bullet (default btEmptyShape (shape body)))
    (exported_mass bullet
       (default (mkbtRigidBody float_zero None false) (rigid_body body)))
    (getRestitution bullet
       (default (mkbtRigidBody float_zero None false) (rigid_body body)))
    (Some (offset body))
    (collision_type body)
    (Some (layers_of BulletCollisionType_End (collides_with body)))
    (Some (user_tag body)).


Section PhysicsPure.
Variable bullet : Bullet.
Variable BulletCollisionType_End : Z.
Implicit Types (w : @World Payload LibraryState).

#[global] Instance has_shape_data_dec data : Decision (has_shape_data data).
Proof.
  destruct data as [|d|d|d|d|d|d|d]; simpl; try apply _.
  - destruct d as [[[h|]]|];
      [left; by eexists|right; by intros (? & [= <-] & [? ?])
      |right; by intros (? & ? & _)].
  - destruct d as [[[h|]]|];
      [left; by eexists|right; by intros (? & [= <-] & [? ?])
      |right; by intros (? & ? & _)].
  - destruct d as [[[h|] c]|];
      [left; by eexists|right; by intros (? & [= <-] & [? ?])
      |right; by intros (? & ? & _)].
Defined.

#[global] Instance loadable_dec shape_def : Decision (loadable shape_def).
Proof. unfold loadable. apply _. Defined.

Lemma shape_of_def_is_Some data :
  is_Some (shape_of_def data) ↔ has_shape_data data.
Proof.
  destruct data as [|d|d|d|d|d|d|d]; simpl.
  - split; [done|by eexists].
  - destruct d; simpl; split; (by intros [? ?] || by eexists).
  - destruct d as [[[h|]]|]; simpl; split;
      try (by intros [? ?]); try (by eexists);
      try (by intros (? & [= <-] & [? ?])); by intros (? & ? & _).
  - destruct d as [[[h|]]|]; simpl; split;
      try (by intros [? ?]); try (by eexists);
      try (by intros (? & [= <-] & [? ?])); by intros (? & ? & _).
  - destruct d; simpl; split; (by intros [? ?] || by eexists).
  - destruct d; simpl; split; (by intros [? ?] || by eexists).
  - destruct d as [[[h|] c]|]; simpl; split;
      try (by intros [? ?]); try (by eexists);
      try (by intros (? & [= <-] & [? ?])); by intros (? & ? & _).
  - split; [done|by eexists].
Qed.

Lemma load_shape_spec kinematic index shape_def old rb :
  load_shape kinematic index shape_def old = Some rb
  ↔ loaded_from kinematic index shape_def old rb.
Proof.
  unfold load_shape, loaded_from.
  assert ((bool_decide (0 < index) || kinematic)
          = if decide (index = 0) then kinematic else true) as ->.
  { destruct index; [done|]. by rewrite bool_decide_eq_true_2 by lia. }
  destruct (shape_of_def (def_data shape_def)) as [s|] eqn:Hs; simpl.
  - split.
    + intros [= <-]. simpl.
      destruct (def_offset shape_def), (def_collides_with shape_def),
        (def_user_tag shape_def); by repeat split.
    + intros (Hoff & Hct & Hcw & _ & Hshape & Hrb & Hexp & Htag).
      destruct rb; simpl in *. subst.
      by destruct (def_offset shape_def), (def_collides_with shape_def),
        (def_user_tag shape_def).
  - split; [done|]. intros (_ & _ & _ & [s Hs'] & Hshape & _). congruence.
Qed.

Lemma load_shape_is_Some kinematic index shape_def old :
  is_Some (load_shape kinematic index shape_def old) ↔ loadable shape_def.
Proof.
  unfold loadable. rewrite <- shape_of_def_is_Some. unfold load_shape.
  destruct (shape_of_def (def_data shape_def)); simpl;
    split; (by intros [? ?] || by eexists).
Qed.

Lemma length_loaded kinematic index defs old :
  length defs ≤ length old →
  length (loaded kinematic index defs old) = length defs.
Proof.
  revert index old. induction defs as [|sd defs IH]; intros index old Hlen;
    [done|].
  destruct old as [|rb old]; simpl in *; [lia|].
  rewrite IH; lia.
Qed.

Lemma loaded_lookup kinematic defs :
  ∀ index old i x,
    Forall loadable defs →
    loaded kinematic index defs old !! i = Some x
    ↔ ∃ shape_def rb,
        defs !! i = Some shape_def ∧ old !! i = Some rb
        ∧ loaded_from kinematic (index + i) shape_def rb x.
Proof.
  induction defs as [|sd defs IH]; intros index old i x Hall.
  { split; [done|]. by intros (? & ? & ? & _). }
  destruct old as [|rb old].
  { split; [done|]. by intros (? & ? & _ & ? & _). }
  apply list.Forall_cons in Hall as [Hsd Hall].
  cbn [loaded]. destruct i as [|i]; simpl.
  - rewrite Nat.add_0_r.
    destruct (proj2 (load_shape_is_Some kinematic index sd rb) Hsd)
      as [rb' Hload].
    rewrite Hload. simpl. split.
    + intros [= <-]. exists sd, rb. by rewrite <- load_shape_spec.
    + intros (? & ? & [= <-] & [= <-] & Hfrom).
      apply load_shape_spec in Hfrom. congruence.
  - rewrite IH by done.
    by replace (S index + i) with (index + S i) by lia.
Qed.

Lemma load_shapes_loaded kinematic defs :
  ∀ pre old,
    Forall loadable defs →
    length defs ≤ length old →
    load_shapes kinematic (length pre) defs (pre ++ old)
    = Done (pre ++ loaded kinematic (length pre) defs old
                ++ drop (length defs) old).
Proof.
  induction defs as [|sd defs IH]; intros pre old Hall Hlen; [done|].
  destruct old as [|rb old]; simpl in Hlen; [lia|].
  apply list.Forall_cons in Hall as [Hsd Hall].
  cbn [load_shapes loaded].
  rewrite list_lookup_middle by done.
  destruct (proj2 (load_shape_is_Some kinematic (length pre) sd rb) Hsd)
    as [rb' Hload].
  rewrite Hload. cbn [default from_option id].
  rewrite insert_app_r_alt, Nat.sub_diag by done. cbn [insert list_insert].
  rewrite (cons_middle _ pre old), app_assoc.
  replace (S (length pre)) with (length (pre ++ [rb']))
    by (rewrite length_app; simpl; lia).
  rewrite IH by (done || lia).
  by rewrite <- app_assoc.
Qed.

Lemma load_shapes_null kinematic defs :
  ∀ index bodies,
    ¬ Forall loadable defs →
    index + length defs ≤ length bodies →
    load_shapes kinematic index defs bodies = Stop NullPointer.
Proof.
  induction defs as [|sd defs IH]; intros index bodies Hbad Hlen.
  { by destruct Hbad. }
  simpl in Hlen. cbn [load_shapes].
  destruct (lookup_lt_is_Some_2 bodies index) as [rb Hrb]; [lia|].
  rewrite Hrb.
  destruct (load_shape kinematic index sd rb) as [rb'|] eqn:Hload;
    [|done].
  apply IH.
  - intros Hall. apply Hbad. constructor; [|done].
    apply (load_shape_is_Some kinematic index sd rb). by eexists.
  - rewrite length_insert. lia.
Qed.




Hypothesis End_small : (to_short BulletCollisionType_End ≤ 16384)%Z.

(** What the loop of [ExportRawData] makes of the bodies. *)
Lemma export_bodies_marked bodies w :
  Forall (λ rb, is_Some (shape rb) ∧ is_Some (rigid_body rb)) bodies →
  export_bodies BulletCollisionType_End bullet bodies w
  = Ok (shape_def_of bullet BulletCollisionType_End
          <$> filter (λ rb, should_export rb = true) bodies) w.
Proof.
  intros Hall. induction Hall as [|body bodies [[s Hs] [k Hk]] _ IH];
    [done|].
  cbn [export_bodies]. rewrite filter_cons.
  destruct (should_export body) eqn:Hmark.
  - rewrite decide_True by done.
    unfold mbind, M_bind, export_body. rewrite Hs, Hk.
    rewrite collision_layers_layers_of by done.
    unfold mret, M_ret. rewrite IH. cbn [fmap list_fmap].
    unfold shape_def_of at 2. by rewrite Hs, Hk.
  - by rewrite decide_False by done.
Qed.


(** The export of bodies does not look at the world. *)
Lemma export_bodies_pure bodies w w' :
  export_bodies BulletCollisionType_End bullet bodies w'
  = match export_bodies BulletCollisionType_End bullet bodies w with
    | Ok shape_vector _ => Ok shape_vector w'
    | Err f => Err f
    end.
Proof.
  induction bodies as [|body bodies IH]; [done|].
  cbn [export_bodies]. destruct (should_export body); [|done].
  unfold mbind, M_bind, export_body.
  destruct (shape body); [|done].
  destruct (collision_layers BulletCollisionType_End 16 1
              (collides_with body)); [|done].
  destruct (rigid_body body); [|done].
  unfold mret, M_ret. rewrite IH.
  by destruct (export_bodies BulletCollisionType_End bullet bodies w).
Qed.
End PhysicsPure.

(** The bodies that the loop of [AddFromRawData] loads over those of
    [d], and the record it leaves. *)
Definition reloaded_bodies (physics_def : PhysicsDef) (d : PhysicsData)
  : list RigidBodyData :=
  loaded (def_kinematic physics_def) 0
    (take (Z.to_nat kMaxPhysicsBodies) (default [] (def_shapes physics_def)))
    (rigid_bodies d).

Definition reloaded (physics_def : PhysicsDef) (d : PhysicsData)
  : PhysicsData :=
  if bool_decide (0 < length (default [] (def_shapes physics_def))) then
    mkPhysicsData
      (reloaded_bodies physics_def d
       ++ drop (length (reloaded_bodies physics_def d)) (rigid_bodies d))
      (Z.of_nat (length (reloaded_bodies physics_def d)))
      true
  else mkPhysicsData (rigid_bodies d) (body_count d) true.

(** The record that [AddFromRawData] leaves for an entity that was not
    registered. *)
Definition imported (physics_def : PhysicsDef) : PhysicsData :=
  reloaded physics_def PhysicsData_new.

Section PhysicsImport.
Implicit Types (w : @World Payload LibraryState).

Lemma length_PhysicsData_new :
  length (rigid_bodies PhysicsData_new) = Z.to_nat kMaxPhysicsBodies.
Proof. done. Qed.

Lemma live_bodies_bodies_of d :
  in_bounds d → live_bodies d = Some (bodies_of d).
Proof.
  intros [Hcount Hlen]. unfold live_bodies.
  rewrite bool_decide_eq_true_2; [done|].
  rewrite Hlen. unfold kMaxPhysicsBodies in *. lia.
Qed.

Lemma touch_bodies_sound d w :
  in_bounds d →
  Forall (λ rb, is_Some (rigid_body rb)) (bodies_of d) →
  touch_bodies d w = Ok tt w.
Proof.
  intros Hin Hall. unfold touch_bodies.
  rewrite live_bodies_bodies_of by done.
  assert (forallb (λ rb, bool_decide (is_Some (rigid_body rb)))
            (bodies_of d) = true) as ->; [|done].
  induction Hall as [|rb l Hrb _ IH]; [done|].
  cbn [forallb]. by rewrite IH, bool_decide_eq_true_2.
Qed.

Lemma length_reloaded_bodies physics_def d :
  length (rigid_bodies d) = Z.to_nat kMaxPhysicsBodies →
  length (reloaded_bodies physics_def d)
  = length (default [] (def_shapes physics_def))
    `min` Z.to_nat kMaxPhysicsBodies.
Proof.
  intros Hlen. unfold reloaded_bodies.
  rewrite length_loaded, length_take; [lia|].
  rewrite length_take, Hlen. lia.
Qed.

Lemma shape_count_take (l : list BulletShapeDef) :
  (if bool_decide (kMaxPhysicsBodies < Z.of_nat (length l))%Z
   then kMaxPhysicsBodies else Z.of_nat (length l))
  = Z.of_nat (length (take (Z.to_nat kMaxPhysicsBodies) l)).
Proof.
  rewrite length_take. unfold kMaxPhysicsBodies. case_bool_decide; lia.
Qed.

Lemma take_shape_count (l : list BulletShapeDef) :
  take (length (take (Z.to_nat kMaxPhysicsBodies) l)) l
  = take (Z.to_nat kMaxPhysicsBodies) l.
Proof.
  rewrite length_take, <- take_take. by rewrite (take_ge l (length l)).
Qed.

Lemma PhysicsData_from_def_reloaded physics_def d :
  length (rigid_bodies d) = Z.to_nat kMaxPhysicsBodies →
  shapes_loadable physics_def →
  PhysicsData_from_def physics_def d = Done (reloaded physics_def d).
Proof.
  intros Hlen Hall.
  unfold reloaded, PhysicsData_from_def, reloaded_bodies, shapes_loadable
    in *.
  destruct (def_shapes physics_def) as [l|]; [|done].
  cbn [default from_option id] in *.
  assert (length (take (Z.to_nat kMaxPhysicsBodies) l)
          ≤ length (rigid_bodies d)) as Hfits.
  { rewrite length_take, Hlen. lia. }
  rewrite length_loaded by done.
  case_bool_decide as Hpos; [|done].
  rewrite shape_count_take, Nat2Z.id, take_shape_count.
  by rewrite (load_shapes_loaded _ _ [] (rigid_bodies d)).
Qed.

Lemma PhysicsData_from_def_null physics_def d :
  length (rigid_bodies d) = Z.to_nat kMaxPhysicsBodies →
  ¬ shapes_loadable physics_def →
  PhysicsData_from_def physics_def d = Stop NullPointer.
Proof.
  intros Hlen Hbad. unfold PhysicsData_from_def, shapes_loadable in *.
  destruct (def_shapes physics_def) as [l|];
    [|by destruct Hbad; constructor].
  cbn [default from_option id] in *.
  case_bool_decide as Hpos.
  - rewrite shape_count_take, Nat2Z.id, take_shape_count.
    rewrite load_shapes_null; [done..|].
    rewrite length_take, Hlen. lia.
  - destruct l; [|simpl in Hpos; lia]. by destruct Hbad; constructor.
Qed.

Lemma bodies_of_reloaded physics_def d :
  length (rigid_bodies d) = Z.to_nat kMaxPhysicsBodies →
  0 < length (default [] (def_shapes physics_def)) →
  bodies_of (reloaded physics_def d) = reloaded_bodies physics_def d.
Proof.
  intros Hlen Hpos. unfold reloaded, bodies_of.
  rewrite bool_decide_eq_true_2 by done. cbn [rigid_bodies body_count].
  rewrite Nat2Z.id. by rewrite take_app_length.
Qed.

Lemma reloaded_bodies_lookup physics_def d k rb :
  shapes_loadable physics_def →
  reloaded_bodies physics_def d !! k = Some rb
  ↔ ∃ shape_def old,
      default [] (def_shapes physics_def) !! k = Some shape_def
      ∧ k < Z.to_nat kMaxPhysicsBodies
      ∧ rigid_bodies d !! k = Some old
      ∧ loaded_from (def_kinematic physics_def) k shape_def old rb.
Proof.
  intros Hall. unfold reloaded_bodies.
  rewrite loaded_lookup by done. split.
  - intros (sd & old & Hsd & Hold & Hfrom).
    apply lookup_take_Some in Hsd as [Hsd Hk]. by exists sd, old.
  - intros (sd & old & Hsd & Hk & Hold & Hfrom).
    exists sd, old. split; [by apply lookup_take_Some|done].
Qed.

Lemma reloaded_in_bounds physics_def d :
  in_bounds d → in_bounds (reloaded physics_def d).
Proof.
  intros [Hcount Hlen].
  pose proof (length_reloaded_bodies physics_def d Hlen) as Hl.
  unfold reloaded. case_bool_decide; [|done].
  split; cbn [body_count rigid_bodies].
  - unfold kMaxPhysicsBodies in *. lia.
  - rewrite length_app, length_drop. lia.
Qed.

Lemma imported_in_bounds physics_def : in_bounds (imported physics_def).
Proof. by apply reloaded_in_bounds. Qed.

Lemma bodies_of_imported physics_def :
  bodies_of (imported physics_def)
  = reloaded_bodies physics_def PhysicsData_new.
Proof.
  unfold imported.
  destruct (decide (0 < length (default [] (def_shapes physics_def))))
    as [Hpos|Hnone].
  - by apply bodies_of_reloaded.
  - unfold reloaded. rewrite bool_decide_eq_false_2 by done.
    unfold reloaded_bodies.
    destruct (default [] (def_shapes physics_def)); [done|].
    simpl in Hnone. lia.
Qed.

Lemma imported_bodies_lookup physics_def k rb :
  shapes_loadable physics_def →
  bodies_of (imported physics_def) !! k = Some rb
  ↔ ∃ shape_def,
      default [] (def_shapes physics_def) !! k = Some shape_def
      ∧ k < Z.to_nat kMaxPhysicsBodies
      ∧ loaded_from (def_kinematic physics_def) k shape_def
          RigidBodyData_new rb.
Proof.
  intros Hall. rewrite bodies_of_imported.
  rewrite reloaded_bodies_lookup by done. split.
  - intros (sd & old & Hsd & Hk & Hold & Hfrom). exists sd.
    unfold PhysicsData_new in Hold. cbn [rigid_bodies] in Hold.
    by apply lookup_replicate in Hold as [-> _].
  - intros (sd & Hsd & Hk & Hfrom). exists sd, RigidBodyData_new.
    split; [done|]. split; [done|]. split; [|done].
    unfold PhysicsData_new. cbn [rigid_bodies]. by apply lookup_replicate.
Qed.
End PhysicsImport.

Section PhysicsFacts.
Variable kUnused : ComponentIndex.
Variables kTransformId kPhysicsId : ComponentId.
Variable BulletCollisionType_End : Z.
Variable bullet : Bullet.
Implicit Types (w : @World Payload LibraryState) (e : EntityRef).

Abbreviation Physics := (PhysicsComponent kUnused kTransformId kPhysicsId).

(** What [ExportRawData] makes of the record it has found. *)
Definition export_data (d : PhysicsData)
  : @M Payload LibraryState (option PhysicsDef) :=
  if bool_decide (0 < body_count d)%Z then
    match live_bodies d with
    | None => fail OutOfBounds
    | Some bodies =>
        match head bodies ≫= rigid_body with
        | None => fail NullPointer
        | Some rigid_body =>
            shape_vector ←
              export_bodies BulletCollisionType_End bullet bodies;
            if bool_decide (shape_vector = []) then mret None
            else mret (Some (mkPhysicsDef (isKinematicObject rigid_body)
                               (Some shape_vector)))
        end
    end
  else mret None.

Lemma PhysicsComponent_ExportRawData_registered e i cd d w :
  registered_at kUnused kPhysicsId e i w →
  GetElementData (pools w kPhysicsId) i = Some cd →
  data cd = PhysicsPayload d →
  PhysicsComponent_ExportRawData kUnused kPhysicsId
    BulletCollisionType_End bullet e w
  = export_data d w.
Proof.
  intros Hreg Hcd Hd.
  unfold PhysicsComponent_ExportRawData, mbind, M_bind, get_world.
  rewrite (registered_at_read kUnused _ _ _ _ Hreg).
  unfold deref_physics, read, component_data_. simpl.
  unfold LibraryState in *. rewrite Hcd. simpl. by rewrite Hd.
Qed.

Lemma export_data_new w : export_data PhysicsData_new w = Ok None w.
Proof. done. Qed.

Lemma PhysicsComponent_AddEntity_fresh e w :
  kPhysicsId ≠ kTransformId →
  fresh_for kUnused kPhysicsId e w →
  addable kUnused kTransformId e w →
  ∃ i j w',
    AddEntity kUnused Physics e kAddToBack w = Ok (Some i) w'
    ∧ registered_at kUnused kPhysicsId e i w'
    ∧ registered_at kUnused kTransformId e j w'
    ∧ GetElementData (pools w' kPhysicsId) i
      = Some (mkComponentData (Some e) (PhysicsPayload PhysicsData_new))
    ∧ only_touches e w w'
    ∧ pools_wf_kept w w'.
Proof.
  intros Hne Hfresh HaddT.
  destruct (AddEntity_requiring_transform kUnused kTransformId
              kPhysicsId (PhysicsPayload PhysicsData_new)
              (DisablePhysics kUnused kPhysicsId) e w Hne Hfresh HaddT)
    as (i & j & w' & Hadd & Hreg & HregT & Hget & _ & Htouch & Hkept).
  by exists i, j, w'.
Qed.

Lemma imported_rigid_bodies physics_def :
  shapes_loadable physics_def →
  Forall (λ rb, is_Some (shape rb) ∧ is_Some (rigid_body rb))
    (bodies_of (imported physics_def)).
Proof.
  intros Hall. apply Forall_forall. intros rb Hrb.
  apply list_elem_of_lookup in Hrb as [k Hk].
  apply imported_bodies_lookup in Hk
      as (sd & _ & _ & _ & _ & _ & Hs & _ & Hb & _); [|done].
  split; [done|]. by eexists.
Qed.

Lemma PhysicsComponent_AddFromRawData_fresh e physics_def w :
  kPhysicsId ≠ kTransformId →
  fresh_for kUnused kPhysicsId e w →
  addable kUnused kTransformId e w →
  shapes_loadable physics_def →
  ∃ i w',
    PhysicsComponent_AddFromRawData kUnused kTransformId kPhysicsId
      e physics_def w = Ok tt w'
    ∧ registered_at kUnused kPhysicsId e i w'
    ∧ GetElementData (pools w' kPhysicsId) i
      = Some (mkComponentData (Some e)
                (PhysicsPayload (imported physics_def)))
    ∧ only_touches e w w'
    ∧ pools_wf_kept w w'.
Proof.
  intros Hne Hfresh HaddT Hall.
  destruct (PhysicsComponent_AddEntity_fresh e w Hne Hfresh HaddT)
    as (i & j & w3 & Hadd & Hreg3 & HregT3 & Hget3 & Htouch3 & Hkept3).
  destruct (write_live kPhysicsId i
              (λ _, PhysicsPayload (imported physics_def)) w3 _ Hget3)
    as (w4 & Hwrite & Hget4 & _).
  pose proof (write_live_registered kUnused _ _ _ _ _ _ _ _ _
                Hget3 Hwrite Hreg3) as Hreg4.
  pose proof (write_live_registered kUnused _ _ _ _ _ _ _ _ _
                Hget3 Hwrite HregT3) as HregT4.
  exists i, w4. split.
  { unfold PhysicsComponent_AddFromRawData, mbind, M_bind.
    rewrite Hadd.
    unfold deref_physics at 1. unfold read, component_data_. simpl.
    unfold LibraryState in *. rewrite Hget3. simpl.
    rewrite (PhysicsData_from_def_reloaded physics_def PhysicsData_new
               length_PhysicsData_new Hall).
    fold (imported physics_def).
    unfold store_physics. unfold LibraryState in *. rewrite Hwrite.
    unfold UpdatePhysicsFromTransform, UpdatePhysicsObjectsTransform,
      mbind, M_bind, get_world, Data.
    unfold LibraryState in *.
    rewrite (registered_at_read kUnused _ _ _ _ Hreg4).
    rewrite (registered_at_read kUnused _ _ _ _ HregT4).
    unfold deref_physics, read, component_data_. simpl.
    unfold LibraryState in *. rewrite Hget4. simpl.
    apply touch_bodies_sound; [apply imported_in_bounds|].
    eapply Forall_impl; [by apply imported_rigid_bodies|].
    by intros rb [_ ?]. }
  split; [done|]. split; [done|].
  split.
  - eapply only_touches_trans; [done|].
    exact (write_live_only_touches _ _ _ _ _ _ e Hget3 eq_refl Hwrite).
  - eapply pools_wf_kept_trans; [done|].
    exact (write_live_wf _ _ _ _ _ _ Hget3 Hwrite).
Qed.

(** A shape without the data that its type needs stops the call at a
    null pointer. *)
Lemma PhysicsComponent_AddFromRawData_null e physics_def w :
  kPhysicsId ≠ kTransformId →
  fresh_for kUnused kPhysicsId e w →
  addable kUnused kTransformId e w →
  ¬ shapes_loadable physics_def →
  PhysicsComponent_AddFromRawData kUnused kTransformId kPhysicsId
    e physics_def w = Err NullPointer.
Proof.
  intros Hne Hfresh HaddT Hbad.
  destruct (PhysicsComponent_AddEntity_fresh e w Hne Hfresh HaddT)
    as (i & j & w3 & Hadd & Hreg3 & HregT3 & Hget3 & Htouch3 & Hkept3).
  unfold PhysicsComponent_AddFromRawData, mbind, M_bind.
  rewrite Hadd.
  unfold deref_physics at 1. unfold read, component_data_. simpl.
  unfold LibraryState in *. rewrite Hget3. simpl.
  by rewrite (PhysicsData_from_def_null physics_def PhysicsData_new
                length_PhysicsData_new Hbad).
Qed.

Lemma export_data_pure d w w' :
  export_data d w'
  = match export_data d w with
    | Ok r _ => Ok r w'
    | Err f => Err f
    end.
Proof.
  unfold export_data.
  destruct (bool_decide (0 < body_count d)%Z); [|done].
  destruct (live_bodies d) as [bodies|]; [|done].
  destruct (head bodies ≫= rigid_body); [|done].
  unfold mbind, M_bind.
  rewrite (export_bodies_pure bullet BulletCollisionType_End bodies w w').
  destruct (export_bodies BulletCollisionType_End bullet bodies w);
    [|done].
  by case_bool_decide.
Qed.

Hypothesis End_small : (to_short BulletCollisionType_End ≤ 16384)%Z.

End PhysicsFacts.

(** ** Export followed by import *)

(** The data that [GetComponentData] finds for an entity. *)
Definition data_of {T Aux} (kUnusedComponentIndex : ComponentIndex)
    (c : ComponentId) (e : EntityRef) (w : @World T Aux) : option T :=
  read c (GetComponentData kUnusedComponentIndex c e w) w.

Section RoundTrip.
Variable kUnused : ComponentIndex.
Implicit Types (w : @World Payload LibraryState) (e : EntityRef).

Lemma registered_at_record {T Aux} c e i (w : @World T Aux) :
  registered_at kUnused c e i w →
  ∃ cd, GetElementData (pools w c) i = Some cd ∧ entity cd = Some e.
Proof.
  intros (_ & _ & Hown). unfold component_data_ in Hown.
  destruct (GetElementData (pools w c) i) as [cd|]; [|done].
  exists cd. split; [done|]. simpl in Hown. congruence.
Qed.

Lemma data_of_registered {T Aux} c e i cd (w : @World T Aux) :
  registered_at kUnused c e i w →
  GetElementData (pools w c) i = Some cd →
  data_of kUnused c e w = Some (data cd).
Proof.
  intros Hreg Hcd. unfold data_of.
  rewrite (registered_at_read kUnused _ _ _ _ Hreg).
  unfold read, component_data_. simpl. by rewrite Hcd.
Qed.









End RoundTrip.

(** ** The claims about the pool and the component base *)

Section PoolClaims.
(** C8.  In a fresh pool, allocating A, B and C at the back, freeing B
    and allocating D at the front gives the iteration order D, A, C,
    although D has taken over the storage slot of B, between those of A
    and C.  In general a new element goes to the chosen end of the
    iteration order of a well-formed pool, whichever slot it gets: the
    head of the free list, or the end of the grown array. *)
Theorem placement_scenario :
  (∀ (T : Type) (A B C D : T),
      let '(a, p) := GetNewElement A kAddToBack empty_pool in
      let '(b, p) := GetNewElement B kAddToBack p in
      let '(c, p) := GetNewElement C kAddToBack p in
      let p := FreeElement p b in
      let '(d, p) := GetNewElement D kAddToFront p in
      order p = [d; a; c]
      ∧ GetElementData p <$> order p = [Some D; Some A; Some C]
      ∧ (a, b, c, d) = (0, 1, 2, 1))
  ∧ (∀ (T : Type) (p : VectorPool T) (init : T) (loc : AllocationLocation),
        pool_wf p →
        let '(i, p') := GetNewElement init loc p in
        pool_wf p'
        ∧ order p' = match loc with
                     | kAddToFront => i :: order p
                     | kAddToBack => order p ++ [i]
                     end
        ∧ GetElementData p' i = Some init).
Proof.
  split; [intros; vm_compute; done|].
  intros T p init loc (xs & fs & Hrep).
  destruct (GetNewElement init loc p) as [i p'] eqn:Hnew.
  destruct (GetNewElement_represents _ _ _ _ _ _ _ Hrep Hnew)
    as (_ & _ & Hrep' & Hslot & _).
  split; [by eexists _, _|].
  rewrite (represents_order _ _ _ Hrep), (represents_order _ _ _ Hrep').
  split; [done|]. unfold GetElementData. rewrite Hslot. by destruct loc.
Qed.

Lemma placement_scenario_witness :
  let '(i, p') := GetNewElement 7 kAddToFront (@empty_pool nat) in
  pool_wf p'
  ∧ order p' = i :: order (@empty_pool nat)
  ∧ GetElementData p' i = Some 7.
Proof.
  destruct placement_scenario as [_ H].
  exact (H nat empty_pool 7 kAddToFront pool_wf_empty).
Defined.
End PoolClaims.

Section ComponentClaims.
Context {T Aux : Type}.
Variable kUnused : ComponentIndex.
Variable C : @Component T Aux.
Implicit Types (w : @World T Aux) (e : EntityRef).

(** C1.  When [e] is already registered with the component, [AddEntity]
    (and [AddEntityGenerically]) returns the pointer to the record that
    [e] has and leaves the world as it is: nothing is allocated, the
    pool, the record and the data of every other entity are the same,
    and [InitEntity] is not run again. *)
Theorem AddEntity_idempotent e i loc w :
  registered_at kUnused C e i w →
  AddEntity kUnused C e loc w = Ok (Some i) w
  ∧ AddEntityGenerically kUnused C e w = Ok tt w
  ∧ is_Some (read C (Some i) w).
Proof.
  intros Hreg. split; [by apply AddEntity_registered|]. split.
  - unfold AddEntityGenerically, mbind, M_bind.
    by rewrite (AddEntity_registered _ _ _ _ kAddToBack _ Hreg).
  - destruct Hreg as (_ & _ & Hcd). unfold read. simpl.
    by destruct (GetElementData (component_data_ C w) i).
Qed.

(** C2.  For a registered entity [e], [RemoveEntity(e)] and
    [RemoveEntity(iter)] log the call of [CleanupEntity], run the hook on
    a world in which the record of [e] is still live, with the data it
    had, and only then free the slot and set the index entry of [e] to
    the unused marker: what they add to the log is the one cleanup
    call, whatever the hook logs, the freeing of the slot and the
    clearing of the entry, in this order. *)
Theorem RemoveEntity_cleanup_before_free Inv e i w :
  cleanup_ok kUnused C Inv → Inv w →
  registered_at kUnused C e i w →
  ∃ w1 t,
    registered_at kUnused C e i (entering_cleanup C e w)
    ∧ read C (Some i) (entering_cleanup C e w) = read C (Some i) w
    ∧ CleanupEntity C e (entering_cleanup C e w) = Ok tt w1
    ∧ registered_at kUnused C e i w1
    ∧ RemoveEntity kUnused C e w = Ok tt (unregistered kUnused C e i w1)
    ∧ RemoveEntityIter kUnused C (Some i) w
      = Ok (iter_next (component_data_ C w1) (Some i))
           (unregistered kUnused C e i w1)
    ∧ trace (unregistered kUnused C e i w1)
      = trace w ++ [EvCleanupEntity C e] ++ t
          ++ [EvFreeElement C i;
              EvSetComponentDataIndex e C kUnused]
    ∧ GetElementData (component_data_ C (unregistered kUnused C e i w1)) i
      = None
    ∧ GetComponentDataIndex C e (unregistered kUnused C e i w1) = kUnused
    ∧ IsRegisteredForComponent kUnused
        (entities (unregistered kUnused C e i w1) e) C = false.
Proof.
  intros Hhook Hinv Hreg.
  destruct (cleanup_returns _ _ _ Hhook e i (entering_cleanup C e w))
    as (w1 & Hrun & Hpres & Hinv1);
    [by apply (cleanup_entering _ _ _ Hhook) | done |].
  pose proof Hpres as (_ & _ & _ & t & Htrace).
  assert (registered_at kUnused C e i w1) as Hreg1.
  { eapply registered_at_preserved; [done|]. exact Hreg. }
  exists w1, t.
  split; [done|]. split; [done|]. split; [done|]. split; [done|].
  split.
  { rewrite (RemoveEntity_unfold _ _ e w w1 Hrun).
    by destruct Hreg1 as (-> & _). }
  split.
  { apply RemoveEntityIter_unfold; [apply Hreg | done]. }
  split.
  { simpl. rewrite Htrace. simpl. by rewrite <- !app_assoc. }
  assert (GetComponentDataIndex C e (unregistered kUnused C e i w1)
          = kUnused) as Hidx.
  { unfold GetComponentDataIndex, unregistered. simpl.
    unfold insert, fn_insert. by rewrite !decide_True. }
  split.
  { unfold component_data_, unregistered. simpl.
    rewrite fn_lookup_insert. apply GetElementData_FreeElement_same. }
  split; [done|].
  unfold IsRegisteredForComponent. apply bool_decide_eq_false.
  intros Hne. by apply Hne.
Qed.

(** C6.  In a sound component whose cleanup hook is well behaved:
    (a) [RemoveEntity(iter)] returns the iterator to the element that
    followed the removed one in the iteration order ([end()] after the
    last), and the order is otherwise kept;
    (b) a loop that removes the element under the iterator wherever [P]
    holds, going on from the returned iterator, visits the elements of
    the pool in iteration order, each once, and ends, leaving those for
    which [P] does not hold;
    (c) a loop whose body also removes elements other than the one
    under the iterator ends, visits no element twice, and visits every
    element that is still live when it ends. *)
Theorem RemoveEntity_during_traversal Inv w :
  cleanup_ok kUnused C Inv → Inv w →
  component_ok kUnused C w →
  (∀ xs1 x xs2,
      order (component_data_ C w) = xs1 ++ x :: xs2 →
      ∃ w', RemoveEntityIter kUnused C (Some x) w = Ok (head xs2) w'
            ∧ order (component_data_ C w') = xs1 ++ xs2
            ∧ Inv w' ∧ component_ok kUnused C w')
  ∧ (∀ (P : nat → bool) fuel,
        active_count (component_data_ C w) ≤ fuel →
        ∃ w', Traverse kUnused C
                (λ x _, if P x then RemoveCurrent else Advance)
                fuel (pool_begin (component_data_ C w)) w
              = Ok (order (component_data_ C w)) w'
              ∧ NoDup (order (component_data_ C w))
              ∧ order (component_data_ C w')
                = filter (λ x, P x = false) (order (component_data_ C w)))
  ∧ (∀ script fuel,
        script_ok C script →
        active_count (component_data_ C w) ≤ fuel →
        ∃ vs w', Traverse kUnused C script fuel
                   (pool_begin (component_data_ C w)) w = Ok vs w'
                 ∧ NoDup vs
                 ∧ vs `sublist_of` order (component_data_ C w)
                 ∧ order (component_data_ C w') `sublist_of` vs).
Proof.
  intros Hhook Hinv [(xs & fs & Hrep) Hown].
  rewrite (represents_order _ _ _ Hrep). unfold active_count.
  rewrite (represents_order _ _ _ Hrep).
  split; [|split].
  - intros xs1 x xs2 ->.
    destruct (RemoveEntityIter_spec kUnused C Inv xs1 x xs2 fs w
                Hhook Hinv Hrep Hown)
      as (e & w2 & t & Hinv2 & _ & Hrem & Hrep2 & Hown2 & _).
    exists w2. split; [done|].
    split; [by apply (represents_order _ _ _ Hrep2)|].
    split; [done|]. split; [by eexists _, _|done].
  - intros P fuel Hfuel.
    destruct (Traverse_removing kUnused C Inv P Hhook fuel xs [] fs w)
      as (w' & fs' & Hrun & _ & Hrep' & _); [done..|].
    exists w'. unfold pool_begin. rewrite (rep_first _ _ _ Hrep).
    split; [done|]. split; [apply Hrep|].
    by apply (represents_order _ _ _ Hrep').
  - intros script fuel Hscript Hfuel.
    destruct (Traverse_spec kUnused C Inv script Hhook Hscript fuel xs []
                fs w)
      as (vs & w' & live & fs' & Hrun & _ & Hsub & Hrep' & _ & Hlive & _);
      [done..|].
    exists vs, w'. unfold pool_begin. rewrite (rep_first _ _ _ Hrep).
    split; [done|]. split.
    { eapply sublist_NoDup; [apply Hrep | exact Hsub]. }
    split; [done|]. by rewrite (represents_order _ _ _ Hrep').
Qed.

(** C7.  In a sound component whose cleanup hook is well behaved,
    [ClearComponentData], given as many rounds as the component has
    entities, returns, and does what removing the element at [begin()]
    with the iterator-based [RemoveEntity] until none is left does.
    Afterwards the pool holds no record, and for every entity that was
    registered the cleanup call is in the log and the index entry of
    this type is the unused marker. *)
Theorem ClearComponentData_removes_all Inv fuel w :
  cleanup_ok kUnused C Inv → Inv w →
  component_ok kUnused C w →
  active_count (component_data_ C w) ≤ fuel →
  ∃ w' t,
    ClearComponentData kUnused C fuel w = Ok tt w'
    ∧ RemoveUntilEmpty kUnused C fuel w = Ok tt w'
    ∧ order (component_data_ C w') = []
    ∧ active_count (component_data_ C w') = 0
    ∧ (∀ j, GetElementData (component_data_ C w') j = None)
    ∧ trace w' = trace w ++ t
    ∧ (∀ e i, registered_at kUnused C e i w →
              EvCleanupEntity C e ∈ t
              ∧ GetComponentDataIndex C e w' = kUnused)
    ∧ Inv w' ∧ component_ok kUnused C w'.
Proof.
  intros Hhook Hinv [(xs & fs & Hrep) Hown] Hfuel.
  unfold active_count in Hfuel. rewrite (represents_order _ _ _ Hrep) in Hfuel.
  destruct (ClearLoop_spec kUnused C Inv xs fs fuel w Hhook Hinv Hrep Hown
              Hfuel)
    as (w' & t & Hinv' & Hloop & Hspec & Hrep' & Hown' & Htrace & HA & _).
  exists w', t.
  split.
  { unfold ClearComponentData, mbind, M_bind, get_world, pool_begin.
    by rewrite (rep_first _ _ _ Hrep). }
  split; [done|].
  split; [by apply (represents_order _ _ _ Hrep')|].
  split.
  { unfold active_count. by rewrite (represents_order _ _ _ Hrep'). }
  split.
  { intros j. by eapply represents_nil_empty. }
  split; [done|]. split.
  { intros e i Hreg. destruct (HA e i Hreg). done. }
  split; [done|]. split; [by eexists _, _|done].
Qed.
End ComponentClaims.

(** C9.  When [e] is not yet registered, [AddEntity] has allocated the
    record, set the index entry of [e] and written the handle of [e] into
    the record by the time it calls [InitEntity], so that a nested
    [AddEntity] of the same entity with this component, made from the
    hook, finds [e] registered, returns this record and allocates nothing.
    Hence for components that register each other from [InitEntity], in
    whatever cycle, a registration returns once the nesting may be as
    deep as the number of component types [e] is not registered with, and
    it adds one record to each pool [e] newly joins and none to the
    others. *)
Theorem AddEntity_registers_before_InitEntity
    {T Aux : Type} (kUnused : ComponentIndex) :
  (∀ (C : @Component T Aux) e loc w,
      pool_wf (component_data_ C w) →
      IsRegisteredForComponent kUnused (entities w e) C = false →
      Size (component_data_ C w) < kUnused →
      ∃ i w3,
        AddEntity kUnused C e loc w = (InitEntity C e;; mret (Some i)) w3
        ∧ registered_at kUnused C e i w3
        ∧ trace w3 = trace w ++ [EvGetNewElement C i;
                                 EvSetComponentDataIndex e C i;
                                 EvInitEntity C e]
        ∧ active_count (component_data_ C w3)
          = S (active_count (component_data_ C w))
        ∧ ∀ loc', AddEntity kUnused C e loc' w3 = Ok (Some i) w3)
  ∧ (∀ (fresh : ComponentId → T) (requires : ComponentId → list ComponentId)
       (ids : list ComponentId) e,
        (∀ c d, c ∈ ids → d ∈ requires c → d ∈ ids) →
        ∀ depth c loc (w : @World T Aux),
          c ∈ ids →
          deps_inv kUnused ids e w →
          unregistered_count kUnused ids e w ≤ depth →
          ∃ r w',
            AddEntity kUnused (Dependent kUnused fresh requires depth c)
                      e loc w = Ok r w'
            ∧ IsRegisteredForComponent kUnused (entities w' e) c = true
            ∧ deps_step kUnused e w w'
            ∧ deps_inv kUnused ids e w').
Proof.
  split.
  - intros C e loc w (xs & fs & Hrep) Hunreg Hsize.
    destruct (AddEntity_fresh kUnused C e loc w xs fs Hrep Hunreg Hsize)
      as (i & w3 & Hadd & _ & _ & Hreg3 & Hrep3 & _ & _ & _ & _ & _ & Htrace).
    exists i, w3. split; [done|]. split; [done|]. split; [done|]. split.
    + unfold active_count.
      rewrite (represents_order _ _ _ Hrep), (represents_order _ _ _ Hrep3).
      destruct loc; [done|]. rewrite length_app. simpl. lia.
    + intros loc'. by apply AddEntity_registered.
  - intros fresh requires ids e Hclosed depth c loc w Hc Hinv Hcount.
    destruct (AddEntity_Dependent kUnused fresh requires ids e Hclosed
                depth c loc w Hc Hinv Hcount)
      as (r & w' & Hrun & Hinv' & Hstep & Hreg).
    by exists r, w'.
Qed.

(** ** The claims at work on small worlds *)

(** Three entities, 10, 11 and 12, registered in this order with a
    component that overrides no hook. *)
Definition plain : @Component nat unit := BaseComponent 0 0.

Definition three_entities : @World nat unit :=
  run_world (AddEntity 99 plain 12 kAddToBack)
    (run_world (AddEntity 99 plain 11 kAddToBack)
       (run_world (AddEntity 99 plain 10 kAddToBack)
          (empty_world 99 tt))).

Lemma three_entities_ok : component_ok 99 plain three_entities.
Proof.
  unfold three_entities, plain.
  repeat (apply component_ok_AddEntity; [|vm_compute; lia]).
  apply component_ok_empty.
Qed.

Lemma three_entities_registered : registered_at 99 plain 11 1 three_entities.
Proof. by repeat split. Qed.

Lemma AddEntity_idempotent_witness :
  registered_at 99 plain 11 1 three_entities
  ∧ AddEntity 99 plain 11 kAddToFront three_entities
    = Ok (Some 1) three_entities
  ∧ AddEntityGenerically 99 plain 11 three_entities = Ok tt three_entities
  ∧ is_Some (read plain (Some 1) three_entities).
Proof.
  split; [exact three_entities_registered|].
  exact (AddEntity_idempotent 99 plain 11 1 kAddToFront three_entities
           three_entities_registered).
Defined.

Lemma RemoveEntity_cleanup_before_free_witness :
  ∃ w1 t,
    registered_at 99 plain 11 1 (entering_cleanup plain 11 three_entities)
    ∧ read plain (Some 1) (entering_cleanup plain 11 three_entities)
      = read plain (Some 1) three_entities
    ∧ CleanupEntity plain 11 (entering_cleanup plain 11 three_entities)
      = Ok tt w1
    ∧ registered_at 99 plain 11 1 w1
    ∧ RemoveEntity 99 plain 11 three_entities
      = Ok tt (unregistered 99 plain 11 1 w1)
    ∧ RemoveEntityIter 99 plain (Some 1) three_entities
      = Ok (iter_next (component_data_ plain w1) (Some 1))
           (unregistered 99 plain 11 1 w1)
    ∧ trace (unregistered 99 plain 11 1 w1)
      = trace three_entities ++ [EvCleanupEntity plain 11] ++ t
          ++ [EvFreeElement plain 1; EvSetComponentDataIndex 11 plain 99]
    ∧ GetElementData (component_data_ plain (unregistered 99 plain 11 1 w1)) 1
      = None
    ∧ GetComponentDataIndex plain 11 (unregistered 99 plain 11 1 w1) = 99
    ∧ IsRegisteredForComponent 99
        (entities (unregistered 99 plain 11 1 w1) 11) plain = false.
Proof.
  exact (RemoveEntity_cleanup_before_free 99 plain (λ _, True) 11 1
           three_entities (BaseComponent_cleanup_ok 99 0 0) I
           three_entities_registered).
Defined.

(** A loop body that, at the first element, removes the last one. *)
Definition drop_last_at_first (x : nat) (w : @World nat unit) : Step :=
  if bool_decide (x = 0)
     && bool_decide (is_Some (GetElementData (component_data_ plain w) 2))
  then RemoveOther 2 else Advance.

Lemma drop_last_at_first_ok : script_ok plain drop_last_at_first.
Proof.
  intros x w y. unfold drop_last_at_first.
  repeat case_bool_decide; simpl; try done.
  intros [= <-]. split; [lia | done].
Qed.

Lemma RemoveEntity_during_traversal_witness :
  (∀ xs1 x xs2,
      order (component_data_ plain three_entities) = xs1 ++ x :: xs2 →
      ∃ w', RemoveEntityIter 99 plain (Some x) three_entities
            = Ok (head xs2) w'
            ∧ order (component_data_ plain w') = xs1 ++ xs2
            ∧ True ∧ component_ok 99 plain w')
  ∧ (∃ w', Traverse 99 plain
             (λ x _, if Nat.eqb x 1 then RemoveCurrent else Advance)
             3 (pool_begin (component_data_ plain three_entities))
             three_entities
           = Ok (order (component_data_ plain three_entities)) w'
           ∧ NoDup (order (component_data_ plain three_entities))
           ∧ order (component_data_ plain w')
             = filter (λ x, Nat.eqb x 1 = false)
                 (order (component_data_ plain three_entities)))
  ∧ (∃ vs w', Traverse 99 plain drop_last_at_first 3
                (pool_begin (component_data_ plain three_entities))
                three_entities = Ok vs w'
              ∧ NoDup vs
              ∧ vs `sublist_of` order (component_data_ plain three_entities)
              ∧ order (component_data_ plain w') `sublist_of` vs).
Proof.
  destruct (RemoveEntity_during_traversal 99 plain (λ _, True) three_entities
              (BaseComponent_cleanup_ok 99 0 0) I three_entities_ok)
    as (Ha & Hb & Hc).
  split; [exact Ha|]. split.
  - apply (Hb (λ x, Nat.eqb x 1) 3). vm_compute. lia.
  - apply (Hc drop_last_at_first 3 drop_last_at_first_ok). vm_compute. lia.
Defined.

Lemma ClearComponentData_removes_all_witness :
  ∃ w' t,
    ClearComponentData 99 plain 3 three_entities = Ok tt w'
    ∧ RemoveUntilEmpty 99 plain 3 three_entities = Ok tt w'
    ∧ order (component_data_ plain w') = []
    ∧ active_count (component_data_ plain w') = 0
    ∧ (∀ j, GetElementData (component_data_ plain w') j = None)
    ∧ trace w' = trace three_entities ++ t
    ∧ (∀ e i, registered_at 99 plain e i three_entities →
              EvCleanupEntity plain e ∈ t
              ∧ GetComponentDataIndex plain e w' = 99)
    ∧ True ∧ component_ok 99 plain w'.
Proof.
  apply (ClearComponentData_removes_all 99 plain (λ _, True) 3 three_entities
           (BaseComponent_cleanup_ok 99 0 0) I three_entities_ok).
  vm_compute. lia.
Defined.

(** Two component types that require each other. *)
Definition each_other (c : ComponentId) : list ComponentId :=
  match c with 0 => [1] | 1 => [0] | _ => [] end.

Lemma each_other_closed c d :
  c ∈ [0; 1] → d ∈ each_other c → d ∈ [0; 1].
Proof.
  intros Hc Hd.
  destruct c as [|[|c]]; simpl in Hd.
  - apply list_elem_of_singleton in Hd as ->. repeat constructor.
  - apply list_elem_of_singleton in Hd as ->. repeat constructor.
  - by apply elem_of_nil in Hd.
Qed.

Lemma empty_world_deps_inv e :
  deps_inv 99 [0; 1] e (@empty_world nat unit 99 tt).
Proof.
  intros d _. split; [apply pool_wf_empty|]. intros _. vm_compute. lia.
Qed.

Lemma AddEntity_registers_before_InitEntity_witness :
  (∃ i w3,
      AddEntity 99 plain 13 kAddToFront three_entities
      = (InitEntity plain 13;; mret (Some i)) w3
      ∧ registered_at 99 plain 13 i w3
      ∧ trace w3 = trace three_entities
                     ++ [EvGetNewElement plain i;
                         EvSetComponentDataIndex 13 plain i;
                         EvInitEntity plain 13]
      ∧ active_count (component_data_ plain w3)
        = S (active_count (component_data_ plain three_entities))
      ∧ ∀ loc', AddEntity 99 plain 13 loc' w3 = Ok (Some i) w3)
  ∧ (∃ r w',
        AddEntity 99 (Dependent 99 (λ _, 0) each_other 2 0) 5 kAddToBack
                  (@empty_world nat unit 99 tt) = Ok r w'
        ∧ IsRegisteredForComponent 99 (entities w' 5) 0 = true
        ∧ deps_step 99 5 (empty_world 99 tt) w'
        ∧ deps_inv 99 [0; 1] 5 w').
Proof.
  destruct (@AddEntity_registers_before_InitEntity nat unit 99) as [Ha Hb].
  split.
  - apply (Ha plain 13 kAddToFront three_entities).
    + apply three_entities_ok.
    + reflexivity.
    + vm_compute. lia.
  - apply (Hb (λ _, 0) each_other [0; 1] 5 each_other_closed 2 0 kAddToBack
              (empty_world 99 tt)).
    + repeat constructor.
    + apply empty_world_deps_inv.
    + vm_compute. lia.
Defined.

(** ** Bounds of the physics bodies *)

(** [AddFromRawData] reads the first [kMaxPhysicsBodies] shapes of the
    blob only. *)
Lemma PhysicsData_from_def_truncates physics_def l d :
  def_shapes physics_def = Some l →
  PhysicsData_from_def physics_def d
  = PhysicsData_from_def
      (mkPhysicsDef (def_kinematic physics_def)
         (Some (take (Z.to_nat kMaxPhysicsBodies) l))) d.
Proof.
  intros Hl. unfold PhysicsData_from_def. rewrite Hl. simpl.
  rewrite length_take. unfold kMaxPhysicsBodies.
  change (Z.to_nat 5) with 5.
  destruct (decide (5 < length l)) as [Hlong|Hshort].
  - rewrite (bool_decide_eq_true_2 (0 < length l)) by lia.
    rewrite (bool_decide_eq_true_2 (0 < 5 `min` length l)) by lia.
    rewrite (bool_decide_eq_true_2 (5 < Z.of_nat (length l))%Z) by lia.
    rewrite (bool_decide_eq_false_2 (5 < Z.of_nat (5 `min` length l))%Z)
      by lia.
    replace (5 `min` length l) with 5 by lia.
    change (Z.to_nat (Z.of_nat 5)) with 5. change (Z.to_nat 5) with 5.
    by rewrite take_take.
  - rewrite (take_ge l 5) by lia.
    replace (5 `min` length l) with (length l) by lia.
    done.
Qed.

(** C10: every [PhysicsData] record keeps [0 <= body_count <=
    kMaxPhysicsBodies] within its array of [kMaxPhysicsBodies] bodies.
    This holds before any entity is registered, and whatever sequence of
    operations of [PhysicsComponent] is run from a world where it holds,
    it holds afterwards, and no operation of the sequence reads or writes
    [rigid_bodies] outside the array.  [AddFromRawData] loads a blob
    whose first [kMaxPhysicsBodies] shapes have their data, and stops at a
    null pointer for any other; it sets [body_count] to the number of
    shapes of the blob or to [kMaxPhysicsBodies], whichever is smaller, and
    reads the first [kMaxPhysicsBodies] shapes only;
    [GenerateRaycastShape] returns with the world unchanged when
    [body_count] is [kMaxPhysicsBodies]. *)
Theorem body_count_within_bounds
    (kUnusedComponentIndex : ComponentIndex)
    (kTransformId kPhysicsId : ComponentId)
    (BulletCollisionType_Raycast : Z)
    (GetMaxMinPositionsForEntity :
       EntityRef → @World Payload LibraryState → option (Vec3 * Vec3)) :
  (∀ a, bodies_in_bounds (empty_world kUnusedComponentIndex a))
  ∧ (∀ ops w,
       bodies_in_bounds w →
       match run_ops kUnusedComponentIndex kTransformId kPhysicsId
               BulletCollisionType_Raycast GetMaxMinPositionsForEntity
               ops w with
       | Ok _ w' => bodies_in_bounds w'
       | Err f => f ≠ OutOfBounds
       end)
  ∧ (∀ physics_def d,
       in_bounds d →
       match PhysicsData_from_def physics_def d with
       | Done d' =>
           shapes_loadable physics_def
           ∧ in_bounds d'
           ∧ ∀ l, def_shapes physics_def = Some l → 0 < length l →
                  body_count d'
                  = Z.min (Z.of_nat (length l)) kMaxPhysicsBodies
                  ∧ PhysicsData_from_def
                      (mkPhysicsDef (def_kinematic physics_def)
                         (Some (take (Z.to_nat kMaxPhysicsBodies) l))) d
                    = Done d'
       | Stop f => f = NullPointer ∧ ¬ shapes_loadable physics_def
       end)
  ∧ (∀ e result_exportable w d,
       deref_physics kPhysicsId
         (GetComponentData kUnusedComponentIndex kPhysicsId e w) w = Ok d w →
       body_count d = kMaxPhysicsBodies →
       GenerateRaycastShape kUnusedComponentIndex kTransformId kPhysicsId
         BulletCollisionType_Raycast GetMaxMinPositionsForEntity e
         result_exportable w = Ok tt w).
Proof.
  split; [apply bodies_in_bounds_empty|].
  split.
  { intros ops w Hw.
    pose proof (keeps_for_each ops
                  (run_op kUnusedComponentIndex kTransformId kPhysicsId
                     BulletCollisionType_Raycast
                     GetMaxMinPositionsForEntity)
                  (keeps_run_op kUnusedComponentIndex kTransformId kPhysicsId
                     BulletCollisionType_Raycast
                     GetMaxMinPositionsForEntity) w Hw) as Hrun.
    unfold run_ops.
    destruct (for_each ops _ w); [by destruct Hrun|done]. }
  split.
  { intros physics_def d Hd.
    pose proof (PhysicsData_from_def_in_bounds physics_def d Hd) as Hload.
    destruct (decide (shapes_loadable physics_def)) as [Hall|Hbad].
    - rewrite (PhysicsData_from_def_reloaded physics_def d (proj2 Hd) Hall)
        in *.
      destruct Hload as (Hin & _ & Hcount).
      split; [done|]. split; [done|].
      intros l Hl Hpos. rewrite Hl in Hcount.
      rewrite bool_decide_eq_true_2 in Hcount by done.
      split; [done|].
      rewrite <- (PhysicsData_from_def_truncates physics_def l d Hl).
      by apply PhysicsData_from_def_reloaded; [destruct Hd|].
    - by rewrite (PhysicsData_from_def_null physics_def d (proj2 Hd) Hbad). }
  intros e result_exportable w d Hderef Hfull.
  unfold GenerateRaycastShape, mbind, M_bind, get_world. simpl.
  rewrite Hderef. by rewrite bool_decide_eq_true_2.
Qed.

(** Seven shapes for one entity, a raycast shape on top, and a second
    entity that only gets raycast shapes. *)
Definition seven_shapes : PhysicsDef :=
  mkPhysicsDef false
    (Some (replicate 7
             (mkBulletShapeDef
                (Data_Box (Some (mkBulletBoxDef (Some kOnes3f))))
                float_one float_zero None 1 (Some [2%Z]) None))).

(** No entity has a mesh to take corners from. *)
Definition no_corners (e : EntityRef) (w : @World Payload LibraryState)
  : option (Vec3 * Vec3) := None.

Definition physics_session : list PhysicsOp :=
  [OpAddFromRawData 1 seven_shapes;
   OpGenerateRaycastShape 1 true;
   OpAddEntity 2 kAddToBack;
   OpGenerateRaycastShape 2 false;
   OpGenerateRaycastShape 2 false;
   OpDisablePhysics 1;
   OpRemoveEntity 2].

Lemma body_count_within_bounds_witness :
  ∃ w', run_ops 99 0 1 32 no_corners physics_session (empty_world 99 None)
        = Ok tt w'
        ∧ bodies_in_bounds w'
        ∧ body_count
            <$> (read 1 (GetComponentData 99 1 1 w') w' ≫= as_physics)
          = Some kMaxPhysicsBodies.
Proof.
  destruct (run_ops 99 0 1 32 no_corners physics_session
              (empty_world 99 None))
    as [[] w'|f] eqn:Hrun; [|by vm_compute in Hrun].
  exists w'. split; [done|]. split.
  - pose proof (proj1 (proj2 (body_count_within_bounds 99 0 1 32
                                no_corners))
                  physics_session (empty_world 99 None)
                  (proj1 (body_count_within_bounds 99 0 1 32 no_corners)
                     None)) as H.
    by rewrite Hrun in H.
  - vm_compute in Hrun. injection Hrun as <-. by vm_compute.
Defined.

(** ** Concrete worlds of the library *)

Section Fresh.
Context {T Aux : Type}.
Variable kUnused : ComponentIndex.

Lemma fresh_for_empty c e (a : Aux) :
  0 < kUnused → fresh_for kUnused c e (@empty_world T Aux kUnused a).
Proof.
  intros Hpos. split; [apply pool_wf_empty|]. split; [done|].
  unfold IsRegisteredForComponent. simpl.
  by rewrite bool_decide_eq_false_2 by (by intros ?).
Qed.

Lemma fresh_for_run_world c e1 e2 (m : @M T Aux unit) w :
  (∃ w', m w = Ok tt w' ∧ only_touches e1 w w' ∧ pools_wf_kept w w') →
  e2 ≠ e1 →
  Size (pools (run_world m w) c) < kUnused →
  fresh_for kUnused c e2 w →
  fresh_for kUnused c e2 (run_world m w).
Proof.
  intros (w' & Hm & Htouch & Hkept) Hne Hsize Hfresh.
  unfold run_world in *. rewrite Hm in *.
  by eapply fresh_for_kept.
Qed.
End Fresh.

(** An asset manager that finds every file. *)
Definition every_asset : AssetManager :=
  mkAssetManager (λ name, Some name) (λ name, Some name).

(** ** Import of blobs *)

(** C3 (as amended): no component declines a blob.  For an entity [e]
    that is not yet registered, [AddFromRawData] either returns with [e]
    registered or does not return at all.  That of [PhysicsComponent]
    returns when each of the first [kMaxPhysicsBodies] shapes of the blob
    has the data that its type needs, and dereferences a null pointer
    otherwise; that of [GraphComponent] returns for every blob; that of
    [RenderMeshComponent], in a debug build, returns when all its
    assertions hold and stops at an assertion otherwise, and in a release
    build returns when the asset manager, the source file and the shader
    are there and dereferences a null pointer otherwise.  A call that
    returns has left the index entries of all other entities and the
    records that do not belong to [e] as they were.  The transform
    component, with which the [InitEntity] of [PhysicsComponent] and of
    [RenderMeshComponent] registers [e], either has [e] registered or has
    room for it. *)
Theorem AddFromRawData_registers_or_stops
    (kUnusedComponentIndex : ComponentIndex)
    (kTransformId kPhysicsId kRenderMeshId kGraphId : ComponentId)
    (RenderPass_kCount RenderPass_kOpaque : nat) (NDEBUG : bool) :
  kPhysicsId ≠ kTransformId →
  kRenderMeshId ≠ kTransformId →
  (∀ e physics_def w,
     fresh_for kUnusedComponentIndex kPhysicsId e w →
     addable kUnusedComponentIndex kTransformId e w →
     match PhysicsComponent_AddFromRawData kUnusedComponentIndex
             kTransformId kPhysicsId e physics_def w with
     | Ok _ w' =>
         IsRegisteredForComponent kUnusedComponentIndex (entities w' e)
           kPhysicsId = true
         ∧ only_touches e w w'
         ∧ shapes_loadable physics_def
     | Err f => f = NullPointer ∧ ¬ shapes_loadable physics_def
     end)
  ∧ (∀ e graph_def w,
       fresh_for kUnusedComponentIndex kGraphId e w →
       ∃ w',
         GraphComponent_AddFromRawData kUnusedComponentIndex kGraphId
           e graph_def w = Ok tt w'
         ∧ IsRegisteredForComponent kUnusedComponentIndex (entities w' e)
             kGraphId = true
         ∧ only_touches e w w')
  ∧ (∀ e rendermesh_def w,
       fresh_for kUnusedComponentIndex kRenderMeshId e w →
       addable kUnusedComponentIndex kTransformId e w →
       match RenderMeshComponent_AddFromRawData kUnusedComponentIndex
               kTransformId kRenderMeshId RenderPass_kCount
               RenderPass_kOpaque NDEBUG e rendermesh_def w with
       | Ok _ w' =>
           IsRegisteredForComponent kUnusedComponentIndex (entities w' e)
             kRenderMeshId = true
           ∧ only_touches e w w'
           ∧ blob_complete w rendermesh_def
           ∧ (NDEBUG = false →
              blob_loads RenderPass_kCount w rendermesh_def)
       | Err f =>
           (NDEBUG = true ∧ f = NullPointer
            ∧ ¬ blob_complete w rendermesh_def)
           ∨ (NDEBUG = false ∧ f = AssertionFailed
              ∧ ¬ blob_loads RenderPass_kCount w rendermesh_def)
       end).
Proof.
  intros HneP HneR. split.
  { intros e physics_def w Hfresh HaddT.
    destruct (decide (shapes_loadable physics_def)) as [Hall|Hbad].
    - destruct (PhysicsComponent_AddFromRawData_fresh kUnusedComponentIndex
                  kTransformId kPhysicsId e physics_def w HneP Hfresh HaddT
                  Hall)
        as (i & w' & -> & Hreg & _ & Htouch & _).
      split; [|done]. by eapply IsRegistered_registered_at.
    - by rewrite (PhysicsComponent_AddFromRawData_null kUnusedComponentIndex
                    kTransformId kPhysicsId e physics_def w HneP Hfresh
                    HaddT Hbad). }
  split.
  { intros e graph_def w Hfresh.
    destruct (GraphComponent_AddFromRawData_fresh kUnusedComponentIndex
                kGraphId e graph_def w Hfresh)
      as (i & w' & Hadd & Hreg & _ & Htouch & _).
    exists w'. split; [done|]. split; [|done].
    by eapply IsRegistered_registered_at. }
  intros e rendermesh_def w Hfresh HaddT.
  by apply RenderMeshComponent_AddFromRawData_total.
Qed.

(** A render mesh blob without a source file, a physics blob whose only
    shape is a sphere without the table of its radius, and a physics
    blob with a box. *)
Definition no_source_file : RenderMeshDef :=
  mkRenderMeshDef None (Some "lit"%string) None false false.

Definition sphere_without_data : PhysicsDef :=
  mkPhysicsDef false
    (Some [mkBulletShapeDef (Data_Sphere None) float_one float_zero None 1
             None None]).

Definition one_box : PhysicsDef :=
  mkPhysicsDef false
    (Some [mkBulletShapeDef
             (Data_Box (Some (mkBulletBoxDef (Some kOnes3f))))
             float_one float_zero None 1 None None]).

(** C3, as the specification has it, fails: for neither of the two
    blobs that lack a part does the call return with the entity left
    unregistered.  The render mesh component stops at an assertion in a
    debug build and at a null pointer in a release build; the physics
    component dereferences the missing table. *)
Lemma AddFromRawData_declines_counterexample :
  RenderMeshComponent_AddFromRawData 99 0 2 3 0 false 7 no_source_file
    (empty_world 99 (Some every_asset)) = Err AssertionFailed
  ∧ RenderMeshComponent_AddFromRawData 99 0 2 3 0 true 7 no_source_file
      (empty_world 99 (Some every_asset)) = Err NullPointer
  ∧ PhysicsComponent_AddFromRawData 99 0 1 7 sphere_without_data
      (empty_world 99 None) = Err NullPointer.
Proof. repeat split; by vm_compute. Qed.

Lemma AddFromRawData_registers_or_stops_witness :
  (∃ w',
     PhysicsComponent_AddFromRawData 99 0 1 7 one_box
       (empty_world 99 None) = Ok tt w'
     ∧ IsRegisteredForComponent 99 (entities w' 7) 1 = true
     ∧ only_touches 7 (empty_world 99 None) w')
  ∧ PhysicsComponent_AddFromRawData 99 0 1 7 sphere_without_data
      (empty_world 99 None) = Err NullPointer
  ∧ (∃ w',
       GraphComponent_AddFromRawData 99 3 7 (mkGraphDef None)
         (empty_world 99 None) = Ok tt w'
       ∧ IsRegisteredForComponent 99 (entities w' 7) 3 = true
       ∧ only_touches 7 (empty_world 99 None) w')
  ∧ RenderMeshComponent_AddFromRawData 99 0 2 3 0 false 7 no_source_file
      (empty_world 99 (Some every_asset)) = Err AssertionFailed.
Proof.
  destruct (AddFromRawData_registers_or_stops 99 0 1 2 3 3 0 false
              ltac:(lia) ltac:(lia)) as (HP & HG & HR).
  split.
  { pose proof (HP 7 one_box (empty_world 99 None)
                  (fresh_for_empty 99 1 7 None ltac:(lia))
                  (or_intror (fresh_for_empty 99 0 7 None ltac:(lia))))
      as H.
    destruct (PhysicsComponent_AddFromRawData 99 0 1 7 one_box
                (empty_world 99 None)) as [[] w'|f].
    - exists w'. split; [reflexivity|]. split; [exact (proj1 H)|].
      exact (proj1 (proj2 H)).
    - exfalso. apply (proj2 H). repeat constructor. by eexists. }
  split.
  { pose proof (HP 7 sphere_without_data (empty_world 99 None)
                  (fresh_for_empty 99 1 7 None ltac:(lia))
                  (or_intror (fresh_for_empty 99 0 7 None ltac:(lia))))
      as H.
    destruct (PhysicsComponent_AddFromRawData 99 0 1 7 sphere_without_data
                (empty_world 99 None)) as [[] w'|f].
    - exfalso. destruct H as (_ & _ & Hall).
      apply list.Forall_cons in Hall as [[x Hx] _]. discriminate Hx.
    - by rewrite (proj1 H). }
  split.
  { apply HG; apply fresh_for_empty; lia. }
  pose proof (HR 7 no_source_file (empty_world 99 (Some every_asset))
                (fresh_for_empty 99 2 7 _ ltac:(lia))
                (or_intror (fresh_for_empty 99 0 7 _ ltac:(lia)))) as H.
  destruct (RenderMeshComponent_AddFromRawData 99 0 2 3 0 false 7
              no_source_file (empty_world 99 (Some every_asset)))
    as [[] w'|f].
  - exfalso. destruct H as (_ & _ & (_ & [x Hx] & _) & _). discriminate Hx.
  - destruct H as [(Hb & _)|(_ & -> & _)]; [discriminate Hb|reflexivity].
Defined.

(** ** Export of data that was not imported *)

(** C4 (as amended): [ExportRawData] of the base [Component] always
    returns the sentinel.  For an entity registered by [AddEntity], not
    by [AddFromRawData], [RenderMeshComponent] and [PhysicsComponent]
    return the sentinel: the first whenever the mesh or the shader file
    name is empty, the second whenever no body is exported.
    [GraphComponent] does not: for such an entity it returns a [GraphDef]
    without a file name list. *)
Theorem ExportRawData_of_added_entity
    (kUnusedComponentIndex : ComponentIndex)
    (kTransformId kPhysicsId kRenderMeshId kGraphId : ComponentId)
    (BulletCollisionType_End : Z) (RenderPass_kCount : nat)
    (bullet : Bullet) :
  kPhysicsId ≠ kTransformId →
  kRenderMeshId ≠ kTransformId →
  (∀ (RawData : Type) e (w : @World Payload LibraryState),
     @ExportRawData Payload LibraryState RawData e w = None)
  ∧ (∀ e w,
       fresh_for kUnusedComponentIndex kRenderMeshId e w →
       fresh_for kUnusedComponentIndex kTransformId e w →
       ∃ i w',
         AddEntity kUnusedComponentIndex
           (RenderMeshComponent kUnusedComponentIndex kTransformId
              kRenderMeshId) e kAddToBack w = Ok (Some i) w'
         ∧ RenderMeshComponent_ExportRawData kUnusedComponentIndex
             kRenderMeshId RenderPass_kCount e w' = None)
  ∧ (∀ e i cd d w,
       registered_at kUnusedComponentIndex kRenderMeshId e i w →
       GetElementData (pools w kRenderMeshId) i = Some cd →
       data cd = RenderMeshPayload d →
       mesh_filename d = EmptyString ∨ shader_filename d = EmptyString →
       RenderMeshComponent_ExportRawData kUnusedComponentIndex
         kRenderMeshId RenderPass_kCount e w = None)
  ∧ (∀ e w,
       fresh_for kUnusedComponentIndex kPhysicsId e w →
       fresh_for kUnusedComponentIndex kTransformId e w →
       ∃ i w',
         AddEntity kUnusedComponentIndex
           (PhysicsComponent kUnusedComponentIndex kTransformId kPhysicsId)
           e kAddToBack w = Ok (Some i) w'
         ∧ PhysicsComponent_ExportRawData kUnusedComponentIndex kPhysicsId
             BulletCollisionType_End bullet e w' = Ok None w')
  ∧ (∀ e w,
       fresh_for kUnusedComponentIndex kGraphId e w →
       ∃ i w',
         AddEntity kUnusedComponentIndex (GraphComponent kGraphId)
           e kAddToBack w = Ok (Some i) w'
         ∧ GraphComponent_ExportRawData kUnusedComponentIndex kGraphId e w'
           = Some (mkGraphDef None)).
Proof.
  intros HneP HneR. split; [done|]. split.
  { intros e w Hfresh HfreshT.
    destruct (RenderMeshComponent_AddEntity_fresh kUnusedComponentIndex
                kTransformId kRenderMeshId e w HneR Hfresh
                (or_intror HfreshT))
      as (i & w' & Hadd & Hreg & Hget & _).
    exists i, w'. split; [done|].
    by rewrite (RenderMeshComponent_ExportRawData_registered
                  kUnusedComponentIndex kRenderMeshId RenderPass_kCount
                  e i _ _ w' Hreg Hget eq_refl). }
  split.
  { intros e i cd d w Hreg Hget Hd Hempty.
    rewrite (RenderMeshComponent_ExportRawData_registered
               kUnusedComponentIndex kRenderMeshId RenderPass_kCount
               e i cd d w Hreg Hget Hd).
    destruct Hempty as [-> | ->]; [done|].
    by rewrite orb_true_r. }
  split.
  { intros e w Hfresh HfreshT.
    destruct (PhysicsComponent_AddEntity_fresh kUnusedComponentIndex
                kTransformId kPhysicsId e w HneP Hfresh
                (or_intror HfreshT))
      as (i & j & w' & Hadd & Hreg & _ & Hget & _).
    exists i, w'. split; [done|].
    by rewrite (PhysicsComponent_ExportRawData_registered
                  kUnusedComponentIndex kPhysicsId BulletCollisionType_End
                  bullet e i _ _ w' Hreg Hget eq_refl). }
  intros e w Hfresh.
  destruct (GraphComponent_AddEntity_fresh kUnusedComponentIndex kGraphId
              e w Hfresh)
    as (i & w' & Hadd & Hreg & Hget & _).
  exists i, w'. split; [done|].
  by rewrite (GraphComponent_ExportRawData_registered kUnusedComponentIndex
                kGraphId e i _ _ w' Hreg Hget eq_refl).
Qed.

(** C4, as the specification has it, fails for [GraphComponent]: an
    entity that was registered by [AddEntity] and has no graph is exported
    as a blob, not as the sentinel. *)
Lemma ExportRawData_of_added_entity_counterexample :
  AddEntity 99 (GraphComponent 3) 7 kAddToBack (empty_world 99 None)
  = Ok (Some 0)
      (run_world (AddEntity 99 (GraphComponent 3) 7 kAddToBack)
         (empty_world 99 None))
  ∧ GraphComponent_ExportRawData 99 3 7
      (run_world (AddEntity 99 (GraphComponent 3) 7 kAddToBack)
         (empty_world 99 None))
    ≠ None.
Proof. split; by vm_compute. Qed.

(** A Bullet whose accessors give back what its objects were made
    from. *)
Definition ideal_bullet : Bullet :=
  mkBullet
    (λ s, match s with
          | btSphereShape radius | btCapsuleShape radius _
          | btConeShape radius _ => radius
          | _ => float_zero
          end)
    (λ s, match s with
          | btBoxShape half_extents | btCylinderShape half_extents =>
              half_extents
          | _ => kZeros3f
          end)
    (λ s, match s with
          | btCapsuleShape _ height => float_div height float_two
          | _ => float_zero
          end)
    (λ s, match s with
          | btConeShape _ height => height
          | _ => float_zero
          end)
    (λ s, match s with
          | btStaticPlaneShape normal _ => normal
          | _ => kZeros3f
          end)
    (λ s, match s with
          | btStaticPlaneShape _ constant => constant
          | _ => float_zero
          end)
    (λ b, if float_nonzero (rb_mass b) then float_div float_one (rb_mass b)
          else float_zero)
    (λ b, default float_zero (m_restitution b)).

Lemma ExportRawData_of_added_entity_witness :
  (∃ i w',
     AddEntity 99 (RenderMeshComponent 99 0 2) 7 kAddToBack
       (empty_world 99 None) = Ok (Some i) w'
     ∧ RenderMeshComponent_ExportRawData 99 2 3 7 w' = None)
  ∧ (∃ i w',
       AddEntity 99 (PhysicsComponent 99 0 1) 7 kAddToBack
         (empty_world 99 None) = Ok (Some i) w'
       ∧ PhysicsComponent_ExportRawData 99 1 64 ideal_bullet 7 w'
         = Ok None w')
  ∧ (∃ i w',
       AddEntity 99 (GraphComponent 3) 7 kAddToBack (empty_world 99 None)
       = Ok (Some i) w'
       ∧ GraphComponent_ExportRawData 99 3 7 w' = Some (mkGraphDef None)).
Proof.
  destruct (ExportRawData_of_added_entity 99 0 1 2 3 64 3 ideal_bullet
              ltac:(lia) ltac:(lia)) as (_ & HR & _ & HP & HG).
  split; [apply HR; apply fresh_for_empty; lia|].
  split; [apply HP; apply fresh_for_empty; lia|].
  apply HG; apply fresh_for_empty; lia.
Defined.

(** ** Round trips *)


(** Three worlds in which the entity 10 has been imported from a blob. *)
Definition graph_blob : GraphDef :=
  mkGraphDef (Some ["patrol.bbgraph"%string; "door.bbgraph"%string]).

Definition graph_world : @World Payload LibraryState :=
  run_world (GraphComponent_AddFromRawData 99 3 10 graph_blob)
    (empty_world 99 None).

Definition mesh_blob : RenderMeshDef :=
  mkRenderMeshDef (Some "crate.fplmesh"%string) (Some "textured_lit"%string)
    (Some [0; 2]) true false.

Definition mesh_world : @World Payload LibraryState :=
  run_world (RenderMeshComponent_AddFromRawData 99 0 2 3 0 false 10
               mesh_blob)
    (empty_world 99 (Some every_asset)).

Definition float_half : float := S754_finite false 8388608 (-24).

Definition physics_blob : PhysicsDef :=
  mkPhysicsDef false
    (Some [mkBulletShapeDef
             (Data_Box (Some (mkBulletBoxDef (Some kOnes3f))))
             float_two float_half (Some kZeros3f) 1
             (Some [2; 4]%Z) (Some "crate"%string);
           mkBulletShapeDef
             (Data_Sphere (Some (mkBulletSphereDef float_one)))
             float_zero float_zero (Some kOnes3f) 2
             (Some [1]%Z) (Some EmptyString)]).

Definition physics_world : @World Payload LibraryState :=
  run_world (PhysicsComponent_AddFromRawData 99 0 1 10 physics_blob)
    (empty_world 99 None).

Lemma physics_blob_loadable : shapes_loadable physics_blob.
Proof. repeat constructor; by eexists. Qed.

Lemma graph_world_fresh : fresh_for 99 3 11 graph_world.
Proof.
  apply (fresh_for_run_world 99 3 10 11).
  - destruct (GraphComponent_AddFromRawData_fresh 99 3 10 graph_blob
                (empty_world 99 None) (fresh_for_empty 99 3 10 None
                                         ltac:(lia)))
      as (i & w' & Hadd & _ & _ & Htouch & Hkept).
    exists w'. split; [exact Hadd|]. split; [exact Htouch|exact Hkept].
  - lia.
  - vm_compute. lia.
  - apply fresh_for_empty. lia.
Qed.

Lemma mesh_world_fresh c : c = 0 ∨ c = 2 → fresh_for 99 c 11 mesh_world.
Proof.
  intros Hc. apply (fresh_for_run_world 99 c 10 11).
  - destruct (RenderMeshComponent_AddFromRawData_fresh 99 0 2 3 0 false 10
                mesh_blob (empty_world 99 (Some every_asset)) every_asset
                "crate.fplmesh" "textured_lit" ltac:(lia)
                (fresh_for_empty 99 2 10 _ ltac:(lia))
                (or_intror (fresh_for_empty 99 0 10 _ ltac:(lia)))
                eq_refl eq_refl eq_refl)
      as (i & w' & Hadd & _ & _ & _ & Htouch & Hkept).
    { right. split; [by eexists|]. split; [by eexists|].
      intros passes [= <-]. repeat constructor. }
    exists w'. split; [exact Hadd|]. split; [exact Htouch|exact Hkept].
  - lia.
  - destruct Hc as [-> | ->]; vm_compute; lia.
  - apply fresh_for_empty. lia.
Qed.


(** In [physics_world] the entity 10 has the first record of the physics
    component, with the two bodies of [physics_blob]. *)
Lemma physics_world_registered : registered_at 99 1 10 0 physics_world.
Proof. split; [by vm_compute|]. split; [lia|by vm_compute]. Qed.

Lemma physics_world_data :
  GetElementData (pools physics_world 1) 0
  = Some (mkComponentData (Some 10) (PhysicsPayload (imported physics_blob))).
Proof. vm_compute. reflexivity. Qed.




(** * Further properties of the physics component *)

(** A record as the operations of the component leave it: [body_count]
    is within the array, every body below it has its shape and its rigid
    body, and all of them but the first are kinematic. *)
Definition sound (d : PhysicsData) : Prop :=
  in_bounds d
  ∧ Forall (λ rb, is_Some (shape rb) ∧ is_Some (rigid_body rb)) (bodies_of d)
  ∧ ∀ i rb, 0 < i → bodies_of d !! i = Some rb →
            isKinematicObject <$> rigid_body rb = Some true.

Section PhysicsAccess.
Variable kUnused : ComponentIndex.
Variables kTransformId kPhysicsId : ComponentId.
Implicit Types (w : @World Payload LibraryState) (e : EntityRef).

Lemma sound_rigid_bodies d :
  sound d → Forall (λ rb, is_Some (rigid_body rb)) (bodies_of d).
Proof.
  intros (_ & Hall & _). eapply Forall_impl; [done|]. by intros rb [_ ?].
Qed.

Lemma deref_physics_live i cd d w :
  GetElementData (pools w kPhysicsId) i = Some cd →
  data cd = PhysicsPayload d →
  deref_physics kPhysicsId (Some i) w = Ok d w.
Proof.
  intros Hcd Hd. unfold deref_physics, read, component_data_. simpl.
  unfold LibraryState in *. rewrite Hcd. simpl. by rewrite Hd.
Qed.

Lemma deref_physics_null w :
  deref_physics kPhysicsId None w = Err NullPointer.
Proof. done. Qed.

Lemma Data_unregistered c e w :
  IsRegisteredForComponent kUnused (entities w e) c = false →
  Data kUnused c e w = None.
Proof.
  intros Hunreg. unfold Data. rewrite GetComponentData_alt.
  unfold IsRegisteredForComponent in Hunreg.
  apply bool_decide_eq_false in Hunreg.
  rewrite decide_True; [done|].
  destruct (decide (entities w e c = kUnused)); [done|].
  by destruct Hunreg.
Qed.
End PhysicsAccess.

Section PhysicsToggle.
Variable kUnused : ComponentIndex.
Variables kTransformId kPhysicsId : ComponentId.
Variable BulletCollisionType_Raycast BulletCollisionType_End : Z.
Variable bullet : Bullet.
Variable GetMaxMinPositionsForEntity :
  EntityRef → @World Payload LibraryState → option (Vec3 * Vec3).
Implicit Types (w : @World Payload LibraryState) (e : EntityRef).

Lemma EnablePhysics_registered e i cd d w :
  registered_at kUnused kPhysicsId e i w →
  GetElementData (pools w kPhysicsId) i = Some cd →
  data cd = PhysicsPayload d →
  EnablePhysics kUnused kPhysicsId e w
  = if enabled d then Ok tt w
    else (store_physics kPhysicsId (Some i)
            (mkPhysicsData (rigid_bodies d) (body_count d) true);;
          touch_bodies d) w.
Proof.
  intros Hreg Hcd Hd. unfold EnablePhysics, mbind, M_bind, get_world, Data.
  unfold LibraryState in *.
  rewrite (registered_at_read kUnused _ _ _ _ Hreg).
  rewrite (deref_physics_live kPhysicsId i cd d w Hcd Hd).
  by destruct (enabled d).
Qed.

Lemma DisablePhysics_registered e i cd d w :
  registered_at kUnused kPhysicsId e i w →
  GetElementData (pools w kPhysicsId) i = Some cd →
  data cd = PhysicsPayload d →
  DisablePhysics kUnused kPhysicsId e w
  = if enabled d
    then (store_physics kPhysicsId (Some i)
            (mkPhysicsData (rigid_bodies d) (body_count d) false);;
          touch_bodies d) w
    else Ok tt w.
Proof.
  intros Hreg Hcd Hd. unfold DisablePhysics, mbind, M_bind, get_world, Data.
  unfold LibraryState in *.
  rewrite (registered_at_read kUnused _ _ _ _ Hreg).
  rewrite (deref_physics_live kPhysicsId i cd d w Hcd Hd).
  by destruct (enabled d).
Qed.

(** Writing the [enabled] flag of a live record. *)
Lemma set_enabled_live e i cd d b w :
  registered_at kUnused kPhysicsId e i w →
  GetElementData (pools w kPhysicsId) i = Some cd →
  data cd = PhysicsPayload d →
  in_bounds d →
  Forall (λ rb, is_Some (rigid_body rb)) (bodies_of d) →
  ∃ w',
    (store_physics kPhysicsId (Some i)
       (mkPhysicsData (rigid_bodies d) (body_count d) b);;
     touch_bodies d) w = Ok tt w'
    ∧ registered_at kUnused kPhysicsId e i w'
    ∧ GetElementData (pools w' kPhysicsId) i
      = Some (mkComponentData (entity cd)
                (PhysicsPayload
                   (mkPhysicsData (rigid_bodies d) (body_count d) b)))
    ∧ only_touches e w w'
    ∧ preserves_registrations kPhysicsId w w'
    ∧ pools_wf_kept w w'
    ∧ (∀ c, c ≠ kPhysicsId → pools w' c = pools w c)
    ∧ entities w' = entities w
    ∧ aux w' = aux w.
Proof.
  intros Hreg Hcd Hd Hin Hall.
  destruct (write_live kPhysicsId i
              (λ _, PhysicsPayload
                      (mkPhysicsData (rigid_bodies d) (body_count d) b))
              w cd Hcd)
    as (w' & Hwrite & Hget & Hother & Hshape & Hpools & Hents & Haux
        & Htrace).
  destruct (registered_at_record kUnused _ _ _ _ Hreg) as (cd' & Hcd' & Hown).
  assert (cd' = cd) as -> by congruence.
  exists w'. split.
  { unfold store_physics, mbind, M_bind. unfold LibraryState in *.
    rewrite Hwrite. by apply touch_bodies_sound. }
  split; [exact (write_live_registered kUnused _ _ _ _ _ _ _ _ _
                   Hcd Hwrite Hreg)|].
  split; [done|].
  split; [exact (write_live_only_touches _ _ _ _ _ _ e Hcd Hown Hwrite)|].
  split; [|split; [exact (write_live_wf _ _ _ _ _ _ Hcd Hwrite)|done]].
  split; [done|]. split.
  { intros j. unfold component_data_.
    destruct (decide (j = i)) as [->|Hj]; [|by rewrite Hother].
    by rewrite Hget, Hcd. }
  split; [intros e'; unfold GetComponentDataIndex; by rewrite Hents|].
  exists []. by rewrite app_nil_r.
Qed.

(** X1: for an entity whose record is within bounds with a rigid body
    for each of its bodies, [EnablePhysics] returns and leaves the record
    with [enabled] set and with the bodies and [body_count] it had; a
    second call changes nothing.  [DisablePhysics] after it returns and
    leaves the record with [enabled] cleared, and a second call changes
    nothing.  Neither touches another entity. *)
Theorem EnablePhysics_DisablePhysics e i cd d w :
  registered_at kUnused kPhysicsId e i w →
  GetElementData (pools w kPhysicsId) i = Some cd →
  data cd = PhysicsPayload d →
  in_bounds d →
  Forall (λ rb, is_Some (rigid_body rb)) (bodies_of d) →
  ∃ w1 w2,
    EnablePhysics kUnused kPhysicsId e w = Ok tt w1
    ∧ GetElementData (pools w1 kPhysicsId) i
      = Some (mkComponentData (entity cd)
                (PhysicsPayload
                   (mkPhysicsData (rigid_bodies d) (body_count d) true)))
    ∧ only_touches e w w1
    ∧ EnablePhysics kUnused kPhysicsId e w1 = Ok tt w1
    ∧ DisablePhysics kUnused kPhysicsId e w1 = Ok tt w2
    ∧ GetElementData (pools w2 kPhysicsId) i
      = Some (mkComponentData (entity cd)
                (PhysicsPayload
                   (mkPhysicsData (rigid_bodies d) (body_count d) false)))
    ∧ only_touches e w w2
    ∧ DisablePhysics kUnused kPhysicsId e w2 = Ok tt w2.
Proof.
  intros Hreg Hcd Hd Hin Hall.
  assert (∃ w1,
            EnablePhysics kUnused kPhysicsId e w = Ok tt w1
            ∧ registered_at kUnused kPhysicsId e i w1
            ∧ GetElementData (pools w1 kPhysicsId) i
              = Some (mkComponentData (entity cd)
                        (PhysicsPayload
                           (mkPhysicsData (rigid_bodies d) (body_count d)
                              true)))
            ∧ only_touches e w w1) as (w1 & Hen & Hreg1 & Hget1 & Htouch1).
  { rewrite (EnablePhysics_registered e i cd d w Hreg Hcd Hd).
    destruct (enabled d) eqn:Hon.
    - exists w. split; [done|]. split; [done|].
      split; [|apply only_touches_refl].
      rewrite Hcd. destruct cd as [owner x]. simpl in *. subst x.
      destruct d. simpl in *. by subst.
    - destruct (set_enabled_live e i cd d true w Hreg Hcd Hd Hin Hall)
        as (w1 & Hw1 & Hreg1 & Hget1 & Htouch1 & _).
      by exists w1. }
  set (d1 := mkPhysicsData (rigid_bodies d) (body_count d) true) in *.
  destruct (set_enabled_live e i _ d1 false w1 Hreg1 Hget1 eq_refl Hin Hall)
    as (w2 & Hw2 & Hreg2 & Hget2 & Htouch2 & _).
  exists w1, w2. split; [done|]. split; [done|]. split; [done|].
  split.
  { by rewrite (EnablePhysics_registered e i _ d1 w1 Hreg1 Hget1 eq_refl). }
  split.
  { by rewrite (DisablePhysics_registered e i _ d1 w1 Hreg1 Hget1 eq_refl). }
  split; [done|].
  split; [by eapply only_touches_trans|].
  by rewrite (DisablePhysics_registered e i _ _ w2 Hreg2 Hget2 eq_refl).
Qed.

(** X2: for an entity that is not registered with the physics
    component, [EnablePhysics], [DisablePhysics] and
    [GenerateRaycastShape] dereference a null pointer, and so does
    [RemoveEntity], whose [CleanupEntity] is [DisablePhysics];
    [UpdatePhysicsFromTransform] returns with nothing changed and
    [ExportRawData] returns the null blob. *)
Theorem physics_calls_on_unregistered e result_exportable w :
  IsRegisteredForComponent kUnused (entities w e) kPhysicsId = false →
  EnablePhysics kUnused kPhysicsId e w = Err NullPointer
  ∧ DisablePhysics kUnused kPhysicsId e w = Err NullPointer
  ∧ GenerateRaycastShape kUnused kTransformId kPhysicsId
      BulletCollisionType_Raycast GetMaxMinPositionsForEntity e
      result_exportable w = Err NullPointer
  ∧ RemoveEntity kUnused
      (PhysicsComponent kUnused kTransformId kPhysicsId) e w
    = Err NullPointer
  ∧ UpdatePhysicsFromTransform kUnused kTransformId kPhysicsId e w
    = Ok tt w
  ∧ PhysicsComponent_ExportRawData kUnused kPhysicsId
      BulletCollisionType_End bullet e w = Ok None w.
Proof.
  intros Hunreg.
  pose proof (Data_unregistered kUnused kPhysicsId e w Hunreg) as Hdata.
  unfold Data in Hdata.
  assert (∀ w',
            entities w' = entities w → pools w' = pools w →
            GetComponentData kUnused kPhysicsId e w' = None) as Hdata'.
  { intros w' Hents Hpools. rewrite GetComponentData_alt in *.
    by rewrite Hents, Hpools. }
  split.
  { unfold EnablePhysics, mbind, M_bind, get_world, Data.
    unfold LibraryState in *. by rewrite Hdata. }
  split.
  { unfold DisablePhysics, mbind, M_bind, get_world, Data.
    unfold LibraryState in *. by rewrite Hdata. }
  split.
  { unfold GenerateRaycastShape, mbind, M_bind, get_world.
    unfold LibraryState in *. by rewrite Hdata. }
  split.
  { unfold RemoveEntity, RemoveEntityInternal, mbind, M_bind, log. simpl.
    unfold DisablePhysics, mbind, M_bind, get_world, Data.
    unfold LibraryState in *. by rewrite Hdata'. }
  split.
  { unfold UpdatePhysicsFromTransform, UpdatePhysicsObjectsTransform,
      mbind, M_bind, get_world, Data.
    unfold LibraryState in *. by rewrite Hdata. }
  unfold PhysicsComponent_ExportRawData, mbind, M_bind, get_world.
  unfold LibraryState in *. by rewrite Hdata.
Qed.
End PhysicsToggle.

(** The body that [GenerateRaycastShape] puts at [rigid_bodies[body_count]]:
    a kinematic box of no mass about the entity, on the raycast layer; the
    slot keeps its tag. *)
Definition raycast_body (BulletCollisionType_Raycast : Z)
    (GetMaxMinPositionsForEntity :
       EntityRef → @World Payload LibraryState → option (Vec3 * Vec3))
    (e : EntityRef) (w : @World Payload LibraryState)
    (result_exportable : bool) (old : RigidBodyData) : RigidBodyData :=
  mkRigidBodyData
    (raycast_offset GetMaxMinPositionsForEntity e w)
    BulletCollisionType_Raycast BulletCollisionType_Raycast
    (Some (btBoxShape
             (vec_div (raycast_extents GetMaxMinPositionsForEntity e w)
                float_two)))
    (Some (mkbtRigidBody float_zero None true))
    result_exportable (user_tag old).

(** The first loop of [GenerateRaycastShape] finds a body that collides
    with the raycast layer. *)
Definition collides_with_raycast (BulletCollisionType_Raycast : Z)
    (d : PhysicsData) : bool :=
  existsb (λ rb, negb (Z.land (collides_with rb)
                              BulletCollisionType_Raycast =? 0)%Z)
    (bodies_of d).

Section Raycast.
Variable kUnused : ComponentIndex.
Variables kTransformId kPhysicsId : ComponentId.
Variable BulletCollisionType_Raycast BulletCollisionType_End : Z.
Variable bullet : Bullet.
Variable GetMaxMinPositionsForEntity :
  EntityRef → @World Payload LibraryState → option (Vec3 * Vec3).
Implicit Types (w : @World Payload LibraryState) (e : EntityRef).

Abbreviation Generate :=
  (GenerateRaycastShape kUnused kTransformId kPhysicsId
     BulletCollisionType_Raycast GetMaxMinPositionsForEntity).

Lemma GenerateRaycastShape_registered e i cd d result_exportable w :
  registered_at kUnused kPhysicsId e i w →
  GetElementData (pools w kPhysicsId) i = Some cd →
  data cd = PhysicsPayload d →
  in_bounds d →
  Generate e result_exportable w
  = if bool_decide (body_count d = kMaxPhysicsBodies) then Ok tt w
    else if collides_with_raycast BulletCollisionType_Raycast d
    then Ok tt w
    else match rigid_bodies d !! Z.to_nat (body_count d) with
         | None => Err OutOfBounds
         | Some rb =>
             match Data kUnused kTransformId e w with
             | None => Err NullPointer
             | Some _ =>
                 store_physics kPhysicsId (Some i)
                   (mkPhysicsData
                      (<[Z.to_nat (body_count d) :=
                           raycast_body BulletCollisionType_Raycast
                             GetMaxMinPositionsForEntity e w
                             result_exportable rb]> (rigid_bodies d))
                      (body_count d + 1) true) w
             end
         end.
Proof.
  intros Hreg Hcd Hd Hin.
  unfold GenerateRaycastShape, mbind, M_bind, get_world.
  unfold LibraryState in *.
  rewrite (registered_at_read kUnused _ _ _ _ Hreg).
  rewrite (deref_physics_live kPhysicsId i cd d w Hcd Hd).
  case_bool_decide as Hfull; [done|].
  unfold raycastable. rewrite (live_bodies_bodies_of d Hin). simpl.
  fold (collides_with_raycast BulletCollisionType_Raycast d).
  destruct (collides_with_raycast BulletCollisionType_Raycast d); [done|].
  destruct Hin as [Hcount Hlen].
  rewrite bool_decide_eq_true_2 by lia.
  destruct (rigid_bodies d !! Z.to_nat (body_count d)); [|done].
  unfold Data. unfold LibraryState in *.
  by destruct (GetComponentData kUnused kTransformId e w).
Qed.

Lemma bodies_of_raycast d rb x :
  in_bounds d →
  rigid_bodies d !! Z.to_nat (body_count d) = Some rb →
  bodies_of (mkPhysicsData
               (<[Z.to_nat (body_count d) := x]> (rigid_bodies d))
               (body_count d + 1) true)
  = bodies_of d ++ [x].
Proof.
  intros [Hcount Hlen] Hrb. unfold bodies_of. cbn [rigid_bodies body_count].
  replace (Z.to_nat (body_count d + 1)) with (S (Z.to_nat (body_count d)))
    by lia.
  apply lookup_lt_Some in Hrb as Hlt.
  erewrite take_S_r; [|by apply list_lookup_insert_eq].
  by rewrite take_insert_ge by lia.
Qed.

(** X3: for an entity with physics data within bounds that is also
    registered with the transform component, [GenerateRaycastShape]
    changes nothing when the record is full or when one of its bodies
    collides with the raycast layer.  Otherwise it appends one body, a
    kinematic box on the raycast layer that is exported as
    [result_exportable] says, increments [body_count] and sets
    [enabled]; the bodies that were there stay as they were and no other
    entity is touched.  If the raycast layer is not zero, calling it
    again changes nothing. *)
Theorem GenerateRaycastShape_appends_once e i cd d result_exportable w :
  registered_at kUnused kPhysicsId e i w →
  GetElementData (pools w kPhysicsId) i = Some cd →
  data cd = PhysicsPayload d →
  in_bounds d →
  is_Some (Data kUnused kTransformId e w) →
  (body_count d = kMaxPhysicsBodies
   ∨ collides_with_raycast BulletCollisionType_Raycast d = true →
   Generate e result_exportable w = Ok tt w)
  ∧ (body_count d ≠ kMaxPhysicsBodies →
     collides_with_raycast BulletCollisionType_Raycast d = false →
     ∃ w' d' rb,
       Generate e result_exportable w = Ok tt w'
       ∧ GetElementData (pools w' kPhysicsId) i
         = Some (mkComponentData (entity cd) (PhysicsPayload d'))
       ∧ rigid_bodies d !! Z.to_nat (body_count d) = Some rb
       ∧ bodies_of d'
         = bodies_of d
           ++ [raycast_body BulletCollisionType_Raycast
                 GetMaxMinPositionsForEntity e w
                 result_exportable rb]
       ∧ body_count d' = (body_count d + 1)%Z
       ∧ enabled d' = true
       ∧ in_bounds d'
       ∧ only_touches e w w'
       ∧ (BulletCollisionType_Raycast ≠ 0%Z →
          ∀ again, Generate e again w' = Ok tt w')).
Proof.
  intros Hreg Hcd Hd Hin [j Htransform].
  rewrite (GenerateRaycastShape_registered e i cd d result_exportable w
             Hreg Hcd Hd Hin).
  split.
  { intros [Hfull|Hray].
    - by rewrite bool_decide_eq_true_2.
    - rewrite Hray. by case_bool_decide. }
  intros Hroom Hray.
  rewrite bool_decide_eq_false_2, Hray by done.
  pose proof Hin as [Hcount Hlen].
  destruct (rigid_bodies d !! Z.to_nat (body_count d)) as [rb|] eqn:Hrb.
  2:{ apply lookup_ge_None in Hrb. unfold kMaxPhysicsBodies in *. lia. }
  unfold LibraryState in *. rewrite Htransform.
  set (d' := mkPhysicsData
               (<[Z.to_nat (body_count d) :=
                    raycast_body BulletCollisionType_Raycast
                      GetMaxMinPositionsForEntity e w
                      result_exportable rb]> (rigid_bodies d))
               (body_count d + 1) true).
  destruct (write_live kPhysicsId i (λ _, PhysicsPayload d') w cd Hcd)
    as (w' & Hwrite & Hget & Hother & Hshape & Hpools & Hents & Haux
        & Htrace).
  destruct (registered_at_record kUnused _ _ _ _ Hreg) as (cd' & Hcd' & Hown).
  assert (cd' = cd) as -> by congruence.
  assert (in_bounds d') as Hin'.
  { split; cbn [body_count rigid_bodies d'].
    - unfold kMaxPhysicsBodies in *. lia.
    - by rewrite length_insert. }
  exists w', d', rb. unfold store_physics. unfold LibraryState in *.
  split; [done|]. split; [done|]. split; [done|].
  split; [exact (bodies_of_raycast d rb _ Hin Hrb)|].
  split; [done|]. split; [done|]. split; [done|].
  split; [exact (write_live_only_touches _ _ _ _ _ _ e Hcd Hown Hwrite)|].
  intros Hlayer again.
  pose proof (write_live_registered kUnused _ _ _ _ _ _ _ _ _
                Hcd Hwrite Hreg) as Hreg'.
  rewrite (GenerateRaycastShape_registered e i _ d' again w'
             Hreg' Hget eq_refl Hin').
  case_bool_decide; [done|].
  assert (collides_with_raycast BulletCollisionType_Raycast d' = true)
    as ->; [|done].
  unfold collides_with_raycast, d'.
  rewrite (bodies_of_raycast d rb _ Hin Hrb), existsb_app.
  cbn [existsb raycast_body collides_with].
  rewrite Z.land_diag.
  destruct (Z.eqb_spec BulletCollisionType_Raycast 0) as [?|_]; [done|].
  by rewrite orb_true_r.
Qed.

Lemma export_bodies_skip_last bodies x w :
  should_export x = false →
  export_bodies BulletCollisionType_End bullet (bodies ++ [x]) w
  = export_bodies BulletCollisionType_End bullet bodies w.
Proof.
  intros Hx. induction bodies as [|body bodies IH]; simpl.
  { by rewrite Hx. }
  destruct (should_export body); [|done].
  unfold mbind, M_bind.
  destruct (export_body BulletCollisionType_End bullet body w) as [sd w1|];
    [|done].
  rewrite (export_bodies_pure bullet BulletCollisionType_End
             (bodies ++ [x]) w w1).
  rewrite (export_bodies_pure bullet BulletCollisionType_End bodies w w1).
  by rewrite IH.
Qed.

Lemma export_data_raycast d rb x w :
  in_bounds d →
  rigid_bodies d !! Z.to_nat (body_count d) = Some rb →
  should_export x = false →
  is_Some (rigid_body x) →
  export_data BulletCollisionType_End bullet
    (mkPhysicsData (<[Z.to_nat (body_count d) := x]> (rigid_bodies d))
       (body_count d + 1) true) w
  = export_data BulletCollisionType_End bullet d w.
Proof.
  intros Hin Hrb Hx [b Hb]. pose proof Hin as [Hcount Hlen].
  apply lookup_lt_Some in Hrb as Hlt.
  set (d' := mkPhysicsData (<[Z.to_nat (body_count d) := x]>
                              (rigid_bodies d)) (body_count d + 1) true).
  assert (in_bounds d') as Hin'.
  { split; cbn [body_count rigid_bodies d'].
    - unfold kMaxPhysicsBodies in *. lia.
    - by rewrite length_insert. }
  assert (bodies_of d' = bodies_of d ++ [x]) as Hbodies
    by exact (bodies_of_raycast d rb x Hin Hrb).
  unfold export_data.
  rewrite (live_bodies_bodies_of d' Hin'), (live_bodies_bodies_of d Hin).
  rewrite Hbodies.
  rewrite (bool_decide_eq_true_2 (0 < body_count d')%Z)
    by (cbn [body_count d']; lia).
  case_bool_decide as Hpos.
  - assert (head (bodies_of d ++ [x]) = head (bodies_of d)) as ->.
    { unfold bodies_of. destruct (rigid_bodies d) as [|b0 l] eqn:Hl.
      { simpl in Hlt. lia. }
      destruct (Z.to_nat (body_count d)) as [|n] eqn:Hn; [lia|done]. }
    destruct (head (bodies_of d) ≫= rigid_body); [|done].
    unfold mbind, M_bind.
    by rewrite export_bodies_skip_last.
  - assert (bodies_of d = []) as ->.
    { unfold bodies_of. replace (Z.to_nat (body_count d)) with 0 by lia.
      done. }
    simpl. rewrite Hb. simpl. unfold mbind, M_bind. simpl.
    by rewrite Hx.
Qed.

(** X4: a raycast shape that [GenerateRaycastShape] adds with
    [result_exportable = false] does not show in the export: after the
    call [ExportRawData] returns what it returned before. *)
Theorem GenerateRaycastShape_not_exported e i cd d w w' :
  registered_at kUnused kPhysicsId e i w →
  GetElementData (pools w kPhysicsId) i = Some cd →
  data cd = PhysicsPayload d →
  in_bounds d →
  Generate e false w = Ok tt w' →
  PhysicsComponent_ExportRawData kUnused kPhysicsId
    BulletCollisionType_End bullet e w'
  = match PhysicsComponent_ExportRawData kUnused kPhysicsId
            BulletCollisionType_End bullet e w with
    | Ok physics_def _ => Ok physics_def w'
    | Err f => Err f
    end.
Proof.
  intros Hreg Hcd Hd Hin Hgen.
  rewrite (PhysicsComponent_ExportRawData_registered kUnused kPhysicsId
             BulletCollisionType_End bullet e i cd d w Hreg Hcd Hd).
  rewrite <- (export_data_pure BulletCollisionType_End bullet d w w').
  rewrite (GenerateRaycastShape_registered e i cd d false w
             Hreg Hcd Hd Hin) in Hgen.
  case_bool_decide as Hfull.
  { injection Hgen as <-.
    exact (PhysicsComponent_ExportRawData_registered kUnused kPhysicsId
             BulletCollisionType_End bullet e i cd d w Hreg Hcd Hd). }
  destruct (collides_with_raycast BulletCollisionType_Raycast d).
  { injection Hgen as <-.
    exact (PhysicsComponent_ExportRawData_registered kUnused kPhysicsId
             BulletCollisionType_End bullet e i cd d w Hreg Hcd Hd). }
  destruct (rigid_bodies d !! Z.to_nat (body_count d)) as [rb|] eqn:Hrb;
    [|done].
  destruct (Data kUnused kTransformId e w); [|done].
  unfold store_physics in Hgen.
  destruct (write_live kPhysicsId i
              (λ _, PhysicsPayload
                      (mkPhysicsData
                         (<[Z.to_nat (body_count d) :=
                              raycast_body BulletCollisionType_Raycast
                                GetMaxMinPositionsForEntity e w
                                false rb]> (rigid_bodies d))
                         (body_count d + 1) true)) w cd Hcd)
    as (w'' & Hwrite & Hget & _).
  unfold LibraryState in *. rewrite Hwrite in Hgen. injection Hgen as ->.
  pose proof (write_live_registered kUnused _ _ _ _ _ _ _ _ _
                Hcd Hwrite Hreg) as Hreg'.
  rewrite (PhysicsComponent_ExportRawData_registered kUnused kPhysicsId
             BulletCollisionType_End bullet e i _ _ w' Hreg' Hget eq_refl).
  apply (export_data_raycast d rb); [done|done|done|by eexists].
Qed.
End Raycast.

(** ** What import and export of the physics component read and write *)

Section PhysicsBlobs.
Variable kUnused : ComponentIndex.
Variables kTransformId kPhysicsId : ComponentId.
Variable BulletCollisionType_End : Z.
Implicit Types (w : @World Payload LibraryState) (e : EntityRef).

Lemma imported_sound physics_def :
  shapes_loadable physics_def → sound (imported physics_def).
Proof.
  intros Hall. split; [apply imported_in_bounds|].
  split; [by apply imported_rigid_bodies|].
  intros i x Hpos Hi.
  apply imported_bodies_lookup in Hi
      as (sd & _ & _ & _ & _ & _ & _ & _ & Hb & _); [|done].
  rewrite Hb. simpl. by rewrite decide_False by lia.
Qed.

(** X5: [AddFromRawData] for an entity that is not yet registered,
    given a blob whose first [kMaxPhysicsBodies] shapes all have the
    data that their type needs, loads shape [i] of the blob into body
    [i], for every [i] below [kMaxPhysicsBodies]: offset, collision
    type, collision layers, shape, mass, restitution and user tag are
    those of the shape, and the body is marked for export.  Only the
    first body takes the [kinematic] flag of the blob, all others are
    kinematic.  [body_count] becomes the number of shapes loaded and
    [enabled] is set.  For a blob with a shape among these that lacks
    such data, the call dereferences a null pointer. *)
Theorem AddFromRawData_loads_shapes e physics_def w :
  kPhysicsId ≠ kTransformId →
  fresh_for kUnused kPhysicsId e w →
  addable kUnused kTransformId e w →
  (shapes_loadable physics_def →
   ∃ w' d,
     PhysicsComponent_AddFromRawData kUnused kTransformId kPhysicsId
       e physics_def w = Ok tt w'
     ∧ data_of kUnused kPhysicsId e w' = Some (PhysicsPayload d)
     ∧ sound d
     ∧ enabled d = true
     ∧ body_count d
       = Z.of_nat (length (default [] (def_shapes physics_def))
                   `min` Z.to_nat kMaxPhysicsBodies)
     ∧ (∀ i rb,
          bodies_of d !! i = Some rb
          ↔ ∃ shape_def,
              default [] (def_shapes physics_def) !! i = Some shape_def
              ∧ i < Z.to_nat kMaxPhysicsBodies
              ∧ loaded_from (def_kinematic physics_def) i shape_def
                  RigidBodyData_new rb)
     ∧ (∀ i rb,
          bodies_of d !! i = Some rb →
          should_export rb = true
          ∧ isKinematicObject <$> rigid_body rb
            = Some (if decide (i = 0) then def_kinematic physics_def
                    else true)))
  ∧ (¬ shapes_loadable physics_def →
     PhysicsComponent_AddFromRawData kUnused kTransformId kPhysicsId
       e physics_def w = Err NullPointer).
Proof.
  intros Hne Hfresh HaddT. split.
  2:{ intros Hbad.
      by apply PhysicsComponent_AddFromRawData_null. }
  intros Hall.
  destruct (PhysicsComponent_AddFromRawData_fresh kUnused kTransformId
              kPhysicsId e physics_def w Hne Hfresh HaddT Hall)
    as (i & w' & Hadd & Hreg & Hget & _).
  exists w', (imported physics_def).
  split; [done|].
  split; [by rewrite (data_of_registered kUnused _ _ _ _ _ Hreg Hget)|].
  split; [by apply imported_sound|]. split.
  { unfold imported, reloaded. by case_bool_decide. }
  split.
  { pose proof (f_equal length (bodies_of_imported physics_def)) as Hl.
    rewrite (length_reloaded_bodies _ _ length_PhysicsData_new) in Hl.
    rewrite <- Hl. unfold bodies_of. rewrite length_take.
    pose proof (imported_in_bounds physics_def) as [Hcount Hlen].
    unfold kMaxPhysicsBodies in *. lia. }
  split.
  { intros j rb. by apply imported_bodies_lookup. }
  intros j rb Hj.
  apply imported_bodies_lookup in Hj
      as (sd & _ & _ & _ & _ & _ & _ & _ & Hb & Hexp & _); [|done].
  split; [done|]. by rewrite Hb.
Qed.
End PhysicsBlobs.

Section PhysicsExport.
Variable kUnused : ComponentIndex.
Variables kTransformId kPhysicsId : ComponentId.
Variable BulletCollisionType_End : Z.
Variable bullet : Bullet.
Hypothesis End_small : (to_short BulletCollisionType_End ≤ 16384)%Z.
Implicit Types (w : @World Payload LibraryState) (e : EntityRef).

(** X6: the loop of [ExportRawData] over the collision layers ends
    (given that [BulletCollisionType_End] is at most [16384]) and lists,
    once each, the powers of two below [BulletCollisionType_End] whose
    bit is set in [collides_with]; the loop of [AddFromRawData] over that
    list gives back [collides_with] with those bits and no others. *)
Theorem collision_layers_round_trip (mask : Z) :
  ∃ layers,
    collision_layers BulletCollisionType_End 16 1 mask = Some layers
    ∧ NoDup layers
    ∧ (∀ x, x ∈ layers
            ↔ ∃ j : nat,
                x = (2 ^ Z.of_nat j)%Z
                ∧ (x < to_short BulletCollisionType_End)%Z
                ∧ Z.testbit mask (Z.of_nat j) = true)
    ∧ ∀ j : nat,
        Z.testbit (foldl (λ acc x, Z.lor acc (to_short x)) 0%Z layers)
          (Z.of_nat j)
        = Z.testbit mask (Z.of_nat j)
          && bool_decide (2 ^ Z.of_nat j
                          < to_short BulletCollisionType_End)%Z.
Proof.
  exists (layers_of BulletCollisionType_End mask).
  split; [by apply collision_layers_layers_of|].
  split.
  { unfold layers_of. apply NoDup_fmap_2; [exact pow2_inj|].
    apply NoDup_filter. unfold layer_bits.
    apply NoDup_filter, NoDup_seq. }
  split.
  { intros x. unfold layers_of. rewrite list_elem_of_fmap.
    split.
    - intros (j & -> & Hj). apply list_elem_of_filter in Hj as [Hbit Hj].
      apply layer_bits_spec in Hj; [|done].
      apply land_bit_nonzero in Hbit.
      by exists j.
    - intros (j & -> & Hlt & Hbit). exists j. split; [done|].
      apply list_elem_of_filter. split; [by apply land_bit_nonzero|].
      by apply layer_bits_spec. }
  intros j. by apply layers_of_testbit.
Qed.

Lemma export_data_marked d w :
  sound d →
  export_data BulletCollisionType_End bullet d w
  = Ok (match filter (λ rb, should_export rb = true) (bodies_of d) with
        | [] => None
        | marked =>
            Some (mkPhysicsDef
                    (default true
                       (isKinematicObject
                          <$> (head (bodies_of d) ≫= rigid_body)))
                    (Some (shape_def_of bullet BulletCollisionType_End
                             <$> marked)))
        end) w.
Proof.
  intros (Hin & Hall & _).
  unfold export_data. rewrite (live_bodies_bodies_of d Hin).
  case_bool_decide as Hpos.
  - destruct (bodies_of d) as [|b0 l] eqn:Hbodies.
    { unfold bodies_of in Hbodies. destruct Hin as [Hcount Hlen].
      apply (f_equal length) in Hbodies. rewrite length_take in Hbodies.
      simpl in Hbodies. unfold kMaxPhysicsBodies in *. lia. }
    apply list.Forall_cons in Hall as Hall'.
    destruct Hall' as [[_ [k Hk]] _].
    cbn [head mbind option_bind]. rewrite Hk.
    cbn [default fmap option_fmap option_map].
    unfold mbind, M_bind.
    rewrite (export_bodies_marked bullet BulletCollisionType_End End_small
               (b0 :: l) w Hall).
    destruct (filter _ (b0 :: l)) as [|m ms]; [done|].
    by rewrite bool_decide_eq_false_2.
  - assert (bodies_of d = []) as ->; [|done].
    unfold bodies_of. destruct Hin as [Hcount _].
    by replace (Z.to_nat (body_count d)) with 0 by lia.
Qed.

(** X7: for an entity whose record is sound, [ExportRawData] returns
    the null blob exactly when none of its bodies is marked for export;
    otherwise the blob holds the marked bodies, in their order, and the
    kinematic flag of the first body, marked or not. *)
Theorem ExportRawData_marked_bodies e i cd d w :
  registered_at kUnused kPhysicsId e i w →
  GetElementData (pools w kPhysicsId) i = Some cd →
  data cd = PhysicsPayload d →
  sound d →
  PhysicsComponent_ExportRawData kUnused kPhysicsId
    BulletCollisionType_End bullet e w
  = Ok (match filter (λ rb, should_export rb = true) (bodies_of d) with
        | [] => None
        | marked =>
            Some (mkPhysicsDef
                    (default true
                       (isKinematicObject
                          <$> (head (bodies_of d) ≫= rigid_body)))
                    (Some (shape_def_of bullet BulletCollisionType_End
                             <$> marked)))
        end) w.
Proof.
  intros Hreg Hcd Hd Hsound.
  rewrite (PhysicsComponent_ExportRawData_registered kUnused kPhysicsId
             BulletCollisionType_End bullet e i cd d w Hreg Hcd Hd).
  by apply export_data_marked.
Qed.
End PhysicsExport.

(** ** Importing over a record that is there *)

Section Reimport.
Variable kUnused : ComponentIndex.
Variables kTransformId kPhysicsId : ComponentId.
Implicit Types (w : @World Payload LibraryState) (e : EntityRef).

Lemma reloaded_sound physics_def d :
  shapes_loadable physics_def → sound d → sound (reloaded physics_def d).
Proof.
  intros Hload ([Hcount Hlen] & Hall & Hkin).
  destruct (decide (0 < length (default [] (def_shapes physics_def))))
    as [Hpos|Hnone].
  - split; [by apply reloaded_in_bounds|].
    rewrite bodies_of_reloaded by done. split.
    + apply Forall_forall. intros x Hx.
      apply list_elem_of_lookup in Hx as [i Hi].
      apply reloaded_bodies_lookup in Hi
          as (sd & old & _ & _ & _ & _ & _ & _ & Hs & _ & Hb & _);
        [|done].
      split; [done|]. rewrite Hb. by eexists.
    + intros i x Hi Hx.
      apply reloaded_bodies_lookup in Hx
          as (sd & old & _ & _ & _ & _ & _ & _ & _ & _ & Hb & _);
        [|done].
      rewrite Hb. simpl. by rewrite decide_False by lia.
  - unfold reloaded. rewrite bool_decide_eq_false_2 by done.
    by split.
Qed.

(** X8: [AddFromRawData] for an entity that is registered, with a sound
    record, and registered with the transform component too.  Given a
    blob whose first [kMaxPhysicsBodies] shapes all have the data that
    their type needs, no record is allocated, the entity keeps its slot,
    and its record is loaded over: shape [k] of the blob overwrites body
    [k], for every [k] below the new [body_count], which is the number
    of shapes that are loaded: offset, collision type, collision
    layers, shape, mass, restitution and kinematic flag of the body are
    those that the shape gives, the body is marked for export, and its
    user tag is that of the shape, or, if the shape has none, the tag
    that the body had.  The bodies from the new [body_count] on are as
    they were.  A blob without shapes leaves bodies and [body_count] as
    they were.  [enabled] is set in both cases, the record stays sound
    and no other entity is touched.  For a blob with a shape that lacks
    its data, the call dereferences a null pointer. *)
Theorem AddFromRawData_over_registered e i j cd d physics_def w :
  registered_at kUnused kPhysicsId e i w →
  registered_at kUnused kTransformId e j w →
  GetElementData (pools w kPhysicsId) i = Some cd →
  data cd = PhysicsPayload d →
  sound d →
  (shapes_loadable physics_def →
   ∃ w' d',
     PhysicsComponent_AddFromRawData kUnused kTransformId kPhysicsId
       e physics_def w = Ok tt w'
     ∧ registered_at kUnused kPhysicsId e i w'
     ∧ GetElementData (pools w' kPhysicsId) i
       = Some (mkComponentData (entity cd) (PhysicsPayload d'))
     ∧ pool_shape (pools w' kPhysicsId) = pool_shape (pools w kPhysicsId)
     ∧ sound d'
     ∧ enabled d' = true
     ∧ (default [] (def_shapes physics_def) = [] →
        rigid_bodies d' = rigid_bodies d ∧ body_count d' = body_count d)
     ∧ (default [] (def_shapes physics_def) ≠ [] →
        body_count d'
        = Z.of_nat (length (default [] (def_shapes physics_def))
                    `min` Z.to_nat kMaxPhysicsBodies)
        ∧ length (rigid_bodies d') = length (rigid_bodies d)
        ∧ (∀ k, k < Z.to_nat (body_count d') →
                ∃ shape_def old rb',
                  default [] (def_shapes physics_def) !! k
                  = Some shape_def
                  ∧ rigid_bodies d !! k = Some old
                  ∧ rigid_bodies d' !! k = Some rb'
                  ∧ loaded_from (def_kinematic physics_def) k shape_def
                      old rb')
        ∧ ∀ k, Z.to_nat (body_count d') ≤ k →
               rigid_bodies d' !! k = rigid_bodies d !! k)
     ∧ only_touches e w w')
  ∧ (¬ shapes_loadable physics_def →
     PhysicsComponent_AddFromRawData kUnused kTransformId kPhysicsId
       e physics_def w = Err NullPointer).
Proof.
  intros Hreg HregT Hcd Hd Hsound.
  pose proof Hsound as ([Hcount Hlen] & Hall & Hkin).
  split.
  2:{ intros Hbad.
      unfold PhysicsComponent_AddFromRawData, mbind, M_bind.
      rewrite (AddEntity_registered kUnused
                 (PhysicsComponent kUnused kTransformId kPhysicsId)
                 e i kAddToBack w Hreg).
      rewrite (deref_physics_live kPhysicsId i cd d w Hcd Hd).
      by rewrite (PhysicsData_from_def_null physics_def d Hlen Hbad). }
  intros Hload.
  pose proof (reloaded_sound physics_def d Hload Hsound) as Hsound'.
  set (d' := reloaded physics_def d) in *.
  destruct (write_live kPhysicsId i (λ _, PhysicsPayload d') w cd Hcd)
    as (w' & Hwrite & Hget & Hother & Hshape & Hpools & Hents & Haux
        & Htrace).
  destruct (registered_at_record kUnused _ _ _ _ Hreg) as (cd' & Hcd' & Hown).
  assert (cd' = cd) as -> by congruence.
  pose proof (write_live_registered kUnused _ _ _ _ _ _ _ _ _
                Hcd Hwrite Hreg) as Hreg'.
  pose proof (write_live_registered kUnused _ _ _ _ _ _ _ _ _
                Hcd Hwrite HregT) as HregT'.
  exists w', d'. split.
  { unfold PhysicsComponent_AddFromRawData, mbind, M_bind.
    rewrite (AddEntity_registered kUnused
               (PhysicsComponent kUnused kTransformId kPhysicsId)
               e i kAddToBack w Hreg).
    rewrite (deref_physics_live kPhysicsId i cd d w Hcd Hd).
    rewrite (PhysicsData_from_def_reloaded physics_def d Hlen Hload).
    unfold store_physics. fold d'. unfold LibraryState in *.
    rewrite Hwrite.
    unfold UpdatePhysicsFromTransform, UpdatePhysicsObjectsTransform,
      mbind, M_bind, get_world, Data.
    unfold LibraryState in *.
    rewrite (registered_at_read kUnused _ _ _ _ Hreg').
    rewrite (registered_at_read kUnused _ _ _ _ HregT').
    rewrite (deref_physics_live kPhysicsId i _ d' w' Hget eq_refl).
    apply touch_bodies_sound; [by destruct Hsound'|].
    by apply sound_rigid_bodies. }
  split; [done|]. split; [done|]. split; [done|]. split; [done|].
  split.
  { unfold d', reloaded. by case_bool_decide. }
  split.
  { intros Hnone. unfold d', reloaded.
    rewrite bool_decide_eq_false_2; [done|]. rewrite Hnone. simpl. lia. }
  split.
  { intros Hsome.
    assert (0 < length (default [] (def_shapes physics_def))) as Hpos.
    { destruct (default [] (def_shapes physics_def)); [done|simpl; lia]. }
    pose proof (length_reloaded_bodies physics_def d Hlen) as Hl.
    pose proof (bodies_of_reloaded physics_def d Hlen Hpos) as Hbodies.
    fold d' in Hbodies.
    assert (body_count d'
            = Z.of_nat (length (reloaded_bodies physics_def d)))
      as Hcount'.
    { unfold d', reloaded. by rewrite bool_decide_eq_true_2 by done. }
    split; [by rewrite Hcount', Hl|].
    split.
    { unfold d', reloaded. rewrite bool_decide_eq_true_2 by done.
      cbn [rigid_bodies]. rewrite length_app, length_drop. lia. }
    split.
    { intros k Hk.
      destruct (lookup_lt_is_Some_2 (bodies_of d') k) as [rb' Hrb'].
      { rewrite Hbodies. lia. }
      pose proof Hrb' as Hfrom. rewrite Hbodies in Hfrom.
      apply reloaded_bodies_lookup in Hfrom
          as (sd & old & Hsd & _ & Hold & Hfrom); [|done].
      exists sd, old, rb'. split; [done|]. split; [done|].
      split; [|done].
      unfold bodies_of in Hrb'.
      by apply lookup_take_Some in Hrb' as [? _]. }
    intros k Hk. rewrite Hcount', Nat2Z.id in Hk.
    unfold d', reloaded. rewrite bool_decide_eq_true_2 by done.
    cbn [rigid_bodies].
    rewrite lookup_app_r by done. rewrite lookup_drop. f_equal. lia. }
  exact (write_live_only_touches _ _ _ _ _ _ e Hcd Hown Hwrite).
Qed.
End Reimport.

(** ** The records of the physics component stay sound *)

(** The pool of the physics component holds physics data only, and every
    record of it is sound. *)
Definition physics_pool_sound (p : VectorPool (@ComponentData Payload))
  : Prop :=
  ∀ i cd, GetElementData p i = Some cd →
          ∃ d, data cd = PhysicsPayload d ∧ sound d.

Definition physics_sound (kPhysicsId : ComponentId)
    (w : @World Payload LibraryState) : Prop :=
  physics_pool_sound (pools w kPhysicsId).

(** Started from a world whose physics records are sound, the call [m]
    leaves such a world, with a result that satisfies [Q], or stops at a
    null pointer or because the fuel of a loop has run out. *)
Definition keeps_sound (kPhysicsId : ComponentId) {A}
    (m : @M Payload LibraryState A) (Q : A → Prop) : Prop :=
  ∀ w, physics_sound kPhysicsId w →
       match m w with
       | Ok a w' => physics_sound kPhysicsId w' ∧ Q a
       | Err f => f = NullPointer ∨ f = OutOfFuel
       end.

Section Sound.
Variable kUnused : ComponentIndex.
Variables kTransformId kPhysicsId : ComponentId.
Variable BulletCollisionType_Raycast : Z.
Variable GetMaxMinPositionsForEntity :
  EntityRef → @World Payload LibraryState → option (Vec3 * Vec3).
Hypothesis ids_differ : kPhysicsId ≠ kTransformId.
Implicit Types (w : @World Payload LibraryState).
Implicit Types (p : VectorPool (@ComponentData Payload)).

Abbreviation keeps := (keeps_sound kPhysicsId).

Lemma ks_ret {A} (a : A) (Q : A → Prop) : Q a → keeps (mret a) Q.
Proof. by intros HQ w Hw. Qed.

Lemma ks_fail {A} f (Q : A → Prop) :
  f = NullPointer ∨ f = OutOfFuel → keeps (fail f) Q.
Proof. by intros Hf w Hw. Qed.

Lemma ks_bind {A B} (m : M A) (k : A → M B) Q R :
  keeps m Q → (∀ a, Q a → keeps (k a) R) → keeps (m ≫= k) R.
Proof.
  intros Hm Hk w Hw. specialize (Hm w Hw).
  unfold mbind, M_bind. destruct (m w) as [a w'|f]; [|done].
  destruct Hm as [Hw' HQ]. by apply Hk.
Qed.

Lemma ks_get_world : keeps get_world (physics_sound kPhysicsId).
Proof. by intros w Hw. Qed.

Lemma ks_log ev : keeps (log ev) (λ _, True).
Proof. by intros w Hw. Qed.

Lemma ks_SetComponentDataIndex e c v :
  keeps (SetComponentDataIndex e c v) (λ _, True).
Proof. by intros w Hw. Qed.

Lemma ks_set_pool c p :
  (c = kPhysicsId → physics_pool_sound p) →
  keeps (set_pool c p) (λ _, True).
Proof.
  intros Hp w Hw. split; [|done]. unfold physics_sound. simpl.
  unfold insert, fn_insert. case_decide; [by apply Hp | apply Hw].
Qed.

Lemma sound_GetNewElement init loc p :
  (∃ d, data init = PhysicsPayload d ∧ sound d) →
  physics_pool_sound p → physics_pool_sound (GetNewElement init loc p).2.
Proof.
  intros Hinit Hp i cd Hi.
  apply GetNewElement_payloads in Hi as [->|Hi]; [done|]. by eapply Hp.
Qed.

Lemma sound_SetElementData p i cd :
  (∃ d, data cd = PhysicsPayload d ∧ sound d) →
  physics_pool_sound p → physics_pool_sound (SetElementData p i cd).
Proof.
  intros Hcd Hp j cd' Hj.
  apply SetElementData_payloads in Hj as [->|Hj]; [done|]. by eapply Hp.
Qed.

Lemma sound_FreeElement p i :
  physics_pool_sound p → physics_pool_sound (FreeElement p i).
Proof. intros Hp j cd Hj. apply FreeElement_payloads in Hj. by eapply Hp. Qed.

Lemma ks_write c ptr (f : Payload → Payload) :
  (c = kPhysicsId → ∀ x, ∃ d, f x = PhysicsPayload d ∧ sound d) →
  keeps (write c ptr f) (λ _, True).
Proof.
  intros Hf w Hw. unfold write.
  destruct ptr as [i|]; [|by left].
  destruct (GetElementData (component_data_ c w) i) as [cd|] eqn:Hcd;
    [|by left].
  apply ks_set_pool; [|done]. intros ->.
  apply sound_SetElementData; [|apply Hw]. simpl. by apply Hf.
Qed.

Lemma ks_write_entity c i e :
  keeps (write_entity c i e) (λ _, True).
Proof.
  intros w Hw. unfold write_entity.
  destruct (GetElementData (component_data_ c w) i) as [cd|] eqn:Hcd;
    [|by left].
  apply ks_set_pool; [|done]. intros ->.
  apply sound_SetElementData; [|apply Hw]. simpl. by eapply Hw.
Qed.

Lemma ks_AddEntity (C : @Component Payload LibraryState) e loc :
  (GetComponentId C = kPhysicsId →
   ∃ d, new_data C = PhysicsPayload d ∧ sound d) →
  keeps (InitEntity C e) (λ _, True) →
  keeps (AddEntity kUnused C e loc) (λ _, True).
Proof.
  intros Hnew Hinit w Hw. unfold AddEntity.
  destruct (IsRegisteredForComponent _ _ _); [done|].
  assert (GetComponentId C = kPhysicsId →
          physics_pool_sound
            (GetNewElement (mkComponentData None (new_data C)) loc
               (component_data_ C w)).2) as Hpool.
  { intros HC. apply sound_GetNewElement; [by apply Hnew|].
    unfold component_data_. rewrite HC. apply Hw. }
  destruct (GetNewElement _ loc (component_data_ C w)) as [index pool].
  simpl in Hpool. revert w Hw.
  change (keeps
            (set_pool C pool;; log (EvGetNewElement C index);;
             SetComponentDataIndex e C index;; write_entity C index e;;
             log (EvInitEntity C e);; InitEntity C e;; mret (Some index))
            (λ _, True)).
  eapply ks_bind; [by apply ks_set_pool|intros _ _].
  eapply ks_bind; [apply ks_log|intros _ _].
  eapply ks_bind; [apply ks_SetComponentDataIndex|intros _ _].
  eapply ks_bind; [apply ks_write_entity|intros _ _].
  eapply ks_bind; [apply ks_log|intros _ _].
  eapply ks_bind; [apply Hinit|intros _ _].
  by apply ks_ret.
Qed.

Lemma ks_RemoveEntity (C : @Component Payload LibraryState) e :
  keeps (CleanupEntity C e) (λ _, True) →
  keeps (RemoveEntity kUnused C e) (λ _, True).
Proof.
  intros Hclean. unfold RemoveEntity, RemoveEntityInternal.
  eapply ks_bind.
  { eapply ks_bind; [apply ks_log|intros _ _; apply Hclean]. }
  intros _ _.
  eapply ks_bind; [apply ks_get_world|intros w Hw].
  eapply ks_bind.
  { apply ks_set_pool. intros HC. apply sound_FreeElement.
    unfold component_data_. rewrite HC. apply Hw. }
  intros _ _.
  eapply ks_bind; [apply ks_log|intros _ _].
  apply ks_SetComponentDataIndex.
Qed.

Lemma ks_RemoveEntityIter (C : @Component Payload LibraryState) iter :
  (∀ e, keeps (CleanupEntity C e) (λ _, True)) →
  keeps (RemoveEntityIter kUnused C iter) (λ _, True).
Proof.
  intros Hclean. unfold RemoveEntityIter, RemoveEntityInternal.
  destruct iter as [i|]; [|apply ks_fail; by left].
  eapply ks_bind; [apply ks_get_world|intros w Hw].
  destruct (entity <$> GetElementData (component_data_ C w) i)
    as [[e|]|]; try (apply ks_fail; by left).
  eapply ks_bind.
  { eapply ks_bind; [apply ks_log|intros _ _; apply Hclean]. }
  intros _ _.
  eapply ks_bind; [apply ks_get_world|intros w' Hw'].
  simpl.
  eapply ks_bind.
  { apply ks_set_pool. intros HC. apply sound_FreeElement.
    unfold component_data_. rewrite HC. apply Hw'. }
  intros _ _.
  eapply ks_bind; [apply ks_log|intros _ _].
  eapply ks_bind; [apply ks_SetComponentDataIndex|intros _ _].
  by apply ks_ret.
Qed.

Lemma ks_ClearLoop (C : @Component Payload LibraryState) fuel :
  (∀ e, keeps (CleanupEntity C e) (λ _, True)) →
  ∀ iter, keeps (ClearLoop kUnused C fuel iter) (λ _, True).
Proof.
  intros Hclean. induction fuel as [|fuel IH]; intros [i|];
    cbn [ClearLoop];
    try (by apply ks_ret); try (apply ks_fail; by right).
  eapply ks_bind; [by apply ks_RemoveEntityIter|].
  intros iter _. apply IH.
Qed.

Lemma ks_for_each {A} (l : list A) (f : A → M unit) :
  (∀ a, keeps (f a) (λ _, True)) →
  keeps (for_each l f) (λ _, True).
Proof.
  intros Hf. induction l as [|a l IH]; simpl; [by apply ks_ret|].
  eapply ks_bind; [apply Hf | by intros _ _].
Qed.

Lemma ks_deref_physics ptr :
  keeps (deref_physics kPhysicsId ptr) sound.
Proof.
  intros w Hw. unfold deref_physics, read.
  destruct ptr as [i|]; simpl; [|by left].
  destruct (GetElementData (component_data_ kPhysicsId w) i) as [cd|]
    eqn:Hcd; simpl; [|by left].
  destruct (Hw i cd Hcd) as (d & -> & Hd). simpl. by split.
Qed.

Lemma ks_store_physics ptr d :
  sound d → keeps (store_physics kPhysicsId ptr d) (λ _, True).
Proof. intros Hd. apply ks_write. intros _ _. by exists d. Qed.

Lemma ks_touch_bodies d : sound d → keeps (touch_bodies d) (λ _, True).
Proof.
  intros Hd w Hw.
  rewrite touch_bodies_sound;
    [done | by destruct Hd | by apply sound_rigid_bodies].
Qed.

Lemma sound_enabled d b :
  sound d → sound (mkPhysicsData (rigid_bodies d) (body_count d) b).
Proof. by intros (Hin & Hall & Hkin). Qed.

Lemma ks_DisablePhysics e :
  keeps (DisablePhysics kUnused kPhysicsId e) (λ _, True).
Proof.
  unfold DisablePhysics.
  eapply ks_bind; [apply ks_get_world|intros w _].
  eapply ks_bind; [apply ks_deref_physics|intros d Hd].
  destruct (enabled d); [|by apply ks_ret].
  eapply ks_bind;
    [by apply ks_store_physics, sound_enabled|intros _ _].
  by apply ks_touch_bodies.
Qed.

Lemma ks_EnablePhysics e :
  keeps (EnablePhysics kUnused kPhysicsId e) (λ _, True).
Proof.
  unfold EnablePhysics.
  eapply ks_bind; [apply ks_get_world|intros w _].
  eapply ks_bind; [apply ks_deref_physics|intros d Hd].
  destruct (enabled d); [by apply ks_ret|].
  eapply ks_bind;
    [by apply ks_store_physics, sound_enabled|intros _ _].
  by apply ks_touch_bodies.
Qed.

Lemma ks_UpdatePhysicsObjectsTransform e kinematic_only :
  keeps
    (UpdatePhysicsObjectsTransform kUnused kTransformId kPhysicsId e
       kinematic_only) (λ _, True).
Proof.
  unfold UpdatePhysicsObjectsTransform.
  eapply ks_bind; [apply ks_get_world|intros w _].
  destruct (Data kUnused kPhysicsId e w); [|by apply ks_ret].
  eapply ks_bind; [apply ks_deref_physics|intros d Hd].
  destruct (Data kUnused kTransformId e w); [|apply ks_fail; by left].
  by apply ks_touch_bodies.
Qed.

Lemma ks_TransformComponent_AddEntity e loc :
  keeps (AddEntity kUnused (TransformComponent kTransformId) e loc)
    (λ _, True).
Proof.
  apply ks_AddEntity; [|by apply ks_ret].
  simpl. intros Heq. by destruct ids_differ.
Qed.

Lemma PhysicsData_new_sound : sound PhysicsData_new.
Proof.
  split; [by split|]. split; [by apply Forall_nil|]. by intros [|i] rb.
Qed.

Lemma ks_PhysicsComponent_AddEntity e loc :
  keeps
    (AddEntity kUnused (PhysicsComponent kUnused kTransformId kPhysicsId)
               e loc) (λ _, True).
Proof.
  apply ks_AddEntity.
  - intros _. exists PhysicsData_new. split; [done|].
    apply PhysicsData_new_sound.
  - simpl. eapply ks_bind;
      [apply ks_TransformComponent_AddEntity | by intros _ _].
Qed.

Lemma ks_PhysicsComponent_AddFromRawData e physics_def :
  keeps
    (PhysicsComponent_AddFromRawData kUnused kTransformId kPhysicsId e
       physics_def) (λ _, True).
Proof.
  unfold PhysicsComponent_AddFromRawData.
  eapply ks_bind;
    [apply ks_PhysicsComponent_AddEntity|intros physics_data _].
  eapply ks_bind; [apply ks_deref_physics|intros d Hd].
  assert (length (rigid_bodies d) = Z.to_nat kMaxPhysicsBodies) as Hlen
    by (by destruct Hd as ([_ ?] & _)).
  destruct (decide (Forall loadable
                      (take (Z.to_nat kMaxPhysicsBodies)
                         (default [] (def_shapes physics_def)))))
    as [Hload|Hbad].
  - rewrite (PhysicsData_from_def_reloaded physics_def d Hlen Hload).
    eapply ks_bind;
      [by apply ks_store_physics, reloaded_sound|intros _ _].
    apply ks_UpdatePhysicsObjectsTransform.
  - rewrite (PhysicsData_from_def_null physics_def d Hlen Hbad).
    eapply (ks_bind _ _ (λ _, False));
      [apply ks_fail; by left|by intros _ []].
Qed.

Lemma raycast_sound d rb e w result_exportable :
  sound d →
  body_count d ≠ kMaxPhysicsBodies →
  rigid_bodies d !! Z.to_nat (body_count d) = Some rb →
  sound (mkPhysicsData
           (<[Z.to_nat (body_count d) :=
                raycast_body BulletCollisionType_Raycast
                  GetMaxMinPositionsForEntity e w result_exportable
                  rb]> (rigid_bodies d))
           (body_count d + 1) true).
Proof.
  intros (Hin & Hall & Hkin) Hroom Hrb.
  pose proof Hin as [Hcount Hlen].
  split.
  { split; simpl.
    - unfold kMaxPhysicsBodies in *. lia.
    - by rewrite length_insert. }
  rewrite (bodies_of_raycast d rb _ Hin Hrb). split.
  - apply Forall_app. split; [done|].
    apply list.Forall_cons. split; [|by apply Forall_nil].
    split; by eexists.
  - intros i x Hi Hx.
    apply lookup_app_Some in Hx as [Hx|[_ Hx]]; [by eapply Hkin|].
    apply list_lookup_singleton_Some in Hx as [_ <-]. done.
Qed.

Lemma ks_GenerateRaycastShape e result_exportable :
  keeps
    (GenerateRaycastShape kUnused kTransformId kPhysicsId
       BulletCollisionType_Raycast GetMaxMinPositionsForEntity e
       result_exportable) (λ _, True).
Proof.
  unfold GenerateRaycastShape.
  eapply ks_bind; [apply ks_get_world|intros w _].
  eapply ks_bind; [apply ks_deref_physics|intros d Hd].
  case_bool_decide as Hfull; [by apply ks_ret|].
  unfold raycastable.
  pose proof Hd as (Hin & _).
  rewrite (live_bodies_bodies_of d Hin). simpl.
  destruct (existsb _ (bodies_of d)); [by apply ks_ret|].
  pose proof Hin as [Hcount Hlen].
  rewrite bool_decide_eq_true_2 by lia.
  destruct (lookup_lt_is_Some_2 (rigid_bodies d) (Z.to_nat (body_count d)))
    as [rb Hrb].
  { rewrite Hlen. unfold kMaxPhysicsBodies in *. lia. }
  rewrite Hrb.
  destruct (Data kUnused kTransformId e w); [|apply ks_fail; by left].
  apply ks_store_physics.
  by apply (raycast_sound d rb e w result_exportable).
Qed.

Lemma ks_run_op op :
  keeps
    (run_op kUnused kTransformId kPhysicsId BulletCollisionType_Raycast
       GetMaxMinPositionsForEntity op)
    (λ _, True).
Proof.
  destruct op; simpl.
  - eapply ks_bind;
      [apply ks_PhysicsComponent_AddEntity | by intros _ _].
  - apply ks_PhysicsComponent_AddFromRawData.
  - apply ks_GenerateRaycastShape.
  - apply ks_EnablePhysics.
  - apply ks_DisablePhysics.
  - apply ks_UpdatePhysicsObjectsTransform.
  - apply ks_RemoveEntity. apply ks_DisablePhysics.
  - unfold ClearComponentData.
    eapply ks_bind; [apply ks_get_world|intros w _].
    apply ks_ClearLoop. intros e'. apply ks_DisablePhysics.
Qed.

Lemma physics_sound_empty a : physics_sound kPhysicsId (empty_world kUnused a).
Proof. intros i cd Hi. by destruct i. Qed.
End Sound.

(** The physics records are sound, and outside the physics component the
    pools, the index entries and the asset manager are those of [w0]. *)
Definition physics_frame (kPhysicsId : ComponentId)
    (w0 w : @World Payload LibraryState) : Prop :=
  physics_sound kPhysicsId w
  ∧ (∀ c, c ≠ kPhysicsId → pools w c = pools w0 c)
  ∧ (∀ e c, c ≠ kPhysicsId → entities w e c = entities w0 e c)
  ∧ aux w = aux w0.

Section PhysicsLifetime.
Variable kUnused : ComponentIndex.
Variables kTransformId kPhysicsId : ComponentId.
Variable BulletCollisionType_Raycast BulletCollisionType_End : Z.
Variable bullet : Bullet.
Variable GetMaxMinPositionsForEntity :
  EntityRef → @World Payload LibraryState → option (Vec3 * Vec3).
Hypothesis ids_differ : kPhysicsId ≠ kTransformId.
Implicit Types (w : @World Payload LibraryState) (e : EntityRef).

Abbreviation ThePhysics :=
  (PhysicsComponent kUnused kTransformId kPhysicsId).

Lemma PhysicsComponent_ExportRawData_found e i cd d w :
  GetComponentData kUnused kPhysicsId e w = Some i →
  GetElementData (pools w kPhysicsId) i = Some cd →
  data cd = PhysicsPayload d →
  PhysicsComponent_ExportRawData kUnused kPhysicsId
    BulletCollisionType_End bullet e w
  = export_data BulletCollisionType_End bullet d w.
Proof.
  intros Hptr Hcd Hd.
  unfold PhysicsComponent_ExportRawData, mbind, M_bind, get_world.
  unfold LibraryState in *. rewrite Hptr.
  unfold deref_physics, read, component_data_. simpl.
  unfold LibraryState in *. rewrite Hcd. simpl. by rewrite Hd.
Qed.

(** X9: every record of the physics component is sound before any
    entity is registered and stays sound through every sequence of
    operations of the component, which stops, if at all, at a null
    pointer or for lack of fuel; and in a world whose records are sound
    [ExportRawData] returns for every entity (given that
    [BulletCollisionType_End] is at most [16384]). *)
Theorem physics_records_stay_sound :
  (to_short BulletCollisionType_End ≤ 16384)%Z →
  (∀ a, physics_sound kPhysicsId (empty_world kUnused a))
  ∧ (∀ ops w,
       physics_sound kPhysicsId w →
       match run_ops kUnused kTransformId kPhysicsId
               BulletCollisionType_Raycast GetMaxMinPositionsForEntity
               ops w with
       | Ok _ w' => physics_sound kPhysicsId w'
       | Err f => f = NullPointer ∨ f = OutOfFuel
       end)
  ∧ (∀ e w,
       physics_sound kPhysicsId w →
       ∃ physics_def,
         PhysicsComponent_ExportRawData kUnused kPhysicsId
           BulletCollisionType_End bullet e w = Ok physics_def w).
Proof.
  intros HEnd. split; [apply physics_sound_empty|]. split.
  { intros ops w Hw.
    pose proof (ks_for_each kPhysicsId ops
                  (run_op kUnused kTransformId kPhysicsId
                     BulletCollisionType_Raycast
                     GetMaxMinPositionsForEntity)
                  (ks_run_op kUnused kTransformId kPhysicsId
                     BulletCollisionType_Raycast
                     GetMaxMinPositionsForEntity ids_differ) w Hw)
      as Hrun.
    unfold run_ops.
    destruct (for_each ops _ w); [by destruct Hrun|done]. }
  intros e w Hw.
  destruct (GetComponentData kUnused kPhysicsId e w) as [i|] eqn:Hptr.
  - rewrite GetComponentData_alt in Hptr.
    destruct (decide (entities w e kPhysicsId = kUnused)); [done|].
    destruct (GetElementData (pools w kPhysicsId)
                (entities w e kPhysicsId)) as [cd|] eqn:Hcd; [|done].
    injection Hptr as <-.
    destruct (Hw _ cd Hcd) as (d & Hd & Hsound).
    rewrite (PhysicsComponent_ExportRawData_found e
               (entities w e kPhysicsId) cd d w);
      [|by rewrite GetComponentData_alt, decide_False, Hcd|done..].
    rewrite (export_data_marked BulletCollisionType_End bullet HEnd d w
               Hsound).
    by eexists.
  - exists None.
    unfold PhysicsComponent_ExportRawData, mbind, M_bind, get_world.
    unfold LibraryState in *. by rewrite Hptr.
Qed.

Lemma physics_frame_refl w :
  physics_sound kPhysicsId w → physics_frame kPhysicsId w w.
Proof. by intros Hw. Qed.

Lemma PhysicsComponent_cleanup_ok w0 :
  cleanup_ok kUnused ThePhysics (physics_frame kPhysicsId w0).
Proof.
  split.
  - by intros e w (Hw & Hp & He & Ha).
  - intros e i w (Hw & Hp & He & Ha) Hreg. simpl in Hreg.
    destruct (registered_at_record kUnused _ _ _ _ Hreg)
      as (cd & Hcd & Hown).
    destruct (Hw i cd Hcd) as (d & Hd & Hsound).
    pose proof (ks_DisablePhysics kUnused kPhysicsId e w Hw) as Hkeeps.
    cbn [CleanupEntity PhysicsComponent].
    rewrite (DisablePhysics_registered kUnused kPhysicsId e i cd d w
               Hreg Hcd Hd) in *.
    destruct (enabled d).
    + destruct (set_enabled_live kUnused kPhysicsId e i cd d false w
                  Hreg Hcd Hd)
        as (w' & Hw' & _ & _ & _ & Hpres & _ & Hpools & Hents & Haux);
        [by destruct Hsound | by apply sound_rigid_bodies|].
      unfold LibraryState in *. rewrite Hw' in *.
      exists w'. split; [done|]. split; [done|].
      split; [by destruct Hkeeps|].
      split; [intros c Hc; exact (eq_trans (Hpools c Hc) (Hp c Hc))|].
      split; [|exact (eq_trans Haux Ha)].
      intros e' c Hc.
      exact (eq_trans (f_equal (λ f, f e' c) Hents) (He e' c Hc)).
    + exists w. split; [done|]. split; [|done].
      split; [done|]. split; [done|]. split; [done|].
      exists []. by rewrite app_nil_r.
  - intros e i w (Hw & Hp & He & Ha). split; [|split; [|split; [|done]]].
    + unfold physics_sound, unregistered. simpl.
      rewrite fn_lookup_insert. by apply sound_FreeElement.
    + intros c Hc. unfold unregistered. simpl.
      rewrite fn_lookup_insert_ne by done. by apply Hp.
    + intros e' c Hc. unfold unregistered. simpl.
      unfold insert, fn_insert. repeat case_decide; subst; try done;
        by apply He.
Qed.

(** X10: [ClearComponentData] of the physics component, which is all
    its destructor does: in a sound component with sound records the
    loop ends within as many rounds as there are records.  Afterwards
    the pool is empty and no entity that was registered is any more;
    the other components are as they were, so that every entity is
    still registered with the transform component as before. *)
Theorem PhysicsComponent_ClearComponentData fuel w :
  physics_sound kPhysicsId w →
  component_ok kUnused kPhysicsId w →
  active_count (pools w kPhysicsId) ≤ fuel →
  ∃ w',
    ClearComponentData kUnused ThePhysics fuel w = Ok tt w'
    ∧ active_count (pools w' kPhysicsId) = 0
    ∧ (∀ j, GetElementData (pools w' kPhysicsId) j = None)
    ∧ (∀ e i, registered_at kUnused kPhysicsId e i w →
              IsRegisteredForComponent kUnused (entities w' e) kPhysicsId
              = false)
    ∧ (∀ c, c ≠ kPhysicsId → pools w' c = pools w c)
    ∧ (∀ e c, c ≠ kPhysicsId → entities w' e c = entities w e c)
    ∧ (∀ e j, registered_at kUnused kTransformId e j w →
              registered_at kUnused kTransformId e j w')
    ∧ component_ok kUnused kPhysicsId w'.
Proof.
  intros Hw [(xs & fs & Hrep) Hown] Hfuel0.
  assert (length xs ≤ fuel) as Hfuel.
  { exact (eq_ind _ (λ n, n ≤ fuel) Hfuel0 _
             (f_equal length (represents_order _ _ _ Hrep))). }
  destruct (ClearLoop_spec kUnused ThePhysics (physics_frame kPhysicsId w)
              xs fs fuel w (PhysicsComponent_cleanup_ok w)
              (physics_frame_refl w Hw) Hrep Hown Hfuel)
    as (w' & t & (Hw' & Hp & He & Ha) & Hloop & _ & Hrep' & Hown' & _ & HA
        & _).
  exists w'. split.
  { unfold ClearComponentData, mbind, M_bind, get_world, pool_begin.
    cbn [GetComponentId PhysicsComponent].
    by rewrite (rep_first _ _ _ Hrep). }
  cbn [GetComponentId PhysicsComponent] in *.
  split.
  { unfold active_count.
    exact (f_equal length (represents_order _ _ _ Hrep')). }
  split; [intros j; by eapply represents_nil_empty|].
  split.
  { intros e i Hreg. destruct (HA e i Hreg) as [Hidx _].
    unfold IsRegisteredForComponent. apply bool_decide_eq_false.
    intros Hne. by apply Hne. }
  split; [done|]. split; [done|].
  split.
  { intros e j (Hidx & Hj & Hrec).
    unfold registered_at, GetComponentDataIndex, component_data_ in *.
    rewrite He, Hp by done. done. }
  split; [by eexists _, _|done].
Qed.

(** X11: [RemoveEntity] of the physics component for a registered
    entity with sound records returns; for that entity the component
    then has no data, while everything outside the physics component is
    as it was: the entity stays registered with the transform component
    that [InitEntity] had registered it with. *)
Theorem PhysicsComponent_RemoveEntity e i w :
  physics_sound kPhysicsId w →
  registered_at kUnused kPhysicsId e i w →
  ∃ w',
    RemoveEntity kUnused ThePhysics e w = Ok tt w'
    ∧ IsRegisteredForComponent kUnused (entities w' e) kPhysicsId = false
    ∧ GetComponentData kUnused kPhysicsId e w' = None
    ∧ physics_sound kPhysicsId w'
    ∧ (∀ c, c ≠ kPhysicsId → pools w' c = pools w c)
    ∧ (∀ e' c, e' ≠ e ∨ c ≠ kPhysicsId →
               entities w' e' c = entities w e' c)
    ∧ (∀ j, registered_at kUnused kTransformId e j w →
            registered_at kUnused kTransformId e j w').
Proof.
  intros Hw Hreg.
  pose proof (PhysicsComponent_cleanup_ok w) as Hok.
  pose proof (cleanup_entering _ _ _ Hok e w (physics_frame_refl w Hw))
    as Hentering.
  destruct (cleanup_returns _ _ _ Hok e i _ Hentering
              (registered_at_entering kUnused ThePhysics e e i w Hreg))
    as (w1 & Hclean & (_ & _ & Hidx & _) & Hframe1).
  pose proof (cleanup_leaving _ _ _ Hok e (GetComponentDataIndex kPhysicsId e w1)
                w1 Hframe1) as (Hw' & Hp & He & Ha).
  exists (unregistered kUnused ThePhysics e
            (GetComponentDataIndex kPhysicsId e w1) w1).
  split; [by apply RemoveEntity_unfold|].
  cbn [GetComponentId PhysicsComponent] in *.
  assert (entities (unregistered kUnused ThePhysics e
                      (GetComponentDataIndex kPhysicsId e w1) w1) e
            kPhysicsId = kUnused) as Hgone.
  { unfold unregistered. simpl. unfold insert, fn_insert.
    by rewrite !decide_True. }
  split.
  { unfold IsRegisteredForComponent. apply bool_decide_eq_false.
    intros Hne. by apply Hne. }
  split.
  { rewrite GetComponentData_alt. by rewrite decide_True. }
  split; [done|]. split; [done|].
  split.
  { intros e' c Hor.
    destruct (decide (c = kPhysicsId)) as [->|Hc]; [|by apply He].
    destruct Hor as [Hne|?]; [|done].
    unfold unregistered. simpl. unfold insert, fn_insert.
    rewrite decide_False by done.
    exact (Hidx e'). }
  intros j (Hidxj & Hj & Hrec).
  unfold registered_at, GetComponentDataIndex, component_data_ in *.
  rewrite He, Hp by done. done.
Qed.
End PhysicsLifetime.

(** * Further properties of the render mesh component *)

Section RenderMeshBlobs.
Variable kUnused : ComponentIndex.
Variables kTransformId kRenderMeshId : ComponentId.
Variables RenderPass_kCount RenderPass_kOpaque : nat.
Variable NDEBUG : bool.
Implicit Types (w : @World Payload LibraryState) (e : EntityRef).

(** The passes that the loop of [ExportRawData] finds in the mask that
    [AddFromRawData] makes of [render_pass()]. *)
Lemma passes_of_mask_of_bits (l : list nat) :
  filter (λ i, Z.land (mask_of_bits 0 l) (Z.shiftl 1 (Z.of_nat i)) ≠ 0%Z)
    (seq 0 RenderPass_kCount)
  = filter (λ i, i ∈ l) (seq 0 RenderPass_kCount).
Proof.
  apply filter_ext_elem_of. intros i _.
  rewrite land_bit_nonzero, mask_of_bits_testbit, Z.bits_0. simpl.
  by rewrite bool_decide_eq_true.
Qed.

Lemma passes_of_opaque :
  filter (λ i, Z.land (Z.shiftl 1 (Z.of_nat RenderPass_kOpaque))
                 (Z.shiftl 1 (Z.of_nat i)) ≠ 0%Z)
    (seq 0 RenderPass_kCount)
  = filter (λ i, i = RenderPass_kOpaque) (seq 0 RenderPass_kCount).
Proof.
  apply filter_ext_elem_of. intros i _.
  rewrite land_bit_nonzero, Z.shiftl_1_l, Z.pow2_bits_eqb by lia.
  rewrite Z.eqb_eq. lia.
Qed.

(** X12: what is left of a blob after [AddFromRawData] for an entity
    that is not yet registered and [ExportRawData] for it.  If the
    source file or the shader of the blob is the empty string, the
    import goes through and the export is the null blob.  Otherwise the
    exported blob has the file names and [ignore_culling] of the blob,
    and as render passes those of the blob in ascending order, each
    once; a blob without render passes comes back with the opaque pass
    alone. *)
Theorem RenderMesh_import_then_export e rendermesh_def w
    asset_manager source_file shader_file :
  kRenderMeshId ≠ kTransformId →
  fresh_for kUnused kRenderMeshId e w →
  fresh_for kUnused kTransformId e w →
  aux w = Some asset_manager →
  def_source_file rendermesh_def = Some source_file →
  def_shader rendermesh_def = Some shader_file →
  is_Some (LoadMesh asset_manager source_file) →
  is_Some (LoadShader asset_manager shader_file) →
  (∀ passes, def_render_pass rendermesh_def = Some passes →
             Forall (λ render_pass, render_pass < RenderPass_kCount)
               passes) →
  ∃ w',
    RenderMeshComponent_AddFromRawData kUnused kTransformId kRenderMeshId
      RenderPass_kCount RenderPass_kOpaque NDEBUG e rendermesh_def w
    = Ok tt w'
    ∧ (source_file = EmptyString ∨ shader_file = EmptyString →
       RenderMeshComponent_ExportRawData kUnused kRenderMeshId
         RenderPass_kCount e w' = None)
    ∧ (source_file ≠ EmptyString → shader_file ≠ EmptyString →
       ∃ exported,
         RenderMeshComponent_ExportRawData kUnused kRenderMeshId
           RenderPass_kCount e w' = Some exported
         ∧ def_source_file exported = Some source_file
         ∧ def_shader exported = Some shader_file
         ∧ def_ignore_culling exported
           = def_ignore_culling rendermesh_def
         ∧ def_render_pass exported
           = Some (match def_render_pass rendermesh_def with
                   | Some passes =>
                       filter (λ i, i ∈ passes) (seq 0 RenderPass_kCount)
                   | None =>
                       filter (λ i, i = RenderPass_kOpaque)
                         (seq 0 RenderPass_kCount)
                   end)).
Proof.
  intros Hne Hfresh HfreshT Haux Hsf Hsh Hmesh Hshader Hpasses.
  destruct (RenderMeshComponent_AddFromRawData_fresh kUnused kTransformId
              kRenderMeshId RenderPass_kCount RenderPass_kOpaque NDEBUG e
              rendermesh_def w asset_manager source_file shader_file
              Hne Hfresh (or_intror HfreshT) Haux Hsf Hsh
              (or_intror (conj Hmesh (conj Hshader Hpasses))))
    as (i & w' & Hadd & Hreg & Hget & _).
  exists w'. split; [done|].
  rewrite (RenderMeshComponent_ExportRawData_registered kUnused
             kRenderMeshId RenderPass_kCount e i _ _ w' Hreg Hget eq_refl).
  cbn [rendermesh_of_def mesh_filename shader_filename].
  split.
  { intros [-> | ->]; [done|]. by rewrite orb_true_r. }
  intros Hsource Hshaderfile.
  rewrite !bool_decide_eq_false_2 by done. simpl.
  eexists. split; [done|]. cbn.
  split; [done|]. split; [done|]. split; [done|]. f_equal.
  destruct (def_render_pass rendermesh_def) as [passes|].
  - apply passes_of_mask_of_bits.
  - apply passes_of_opaque.
Qed.
(** X16: [AddFromRawData] for an entity that is registered with render
    mesh data, given an asset manager that finds the files of the blob
    and render passes below [RenderPass_kCount]: no record is
    allocated and [InitEntity] is not called again; the entity keeps its
    slot and every field of its record is written over from the blob,
    the two hidden flags included.  No other entity is touched. *)
Theorem RenderMesh_AddFromRawData_over_registered e i cd d
    rendermesh_def w asset_manager source_file shader_file :
  registered_at kUnused kRenderMeshId e i w →
  GetElementData (pools w kRenderMeshId) i = Some cd →
  data cd = RenderMeshPayload d →
  aux w = Some asset_manager →
  def_source_file rendermesh_def = Some source_file →
  def_shader rendermesh_def = Some shader_file →
  is_Some (LoadMesh asset_manager source_file) →
  is_Some (LoadShader asset_manager shader_file) →
  (∀ passes, def_render_pass rendermesh_def = Some passes →
             Forall (λ render_pass, render_pass < RenderPass_kCount)
               passes) →
  ∃ w' d',
    RenderMeshComponent_AddFromRawData kUnused kTransformId kRenderMeshId
      RenderPass_kCount RenderPass_kOpaque NDEBUG e rendermesh_def w
    = Ok tt w'
    ∧ registered_at kUnused kRenderMeshId e i w'
    ∧ GetElementData (pools w' kRenderMeshId) i
      = Some (mkComponentData (entity cd) (RenderMeshPayload d'))
    ∧ mesh_filename d' = source_file
    ∧ shader_filename d' = shader_file
    ∧ mesh d' = LoadMesh asset_manager source_file
    ∧ shader d' = LoadShader asset_manager shader_file
    ∧ ignore_culling d' = def_ignore_culling rendermesh_def
    ∧ currently_hidden d' = def_hidden rendermesh_def
    ∧ default_hidden d' = def_hidden rendermesh_def
    ∧ pass_mask d'
      = match def_render_pass rendermesh_def with
        | Some passes => mask_of_bits 0 passes
        | None => Z.shiftl 1 (Z.of_nat RenderPass_kOpaque)
        end
    ∧ pool_shape (pools w' kRenderMeshId)
      = pool_shape (pools w kRenderMeshId)
    ∧ (∀ c, c ≠ kRenderMeshId → pools w' c = pools w c)
    ∧ entities w' = entities w
    ∧ only_touches e w w'.
Proof.
  intros Hreg Hcd Hd Haux Hsf Hsh Hmesh Hshader Hpasses.
  set (d' := rendermesh_of_def RenderPass_kOpaque asset_manager
               source_file shader_file rendermesh_def).
  destruct (write_live kRenderMeshId i (λ _, RenderMeshPayload d') w cd Hcd)
    as (w' & Hwrite & Hget & Hother & Hshape & Hpools & Hents & Haux'
        & Htrace).
  destruct (registered_at_record kUnused _ _ _ _ Hreg) as (cd' & Hcd' & Hown).
  assert (cd' = cd) as -> by congruence.
  exists w', d'. split.
  { pose proof (AddEntity_registered kUnused
                  (RenderMeshComponent kUnused kTransformId kRenderMeshId)
                  e i kAddToBack w Hreg) as Hadd.
    unfold RenderMeshComponent_AddFromRawData.
    unfold mbind at 1, M_bind at 1, get_world.
    unfold LibraryState in *. rewrite Haux, Hsf, Hsh.
    do 3 (unfold mbind at 1, M_bind at 1;
          rewrite assert_passes
            by (right; apply bool_decide_eq_true_2; eauto)).
    unfold mbind at 1, M_bind at 1. rewrite Hadd.
    unfold mbind at 1, M_bind at 1.
    unfold deref_rendermesh, read, component_data_. simpl.
    unfold LibraryState in *. rewrite Hcd. simpl. rewrite Hd. simpl.
    do 3 unfold mbind at 1, M_bind at 1, mret at 1, M_ret at 1.
    do 2 (unfold mbind at 1, M_bind at 1;
          rewrite assert_passes
            by (right; by apply bool_decide_eq_true_2)).
    unfold mbind at 1, M_bind at 1.
    destruct (def_render_pass rendermesh_def) as [passes|] eqn:Hrp.
    - rewrite load_pass_mask_ok by (right; auto).
      unfold d', rendermesh_of_def in Hwrite. by rewrite Hrp in Hwrite.
    - simpl. unfold d', rendermesh_of_def in Hwrite.
      by rewrite Hrp in Hwrite. }
  split; [exact (write_live_registered kUnused _ _ _ _ _ _ _ _ _
                   Hcd Hwrite Hreg)|].
  split; [done|].
  do 8 (split; [done|]).
  split; [done|]. split; [done|]. split; [done|].
  exact (write_live_only_touches _ _ _ _ _ _ e Hcd Hown Hwrite).
Qed.
End RenderMeshBlobs.

(** * Further properties of the graph component *)

Section GraphBlobs.
Variable kUnused : ComponentIndex.
Variable kGraphId : ComponentId.
Implicit Types (w : @World Payload LibraryState) (e : EntityRef).

(** X13: [GetCreateBroadcaster] for an entity with graph data returns
    the pointer to that data and changes nothing.  For an entity that
    is not registered it registers the entity, with no graphs, touching
    no other entity, and returns the pointer to the new data; a second
    call returns the same pointer and changes nothing. *)
Theorem GetCreateBroadcaster_registers_once e w :
  (∀ i, registered_at kUnused kGraphId e i w →
        GetCreateBroadcaster kUnused kGraphId e w = Ok (Some i) w)
  ∧ (fresh_for kUnused kGraphId e w →
     ∃ i w',
       GetCreateBroadcaster kUnused kGraphId e w = Ok (Some i) w'
       ∧ registered_at kUnused kGraphId e i w'
       ∧ data_of kUnused kGraphId e w' = Some (GraphPayload GraphData_new)
       ∧ only_touches e w w'
       ∧ GetCreateBroadcaster kUnused kGraphId e w' = Ok (Some i) w').
Proof.
  assert (∀ i w0, registered_at kUnused kGraphId e i w0 →
                  GetCreateBroadcaster kUnused kGraphId e w0
                  = Ok (Some i) w0) as Hthere.
  { intros i w0 Hreg.
    unfold GetCreateBroadcaster, mbind, M_bind, get_world, Data.
    unfold LibraryState in *.
    by rewrite (registered_at_read kUnused _ _ _ _ Hreg). }
  split; [intros i; apply Hthere|].
  intros Hfresh.
  destruct (GraphComponent_AddEntity_fresh kUnused kGraphId e w Hfresh)
    as (i & w' & Hadd & Hreg & Hget & Htouch & _).
  exists i, w'. split.
  { unfold GetCreateBroadcaster, mbind, M_bind, get_world.
    destruct Hfresh as (_ & _ & Hunreg).
    unfold LibraryState in *.
    by rewrite (Data_unregistered kUnused kGraphId e w Hunreg). }
  split; [done|].
  split; [by rewrite (data_of_registered kUnused _ _ _ _ _ Hreg Hget)|].
  split; [done|]. by apply Hthere.
Qed.

(** The list of file names that [ExportRawData] writes for the graphs
    that [AddFromRawData] made of a blob. *)
Lemma export_of_graphs_of_def graph_def :
  (if bool_decide (0 < length (graphs (graphs_of_def graph_def)))
   then Some (filename <$> graphs (graphs_of_def graph_def)) else None)
  = match filename_list graph_def with
    | Some (name :: names) => Some (name :: names)
    | _ => None
    end.
Proof.
  unfold graphs_of_def. cbn [graphs].
  destruct (filename_list graph_def) as [[|name names]|]; [done| |done].
  rewrite bool_decide_eq_true_2 by (simpl; lia). f_equal.
  rewrite <- list_fmap_compose.
  generalize (name :: names). intros l.
  induction l as [|x l IH]; [done|]. simpl. by f_equal.
Qed.

(** X14: [AddFromRawData] for an entity that is not registered, or
    that is registered with graph data, leaves it with one graph for
    each file name of the blob, in their order, none of them
    initialized: graphs that the entity had are dropped.  The export of
    the entity is then the blob again, except that an empty list of
    file names comes back as no list.  An entity that was registered
    keeps its slot, and no other entity is touched. *)
Theorem Graph_AddFromRawData_replaces e graph_def w :
  fresh_for kUnused kGraphId e w
  ∨ (∃ i cd d, registered_at kUnused kGraphId e i w
               ∧ GetElementData (pools w kGraphId) i = Some cd
               ∧ data cd = GraphPayload d) →
  ∃ i w',
    GraphComponent_AddFromRawData kUnused kGraphId e graph_def w = Ok tt w'
    ∧ registered_at kUnused kGraphId e i w'
    ∧ data_of kUnused kGraphId e w'
      = Some (GraphPayload
                (mkGraphData
                   ((λ name, mkSerializableGraphState name false)
                      <$> default [] (filename_list graph_def))))
    ∧ GraphComponent_ExportRawData kUnused kGraphId e w'
      = Some (mkGraphDef
                (match filename_list graph_def with
                 | Some (name :: names) => Some (name :: names)
                 | _ => None
                 end))
    ∧ (∀ i0, registered_at kUnused kGraphId e i0 w →
             i = i0
             ∧ pool_shape (pools w' kGraphId)
               = pool_shape (pools w kGraphId))
    ∧ only_touches e w w'.
Proof.
  intros Hcase.
  assert (∃ i w',
            GraphComponent_AddFromRawData kUnused kGraphId e graph_def w
            = Ok tt w'
            ∧ registered_at kUnused kGraphId e i w'
            ∧ (∃ owner,
                 GetElementData (pools w' kGraphId) i
                 = Some (mkComponentData owner
                           (GraphPayload (graphs_of_def graph_def))))
            ∧ (∀ i0, registered_at kUnused kGraphId e i0 w →
                     i = i0
                     ∧ pool_shape (pools w' kGraphId)
                       = pool_shape (pools w kGraphId))
            ∧ only_touches e w w')
    as (i & w' & Hadd & Hreg & (owner & Hget) & Hslot & Htouch).
  { destruct Hcase as [Hfresh|(i & cd & d & Hreg & Hcd & Hd)].
    - destruct (GraphComponent_AddFromRawData_fresh kUnused kGraphId e
                  graph_def w Hfresh)
        as (i & w' & Hadd & Hreg & Hget & Htouch & _).
      exists i, w'. split; [done|]. split; [done|].
      split; [by eexists|]. split; [|done].
      intros i0 Hreg0. exfalso.
      destruct Hfresh as (_ & _ & Hunreg).
      by rewrite (IsRegistered_registered_at kUnused _ _ _ _ Hreg0)
        in Hunreg.
    - destruct (write_live kGraphId i
                  (λ _, GraphPayload (graphs_of_def graph_def)) w cd Hcd)
        as (w' & Hwrite & Hget & _ & Hshape & _).
      destruct (registered_at_record kUnused _ _ _ _ Hreg)
        as (cd' & Hcd' & Hown).
      assert (cd' = cd) as -> by congruence.
      exists i, w'. split.
      { unfold GraphComponent_AddFromRawData, mbind, M_bind.
        rewrite (AddEntity_registered kUnused (GraphComponent kGraphId)
                   e i kAddToBack w Hreg).
        exact Hwrite. }
      split; [exact (write_live_registered kUnused _ _ _ _ _ _ _ _ _
                       Hcd Hwrite Hreg)|].
      split; [by eexists|].
      split; [|exact (write_live_only_touches _ _ _ _ _ _ e Hcd Hown
                        Hwrite)].
      intros i0 (Hidx0 & _). destruct Hreg as (Hidx & _).
      split; [congruence|done]. }
  exists i, w'. split; [done|]. split; [done|].
  split.
  { rewrite (data_of_registered kUnused _ _ _ _ _ Hreg Hget).
    unfold graphs_of_def. simpl.
    by destruct (filename_list graph_def). }
  split; [|done].
  rewrite (GraphComponent_ExportRawData_registered kUnused kGraphId
             e i _ _ w' Hreg Hget eq_refl).
  by rewrite export_of_graphs_of_def.
Qed.
End GraphBlobs.

(** ** Loading the graphs after the entities *)

(** What [EntityPostLoadFixup] makes of a graph and of a record. *)
Definition fixed_graph (factory : GraphFactory) (g : SerializableGraphState)
  : SerializableGraphState :=
  match LoadGraph factory (filename g) with
  | Some _ => mkSerializableGraphState (filename g) true
  | None => g
  end.

Definition fixed_record (factory : GraphFactory)
    (cd : @ComponentData Payload) : @ComponentData Payload :=
  mkComponentData (entity cd)
    (match data cd with
     | GraphPayload d =>
         GraphPayload (mkGraphData (fixed_graph factory <$> graphs d))
     | x => x
     end).

(** The pool of the graph component holds graph data only. *)
Definition graph_typed (kGraphId : ComponentId)
    (w : @World Payload LibraryState) : Prop :=
  ∀ i cd, GetElementData (pools w kGraphId) i = Some cd →
          ∃ d, data cd = GraphPayload d.

Section PostLoad.
Variable kUnused : ComponentIndex.
Variable kGraphId : ComponentId.
Implicit Types (w : @World Payload LibraryState) (e : EntityRef).

Lemma fixup_graphs_Some factory (l : list SerializableGraphState) :
  fixup_graphs (Some factory) l = Some (fixed_graph factory <$> l).
Proof.
  induction l as [|g l IH]; [done|].
  cbn [fixup_graphs]. rewrite IH. done.
Qed.

Lemma filename_fixed_graph factory (l : list SerializableGraphState) :
  filename <$> (fixed_graph factory <$> l) = filename <$> l.
Proof.
  induction l as [|g l IH]; [done|]. cbn [fmap list_fmap] in *.
  rewrite IH. f_equal. unfold fixed_graph.
  by destruct (LoadGraph factory (filename g)).
Qed.

Lemma EntityPostLoadFixup_registered factory members e i cd w :
  graph_factory_ members = Some factory →
  registered_at kUnused kGraphId e i w →
  GetElementData (pools w kGraphId) i = Some cd →
  (∃ d, data cd = GraphPayload d) →
  ∃ w',
    EntityPostLoadFixup kUnused kGraphId members e w
    = Ok (mkGraphMembers (Some factory) (Some e)) w'
    ∧ GetElementData (pools w' kGraphId) i = Some (fixed_record factory cd)
    ∧ (∀ j, j ≠ i → GetElementData (pools w' kGraphId) j
                    = GetElementData (pools w kGraphId) j)
    ∧ pool_shape (pools w' kGraphId) = pool_shape (pools w kGraphId)
    ∧ (∀ c, c ≠ kGraphId → pools w' c = pools w c)
    ∧ entities w' = entities w ∧ aux w' = aux w ∧ trace w' = trace w.
Proof.
  intros Hfactory Hreg Hcd [d Hd].
  destruct (write_live kGraphId i
              (λ _, GraphPayload
                      (mkGraphData (fixed_graph factory <$> graphs d)))
              w cd Hcd)
    as (w' & Hwrite & Hget & Hother & Hshape & Hpools & Hents & Haux
        & Htrace).
  exists w'. split.
  { unfold EntityPostLoadFixup, mbind, M_bind, get_world, Data.
    unfold LibraryState in *.
    rewrite (registered_at_read kUnused _ _ _ _ Hreg).
    unfold read, component_data_. cbn [mbind option_bind].
    unfold LibraryState in *. rewrite Hcd. cbn [fmap option_fmap option_map].
    rewrite Hd. cbn [as_graph mbind option_bind].
    rewrite Hfactory, fixup_graphs_Some.
    unfold mbind, M_bind. unfold LibraryState in *. by rewrite Hwrite. }
  split.
  { rewrite Hget. unfold fixed_record. by rewrite Hd. }
  done.
Qed.

Lemma PostLoadLoop_spec factory (todo : list nat) :
  ∀ pre fs fuel w members,
    graph_factory_ members = Some factory →
    represents (pools w kGraphId) (pre ++ todo) fs →
    owners_consistent kUnused kGraphId w →
    graph_typed kGraphId w →
    length todo ≤ fuel →
    ∃ w' members',
      PostLoadLoop kUnused kGraphId fuel (head todo) members w
      = Ok members' w'
      ∧ graph_factory_ members' = Some factory
      ∧ (∀ i cd, i ∈ todo →
                 GetElementData (pools w kGraphId) i = Some cd →
                 GetElementData (pools w' kGraphId) i
                 = Some (fixed_record factory cd))
      ∧ (∀ i, i ∉ todo → GetElementData (pools w' kGraphId) i
                         = GetElementData (pools w kGraphId) i)
      ∧ pool_shape (pools w' kGraphId) = pool_shape (pools w kGraphId)
      ∧ (∀ c, c ≠ kGraphId → pools w' c = pools w c)
      ∧ entities w' = entities w ∧ aux w' = aux w ∧ trace w' = trace w
      ∧ graph_entity_ members'
        = match list.last todo with
          | Some x =>
              GetElementData (pools w kGraphId) x ≫= entity
          | None => graph_entity_ members
          end.
Proof.
  induction todo as [|x todo IH];
    intros pre fs fuel w members Hfactory Hrep Hown Htyped Hfuel.
  { exists w, members. split; [by destruct fuel|]. split; [done|].
    split; [intros i cd Hi; by apply elem_of_nil in Hi|].
    by repeat split. }
  destruct fuel as [|fuel]; [simpl in Hfuel; lia|].
  assert (x ∈ pre ++ x :: todo) as Hx.
  { apply elem_of_app. right. by apply elem_of_cons; left. }
  apply (represents_used _ _ _ _ Hrep) in Hx as [cd Hcd].
  destruct (Hown x cd Hcd) as (e & He & Hreg).
  destruct (EntityPostLoadFixup_registered factory members e x cd w
              Hfactory Hreg Hcd (Htyped x cd Hcd))
    as (w1 & Hfix & Hget1 & Hother1 & Hshape1 & Hpools1 & Hents1 & Haux1
        & Htrace1).
  assert (represents (pools w1 kGraphId) (pre ++ x :: todo) fs) as Hrep1.
  { eapply represents_shape; [|done]. by symmetry. }
  assert (x ∉ todo) as Hfresh.
  { pose proof (rep_nodup _ _ _ Hrep) as Hnd.
    apply list.NoDup_app in Hnd as (_ & _ & Hnd).
    by apply list.NoDup_cons in Hnd as [? _]. }
  assert (owners_consistent kUnused kGraphId w1) as Hown1.
  { intros j cd1 Hj. unfold component_data_ in *.
    destruct (decide (j = x)) as [->|Hjx].
    - rewrite Hget1 in Hj. injection Hj as <-.
      exists e. split; [done|].
      destruct Hreg as (Hidx & Hne & _).
      split; [unfold GetComponentDataIndex in *; by rewrite Hents1|].
      split; [done|]. unfold component_data_. rewrite Hget1. simpl.
      by rewrite He.
    - rewrite Hother1 in Hj by done.
      destruct (Hown j cd1 Hj) as (e' & He' & Hidx' & Hne' & Hrec').
      exists e'. split; [done|].
      split; [unfold GetComponentDataIndex in *; by rewrite Hents1|].
      split; [done|]. unfold component_data_ in *.
      by rewrite Hother1. }
  assert (graph_typed kGraphId w1) as Htyped1.
  { intros j cd1 Hj. destruct (decide (j = x)) as [->|Hjx].
    - rewrite Hget1 in Hj. injection Hj as <-.
      destruct (Htyped x cd Hcd) as [d Hd].
      unfold fixed_record. simpl. rewrite Hd. by eexists.
    - rewrite Hother1 in Hj by done. by eapply Htyped. }
  destruct (IH (pre ++ [x]) fs fuel w1
              (mkGraphMembers (Some factory) (Some e)) eq_refl)
    as (w' & members' & Hloop & Hfactory' & Hdone & Hkept & Hshape
        & Hpools & Hents & Haux & Htrace & Hlast);
    [by rewrite <- app_assoc|done|done|simpl in Hfuel; lia|].
  exists w', members'. split.
  { cbn [PostLoadLoop head]. unfold mbind, M_bind, get_world.
    unfold component_data_. unfold LibraryState in *.
    rewrite Hcd. cbn [fmap option_fmap option_map]. rewrite He.
    unfold LibraryState in *. rewrite Hfix.
    rewrite (iter_next_represents _ _ _ _ _ Hrep1). exact Hloop. }
  split; [done|]. split.
  { intros i cd' Hi Hcd'. apply elem_of_cons in Hi as [->|Hi].
    - rewrite Hkept by done. congruence.
    - assert (i ≠ x) by (intros ->; done).
      apply Hdone; [done|]. by rewrite Hother1. }
  split.
  { intros i Hi. apply not_elem_of_cons in Hi as [Hix Hi].
    by rewrite Hkept, Hother1. }
  split; [congruence|].
  split; [intros c Hc; by rewrite Hpools, Hpools1|].
  split; [congruence|]. split; [congruence|]. split; [congruence|].
  rewrite Hlast, last_cons.
  destruct (list.last todo) as [y|] eqn:Hy.
  - rewrite Hother1; [done|]. intros ->. apply Hfresh.
    by apply last_Some_elem_of.
  - simpl. rewrite Hcd. simpl. by rewrite He.
Qed.
(** X15: [PostLoadFixup] with a graph factory, in a sound component
    that holds graph data: the loop over the entities ends within as
    many rounds as there are records.  It leaves every graph whose file
    the factory loads initialized and every other graph as it was,
    keeps the file names, and with them the export of every entity, and
    changes neither the registrations nor any other component;
    [graph_entity_] ends as the entity of the last record visited. *)
Theorem PostLoadFixup_loads_graphs factory fuel members w :
  graph_factory_ members = Some factory →
  component_ok kUnused kGraphId w →
  graph_typed kGraphId w →
  active_count (pools w kGraphId) ≤ fuel →
  ∃ w' members',
    PostLoadFixup kUnused kGraphId fuel members w = Ok members' w'
    ∧ graph_factory_ members' = Some factory
    ∧ (∀ i, GetElementData (pools w' kGraphId) i
            = fixed_record factory <$> GetElementData (pools w kGraphId) i)
    ∧ (∀ e, GraphComponent_ExportRawData kUnused kGraphId e w'
            = GraphComponent_ExportRawData kUnused kGraphId e w)
    ∧ pool_shape (pools w' kGraphId) = pool_shape (pools w kGraphId)
    ∧ (∀ c, c ≠ kGraphId → pools w' c = pools w c)
    ∧ entities w' = entities w
    ∧ graph_entity_ members'
      = match list.last (order (pools w kGraphId)) with
        | Some x => GetElementData (pools w kGraphId) x ≫= entity
        | None => graph_entity_ members
        end.
Proof.
  intros Hfactory [(xs & fs & Hrep) Hown] Htyped Hfuel0.
  pose proof (represents_order _ _ _ Hrep) as Horder.
  unfold component_data_ in *.
  assert (length xs ≤ fuel) as Hfuel.
  { unfold active_count in Hfuel0. by rewrite Horder in Hfuel0. }
  destruct (PostLoadLoop_spec factory xs [] fs fuel w members Hfactory
              Hrep Hown Htyped Hfuel)
    as (w' & members' & Hloop & Hfactory' & Hdone & Hkept & Hshape
        & Hpools & Hents & Haux & Htrace & Hlast).
  assert (∀ i, GetElementData (pools w' kGraphId) i
               = fixed_record factory
                   <$> GetElementData (pools w kGraphId) i) as Hall.
  { intros i.
    destruct (GetElementData (pools w kGraphId) i) as [cd|] eqn:Hcd.
    - apply Hdone; [|done]. apply (represents_used _ _ _ _ Hrep).
      by rewrite Hcd.
    - rewrite Hkept; [done|]. intros Hi.
      apply (represents_used _ _ _ _ Hrep) in Hi as [cd Hcd'].
      congruence. }
  exists w', members'. split.
  { unfold PostLoadFixup, mbind, M_bind, get_world, pool_begin.
    unfold component_data_.
    by rewrite (rep_first _ _ _ Hrep). }
  split; [done|]. split; [done|].
  split.
  { intros e. unfold GraphComponent_ExportRawData.
    rewrite !GetComponentData_alt, Hents.
    destruct (decide (entities w e kGraphId = kUnused)); [done|].
    unfold read, component_data_. rewrite Hall.
    destruct (GetElementData (pools w kGraphId) (entities w e kGraphId))
      as [cd|] eqn:Hcd; [|done].
    cbn [fmap option_fmap option_map mbind option_bind].
    rewrite Hall, Hcd. cbn [fmap option_fmap option_map mbind option_bind].
    destruct (Htyped _ cd Hcd) as [d Hd].
    unfold fixed_record. cbn [data]. rewrite Hd. cbn [as_graph graphs].
    by rewrite length_fmap, filename_fixed_graph. }
  split; [done|]. split; [done|]. split; [done|].
  by rewrite Horder.
Qed.
(** X18: [EntityPostLoadFixup] before [Init()] has set the graph
    factory.  For an entity with graph data but no graph it returns,
    with [graph_entity_] set to the entity and every record as it was;
    for an entity with a graph it dereferences the null factory. *)
Theorem EntityPostLoadFixup_without_factory members e i cd d w :
  graph_factory_ members = None →
  registered_at kUnused kGraphId e i w →
  GetElementData (pools w kGraphId) i = Some cd →
  data cd = GraphPayload d →
  (graphs d = [] →
   ∃ w',
     EntityPostLoadFixup kUnused kGraphId members e w
     = Ok (mkGraphMembers None (Some e)) w'
     ∧ (∀ c j, GetElementData (pools w' c) j = GetElementData (pools w c) j)
     ∧ entities w' = entities w)
  ∧ (graphs d ≠ [] →
     EntityPostLoadFixup kUnused kGraphId members e w = Err NullPointer).
Proof.
  intros Hfactory Hreg Hcd Hd.
  assert (EntityPostLoadFixup kUnused kGraphId members e w
          = match fixup_graphs None (graphs d) with
            | None => Err NullPointer
            | Some graphs' =>
                match write kGraphId (Some i)
                        (λ _, GraphPayload (mkGraphData graphs')) w with
                | Ok _ w' => Ok (mkGraphMembers None (Some e)) w'
                | Err f => Err f
                end
            end) as ->.
  { unfold EntityPostLoadFixup, mbind, M_bind, get_world, Data.
    unfold LibraryState in *.
    rewrite (registered_at_read kUnused _ _ _ _ Hreg).
    unfold read, component_data_. cbn [mbind option_bind].
    unfold LibraryState in *. rewrite Hcd.
    cbn [fmap option_fmap option_map].
    rewrite Hd. cbn [as_graph mbind option_bind]. rewrite Hfactory.
    by destruct (fixup_graphs None (graphs d)). }
  split.
  - intros Hnone. rewrite Hnone. cbn [fixup_graphs].
    destruct (write_live kGraphId i (λ _, GraphPayload (mkGraphData []))
                w cd Hcd)
      as (w' & Hwrite & Hget & Hother & _ & Hpools & Hents & _).
    unfold LibraryState in *. rewrite Hwrite.
    exists w'. split; [done|]. split; [|done].
    intros c j. destruct (decide (c = kGraphId)) as [->|Hc];
      [|by rewrite Hpools].
    destruct (decide (j = i)) as [->|Hj]; [|by apply Hother].
    rewrite Hget, Hcd. destruct cd as [owner x]. simpl in *. subst x.
    destruct d as [l]. simpl in *. by subst l.
  - intros Hsome. by destruct (graphs d).
Qed.
End PostLoad.

(** * Adding and removing again *)

Section AddRemove.
Context {T Aux : Type}.
Variable kUnused : ComponentIndex.
Implicit Types (w : @World T Aux) (e : EntityRef) (c : ComponentId).

(** X17: in a sound component that overrides neither hook, [AddEntity]
    for an entity that is not registered, at the front or at the back,
    followed by [RemoveEntity] for it, both return, and afterwards the
    component is as it was: the same entities in the same iteration
    order, the same records, the same index entries, the entity
    unregistered again.  The other components are untouched. *)
Theorem AddEntity_RemoveEntity_restores c (d : T) e loc w :
  component_ok kUnused c w →
  Size (pools w c) < kUnused →
  IsRegisteredForComponent kUnused (entities w e) c = false →
  ∃ i w1 w2,
    AddEntity kUnused (BaseComponent c d) e loc w = Ok (Some i) w1
    ∧ registered_at kUnused c e i w1
    ∧ RemoveEntity kUnused (BaseComponent c d) e w1 = Ok tt w2
    ∧ order (pools w2 c) = order (pools w c)
    ∧ (∀ j, GetElementData (pools w2 c) j = GetElementData (pools w c) j)
    ∧ (∀ e' c', entities w2 e' c' = entities w e' c')
    ∧ (∀ c', c' ≠ c → pools w2 c' = pools w c')
    ∧ aux w2 = aux w
    ∧ component_ok kUnused c w2.
Proof.
  intros [(xs & fs & Hrep) Hown] Hsize Hunreg.
  destruct (AddEntity_fresh kUnused (BaseComponent c d) e loc w xs fs
              Hrep Hunreg Hsize)
    as (i & w1 & Hadd & _ & Hi_xs & Hreg1 & Hrep1 & Hget1 & Hother1
        & Hpools1 & Hents1 & Haux1 & _).
  cbn [GetComponentId BaseComponent] in *.
  assert (component_ok kUnused c w1) as [_ Hown1].
  { pose proof (component_ok_AddEntity kUnused c d e loc w
                  (conj (ex_intro _ xs (ex_intro _ fs Hrep)) Hown) Hsize)
      as Hok.
    unfold run_world in Hok. by rewrite Hadd in Hok. }
  set (w1' := entering_cleanup (BaseComponent c d) e w1).
  assert (∃ xs1 xs2, xs1 ++ xs2 = xs
                     ∧ represents (pools w1' c) (xs1 ++ i :: xs2) (tail fs))
    as (xs1 & xs2 & Hxs & Hrep1').
  { destruct loc.
    - exists [], xs. by split.
    - exists xs, []. split; [by rewrite app_nil_r|done]. }
  destruct (unregistered_spec kUnused (BaseComponent c d) e xs1 i xs2
              (tail fs) w1' Hrep1' Hown1 Hreg1)
    as (Hrep2 & Hown2 & Hgone & Hother2 & Hidx2 & Hidx2').
  cbn [GetComponentId BaseComponent] in *.
  assert (GetComponentDataIndex c e w1' = i) as Hidx1
    by (by destruct Hreg1).
  set (w2 := unregistered kUnused (BaseComponent c d) e i w1') in *.
  exists i, w1, w2. split; [done|]. split; [done|].
  split.
  { rewrite (RemoveEntity_unfold kUnused (BaseComponent c d) e w1 w1' eq_refl).
    cbn [GetComponentId BaseComponent]. by rewrite Hidx1. }
  assert (GetElementData (pools w c) i = None) as Hnew.
  { destruct (GetElementData (pools w c) i) eqn:Hold; [|done].
    exfalso. apply Hi_xs. apply (represents_used _ _ _ _ Hrep).
    unfold component_data_. by rewrite Hold. }
  unfold component_data_ in *.
  split.
  { rewrite (represents_order _ _ _ Hrep2), (represents_order _ _ _ Hrep).
    done. }
  split.
  { intros j. destruct (decide (j = i)) as [->|Hj]; [congruence|].
    rewrite Hother2 by done. by apply Hother1. }
  split.
  { intros e' c'. unfold w2, unregistered. simpl.
    unfold insert, fn_insert.
    unfold IsRegisteredForComponent in Hunreg.
    apply bool_decide_eq_false in Hunreg.
    destruct (decide (e = e')) as [<-|He'].
    - destruct (decide (c = c')) as [<-|Hc'].
      + destruct (decide (entities w e c = kUnused)) as [->|Hne];
          [done|by destruct Hunreg].
      + apply Hents1. congruence.
    - apply Hents1. congruence. }
  split.
  { intros c' Hc'. unfold w2, unregistered. simpl.
    rewrite fn_lookup_insert_ne by done. by apply Hpools1. }
  split; [done|].
  split; [by eexists _, _|done].
Qed.
End AddRemove.

(** ** The further properties at work on the small worlds *)

(** In [physics_world] the entity 10 has the first record of the physics
    component and the first record of the transform component. *)
Lemma physics_world_transform : registered_at 99 0 10 0 physics_world.
Proof. split; [by vm_compute|]. split; [lia|by vm_compute]. Qed.

Lemma physics_world_sound : physics_sound 1 physics_world.
Proof.
  pose proof (ks_PhysicsComponent_AddFromRawData 99 0 1 ltac:(lia) 10
                physics_blob (empty_world 99 None)
                (physics_sound_empty 99 1 None)) as H.
  unfold physics_world, run_world.
  destruct (PhysicsComponent_AddFromRawData 99 0 1 10 physics_blob
              (empty_world 99 None)) as [[] w'|f].
  - by destruct H.
  - apply physics_sound_empty.
Qed.

Lemma physics_world_record :
  ∃ cd d, GetElementData (pools physics_world 1) 0 = Some cd
          ∧ entity cd = Some 10
          ∧ data cd = PhysicsPayload d ∧ sound d.
Proof.
  destruct (registered_at_record 99 1 10 0 physics_world
              physics_world_registered) as (cd & Hcd & Hentity).
  destruct (physics_world_sound 0 cd Hcd) as (d & Hd & Hsound).
  exists cd, d. split; [exact Hcd|]. split; [exact Hentity|].
  split; [exact Hd|exact Hsound].
Qed.

Lemma physics_world_ok : component_ok 99 1 physics_world.
Proof.
  split.
  - destruct (PhysicsComponent_AddFromRawData_fresh 99 0 1 10 physics_blob
                (empty_world 99 None) ltac:(lia)
                (fresh_for_empty 99 1 10 _ ltac:(lia))
                (or_intror (fresh_for_empty 99 0 10 _ ltac:(lia)))
                physics_blob_loadable)
      as (i & w' & Hadd & _ & _ & _ & Hkept).
    unfold physics_world, run_world, component_data_.
    unfold LibraryState in *. rewrite Hadd.
    apply Hkept, pool_wf_empty.
  - intros [|i] cd Hcd; [|by vm_compute in Hcd].
    exists 10. split; [|exact physics_world_registered].
    vm_compute in Hcd. by injection Hcd as <-.
Qed.

Lemma EnablePhysics_DisablePhysics_witness :
  ∃ w1 w2,
    EnablePhysics 99 1 10 physics_world = Ok tt w1
    ∧ only_touches 10 physics_world w1
    ∧ EnablePhysics 99 1 10 w1 = Ok tt w1
    ∧ DisablePhysics 99 1 10 w1 = Ok tt w2
    ∧ only_touches 10 physics_world w2
    ∧ DisablePhysics 99 1 10 w2 = Ok tt w2.
Proof.
  destruct physics_world_record as (cd & d & Hcd & _ & Hd & Hin & Hall & _).
  destruct (EnablePhysics_DisablePhysics 99 1 10 0 cd d physics_world
              physics_world_registered Hcd Hd Hin)
    as (w1 & w2 & H1 & _ & H2 & H3 & H4 & _ & H5 & H6).
  { eapply Forall_impl; [exact Hall|]. by intros rb [_ ?]. }
  exists w1, w2. split; [exact H1|]. split; [exact H2|]. split; [exact H3|].
  split; [exact H4|]. split; [exact H5|exact H6].
Defined.

Lemma physics_calls_on_unregistered_witness :
  EnablePhysics 99 1 11 physics_world = Err NullPointer
  ∧ DisablePhysics 99 1 11 physics_world = Err NullPointer
  ∧ GenerateRaycastShape 99 0 1 32 no_corners 11 true physics_world
    = Err NullPointer
  ∧ RemoveEntity 99 (PhysicsComponent 99 0 1) 11 physics_world
    = Err NullPointer
  ∧ UpdatePhysicsFromTransform 99 0 1 11 physics_world = Ok tt physics_world
  ∧ PhysicsComponent_ExportRawData 99 1 64 ideal_bullet 11 physics_world
    = Ok None physics_world.
Proof.
  apply (physics_calls_on_unregistered 99 0 1 32 64 ideal_bullet no_corners
           11 true physics_world).
  by vm_compute.
Defined.

(** The world [physics_world] after a raycast shape that is not to be
    exported has been generated for the entity 10. *)
Definition raycast_world : @World Payload LibraryState :=
  run_world (GenerateRaycastShape 99 0 1 32 no_corners 10 false)
    physics_world.

Lemma GenerateRaycastShape_appends_once_witness :
  ∃ w' d',
    GenerateRaycastShape 99 0 1 32 no_corners 10 true physics_world
    = Ok tt w'
    ∧ data <$> GetElementData (pools w' 1) 0 = Some (PhysicsPayload d')
    ∧ body_count d' = 3%Z
    ∧ enabled d' = true
    ∧ in_bounds d'
    ∧ only_touches 10 physics_world w'
    ∧ ∀ again,
        GenerateRaycastShape 99 0 1 32 no_corners 10 again w' = Ok tt w'.
Proof.
  destruct physics_world_record as (cd & d & Hcd & _ & Hd & Hin & _).
  destruct (GenerateRaycastShape_appends_once 99 0 1 32 no_corners 10 0 cd
              d true
              physics_world physics_world_registered Hcd Hd Hin)
    as [_ Happend].
  { eexists. vm_compute. reflexivity. }
  assert (body_count d = 2%Z ∧ collides_with_raycast 32 d = false)
    as [Hcount Hmask].
  { vm_compute in Hcd. injection Hcd as <-. injection Hd as <-.
    by vm_compute. }
  destruct Happend
    as (w' & d' & rb & Hgen & Hrec & _ & _ & Hcount' & Hen & Hin' & Htouch
        & Hagain).
  { rewrite Hcount. by vm_compute. }
  { exact Hmask. }
  exists w', d'. split; [exact Hgen|]. split; [by rewrite Hrec|].
  split; [by rewrite Hcount', Hcount|]. split; [exact Hen|].
  split; [exact Hin'|]. split; [exact Htouch|]. apply Hagain. lia.
Defined.

Lemma GenerateRaycastShape_not_exported_witness :
  PhysicsComponent_ExportRawData 99 1 64 ideal_bullet 10 raycast_world
  = Ok (Some physics_blob) raycast_world.
Proof.
  destruct physics_world_record as (cd & d & Hcd & _ & Hd & Hin & _).
  refine (eq_trans
            (GenerateRaycastShape_not_exported 99 0 1 32 64 ideal_bullet
               no_corners 10 0 cd d physics_world raycast_world
               physics_world_registered Hcd Hd Hin _) _).
  - by vm_compute.
  - by vm_compute.
Defined.

(** A blob whose only shape is a box with its table, but without the
    vector of its half extents. *)
Definition box_without_extents : PhysicsDef :=
  mkPhysicsDef true
    (Some [mkBulletShapeDef (Data_Box (Some (mkBulletBoxDef None)))
             float_one float_zero None 1 None None]).

Lemma AddFromRawData_loads_shapes_witness :
  (∃ w' d rb,
     PhysicsComponent_AddFromRawData 99 0 1 10 physics_blob
       (empty_world 99 None) = Ok tt w'
     ∧ data_of 99 1 10 w' = Some (PhysicsPayload d)
     ∧ sound d
     ∧ enabled d = true
     ∧ body_count d = 2%Z
     ∧ bodies_of d !! 0 = Some rb
     ∧ offset rb = kZeros3f
     ∧ collision_type rb = 1%Z
     ∧ collides_with rb = 6%Z
     ∧ shape rb = Some (btBoxShape kOnes3f)
     ∧ rigid_body rb
       = Some (mkbtRigidBody float_two (Some float_half) false)
     ∧ should_export rb = true
     ∧ user_tag rb = "crate"%string)
  ∧ PhysicsComponent_AddFromRawData 99 0 1 10 box_without_extents
      (empty_world 99 None) = Err NullPointer.
Proof.
  split.
  - destruct (proj1 (AddFromRawData_loads_shapes 99 0 1 10 physics_blob
                       (empty_world 99 None) ltac:(lia)
                       (fresh_for_empty 99 1 10 _ ltac:(lia))
                       (or_intror (fresh_for_empty 99 0 10 _ ltac:(lia))))
                physics_blob_loadable)
      as (w' & d & Hadd & Hdata & Hsound & Hen & Hcount & Hbodies & _).
    destruct (lookup_lt_is_Some_2 (bodies_of d) 0) as [rb Hrb].
    { unfold bodies_of. rewrite length_take.
      destruct Hsound as ([_ Hlen] & _). rewrite Hlen, Hcount.
      vm_compute. lia. }
    destruct (proj1 (Hbodies 0 rb) Hrb)
      as (shape_def & Hdef & _ & Hoff & Htype & Hmask & _ & Hshape & Hbody
          & Hexp & Htag).
    injection Hdef as <-.
    exists w', d, rb. split; [exact Hadd|]. split; [exact Hdata|].
    split; [exact Hsound|]. split; [exact Hen|]. split; [exact Hcount|].
    split; [exact Hrb|]. split; [exact Hoff|]. split; [exact Htype|].
    split; [exact Hmask|]. split; [exact Hshape|]. split; [exact Hbody|].
    split; [exact Hexp|exact Htag].
  - apply (proj2 (AddFromRawData_loads_shapes 99 0 1 10 box_without_extents
                    (empty_world 99 None) ltac:(lia)
                    (fresh_for_empty 99 1 10 _ ltac:(lia))
                    (or_intror (fresh_for_empty 99 0 10 _ ltac:(lia))))).
    intros Hall.
    apply Forall_cons_1 in Hall as [(box_data & [= <-] & [? Hnone]) _].
    discriminate Hnone.
Defined.

Lemma collision_layers_round_trip_witness :
  ∃ layers,
    collision_layers 64 16 1 6 = Some layers
    ∧ NoDup layers
    ∧ ∀ x, x ∈ layers ↔
           ∃ j : nat, x = (2 ^ Z.of_nat j)%Z ∧ (x < to_short 64)%Z
                      ∧ Z.testbit 6 (Z.of_nat j) = true.
Proof.
  destruct (collision_layers_round_trip 64 ltac:(by vm_compute) 6)
    as (layers & Hlayers & Hnodup & Hin & _).
  exists layers. split; [exact Hlayers|]. split; [exact Hnodup|exact Hin].
Defined.

Lemma ExportRawData_marked_bodies_witness :
  PhysicsComponent_ExportRawData 99 1 64 ideal_bullet 10 physics_world
  = Ok (Some physics_blob) physics_world.
Proof.
  destruct physics_world_record as (cd & d & Hcd & _ & Hd & Hsound).
  refine (eq_trans
            (ExportRawData_marked_bodies 99 1 64 ideal_bullet
               ltac:(by vm_compute) 10 0 cd d physics_world
               physics_world_registered Hcd Hd Hsound)
            _).
  vm_compute in Hcd. injection Hcd as <-. injection Hd as <-.
  by vm_compute.
Defined.

Lemma seven_shapes_loadable : shapes_loadable seven_shapes.
Proof. repeat constructor; by eexists. Qed.

Lemma AddFromRawData_over_registered_witness :
  ∃ w' d' rb',
    PhysicsComponent_AddFromRawData 99 0 1 10 seven_shapes physics_world
    = Ok tt w'
    ∧ registered_at 99 1 10 0 w'
    ∧ data <$> GetElementData (pools w' 1) 0 = Some (PhysicsPayload d')
    ∧ pool_shape (pools w' 1) = pool_shape (pools physics_world 1)
    ∧ sound d'
    ∧ enabled d' = true
    ∧ body_count d' = kMaxPhysicsBodies
    ∧ rigid_bodies d' !! 0 = Some rb'
    ∧ shape rb' = Some (btBoxShape kOnes3f)
    ∧ rigid_body rb' = Some (mkbtRigidBody float_one (Some float_zero) false)
    ∧ collides_with rb' = 2%Z
    ∧ user_tag rb' = "crate"%string
    ∧ only_touches 10 physics_world w'.
Proof.
  destruct (proj1 (AddFromRawData_over_registered 99 0 1 10 0 0 _
                     (imported physics_blob) seven_shapes
                     physics_world physics_world_registered
                     physics_world_transform physics_world_data eq_refl
                     (imported_sound physics_blob physics_blob_loadable))
              seven_shapes_loadable)
    as (w' & d' & Hadd & Hreg & Hrec & Hshape & Hsound' & Hen & _
        & Hsome & Htouch).
  destruct Hsome as (Hcount & _ & Hloaded & _); [by vm_compute|].
  destruct (Hloaded 0) as (shape_def & old & rb' & Hdef & Hold & Hrb' & Hfrom).
  { rewrite Hcount. vm_compute. lia. }
  injection Hdef as <-. injection Hold as <-.
  destruct Hfrom as (_ & _ & Hmask & _ & Hs & Hbody & _ & Htag).
  exists w', d', rb'. split; [exact Hadd|]. split; [exact Hreg|].
  split; [by rewrite Hrec|]. split; [exact Hshape|].
  split; [exact Hsound'|]. split; [exact Hen|].
  split; [rewrite Hcount; by vm_compute|]. split; [exact Hrb'|].
  split; [exact Hs|]. split; [exact Hbody|]. split; [exact Hmask|].
  split; [exact Htag|exact Htouch].
Defined.

Lemma physics_records_stay_sound_witness :
  ∃ w',
    run_ops 99 0 1 32 no_corners physics_session (empty_world 99 None)
    = Ok tt w'
    ∧ physics_sound 1 w'
    ∧ ∀ e, ∃ physics_def,
        PhysicsComponent_ExportRawData 99 1 64 ideal_bullet e w'
        = Ok physics_def w'.
Proof.
  destruct (physics_records_stay_sound 99 0 1 32 64 ideal_bullet no_corners
              ltac:(lia) ltac:(by vm_compute)) as (Hempty & Hrun & Hexport).
  specialize (Hrun physics_session (empty_world 99 None) (Hempty None)).
  destruct (run_ops 99 0 1 32 no_corners physics_session
              (empty_world 99 None))
    as [[] w'|f] eqn:Hops; [|by vm_compute in Hops].
  exists w'. split; [reflexivity|]. split; [exact Hrun|].
  intros e. exact (Hexport e w' Hrun).
Defined.

Lemma PhysicsComponent_ClearComponentData_witness :
  ∃ w',
    ClearComponentData 99 (PhysicsComponent 99 0 1) 1 physics_world
    = Ok tt w'
    ∧ active_count (pools w' 1) = 0
    ∧ IsRegisteredForComponent 99 (entities w' 10) 1 = false
    ∧ registered_at 99 0 10 0 w'
    ∧ component_ok 99 1 w'.
Proof.
  destruct (PhysicsComponent_ClearComponentData 99 0 1 ltac:(lia) 1
              physics_world physics_world_sound physics_world_ok
              ltac:(vm_compute; lia))
    as (w' & Hclear & Hcount & _ & Hunreg & _ & _ & Htransform & Hok).
  exists w'. split; [exact Hclear|]. split; [exact Hcount|].
  split; [exact (Hunreg 10 0 physics_world_registered)|].
  split; [exact (Htransform 10 0 physics_world_transform)|exact Hok].
Defined.

Lemma PhysicsComponent_RemoveEntity_witness :
  ∃ w',
    RemoveEntity 99 (PhysicsComponent 99 0 1) 10 physics_world = Ok tt w'
    ∧ IsRegisteredForComponent 99 (entities w' 10) 1 = false
    ∧ GetComponentData 99 1 10 w' = None
    ∧ physics_sound 1 w'
    ∧ registered_at 99 0 10 0 w'.
Proof.
  destruct (PhysicsComponent_RemoveEntity 99 0 1 ltac:(lia) 10 0
              physics_world physics_world_sound physics_world_registered)
    as (w' & Hremove & Hunreg & Hnull & Hsound & _ & _ & Htransform).
  exists w'. split; [exact Hremove|]. split; [exact Hunreg|].
  split; [exact Hnull|]. split; [exact Hsound|].
  exact (Htransform 0 physics_world_transform).
Defined.

Lemma RenderMesh_import_then_export_witness :
  ∃ w' exported,
    RenderMeshComponent_AddFromRawData 99 0 2 3 0 false 11 mesh_blob
      mesh_world = Ok tt w'
    ∧ RenderMeshComponent_ExportRawData 99 2 3 11 w' = Some exported
    ∧ def_source_file exported = Some "crate.fplmesh"%string
    ∧ def_shader exported = Some "textured_lit"%string
    ∧ def_ignore_culling exported = true
    ∧ def_render_pass exported = Some [0; 2].
Proof.
  destruct (RenderMesh_import_then_export 99 0 2 3 0 false 11 mesh_blob
              mesh_world every_asset "crate.fplmesh"%string "textured_lit"%string
              ltac:(lia)
              (mesh_world_fresh 2 (or_intror eq_refl))
              (mesh_world_fresh 0 (or_introl eq_refl))
              ltac:(by vm_compute) eq_refl eq_refl
              ltac:(by eexists) ltac:(by eexists))
    as (w' & Hadd & _ & Hexport).
  { intros passes [= <-]. repeat constructor. }
  destruct Hexport as (exported & Hexp & Hsrc & Hshader & Hcull & Hpass);
    [discriminate|discriminate|].
  exists w', exported. split; [exact Hadd|]. split; [exact Hexp|].
  split; [exact Hsrc|]. split; [exact Hshader|]. split; [exact Hcull|].
  rewrite Hpass. by vm_compute.
Defined.

(** In [graph_world] the entity 10 has the first record of the graph
    component, with the two graphs of [graph_blob], not yet loaded. *)
Lemma graph_world_registered : registered_at 99 3 10 0 graph_world.
Proof. split; [by vm_compute|]. split; [lia|by vm_compute]. Qed.

Lemma graph_world_ok : component_ok 99 3 graph_world.
Proof.
  split.
  - destruct (GraphComponent_AddFromRawData_fresh 99 3 10 graph_blob
                (empty_world 99 None)
                (fresh_for_empty 99 3 10 None ltac:(lia)))
      as (i & w' & Hadd & _ & _ & _ & Hkept).
    unfold graph_world, run_world, component_data_.
    unfold LibraryState in *. rewrite Hadd.
    apply Hkept, pool_wf_empty.
  - intros [|i] cd Hcd; [|by vm_compute in Hcd].
    exists 10. split; [|exact graph_world_registered].
    vm_compute in Hcd. by injection Hcd as <-.
Qed.

Lemma graph_world_typed : graph_typed 3 graph_world.
Proof.
  intros [|i] cd Hcd; [|by vm_compute in Hcd].
  vm_compute in Hcd. injection Hcd as <-. by eexists.
Qed.

(** A graph factory that finds the patrol graph and nothing else. *)
Definition patrol_only : GraphFactory :=
  mkGraphFactory
    (λ name, if String.eqb name "patrol.bbgraph" then Some name else None).

Lemma GetCreateBroadcaster_registers_once_witness :
  GetCreateBroadcaster 99 3 10 graph_world = Ok (Some 0) graph_world
  ∧ ∃ i w',
      GetCreateBroadcaster 99 3 11 graph_world = Ok (Some i) w'
      ∧ registered_at 99 3 11 i w'
      ∧ data_of 99 3 11 w' = Some (GraphPayload GraphData_new)
      ∧ only_touches 11 graph_world w'
      ∧ GetCreateBroadcaster 99 3 11 w' = Ok (Some i) w'.
Proof.
  split.
  - exact (proj1 (GetCreateBroadcaster_registers_once 99 3 10 graph_world)
             0 graph_world_registered).
  - exact (proj2 (GetCreateBroadcaster_registers_once 99 3 11 graph_world)
             graph_world_fresh).
Defined.

Lemma Graph_AddFromRawData_replaces_witness :
  ∃ w',
    GraphComponent_AddFromRawData 99 3 10
      (mkGraphDef (Some ["alarm.bbgraph"%string])) graph_world = Ok tt w'
    ∧ registered_at 99 3 10 0 w'
    ∧ data_of 99 3 10 w'
      = Some (GraphPayload
                (mkGraphData
                   [mkSerializableGraphState "alarm.bbgraph" false]))
    ∧ GraphComponent_ExportRawData 99 3 10 w'
      = Some (mkGraphDef (Some ["alarm.bbgraph"%string]))
    ∧ pool_shape (pools w' 3) = pool_shape (pools graph_world 3)
    ∧ only_touches 10 graph_world w'.
Proof.
  destruct (registered_at_record 99 3 10 0 graph_world
              graph_world_registered) as (cd & Hcd & _).
  destruct (graph_world_typed 0 cd Hcd) as (d & Hd).
  destruct (Graph_AddFromRawData_replaces 99 3 10
              (mkGraphDef (Some ["alarm.bbgraph"%string])) graph_world)
    as (i & w' & Hadd & Hreg & Hdata & Hexport & Hsame & Htouch).
  { right. exists 0, cd, d. split; [exact graph_world_registered|].
    split; [exact Hcd|exact Hd]. }
  destruct (Hsame 0 graph_world_registered) as [-> Hshape].
  exists w'. split; [exact Hadd|]. split; [exact Hreg|].
  split; [exact Hdata|]. split; [exact Hexport|].
  split; [exact Hshape|exact Htouch].
Defined.

Lemma PostLoadFixup_loads_graphs_witness :
  ∃ w' members',
    PostLoadFixup 99 3 1 (mkGraphMembers (Some patrol_only) None)
      graph_world = Ok members' w'
    ∧ graph_factory_ members' = Some patrol_only
    ∧ graph_entity_ members' = Some 10
    ∧ data <$> GetElementData (pools w' 3) 0
      = Some (GraphPayload
                (mkGraphData
                   [mkSerializableGraphState "patrol.bbgraph" true;
                    mkSerializableGraphState "door.bbgraph" false]))
    ∧ GraphComponent_ExportRawData 99 3 10 w' = Some graph_blob
    ∧ entities w' = entities graph_world.
Proof.
  destruct (PostLoadFixup_loads_graphs 99 3 patrol_only 1
              (mkGraphMembers (Some patrol_only) None) graph_world eq_refl
              graph_world_ok graph_world_typed ltac:(vm_compute; lia))
    as (w' & members' & Hfix & Hfactory & Hrec & Hexport & _ & _ & Hent
        & Hlast).
  exists w', members'. split; [exact Hfix|]. split; [exact Hfactory|].
  split; [rewrite Hlast; by vm_compute|].
  split; [rewrite Hrec; by vm_compute|].
  split; [rewrite Hexport; by vm_compute|exact Hent].
Defined.

Lemma RenderMesh_AddFromRawData_over_registered_witness :
  ∃ w' d',
    RenderMeshComponent_AddFromRawData 99 0 2 3 0 false 10
      (mkRenderMeshDef (Some "barrel.fplmesh"%string)
         (Some "textured"%string) None false true) mesh_world = Ok tt w'
    ∧ registered_at 99 2 10 0 w'
    ∧ data <$> GetElementData (pools w' 2) 0 = Some (RenderMeshPayload d')
    ∧ mesh_filename d' = "barrel.fplmesh"%string
    ∧ shader_filename d' = "textured"%string
    ∧ currently_hidden d' = true
    ∧ pass_mask d' = 1%Z
    ∧ pool_shape (pools w' 2) = pool_shape (pools mesh_world 2)
    ∧ entities w' = entities mesh_world.
Proof.
  assert (registered_at 99 2 10 0 mesh_world) as Hregistered.
  { split; [by vm_compute|]. split; [lia|by vm_compute]. }
  destruct (registered_at_record 99 2 10 0 mesh_world Hregistered)
    as (cd & Hcd & _).
  assert (∃ d, data cd = RenderMeshPayload d) as [d Hd].
  { vm_compute in Hcd. injection Hcd as <-. by eexists. }
  destruct (RenderMesh_AddFromRawData_over_registered 99 0 2 3 0 false 10 0
              cd d
              (mkRenderMeshDef (Some "barrel.fplmesh"%string)
                 (Some "textured"%string) None false true) mesh_world
              every_asset "barrel.fplmesh"%string "textured"%string
              Hregistered Hcd Hd ltac:(by vm_compute) eq_refl eq_refl
              ltac:(by eexists) ltac:(by eexists))
    as (w' & d' & Hadd & Hreg & Hrec & Hmesh & Hshader & _ & _ & _ & Hhid
        & _ & Hmask & Hshape & _ & Hent & _).
  { intros passes [=]. }
  exists w', d'. split; [exact Hadd|]. split; [exact Hreg|].
  split; [by rewrite Hrec|]. split; [exact Hmesh|]. split; [exact Hshader|].
  split; [exact Hhid|]. split; [exact Hmask|]. split; [exact Hshape|].
  exact Hent.
Defined.

Lemma AddEntity_RemoveEntity_restores_witness :
  ∃ i w1 w2,
    AddEntity 99 plain 13 kAddToFront three_entities = Ok (Some i) w1
    ∧ registered_at 99 plain 13 i w1
    ∧ RemoveEntity 99 plain 13 w1 = Ok tt w2
    ∧ order (pools w2 plain) = order (pools three_entities plain)
    ∧ (∀ j, GetElementData (pools w2 plain) j
            = GetElementData (pools three_entities plain) j)
    ∧ (∀ e' c', entities w2 e' c' = entities three_entities e' c')
    ∧ component_ok 99 plain w2.
Proof.
  destruct (AddEntity_RemoveEntity_restores 99 0 0 13 kAddToFront
              three_entities three_entities_ok ltac:(vm_compute; lia)
              ltac:(by vm_compute))
    as (i & w1 & w2 & Hadd & Hreg & Hremove & Horder & Hrec & Hent & _ & _
        & Hok).
  exists i, w1, w2. split; [exact Hadd|]. split; [exact Hreg|].
  split; [exact Hremove|]. split; [exact Horder|]. split; [exact Hrec|].
  split; [exact Hent|exact Hok].
Defined.

Lemma EntityPostLoadFixup_without_factory_witness :
  EntityPostLoadFixup 99 3 (mkGraphMembers None None) 10 graph_world
  = Err NullPointer.
Proof.
  destruct (registered_at_record 99 3 10 0 graph_world
              graph_world_registered) as (cd & Hcd & _).
  destruct (graph_world_typed 0 cd Hcd) as (d & Hd).
  apply (EntityPostLoadFixup_without_factory 99 3 (mkGraphMembers None None)
           10 0 cd d graph_world eq_refl graph_world_registered Hcd Hd).
  vm_compute in Hcd. injection Hcd as <-. by injection Hd as <-.
Defined.

